(* ===== verification/_CoqProject ===== *)
-Q . S2P
Prelude.v
Json.v
Double.v
Text.v
Storage.v
FirmwareStores.v
Boot.v
Startup.v
EventBus.v
Power.v
Connectivity.v
Http.v
HttpServer.v
Threads.v
Tasks.v
Auth.v
Logger.v
WebSocket.v
Ui.v
Wifi.v
WifiRetry.v
WifiApproval.v
Weather.v
Harmony.v
Dashboard.v
Routes.v
KodiJson.v
KodiTypes.v
Backends.v
Kodi.v
KodiInvariant.v
KodiProtocol.v
KodiTyped.v
Api.v
Panels.v
Display.v
Battery.v
Clock.v
HarmonyScreens.v
KodiScreens.v
KodiPlayback.v
KodiBrowse.v
