(* ===== verification/Prelude.v ===== *)
(** * HomeDeck: a verification development

    HomeDeck is the firmware of a wall-mounted home controller, with a host build of the
    same code. Its parts and how they meet:

    - [src/src/core/] holds the program's logic: storage and settings, the admin login and
      the Web API's handlers, the event bus, power management, the monitors, the weather
      poll, the connections to a Harmony hub and to Kodi, the logger.
    - [src/src/platform/] holds the interfaces the core is written against (stores, HTTP,
      WebSocket, battery, time) with a host and a firmware implementation of each.
    - [src/src/ui/] holds the LVGL screens, and beside them the decisions behind the
      screens, kept free of LVGL.
    - [src/firmware/main/] starts the parts on the device and gets it on the network.

    Threads meet in four places: the event bus (publishers on any thread, subscribers on
    the UI thread), the HTTP handlers (several server threads over shared services), the
    connection threads (which take commands from the UI's queue), and the Wi-Fi set-up
    (the event loop, the timers' task, the form's server and the UI).

    ** Files

    Shared:
    - [Prelude] (this file): the state monad [M] and its notation, relations a program
      keeps ([related] with its tactic), strings as the C++ code uses them (bytes,
      searches, decimal conversion), machine integers, shared lemmas, tactics, hints.
    - [Tasks] ([platform/firmware/task.cpp], [timer.cpp], [platform/host/timer.cpp], [Start] and
      [Stop] of the modules): the life of a background task or a timer, as steps of its threads,
      over FreeRTOS's semaphores and command queue.
    - [Threads]: programs of several tasks that may be interrupted between any two atomic
      steps, with the rules by which an invariant is proved of them.
    - [Json] ([core/json_request.h]): JSON values; the vendored parser and printer are the
      class [JsonCodec]; the nesting pre-scan is translated and proved exact. [Double]: the
      binary64 numbers of a document, and the bounds on rounding in any binary format.

    Core services:
    - [Text] ([core/url_codec.cpp], [core/host_validation.h], [ui/text_format.cpp]);
      [Storage] ([core/storage.cpp] over an interface of a key-value store, [KvStore] with
      its laws [KvLaws]; the host's files are an instance that keeps them when a close
      succeeds, with every way a write can fail; [close_loses_value] shows a close that fails); [FirmwareStores] ([platform/firmware/nvs_blob_store.cpp] and the three
      stores of the device, over the libraries NVS and FAT); [EventBus] ([core/event_bus.cpp]) as steps of several threads;
      [Power] ([core/power_manager.cpp], the monitors, [core/ota_gate.h]); [Connectivity]
      (backoff, reconnect policy, pending credentials, wake-up, queue); [Logger]
      ([core/logger.cpp]), producers and the consumer as steps.
    - [Weather] ([core/weather_provider.cpp], [core/weather_routes.cpp]): the poll, its
      cache fallback and its thread. [Boot] ([firmware/main/homedeck.cpp],
      [crash_diagnostics.cpp]): NVS at start-up, firmware images, the crash report. [Startup]: the
      steps of [app_main]. [Clock] ([platform/firmware/time_source.cpp], [core/clock.cpp],
      [ui/clock_widget.cpp], [ui/status_bar.cpp]) with the calendar it uses of the C library.
      [Battery] ([platform/firmware/battery_reader.cpp], in binary32) under the monitors of [Power].

    Web:
    - [Http]: the data of [platform/http_server.h]; handlers over a shared state whose
      parts are reached through [Part], the interface between a handler and the services
      it captured. [HttpServer]: the host's and the firmware's server around the handlers,
      reading a body in segments, and the static files; the libraries' choice of a route and
      their requests (civetweb's decoded path, esp_http_server's raw target) are parameters.
    - [Auth] ([core/admin_auth_service.cpp]): the random source and PBKDF2 are parameters.
      [Routes] ([core/settings_routes.cpp], [core/ota_routes.cpp]). [Api]: the remaining
      handlers and the whole route table, as [ui/app_core.cpp] registers it.

    Connections:
    - [WebSocket] ([platform/host/websocket_client.cpp],
      [platform/websocket_message_assembler.h]) over arbitrary outcomes of reads and writes.
    - [Backends]: the HTTP clients and the mDNS browsers of host and device and the device's
      WebSocket client, over what their libraries do and call back.
    - [Harmony] ([core/harmony_connection.cpp]): the whole connection loop over the
      interface [HarmonyEnv] to the network, the clock, the settings and the stop token;
      at each call into it other threads may queue commands or ask for a reconnect.
    - [KodiJson] ([core/kodi_json.cpp]), [KodiTypes] and [Kodi] ([core/kodi_client.cpp]): the
      parsers, the data and discovery, and the connection loop, on the plan of [Harmony].
      [KodiInvariant], [KodiProtocol] and [KodiTyped] hold the theorems about it.
    - [Wifi] ([firmware/main/wifi_setup.cpp], [ui/screens/wifi_setup_screen.cpp]): the events,
      timers and forms as atomic steps of several tasks; [WifiRetry] and [WifiApproval] hold
      the theorems about it.

    Touch UI:
    - [Ui] ([ui/routes.h], [ui/navigation.cpp], [ui/ui_dispatch.cpp]); [Dashboard]: modules
      [Grid], [VirtualList] and [Trackers], the decisions [ui/] keeps free of LVGL; [Display]:
      the texts of [ui/kodi_display.cpp], the tiles and the status bar.
    - [HarmonyScreens] ([ui/screens/devices_screen.cpp], [activities_screen.cpp]) with its
      theorems; [KodiScreens] (the five browse screens, [ui/screen_loader.cpp]): instances of
      one interface [BrowseScreen]; [KodiBrowse]: the laws of that interface ([BrowseLaws]),
      their instances, and the theorems proved from them; [KodiPlayback] (the playback and the
      remote screen, and what the calls of all the Kodi screens put on the client's queues).
    - [Panels] ([ui/notification_banner.cpp], [notification_widget.cpp],
      [core/notification_sound.cpp], [ui/quick_settings_panel.cpp]): notifications as they are
      shown and heard, and the sliders, with the boot that reads what they saved.

    A class of the program is a record of its members; a method is a function on it or a
    program of [M]; a method that releases its lock midway is split there, so that
    theorems over sequences of the parts hold for every interleaving. A screen is the
    visibility, the labels and the lists of its widgets, and LVGL delivers a tap only to what
    is visible on the active screen. Definitions keep the source's names; a helper in lower
    case is a piece of the method it is named after.

    ** What the theorems show

    - Security: [Auth.login_guess_bound] bounds the guesses any interleaving of logins can
      make; [Auth.require_auth_guards] and [Api.api_requires_session]: no handler but the login
      runs without a session; [Auth.session_lifecycle], [Auth.set_then_login];
      [Storage.reserved_key_unreachable] and [Storage.host_keys_contained] keep requests away
      from the password and inside their directory; [WifiApproval.nothing_applied_unseen]: what
      arrives over the open recovery network is applied only after a tap on the device.
    - Staying on the network: [WifiRetry.retry_never_lost]; in its last case, where a failed
      call is only logged, the device may be stranded ([WifiRetry.Sample.recovery_ends_retries]:
      bringing up the recovery network ends an attempt and the radio stays off).
    - Data kept: [Storage.storage_refines_map] (a map from tier, module and key),
      [Routes.SettingsRoutes.backup_restores_settings], [Logger.read_all_sees_logged],
      [Logger.log_stays_bounded], [Weather.outage_keeps_last_reading];
      [FirmwareStores.firmware_store_keeps_cells]: what the device's stores promise, and the two
      cases where they do not keep it (an erase whose namespace cannot be opened, a buffer that
      [fclose] cannot write); [Panels] that a slider's value outlives a reboot and what the display
      and the tones make of it ([released_slider_survives_reboot]);
      [Boot.update_boots_whole_image_or_old], which does not cover a second upload before the
      reboot ([Boot.Sample.second_upload_loses_first]).
    - Untrusted input: [HttpServer.servers_agree] (for the requests and routes its conditions
      name; [servers_differ] is one outside them), [HttpServer.segmentation_is_invisible],
      [WebSocket.receive_any_input_safe], [WebSocket.receive_reassembles],
      [WebSocket.built_frame_is_rfc6455], [Text.parse_form_field_correct],
      [KodiTyped.published_events_typed], [KodiJson.time_object_exact].
    - The connections: [Harmony.harmony_invariant], [Harmony.no_command_lost_silently],
      [Harmony.stop_ends_loop]; [KodiInvariant.kodi_invariant], [KodiInvariant.kodi_stops],
      [KodiProtocol.call_returns_own_reply], [KodiProtocol.listing_is_complete],
      [KodiProtocol.commands_reach_kodi], [KodiProtocol.silent_kodi_dropped],
      [KodiTypes.never_guesses_instance], [Api.saved_hosts_are_reached]; of the clients below
      them [http_clients_agree] (for headers with distinct names and plain values;
      [posts_differ] shows two without), [firmware_socket_delivers_messages] and
      [host_browse_frees_resolvers] in [Backends].
    - Events and power: [EventBus.no_call_after_unsubscribe], [Power.power_state_meaning],
      [Routes.OtaRoutes.one_upload_at_a_time].
    - Time and tasks: [Clock.TimeSource.time_survives_rtc] (with [Clock.ClockUi.bars_show_last_tick]),
      [Tasks.FirmwareTimer.no_callback_after_timer] (with the abort that a semaphore which could
      not be created ends in), [Tasks.FirmwareTask.task_is_joined],
      [Tasks.Lifecycle.one_loop_at_a_time]; [Startup.image_confirmed_when_reachable]: a new image is
      kept exactly when the boot got as far as the web server.
    - The battery: [Battery.Ina226.ReadPercent_in_range]; [Battery.Ina226.monitors_tick_under_load]
      relates what the device reads to the readings [Power] is stated over, and
      [Battery.Ina226.one_tick_makes_a_battery] shows where a missing battery is taken for an empty
      one.
    - The screens: [Dashboard.Grid.dashboard_never_overlaps],
      [Dashboard.VirtualList.list_shows_visible_rows], [Ui.Nav.navigation_shows_last_request];
      of the Harmony screens, that a device offers every command once
      ([device_offers_every_command]), that the hub sees keys pressed, held and released in order
      ([touches_reach_hub_in_order]) and that no message stays for a start that never comes
      ([starting_message_expires]); of the browse screens, that each shows one view and never
      misses a callback ([browse_screens_show_one_view]), that it loads its list whenever it is
      shown beside a connected client ([browse_screens_load_when_shown]), and that what a tap
      plays is what the row and the headings say ([open_episode_is_the_one_played],
      [tapped_file_is_the_one_shown], [tapped_channel_is_the_one_played]);
      [KodiBrowse.songs_of_another_album_are_shown] shows where the music screen fails at
      that, and [KodiPlayback.progress_bar_needs_percentage] where the playback screen's cast
      does; the banner shows the last notification for its time ([banner_shows_latest]) and
      every notification has its tone, none queued ([tone_for_each_notification]).

    ** Bounds and fuel

    Loops that are not structural run on fuel, and each has a theorem that its fuel is
    enough: the placement scan visits at most every declared cell and one more
    ([Grid.scan_fuel], [find_placement_first_fit]); a WebSocket receive consumes a byte of
    the connection per round ([receive_any_input_safe]); the HTTP servers read a body in at
    most its length and 121 more rounds ([HttpServer.reading_always_ends]); the Harmony loop
    returns within two more rounds than the waits left before the stop ([stop_ends_loop]);
    the Kodi loop and the calls in it end within the bound of [kodi_stops], a call that no
    answer reaches by its deadline; a listing takes at most 21 pages ([page_fuel]), as the
    code's limit of items allows no more; 310 digits hold any double ([double_digits]).
    Integers are [Z]; where the code's width matters the wrap is written out ([wrap_s],
    [wrap_u]), and the theorems show it does not happen; an overflow that the source does
    not exclude, [++next_rpc_id_] of the Kodi client, gives an arbitrary [int]
    ([Kodi.increment]).

    ** Not modelled

    LVGL's drawing and layout, civetweb, esp_http_server, libcurl, ESP-IDF, FreeRTOS, the board
    support package, the drivers of the chips and the JSON library are third-party, or only bind
    to third-party code: where the program relies on them they are parameters with laws. So the
    drawing code of [ui/], the audio outputs, [i2c_device.cpp] and the display's brightness are
    left out, and so are the constructor that sets up the battery's chips, the tone that
    [core/notification_sound.cpp] generates, and the simulator's entry point and panels, which
    drive the same components by hand. The two calls that read a blob from NVS see one state, and
    each callback of the device's WebSocket client is one step. *)
From Stdlib Require Export ZArith Ascii String Lia Bool.
From stdpp Require Export base tactics option list strings gmap.

Declare Scope homedeck_scope.
Delimit Scope homedeck_scope with hd.
#[global] Open Scope homedeck_scope.
#[global] Open Scope Z_scope.

(** ** The state monad

    Code that mutates its object is a function from the object's state to a
    result and the state after it. *)

Definition M (S A : Type) : Type := S -> A * S.

Definition ret {S A} (a : A) : M S A := fun s => (a, s).

Definition bind {S A B} (m : M S A) (k : A -> M S B) : M S B :=
  fun s => let '(a, s') := m s in k a s'.

Definition get {S} : M S S := fun s => (s, s).

Definition put {S} (s : S) : M S unit := fun _ => (tt, s).

Definition modify {S} (f : S -> S) : M S unit := fun s => (tt, f s).

Definition gets {S A} (f : S -> A) : M S A := fun s => (f s, s).

Definition exec {S A} (m : M S A) (s : S) : S := (m s).2.

Definition eval {S A} (m : M S A) (s : S) : A := (m s).1.

Notation "'let*' x ':=' m 'in' k" := (bind m (fun x => k))
  (at level 10, x pattern, k at level 200) : homedeck_scope.
Notation "m ';;*' k" := (bind m (fun _ => k))
  (at level 199, right associativity) : homedeck_scope.

(** [m] relates every state to the one it ends in. *)
Definition related {S A} (R : S -> S -> Prop) (m : M S A) : Prop := forall s, R s (exec m s).

Lemma run_bind {S A B} (m : M S A) (k : A -> M S B) s : bind m k s = k (m s).1 (m s).2.
Proof. unfold bind. by destruct (m s). Qed.

Section Related.
Context {S : Type} (R : S -> S -> Prop) `{!PreOrder R}.

Lemma related_bind {A B} (m : M S A) (k : A -> M S B) :
  related R m -> (forall a, related R (k a)) -> related R (bind m k).
Proof. intros Hm Hk s. unfold exec. rewrite run_bind. etrans; [apply Hm|apply Hk]. Qed.

Lemma related_ret {A} (a : A) : related R (ret a).
Proof. intros s. unfold exec. cbn. reflexivity. Qed.

Lemma related_gets {A} (f : S -> A) : related R (gets f).
Proof. intros s. unfold exec. cbn. reflexivity. Qed.
End Related.

(** Splits a program into its steps and closes each with [leaf]. *)
Tactic Notation "related_steps" tactic3(leaf) :=
  repeat first
    [ leaf
    | apply related_ret; exact _ | apply related_gets; exact _
    | apply related_bind; [exact _| |intros ?]
    | match goal with
      | |- related _ (if ?b then _ else _) => destruct b
      | |- related _ (match ?x with _ => _ end) => destruct x
      end ].

(** ** Pre- and postconditions

    [keeps P] relates a state to every state in which [P] still holds, so an invariant of
    a program is [related (keeps P)]; [yields] also speaks of the result. *)
Definition keeps {S} (P : S -> Prop) (s s' : S) : Prop := P s -> P s'.

Definition yields {S A} (P : S -> Prop) (m : M S A) (Q : A -> S -> Prop) : Prop :=
  forall s, P s -> Q (m s).1 (m s).2.

#[export] Instance keeps_preorder {S} (P : S -> Prop) : PreOrder (keeps P).
Proof. split; [by intros s H|]. intros s1 s2 s3 H1 H2 H. by apply H2, H1. Qed.

Section Triples.
Context {S : Type}.

Lemma yields_bind {A B} P (m : M S A) R (k : A -> M S B) Q :
  yields P m R -> (forall a, yields (R a) (k a) Q) -> yields P (bind m k) Q.
Proof. intros Hm Hk s Hs. rewrite run_bind. by apply Hk, Hm. Qed.

Lemma yields_ret {A} P (a : A) (Q : A -> S -> Prop) : (forall s, P s -> Q a s) -> yields P (ret a) Q.
Proof. intros HQ s. apply HQ. Qed.

Lemma yields_weaken {A} P (m : M S A) (Q Q' : A -> S -> Prop) :
  yields P m Q -> (forall a s, Q a s -> Q' a s) -> yields P m Q'.
Proof. intros Hm HQ s Hs. by apply HQ, Hm. Qed.

Lemma yields_pre {A} (P P' : S -> Prop) (m : M S A) Q :
  (forall s, P' s -> P s) -> yields P m Q -> yields P' m Q.
Proof. intros HP Hm s Hs. by apply Hm, HP. Qed.

Lemma yields_any {A B} P (m : M S A) (k : A -> M S B) Q :
  (forall a, yields (fun _ => True) (k a) Q) -> yields P (bind m k) Q.
Proof. intros Hk s _. rewrite run_bind. by apply Hk. Qed.

Lemma yields_keeps {A} P (m : M S A) : yields P m (fun _ => P) -> related (keeps P) m.
Proof. done. Qed.

Lemma keeps_yields {A} P (m : M S A) : related (keeps P) m -> yields P m (fun _ => P).
Proof. done. Qed.

(** A step that keeps the precondition. *)
Lemma yields_step {A B} P (m : M S A) (k : A -> M S B) Q :
  related (keeps P) m -> (forall a, yields P (k a) Q) -> yields P (bind m k) Q.
Proof. intros Hm Hk. by apply yields_bind with (R := fun _ => P). Qed.

(** Reading the state; and a fact of the precondition that does not speak of it. *)
Lemma yields_gets {A B} P (f : S -> A) (k : A -> M S B) Q :
  (forall a, yields (fun s => P s /\ f s = a) (k a) Q) -> yields P (bind (gets f) k) Q.
Proof. intros Hk s Hs. rewrite run_bind. by apply Hk. Qed.

Lemma yields_assume {A} (F : Prop) P (m : M S A) Q :
  (forall s, P s -> F) -> (F -> yields P m Q) -> yields P m Q.
Proof. intros HF Hm s Hs. apply Hm; [by apply (HF s)|done]. Qed.
End Triples.

(** ** How loops end

    [left_of] bounds the waits left before a loop is stopped. A program is calm when it
    raises the bound nowhere, drops when it lowers it, and ends within [n] when, with at
    most [n] waits left, it returns [true]. *)
Section Ending.
Context {S : Type} (left_of : S -> nat).

Definition calmer (s s' : S) : Prop := (left_of s' <= left_of s)%nat.
Definition drops {A} (m : M S A) : Prop := forall s, (left_of (exec m s) <= Nat.pred (left_of s))%nat.
Definition ends (n : nat) (m : M S bool) : Prop := forall s, (left_of s <= n)%nat -> eval m s = true.

#[export] Instance calmer_preorder : PreOrder calmer.
Proof. split; [intros s; unfold calmer; lia|]. intros s1 s2 s3. unfold calmer. lia. Qed.

Lemma calm_drops {A B} (m : M S A) (k : A -> M S B) :
  related calmer m -> (forall a, drops (k a)) -> drops (bind m k).
Proof.
  intros Hm Hk s. unfold exec. rewrite run_bind. etrans; [apply Hk|].
  specialize (Hm s). unfold calmer, exec in Hm. lia.
Qed.

Lemma drops_calm {A B} (m : M S A) (k : A -> M S B) :
  drops m -> (forall a, related calmer (k a)) -> drops (bind m k).
Proof. intros Hm Hk s. unfold exec. rewrite run_bind. etrans; [apply Hk|apply Hm]. Qed.

Lemma drops_is_calm {A} (m : M S A) : drops m -> related calmer m.
Proof. intros Hm s. specialize (Hm s). unfold calmer. lia. Qed.

Lemma calm_idle {A} (m : M S A) : (forall s, left_of (exec m s) = left_of s) -> related calmer m.
Proof. intros Hm s. unfold calmer. by rewrite Hm. Qed.

Lemma ends_calm {A} n (m : M S A) k : related calmer m -> (forall a, ends n (k a)) -> ends n (bind m k).
Proof.
  intros Hm Hk s Hs. unfold eval. rewrite run_bind. apply Hk. specialize (Hm s). unfold calmer, exec in Hm. lia.
Qed.

Lemma ends_drops {A} n (m : M S A) k : drops m -> (forall a, ends (Nat.pred n) (k a)) -> ends n (bind m k).
Proof.
  intros Hm Hk s Hs. unfold eval. rewrite run_bind. apply Hk. specialize (Hm s). unfold exec in Hm. lia.
Qed.

Lemma ends_ret n : ends n (ret true).
Proof. by intros s. Qed.
End Ending.

(** Runs [f] on every element, left to right. *)
Fixpoint for_each {S A} (f : A -> M S unit) (l : list A) : M S unit :=
  match l with
  | [] => ret tt
  | a :: l' => f a ;;* for_each f l'
  end.

(** ** Machine integers *)

Definition wrap_u (w : Z) (z : Z) : Z := z mod 2 ^ w.

Definition wrap_s (w : Z) (z : Z) : Z := (z + 2 ^ (w - 1)) mod 2 ^ w - 2 ^ (w - 1).

Definition INT_MIN : Z := - 2 ^ 31.
Definition INT_MAX : Z := 2 ^ 31 - 1.
Definition UINT_MAX : Z := 2 ^ 32 - 1.
Definition INT64_MIN : Z := - 2 ^ 63.
Definition INT64_MAX : Z := 2 ^ 63 - 1.

(** [std::clamp]. *)
Definition clamp (v lo hi : Z) : Z := if v <? lo then lo else if hi <? v then hi else v.

(** ** Characters: an [unsigned char] is its code, 0 to 255 *)

Definition code (c : ascii) : Z := Z.of_N (N_of_ascii c).

Definition char_of (z : Z) : ascii := ascii_of_N (Z.to_N (z mod 256)).

Definition isdigit (c : ascii) : bool := (48 <=? code c) && (code c <=? 57).
Definition isupper (c : ascii) : bool := (65 <=? code c) && (code c <=? 90).
Definition islower (c : ascii) : bool := (97 <=? code c) && (code c <=? 122).
Definition isalnum (c : ascii) : bool := isdigit c || isupper c || islower c.
Definition isspace (c : ascii) : bool := (code c =? 32) || ((9 <=? code c) && (code c <=? 13)).
Definition isxdigit (c : ascii) : bool :=
  isdigit c || ((65 <=? code c) && (code c <=? 70)) || ((97 <=? code c) && (code c <=? 102)).
Definition tolower (c : ascii) : ascii := if isupper c then char_of (code c + 32) else c.

Definition all_codes : list ascii := map (fun n => ascii_of_nat n) (seq 0 256).

(** ** Strings: a [std::string] is its sequence of bytes *)

Definition size (s : string) : Z := Z.of_nat (String.length s).

Definition newline : ascii := "010"%char.
Definition carriage_return : ascii := "013"%char.
Definition dquote : ascii := "034"%char.
Definition backslash : ascii := "092"%char.
Definition nul : ascii := "000"%char.

Fixpoint string_forallb (p : ascii -> bool) (s : string) : bool :=
  match s with
  | EmptyString => true
  | String c s' => p c && string_forallb p s'
  end.

Definition string_existsb (p : ascii -> bool) (s : string) : bool :=
  negb (string_forallb (fun c => negb (p c)) s).

(** [s.find(c) != npos]. *)
Definition contains_char (c : ascii) (s : string) : bool := string_existsb (Ascii.eqb c) s.

(** [s.find_first_of(set) != npos]. *)
Definition contains_any (set : string) (s : string) : bool :=
  string_existsb (fun c => contains_char c set) s.

(** [s.rfind(p, 0) == 0]: [p] is a prefix of [s]. *)
Fixpoint starts_with (p s : string) : bool :=
  match p, s with
  | EmptyString, _ => true
  | String a p', String b s' => Ascii.eqb a b && starts_with p' s'
  | String _ _, EmptyString => false
  end.

(** [s.find(p) != npos]. *)
Fixpoint contains_sub (p s : string) : bool :=
  starts_with p s ||
  match s with
  | EmptyString => false
  | String _ s' => contains_sub p s'
  end.

(** The text before the first [c], and the text after it when there is one:
    [s.substr(0, s.find(c))] and [s.substr(s.find(c) + 1)]. *)
Fixpoint break_at (c : ascii) (s : string) : string * option string :=
  match s with
  | EmptyString => (EmptyString, None)
  | String a s' =>
      if Ascii.eqb a c then (EmptyString, Some s')
      else let '(l, r) := break_at c s' in (String a l, r)
  end.

(** [s.substr(n)] for [n <= s.size()]. *)
Fixpoint drop_chars (n : nat) (s : string) : string :=
  match n, s with
  | O, _ => s
  | S n', String _ s' => drop_chars n' s'
  | S _, EmptyString => EmptyString
  end.

Fixpoint string_map (f : ascii -> ascii) (s : string) : string :=
  match s with
  | EmptyString => EmptyString
  | String c s' => String (f c) (string_map f s')
  end.

Definition string_concat (l : list string) : string := foldr String.append EmptyString l.

(** What a C function makes of [s.c_str()]: the text up to the first NUL. *)
Definition c_str (s : string) : string := (break_at nul s).1.

Definition is_empty (s : string) : bool := match s with EmptyString => true | _ => false end.

(** The bytes of a string, and the string of some bytes. *)
Definition string_bytes (s : string) : list Z := map code (list_ascii_of_string s).

Definition bytes_string (bs : list Z) : string := string_of_list_ascii (map char_of bs).

Definition byte_range (b : Z) : Prop := 0 <= b < 256.

(** The first value listed for a key. *)
Fixpoint assoc {A} (k : string) (l : list (string * A)) : option A :=
  match l with
  | [] => None
  | (k', v) :: l' => if String.eqb k k' then Some v else assoc k l'
  end.

(** ** Decimal numbers: [std::to_string] and [std::from_chars] *)

Definition digit_char (d : Z) : ascii := char_of (48 + d).

Fixpoint dec_digits (fuel : nat) (n : Z) (acc : string) : string :=
  match fuel with
  | O => acc
  | S fuel' =>
      let acc' := String (digit_char (n mod 10)) acc in
      if n <? 10 then acc' else dec_digits fuel' (n / 10) acc'
  end.

(** Enough fuel for any 64-bit value; [to_string_from_chars] needs [n < 10 ^ 20]. *)
Definition dec_fuel : nat := 20.

Definition to_string (n : Z) : string :=
  if n <? 0 then String "-" (dec_digits dec_fuel (- n) EmptyString)
  else dec_digits dec_fuel n EmptyString.

(** The digits at the front of [s], accumulated onto [acc], and what follows them. *)
Fixpoint scan_digits (acc : Z) (s : string) : Z * string :=
  match s with
  | String c s' => if isdigit c then scan_digits (10 * acc + (code c - 48)) s' else (acc, s)
  | EmptyString => (acc, s)
  end.

Definition starts_with_digit (s : string) : bool :=
  match s with String c _ => isdigit c | EmptyString => false end.

(** [std::from_chars] on an integer type with range [lo, hi]: a minus sign only
    for a signed type, at least one digit, an error when out of range. The second
    component is what [ptr] points at. *)
Definition from_chars (lo hi : Z) (s : string) : option (Z * string) :=
  let '(neg, body) :=
    match s with
    | String c s' => if (lo <? 0) && Ascii.eqb c "-" then (true, s') else (false, s)
    | EmptyString => (false, s)
    end in
  if starts_with_digit body then
    let '(v, rest) := scan_digits 0 body in
    let v := if neg : bool then - v else v in
    if (lo <=? v) && (v <=? hi) then Some (v, rest) else None
  else None.

(** ** Lemmas: characters *)

Lemma code_bounds c : 0 <= code c < 256.
Proof. unfold code. pose proof (N_ascii_bounded c). lia. Qed.

Lemma char_of_code c : char_of (code c) = c.
Proof.
  unfold char_of. rewrite Z.mod_small by apply code_bounds.
  unfold code. rewrite N2Z.id. apply ascii_N_embedding.
Qed.

Lemma code_char_of z : code (char_of z) = z mod 256.
Proof.
  unfold code, char_of. pose proof (Z.mod_pos_bound z 256 ltac:(lia)).
  rewrite N_ascii_embedding by lia. lia.
Qed.

Lemma code_inj c d : code c = code d -> c = d.
Proof. intros H. rewrite <- (char_of_code c), <- (char_of_code d). by rewrite H. Qed.

(** A boolean fact about one character is checked on all 256 of them. *)
Lemma by_chars (p : ascii -> bool) : forallb p all_codes = true -> forall c, p c = true.
Proof.
  intros H c. rewrite forallb_forall in H. apply H. unfold all_codes.
  apply in_map_iff. exists (nat_of_ascii c). split; [apply ascii_nat_embedding|].
  apply in_seq. pose proof (nat_ascii_bounded c). lia.
Qed.

(** Proves a boolean fact about every character by evaluation. *)
Ltac all_chars := apply by_chars; vm_compute; reflexivity.

(** ** Lemmas: strings *)

Lemma sapp_cons c a b : String c a +:+ b = String c (a +:+ b).
Proof. done. Qed.

Lemma sapp_nil_l s : EmptyString +:+ s = s.
Proof. done. Qed.

Lemma sapp_nil_r s : s +:+ EmptyString = s.
Proof. induction s as [|c s IH]; [done|]. by rewrite ?sapp_cons, IH. Qed.

Lemma sapp_assoc a b c : (a +:+ b) +:+ c = a +:+ (b +:+ c).
Proof. induction a as [|x a IH]; [done|]. by rewrite ?sapp_cons, IH. Qed.

Lemma size_nonneg s : 0 <= size s.
Proof. unfold size. lia. Qed.

Lemma size_cons c s : size (String c s) = 1 + size s.
Proof. unfold size. cbn [String.length]. lia. Qed.

Lemma size_app a b : size (a +:+ b) = size a + size b.
Proof.
  induction a as [|c a IH]; [done|].
  rewrite sapp_cons, !size_cons. lia.
Qed.

Lemma string_forallb_app p a b :
  string_forallb p (a +:+ b) = string_forallb p a && string_forallb p b.
Proof. induction a as [|c a IH]; [done|]. rewrite sapp_cons. cbn. by rewrite IH, andb_assoc. Qed.

Lemma string_forallb_impl (p q : ascii -> bool) s :
  (forall c, p c = true -> q c = true) -> string_forallb p s = true -> string_forallb q s = true.
Proof.
  intros Hpq. induction s as [|c s IH]; [done|]. cbn.
  rewrite !andb_true_iff. intros [H1 H2]. auto.
Qed.

Lemma string_forallb_and p q s :
  string_forallb (fun c => p c && q c) s = string_forallb p s && string_forallb q s.
Proof.
  induction s as [|c s IH]; [done|]. cbn. rewrite IH.
  by destruct (p c), (q c), (string_forallb p s), (string_forallb q s).
Qed.

Lemma string_forallb_ext p q s :
  (forall c, p c = q c) -> string_forallb p s = string_forallb q s.
Proof. intros H. induction s as [|c s IH]; [done|]. cbn. by rewrite H, IH. Qed.

Definition lacks (c : ascii) (s : string) : bool := string_forallb (fun a => negb (Ascii.eqb a c)) s.

Lemma lacks_cons c a s : lacks c (String a s) = negb (Ascii.eqb a c) && lacks c s.
Proof. done. Qed.

Lemma lacks_app c a b : lacks c (a +:+ b) = lacks c a && lacks c b.
Proof. apply string_forallb_app. Qed.

Lemma break_at_found c l r : lacks c l = true -> break_at c (l +:+ String c r) = (l, Some r).
Proof.
  unfold lacks. induction l as [|a l IH]; rewrite ?sapp_nil_l, ?sapp_cons; cbn.
  - intros _. by rewrite Ascii.eqb_refl.
  - rewrite andb_true_iff, negb_true_iff. intros [Ha Hl]. by rewrite Ha, IH.
Qed.

Lemma break_at_missing c l : lacks c l = true -> break_at c l = (l, None).
Proof.
  unfold lacks. induction l as [|a l IH]; cbn; [done|].
  rewrite andb_true_iff, negb_true_iff. intros [Ha Hl]. by rewrite Ha, IH.
Qed.

(** What [break_at] returns, put together again, is the string. *)
Lemma break_at_join c s l r :
  break_at c s = (l, r) ->
  lacks c l = true /\ s = l +:+ match r with Some r => String c r | None => EmptyString end.
Proof.
  revert l r. induction s as [|a s IH]; cbn; intros l r H.
  - by simplify_eq.
  - destruct (Ascii.eqb a c) eqn:E.
    + apply Ascii.eqb_eq in E. by simplify_eq.
    + destruct (break_at c s) as [l' r'] eqn:Eb. simplify_eq.
      destruct (IH _ _ eq_refl) as [Hl ->]. split; [|done].
      unfold lacks in *. cbn. by rewrite E, Hl.
Qed.

Lemma break_at_shorter c s l r :
  break_at c s = (l, Some r) -> (String.length r < String.length s)%nat.
Proof.
  intros H. apply break_at_join in H as [_ ->].
  induction l as [|a l IH]; rewrite ?sapp_nil_l, ?sapp_cons; cbn; lia.
Qed.

Lemma drop_chars_app a b : drop_chars (String.length a) (a +:+ b) = b.
Proof. induction a as [|c a IH]; [by destruct b|]. rewrite sapp_cons. exact IH. Qed.

Lemma starts_with_app p s : starts_with p (p +:+ s) = true.
Proof. induction p as [|c p IH]; [by destruct s|]. rewrite sapp_cons. cbn. by rewrite Ascii.eqb_refl. Qed.

Lemma starts_with_spec p s : starts_with p s = true -> s = p +:+ drop_chars (String.length p) s.
Proof.
  revert s. induction p as [|a p IH]; intros [|b s]; cbn; try done.
  rewrite andb_true_iff. intros [E H]. apply Ascii.eqb_eq in E as ->.
  rewrite sapp_cons. f_equal. by apply IH.
Qed.

#[export] Instance code_Inj : Inj (=) (=) code.
Proof. exact code_inj. Qed.

Lemma string_bytes_inj a b : string_bytes a = string_bytes b -> a = b.
Proof.
  unfold string_bytes. intros H. apply (inj (map code)) in H.
  by rewrite <- (string_of_list_ascii_of_string a), H, string_of_list_ascii_of_string.
Qed.

Lemma string_bytes_app a b : string_bytes (a +:+ b) = string_bytes a ++ string_bytes b.
Proof.
  unfold string_bytes. induction a as [|c a IH]; [done|]. rewrite sapp_cons. cbn. by rewrite IH.
Qed.

Lemma string_bytes_range s : Forall byte_range (string_bytes s).
Proof.
  unfold string_bytes. apply Forall_forall. intros b Hb.
  apply list_elem_of_In, in_map_iff in Hb as (c & <- & _). apply code_bounds.
Qed.

Lemma length_string_bytes s : Z.of_nat (List.length (string_bytes s)) = size s.
Proof. unfold string_bytes, size. rewrite length_map. induction s as [|c s IH]; [done|]. cbn. lia. Qed.

Lemma bytes_string_bytes s : bytes_string (string_bytes s) = s.
Proof.
  unfold bytes_string, string_bytes. rewrite map_map.
  rewrite (map_ext (fun x => char_of (code x)) (fun x => x)) by apply char_of_code.
  by rewrite map_id, string_of_list_ascii_of_string.
Qed.

Lemma size_bytes_string bs : size (bytes_string bs) = Z.of_nat (List.length bs).
Proof. unfold bytes_string, size. induction bs as [|b bs IH]; [done|]. cbn in *. lia. Qed.

(** A boolean fact about one byte is checked on all 256 of them. *)
Lemma by_bytes (p : Z -> bool) :
  forallb p (map Z.of_nat (seq 0 256)) = true -> forall b, byte_range b -> p b = true.
Proof.
  intros H b Hb. rewrite forallb_forall in H. apply H. apply in_map_iff. exists (Z.to_nat b).
  unfold byte_range in Hb. split; [lia|]. apply in_seq. lia.
Qed.

(** ** Lemmas: decimal numbers *)

Lemma digit_char_code d : 0 <= d < 10 -> code (digit_char d) = 48 + d.
Proof. intros H. unfold digit_char. rewrite code_char_of. apply Z.mod_small. lia. Qed.

Lemma digit_char_digit d : 0 <= d < 10 -> isdigit (digit_char d) = true.
Proof. intros H. unfold isdigit. rewrite digit_char_code by done. lia. Qed.

(** Scanning the digits of [n] in front of [rest] is scanning [rest] with the
    digits of [n] already accumulated. *)
Lemma scan_dec_digits fuel n a rest :
  0 <= n < 10 ^ Z.of_nat fuel -> (0 < fuel)%nat ->
  exists k, (0 < k)%nat /\ n < 10 ^ Z.of_nat k /\
    scan_digits a (dec_digits fuel n rest) = scan_digits (a * 10 ^ Z.of_nat k + n) rest.
Proof.
  revert n a rest. induction fuel as [|fuel IH]; intros n a rest Hn Hf; [lia|].
  cbn [dec_digits].
  pose proof (Z.mod_pos_bound n 10 ltac:(lia)) as Hm.
  assert (Hstep : forall b, scan_digits b (String (digit_char (n mod 10)) rest)
                            = scan_digits (10 * b + n mod 10) rest).
  { intros b. cbn [scan_digits]. rewrite digit_char_digit, digit_char_code by done.
    f_equal. lia. }
  destruct (n <? 10) eqn:E.
  - exists 1%nat. apply Z.ltb_lt in E. rewrite Hstep, Z.mod_small by lia.
    split_and!; [lia|lia|]. f_equal. lia.
  - apply Z.ltb_ge in E.
    assert (Hq : 0 <= n / 10 < 10 ^ Z.of_nat fuel).
    { split; [apply Z.div_pos; lia|]. apply Z.div_lt_upper_bound; [lia|].
      rewrite Nat2Z.inj_succ, Z.pow_succ_r in Hn by lia. lia. }
    assert (Hf' : (0 < fuel)%nat).
    { destruct fuel; [|lia]. cbn in Hq. assert (1 <= n / 10) by (apply Z.div_le_lower_bound; lia). lia. }
    destruct (IH (n / 10) a (String (digit_char (n mod 10)) rest) Hq Hf') as (k & Hk & Hlt & ->).
    exists (S k). rewrite Hstep. rewrite Nat2Z.inj_succ, Z.pow_succ_r by lia.
    pose proof (Z.div_mod n 10 ltac:(lia)) as Hdm.
    split_and!; [lia|nia|]. f_equal. nia.
Qed.

Lemma dec_digits_starts fuel n rest :
  (0 < fuel)%nat -> starts_with_digit (dec_digits fuel n rest) = true.
Proof.
  revert n rest. induction fuel as [|fuel IH]; intros n rest Hf; [lia|]. cbn [dec_digits].
  assert (Hd : isdigit (digit_char (n mod 10)) = true)
    by (apply digit_char_digit, Z.mod_pos_bound; lia).
  destruct (n <? 10); [exact Hd|].
  destruct fuel; [exact Hd|]. apply IH. lia.
Qed.

Lemma dec_digits_not_minus fuel n rest c s :
  (0 < fuel)%nat -> dec_digits fuel n rest = String c s -> Ascii.eqb c "-" = false.
Proof.
  intros Hf H. pose proof (dec_digits_starts fuel n rest Hf) as Hd. rewrite H in Hd.
  cbn in Hd. destruct (Ascii.eqb_spec c "-"); [|done]. subst. done.
Qed.

(** [std::from_chars] reads back what [std::to_string] wrote, and stops at the
    first character after it. *)
Lemma to_string_from_chars lo hi n rest :
  lo <= n <= hi -> (lo < 0 \/ 0 <= n) -> Z.abs n < 10 ^ 20 -> starts_with_digit rest = false ->
  from_chars lo hi (to_string n +:+ rest) = Some (n, rest).
Proof.
  intros Hr Hs Hb Hrest.
  assert (Happ : forall fuel m acc, dec_digits fuel m acc +:+ rest = dec_digits fuel m (acc +:+ rest)).
  { induction fuel as [|fuel IH]; intros m acc; [done|]. cbn [dec_digits].
    rewrite <- !sapp_cons. destruct (m <? 10); [done|]. by rewrite IH. }
  assert (Hscan : forall m, 0 <= m < 10 ^ 20 ->
            scan_digits 0 (dec_digits dec_fuel m rest) = (m, rest)).
  { intros m Hm. destruct (scan_dec_digits dec_fuel m 0 rest Hm ltac:(unfold dec_fuel; lia))
      as (k & _ & _ & ->).
    rewrite Z.mul_0_l, Z.add_0_l. destruct rest as [|c r]; [done|].
    cbn in *. by rewrite Hrest. }
  unfold from_chars, to_string. destruct (n <? 0) eqn:E.
  - rewrite sapp_cons, Happ, sapp_nil_l. apply Z.ltb_lt in E.
    replace (lo <? 0) with true by lia. rewrite Ascii.eqb_refl. cbn [andb].
    rewrite dec_digits_starts, Hscan by (unfold dec_fuel; lia).
    rewrite Z.opp_involutive. by replace ((lo <=? n) && (n <=? hi)) with true by lia.
  - apply Z.ltb_ge in E. rewrite Happ, sapp_nil_l.
    pose proof (dec_digits_starts dec_fuel n rest ltac:(unfold dec_fuel; lia)) as Hst.
    pose proof (dec_digits_not_minus dec_fuel n rest) as Hnm.
    specialize (Hscan n ltac:(lia)).
    destruct (dec_digits dec_fuel n rest) as [|c s]; [done|].
    rewrite (Hnm c s ltac:(unfold dec_fuel; lia) eq_refl), andb_false_r, Hst, Hscan.
    by replace ((lo <=? n) && (n <=? hi)) with true by lia.
Qed.

(** A decimal numeral is made of digits and at most a leading minus sign. *)
Lemma to_string_lacks c n : isdigit c = false -> c <> "-"%char -> lacks c (to_string n) = true.
Proof.
  intros Hd Hm.
  assert (H : forall fuel m acc, lacks c acc = true -> lacks c (dec_digits fuel m acc) = true).
  { induction fuel as [|fuel IH]; intros m acc Hacc; [done|]. cbn [dec_digits].
    assert (Hc : lacks c (String (digit_char (m mod 10)) acc) = true).
    { rewrite lacks_cons, Hacc, andb_true_r, negb_true_iff.
      apply Ascii.eqb_neq. intros <-.
      rewrite digit_char_digit in Hd by (apply Z.mod_pos_bound; lia). done. }
    destruct (m <? 10); [done|]. by apply IH. }
  unfold to_string. destruct (n <? 0); [|by apply H].
  rewrite lacks_cons, (H _ _ EmptyString) by done.
  destruct (Ascii.eqb_spec "-" c); [by subst|done].
Qed.

(** ** Lemmas: integers *)

Lemma clamp_bounds v lo hi : lo <= hi -> lo <= clamp v lo hi <= hi.
Proof. unfold clamp. destruct (Z.ltb_spec v lo); [lia|]. destruct (Z.ltb_spec hi v); lia. Qed.

Lemma clamp_id v lo hi : lo <= v <= hi -> clamp v lo hi = v.
Proof. unfold clamp. intros H. destruct (Z.ltb_spec v lo); [lia|]. destruct (Z.ltb_spec hi v); lia. Qed.

Lemma wrap_s_range w z : 0 < w -> - 2 ^ (w - 1) <= wrap_s w z < 2 ^ (w - 1).
Proof.
  intros Hw. unfold wrap_s. assert (E : 2 ^ w = 2 * 2 ^ (w - 1)) by (rewrite <- Z.pow_succ_r by lia; f_equal; lia).
  pose proof (Z.pow_pos_nonneg 2 (w - 1) ltac:(lia) ltac:(lia)).
  pose proof (Z.mod_pos_bound (z + 2 ^ (w - 1)) (2 ^ w) ltac:(lia)). lia.
Qed.

Lemma wrap_s_id w z : 0 < w -> - 2 ^ (w - 1) <= z < 2 ^ (w - 1) -> wrap_s w z = z.
Proof.
  intros Hw H. unfold wrap_s.
  assert (2 ^ w = 2 * 2 ^ (w - 1)) as E.
  { rewrite <- Z.pow_succ_r by lia. f_equal. lia. }
  rewrite Z.mod_small by lia. lia.
Qed.

Lemma wrap_u_id w z : 0 <= z < 2 ^ w -> wrap_u w z = z.
Proof. intros H. by apply Z.mod_small. Qed.

(** ** Automation *)

Create HintDb homedeck discriminated.
#[export] Hint Resolve code_bounds size_nonneg clamp_bounds : homedeck.
#[export] Hint Rewrite sapp_nil_r sapp_assoc size_app size_cons code_char_of char_of_code
  : homedeck.

(** Runs the state monad: unfolds the combinators and reduces the projections. *)
Ltac run := cbv [bind ret get put modify gets exec eval] in *; cbn in *.

(** Splits every [if] on a boolean in the goal or the context, keeping its equation. *)
Ltac case_if :=
  match goal with
  | |- context [if ?b then _ else _] => let E := fresh "E" in destruct b eqn:E
  | H : context [if ?b then _ else _] |- _ => let E := fresh "E" in destruct b eqn:E
  end.

(** Turns boolean comparisons into propositions [lia] can use. *)
Ltac bool_to_prop :=
  repeat match goal with
  | H : _ && _ = true |- _ => apply andb_true_iff in H as [? ?]
  | H : _ || _ = false |- _ => apply orb_false_iff in H as [? ?]
  | H : negb _ = true |- _ => apply negb_true_iff in H
  | H : negb _ = false |- _ => apply negb_false_iff in H
  | H : (_ <? _) = true |- _ => apply Z.ltb_lt in H
  | H : (_ <? _) = false |- _ => apply Z.ltb_ge in H
  | H : (_ <=? _) = true |- _ => apply Z.leb_le in H
  | H : (_ <=? _) = false |- _ => apply Z.leb_gt in H
  | H : (_ =? _) = true |- _ => apply Z.eqb_eq in H
  | H : (_ =? _) = false |- _ => apply Z.eqb_neq in H
  end.

(** Decides a boolean comparison, including ones under [Z.of_nat]. *)
Ltac zbool :=
  first [apply Z.ltb_lt | apply Z.ltb_ge | apply Z.leb_le | apply Z.leb_gt | apply Z.eqb_eq | apply Z.eqb_neq]; lia.
