(* ===== verification/Json.v ===== *)
(** JSON values and the bounded parse of untrusted text.

    Models [src/src/core/json_request.h]. A [nlohmann::json] value is the
    inductive type [json]; the library's own text parser and printer are vendored
    third-party code and stay parameters (class [JsonCodec]). The pre-scan that
    bounds the nesting depth before the parser runs is translated in full, and
    proved exact on well-nested text ([exceeds_iff_too_deep]). *)
From Stdlib Require Import SpecFloat.
From S2P Require Import Prelude.
Set Warnings "-register-all".

(** ** Values

    [JInt] is nlohmann's [number_integer] and [number_unsigned] together (its
    [is_number_integer] is true of both), so its range is [-2^63, 2^64). [JFloat]
    is an IEEE binary64. An object is its members; a key occurs once. *)
Inductive json :=
  | JDiscarded
  | JNull
  | JBool (b : bool)
  | JInt (z : Z)
  | JFloat (f : spec_float)
  | JString (s : string)
  | JArray (l : list json)
  | JObject (members : list (string * json)).

Definition is_discarded (j : json) : bool := match j with JDiscarded => true | _ => false end.
Definition is_object (j : json) : bool := match j with JObject _ => true | _ => false end.
Definition is_array (j : json) : bool := match j with JArray _ => true | _ => false end.
Definition is_string (j : json) : bool := match j with JString _ => true | _ => false end.
Definition is_number_integer (j : json) : bool := match j with JInt _ => true | _ => false end.
Definition is_number (j : json) : bool := match j with JInt _ | JFloat _ => true | _ => false end.

(** [j.find(key)]: [None] is [end()], which is also what a non-object gives. *)
Definition find (key : string) (j : json) : option json :=
  match j with JObject m => assoc key m | _ => None end.

Definition contains (key : string) (j : json) : bool :=
  match find key j with Some _ => true | None => false end.

(** The typed lookups the code writes as [it != end() && it->is_string()]. *)
Definition find_string (key : string) (j : json) : option string :=
  match find key j with Some (JString s) => Some s | _ => None end.

Definition find_object (key : string) (j : json) : option json :=
  match find key j with Some (JObject m) => Some (JObject m) | _ => None end.

Definition find_array (key : string) (j : json) : option (list json) :=
  match find key j with Some (JArray l) => Some l | _ => None end.

(** [j[key] = v] on an object. *)
Fixpoint set_member (key : string) (v : json) (m : list (string * json)) : list (string * json) :=
  match m with
  | [] => [(key, v)]
  | (k', v') :: m' => if String.eqb key k' then (key, v) :: m' else (k', v') :: set_member key v m'
  end.

Definition set_key (key : string) (v : json) (j : json) : json :=
  match j with JObject m => JObject (set_member key v m) | _ => j end.

(** [j.erase(key)]. *)
Definition erase_key (key : string) (j : json) : json :=
  match j with
  | JObject m => JObject (List.filter (fun '(k, _) => negb (String.eqb key k)) m)
  | _ => j
  end.

(** [get<long long>()] and [get<int>()] of an integer: a narrowing conversion. *)
Definition to_i64 (z : Z) : Z := wrap_s 64 z.
Definition to_i32 (z : Z) : Z := wrap_s 32 z.

(** ** The vendored parser and printer *)
Class JsonCodec := {
  json_parse : string -> json;   (* [JDiscarded] for malformed text *)
  json_dump : json -> string
}.

(** ** The nesting-depth pre-scan *)

Definition kMaxJsonNestingDepth : Z := 32.

Definition is_open (c : ascii) : bool := Ascii.eqb c "{" || Ascii.eqb c "[".
Definition is_close (c : ascii) : bool := Ascii.eqb c "}" || Ascii.eqb c "]".

(** The loop of [ExceedsJsonNestingDepth] from one position on; the position is the
    remaining text. *)
Fixpoint exceeds_from (max_depth depth : Z) (in_string : bool) (text : string) : bool :=
  match text with
  | EmptyString => false
  | String c rest =>
      if in_string then
        if Ascii.eqb c backslash then
          match rest with
          | EmptyString => false
          | String _ rest' => exceeds_from max_depth depth true rest'
          end
        else if Ascii.eqb c dquote then exceeds_from max_depth depth false rest
        else exceeds_from max_depth depth true rest
      else if Ascii.eqb c dquote then exceeds_from max_depth depth true rest
      else if is_open c then
        if max_depth <? depth + 1 then true
        else exceeds_from max_depth (depth + 1) false rest
      else if is_close c then exceeds_from max_depth (depth - 1) false rest
      else exceeds_from max_depth depth false rest
  end.

Definition ExceedsJsonNestingDepth (text : string) (max_depth : Z) : bool :=
  exceeds_from max_depth 0 false text.

Section Parse.
Context `{JsonCodec}.

Definition ParseBoundedJson (text : string) : json :=
  if ExceedsJsonNestingDepth text kMaxJsonNestingDepth then JDiscarded
  else json_parse text.

Definition TryParseJsonObject (body : string) : option json :=
  let parsed := ParseBoundedJson body in
  if is_discarded parsed || negb (is_object parsed) then None else Some parsed.
End Parse.

(** ** Reference: the nesting depth of well-nested text

    The inside of a string literal, then a text whose brackets match outside its
    literals, with the depth they reach. JSON text is well nested in this sense,
    whatever its whitespace and scalars. *)
Inductive literal : string -> Prop :=
  | literal_end : literal EmptyString
  | literal_char c s :
      Ascii.eqb c backslash = false -> Ascii.eqb c dquote = false ->
      literal s -> literal (String c s)
  | literal_escape c s : literal s -> literal (String backslash (String c s)).

Definition is_plain (c : ascii) : bool := negb (Ascii.eqb c dquote || is_open c || is_close c).

Inductive nested : Z -> string -> Prop :=
  | nested_end : nested 0 EmptyString
  | nested_plain d c s : is_plain c = true -> nested d s -> nested d (String c s)
  | nested_literal d l s :
      literal l -> nested d s -> nested d (String dquote (l +:+ String dquote s))
  | nested_bracket d1 d2 o c inner s :
      is_open o = true -> is_close c = true -> nested d1 inner -> nested d2 s ->
      nested (Z.max (1 + d1) d2) (String o (inner +:+ String c s)).

(** ** Lemmas *)

Lemma find_object_is_object key j v : find_object key j = Some v -> is_object v = true.
Proof. unfold find_object. destruct (find key j) as [[]|]; naive_solver. Qed.

Lemma nested_nonneg d s : nested d s -> 0 <= d.
Proof. induction 1; lia. Qed.

Lemma exceeds_literal m d l s :
  literal l -> exceeds_from m d true (l +:+ String dquote s) = exceeds_from m d false s.
Proof.
  induction 1 as [|c l H1 H2 _ IH|c l _ IH]; rewrite ?sapp_nil_l, ?sapp_cons; cbn;
    [done| |done]. by rewrite H1, H2.
Qed.

Lemma open_not_special c :
  is_open c = true -> Ascii.eqb c dquote = false.
Proof.
  pose proof (by_chars (fun c => implb (is_open c) (negb (Ascii.eqb c dquote)))
                ltac:(vm_compute; reflexivity) c) as H. cbn in H.
  destruct (is_open c), (Ascii.eqb c dquote); done.
Qed.

Lemma close_not_special c :
  is_close c = true -> Ascii.eqb c dquote = false /\ is_open c = false.
Proof.
  pose proof (by_chars (fun c => implb (is_close c) (negb (Ascii.eqb c dquote) && negb (is_open c)))
                ltac:(vm_compute; reflexivity) c) as H. cbn in H.
  destruct (is_close c), (Ascii.eqb c dquote), (is_open c); done.
Qed.

(** Scanning a well-nested prefix from depth [k] answers whether it goes past the
    bound, and otherwise leaves the depth where it was. *)
Lemma exceeds_nested m d s :
  nested d s -> forall k rest, k <= m ->
  exceeds_from m k false (s +:+ rest) =
    if m <? k + d then true else exceeds_from m k false rest.
Proof.
  induction 1 as [|d c s Hc _ IH|d l s Hl _ IH|d1 d2 o c inner s Ho Hc Hn1 IH1 Hn2 IH2];
    intros k rest Hk.
  - rewrite sapp_nil_l. by replace (m <? k + 0) with false by lia.
  - rewrite sapp_cons. cbn [exceeds_from]. unfold is_plain in Hc. bool_to_prop.
    destruct (Ascii.eqb c dquote), (is_open c), (is_close c); try done. by apply IH.
  - rewrite !sapp_cons, sapp_assoc, sapp_cons. cbn [exceeds_from Ascii.eqb Bool.eqb].
    rewrite exceeds_literal by done. by apply IH.
  - pose proof (nested_nonneg _ _ Hn1). pose proof (nested_nonneg _ _ Hn2).
    rewrite sapp_cons, sapp_assoc, sapp_cons. cbn [exceeds_from].
    rewrite (open_not_special o Ho), Ho.
    destruct (Z.ltb_spec m (k + 1)).
    { by replace (m <? k + Z.max (1 + d1) d2) with true by lia. }
    rewrite IH1 by lia.
    destruct (Z.ltb_spec m (k + 1 + d1)).
    { by replace (m <? k + Z.max (1 + d1) d2) with true by lia. }
    cbn [exceeds_from]. destruct (close_not_special c Hc) as [-> ->]. rewrite Hc.
    replace (k + 1 - 1) with k by lia. rewrite IH2 by done.
    destruct (Z.ltb_spec m (k + d2)), (Z.ltb_spec m (k + Z.max (1 + d1) d2)); try done; lia.
Qed.

(** ** Properties *)

(** The pre-scan is exact: on text whose brackets are matched outside string
    literals it rejects precisely the texts nested deeper than the bound, whatever
    brackets and escaped quotes the literals contain. *)
Theorem exceeds_iff_too_deep (max_depth d : Z) (text : string) :
  0 <= max_depth -> nested d text ->
  ExceedsJsonNestingDepth text max_depth = (max_depth <? d).
Proof.
  intros Hm Hn. unfold ExceedsJsonNestingDepth.
  pose proof (exceeds_nested max_depth d text Hn 0 EmptyString Hm) as H.
  rewrite sapp_nil_r in H. rewrite H, Z.add_0_l. cbn [exceeds_from]. by destruct (max_depth <? d).
Qed.

(** A three-level object whose string member holds brackets and an escaped quote. *)
Definition sample_text : string :=
  String "{" (String dquote ("a[" +:+ String backslash (String dquote (String dquote
    (":[{}]}"))))).

Lemma sample_text_nested : nested 3 sample_text.
Proof.
  unfold sample_text.
  apply (nested_bracket 2 0 "{" "}"
           (String dquote (String "a" (String "[" (String backslash (String dquote EmptyString)))
              +:+ String dquote ":[{}]")) EmptyString); [done|done| |constructor].
  apply nested_literal; [repeat first [apply literal_end | apply literal_escape | apply literal_char; [done|done|]]|]. apply nested_plain; [done|].
  apply (nested_bracket 1 0 "[" "]" "{}" EmptyString); [done|done| |constructor].
  apply (nested_bracket 0 0 "{" "}" EmptyString EmptyString); done || constructor.
Qed.

Lemma exceeds_iff_too_deep_witness :
  0 <= 2 /\ nested 3 sample_text /\ ExceedsJsonNestingDepth sample_text 2 = true.
Proof.
  split; [lia|]. split; [exact sample_text_nested|].
  apply (exceeds_iff_too_deep 2 3 sample_text); [lia|exact sample_text_nested].
Defined.
