(* ===== verification/Double.v ===== *)
(** Double: the [double]s of the program.

    An IEEE binary64 is a [SpecFloat] value; here are the conversions and the clamp the code
    uses on the numbers of a JSON document, the values a [double] can have, and the bounds
    on what a clamped, scaled and truncated double can be. *)
From Stdlib Require Import SpecFloat.
From S2P Require Import Prelude Json.

Definition prec : Z := 53.
Definition emax : Z := 1024.

(** The conversion of an integer to the nearest double, ties to even. *)
Definition double_of_Z (z : Z) : spec_float := binary_normalize prec emax z 0 false.

(** [std::clamp]. *)
Definition double_clamp (v lo hi : spec_float) : spec_float :=
  if SFltb v lo then lo else if SFltb hi v then hi else v.

(** The value towards zero: what [static_cast] to an integer type gives when it fits. *)
Definition double_trunc (f : spec_float) : Z :=
  match f with
  | S754_finite s m e =>
      let a := if 0 <=? e then Z.pos m * 2 ^ e else Z.pos m / 2 ^ (- e) in if s then - a else a
  | _ => 0
  end.

(** [static_cast<int32_t>] of a [double]: undefined unless the integer part fits. *)
Definition int32_of_double (f : spec_float) : option Z :=
  match f with
  | S754_zero _ => Some 0
  | S754_finite _ _ _ => let v := double_trunc f in if (INT_MIN <=? v) && (v <=? INT_MAX) then Some v else None
  | S754_infinity _ | S754_nan => None
  end.

(** [get<double>()] of a number. *)
Definition json_double (j : json) : option spec_float :=
  match j with
  | JInt z => Some (double_of_Z z)
  | JFloat f => Some f
  | _ => None
  end.

(** ** The values of a [double] *)

Definition is_double (f : spec_float) : Prop := valid_binary prec emax f = true.

(** The numbers of a parsed document: 64-bit integers, and doubles ([null] stands for a
    number out of range, JSON having neither infinities nor NaN). *)
Fixpoint json_numbers_ok (j : json) : Prop :=
  match j with
  | JFloat f => is_double f
  | JArray l => foldr (fun j P => json_numbers_ok j /\ P) True l
  | JObject m => foldr (fun kv P => json_numbers_ok kv.2 /\ P) True m
  | _ => True
  end.

Lemma json_numbers_find key j v : json_numbers_ok j -> find key j = Some v -> json_numbers_ok v.
Proof.
  destruct j as [| | | | | | |m]; cbn; try done. induction m as [|[k x] m IH]; cbn; [done|].
  intros [Hx Hm]. destruct (String.eqb key k); [by intros [= <-]|by apply IH].
Qed.

Lemma json_numbers_array l j : json_numbers_ok (JArray l) -> j ∈ l -> json_numbers_ok j.
Proof.
  cbn. induction l as [|x l IH]; cbn; [by intros _ ?%elem_of_nil|].
  intros [Hx Hl] [->|Hin]%elem_of_cons; [done|by apply IH].
Qed.

Lemma digits2_pos_size m : SpecFloat.digits2_pos m = Pos.size m.
Proof. induction m as [m IH|m IH|]; cbn; by rewrite ?IH. Qed.

(** What of it the bounds below need. *)
Definition fits (f : spec_float) : Prop :=
  match f with S754_finite _ m e => Z.pos m < 2 ^ prec /\ -1074 <= e | _ => True end.

Lemma is_double_fits f : is_double f -> fits f.
Proof.
  destruct f as [| | |s m e]; try done.
  unfold is_double, valid_binary, bounded, canonical_mantissa, fexp, SpecFloat.emin.
  rewrite andb_true_iff, digits2_pos_size. intros [H _]. apply Zeq_bool_eq in H.
  change (3 - emax - prec) with (-1074) in H. pose proof (Pos.size_gt m) as Hs.
  assert (Z.pos (Pos.size m) <= prec) by lia. split; [|lia].
  assert (Z.pos m < 2 ^ Z.pos (Pos.size m)) by (rewrite <- Pos2Z.inj_pow; lia).
  pose proof (Z.pow_le_mono_r 2 (Z.pos (Pos.size m)) prec ltac:(lia) ltac:(lia)). lia.
Qed.

(** ** Clamping *)

(** Not above the positive double [hi], field by field. *)
Definition below (mh : positive) (eh : Z) (f : spec_float) : Prop :=
  match f with
  | S754_finite false m e => -1074 <= e /\ ((e < eh /\ Z.pos m < 2 ^ prec) \/ (e = eh /\ (m <= mh)%positive))
  | S754_finite true _ _ | S754_infinity _ => False
  | _ => True
  end.

Lemma double_clamp_below v mh eh :
  fits v -> -1074 <= eh -> below mh eh (double_clamp v (S754_zero false) (S754_finite false mh eh)).
Proof.
  intros Hv He. unfold double_clamp, SFltb.
  destruct v as [s|s| |s m e]; cbn; try done; [destruct s; cbn; try done; split; [done|by right]|].
  destruct Hv as [Hm Hmin].
  destruct s; cbn; [done|].
  destruct (Z.compare_spec eh e) as [->|Hlt|Hgt]; cbn.
  - change (Pos.compare_cont Eq mh m) with (mh ?= m)%positive.
    destruct (Pos.compare_spec mh m); cbn; split_and!; try lia; right; split; lia.
  - split; [done|]. right. split; [done|lia].
  - split; [done|]. by left.
Qed.

(** The integer part of a double not above a normal one. *)
Lemma below_trunc mh eh f :
  below mh (- eh) f -> 0 <= eh -> 2 ^ (prec - 1) <= Z.pos mh -> 0 <= double_trunc f <= Z.pos mh / 2 ^ eh.
Proof.
  intros Hb He Hmh. pose proof (Z.pow_pos_nonneg 2 eh ltac:(lia) He) as Hp.
  assert (0 <= Z.pos mh / 2 ^ eh) by (apply Z.div_pos; lia).
  destruct f as [| | |[] m e]; try done; cbn [double_trunc].
  destruct Hb as [_ [[He' Hm]|[-> Hm]]].
  - replace (0 <=? e) with false by lia. split; [apply Z.div_pos; [lia|apply Z.pow_pos_nonneg; lia]|].
    rewrite <- (Z.div_mul_cancel_r (Z.pos mh) (2 ^ eh) 2) by lia.
    assert (Hq : 2 ^ eh * 2 <= 2 ^ (- e)).
    { rewrite Z.mul_comm, <- Z.pow_succ_r by lia. apply Z.pow_le_mono_r; lia. }
    etrans; [apply (Z.div_le_compat_l _ (2 ^ eh * 2)); [lia|lia]|]. apply Z.div_le_mono; [lia|].
    assert (2 ^ prec = 2 * 2 ^ (prec - 1)) by by vm_compute. lia.
  - destruct (Z.leb_spec 0 (- eh)) as [H0|H0].
    + assert (eh = 0) as -> by lia. cbn. rewrite Z.mul_1_r, Z.div_1_r. lia.
    + rewrite Z.opp_involutive. split; [apply Z.div_pos; lia|]. apply Z.div_le_mono; lia.
Qed.

(** ** Rounding *)

Lemma shr_1_le r : 0 <= shr_m r -> 0 <= shr_m (shr_1 r) /\ 2 * shr_m (shr_1 r) <= shr_m r.
Proof. destruct r as [m ? ?]. cbn. destruct m as [|[p|p|]|p]; cbn; lia. Qed.

Lemma shift_le n r : 0 <= shr_m r ->
  0 <= shr_m (SpecFloat.iter_pos shr_1 n r) /\ shr_m (SpecFloat.iter_pos shr_1 n r) * 2 ^ Z.pos n <= shr_m r.
Proof.
  revert r. induction n as [n IH|n IH|]; intros r Hr; cbn [SpecFloat.iter_pos].
  - destruct (shr_1_le r Hr) as [H1 H2]. destruct (IH _ H1) as [H3 H4]. destruct (IH _ H3) as [H5 H6].
    split; [done|]. replace (Z.pos n~1) with (1 + Z.pos n + Z.pos n) by lia. rewrite !Z.pow_add_r by lia.
    pose proof (Z.pow_pos_nonneg 2 (Z.pos n) ltac:(lia) ltac:(lia)). change (2 ^ 1) with 2. nia.
  - destruct (IH _ Hr) as [H3 H4]. destruct (IH _ H3) as [H5 H6].
    split; [done|]. replace (Z.pos n~0) with (Z.pos n + Z.pos n) by lia. rewrite Z.pow_add_r by lia.
    pose proof (Z.pow_pos_nonneg 2 (Z.pos n) ltac:(lia) ltac:(lia)). nia.
  - destruct (shr_1_le r Hr). split; [done|]. change (2 ^ 1) with 2. lia.
Qed.

Lemma digits_lt m : 0 <= m -> m < 2 ^ Zdigits2 m.
Proof.
  destruct m as [|m|m]; [done| |lia]. intros _. change (Zdigits2 (Z.pos m)) with (Z.pos (SpecFloat.digits2_pos m)). rewrite digits2_pos_size. pose proof (Pos.size_gt m).
  rewrite <- Pos2Z.inj_pow. lia.
Qed.

Lemma Zdigits2_le m k : 0 < m < 2 ^ k -> Zdigits2 m <= k.
Proof.
  destruct m as [|m|m]; try lia. intros [_ Hm].
  change (Zdigits2 (Z.pos m)) with (Z.pos (SpecFloat.digits2_pos m)). rewrite digits2_pos_size.
  assert (0 <= k) by (destruct (Z.leb_spec 0 k); [done|]; rewrite (Z.pow_neg_r 2 k) in Hm by done; lia).
  pose proof (Pos.size_le m) as Hs. apply Z.le_ngt. intros Hk.
  pose proof (Z.pow_le_mono_r 2 (k + 1) (Z.pos (Pos.size m)) ltac:(lia) ltac:(lia)) as Hp.
  rewrite Z.pow_add_r in Hp by lia. change (2 ^ 1) with 2 in Hp. rewrite <- Pos2Z.inj_pow in Hp. lia.
Qed.

Lemma round_up_le m l : m <= round_nearest_even m l <= m + 1.
Proof. destruct l as [|[]]; cbn; try lia. destruct (Z.even m); lia. Qed.

Lemma shr_m_of_loc m l : shr_m (shr_record_of_loc m l) = m.
Proof. by destruct l as [|[]]. Qed.

(** For any binary format. *)
Section Format.
Context (prec emax : Z) (Hprec : 0 < prec).
#[local] Abbreviation least := (3 - emax - prec).

(** What of a number of the format the bounds need. *)
Definition fits_in (f : spec_float) : Prop :=
  match f with S754_finite _ m e => Z.pos m < 2 ^ prec /\ least <= e | _ => True end.

(** The places a mantissa is shifted by to fit. *)
Definition places_in (m e : Z) : Z := Z.max 0 (Z.max (Zdigits2 m + e - prec) least - e).

Lemma shr_fexp_le m e l : 0 <= m ->
  let '(r, e') := shr_fexp prec emax m e l in
  0 <= shr_m r /\ e' = e + places_in m e /\ shr_m r * 2 ^ places_in m e <= m.
Proof.
  intros Hm. unfold shr_fexp, shr, fexp, SpecFloat.emin, places_in.
  destruct (Z.max (Zdigits2 m + e - prec) least - e) as [|n|n] eqn:E.
  - change (Z.max 0 0) with 0. rewrite shr_m_of_loc. split_and!; lia.
  - replace (Z.max 0 (Z.pos n)) with (Z.pos n) by lia.
    pose proof (shift_le n (shr_record_of_loc m l)) as Hs. rewrite shr_m_of_loc in Hs. by destruct (Hs Hm).
  - replace (Z.max 0 (Z.neg n)) with 0 by lia. rewrite shr_m_of_loc. split_and!; lia.
Qed.

Lemma shr_fexp_fits m e l : 0 <= m ->
  let '(r, e') := shr_fexp prec emax m e l in shr_m r < 2 ^ prec /\ least <= e'.
Proof.
  intros Hm. pose proof (shr_fexp_le m e l Hm) as H. destruct (shr_fexp _ _ _ _ _) as [r e'].
  destruct H as (H0 & -> & H). pose proof (digits_lt m Hm). assert (0 <= Zdigits2 m) by (destruct m; cbn; lia).
  assert (0 <= places_in m e /\ Zdigits2 m <= prec + places_in m e /\ least <= e + places_in m e) as (Hp & Hd & ?)
    by (unfold places_in; lia).
  split; [|done]. pose proof (Z.pow_le_mono_r 2 _ _ ltac:(lia) Hd). rewrite Z.pow_add_r in * by lia.
  pose proof (Z.pow_pos_nonneg 2 (places_in m e) ltac:(lia) ltac:(lia)). nia.
Qed.

(** The rounded number is above the exact one by at most one unit of its last place. *)
Lemma round_aux_le s m e l : 0 <= m ->
  match binary_round_aux prec emax s m e l with
  | S754_finite s' m' e' => s' = s /\ e <= e' /\ Z.pos m' * 2 ^ (e' - e) <= m + 2 ^ places_in m e
  | S754_zero _ | S754_infinity _ => True
  | S754_nan => False
  end.
Proof.
  intros Hm. unfold binary_round_aux.
  pose proof (shr_fexp_le m e l Hm) as H1. destruct (shr_fexp _ _ m e _) as [r1 e1].
  destruct H1 as (Hr1 & -> & H1).
  set (n := places_in m e) in *. assert (0 <= n) by (unfold n, places_in; lia).
  set (q := round_nearest_even _ _). pose proof (round_up_le (shr_m r1) (loc_of_shr_record r1)) as Hq. fold q in Hq.
  pose proof (shr_fexp_le q (e + n) loc_Exact ltac:(lia)) as H2. destruct (shr_fexp _ _ q _ _) as [r2 e2].
  destruct H2 as (Hr2 & -> & H2).
  set (k := places_in q (e + n)) in *. assert (0 <= k) by (unfold k, places_in; lia).
  destruct (shr_m r2) as [|p|p] eqn:Em; [done| |lia].
  destruct (_ <=? _); [|done]. split_and!; [done|lia|].
  replace (e + n + k - e) with (n + k) by lia. rewrite Z.pow_add_r by lia.
  pose proof (Z.pow_pos_nonneg 2 n ltac:(lia) ltac:(lia)). pose proof (Z.pow_pos_nonneg 2 k ltac:(lia) ltac:(lia)). nia.
Qed.

Lemma round_aux_fits s m e l : 0 <= m -> fits_in (binary_round_aux prec emax s m e l).
Proof.
  intros Hm. unfold binary_round_aux.
  pose proof (shr_fexp_le m e l Hm) as H1. destruct (shr_fexp _ _ m e _) as [r1 e1].
  pose proof (round_up_le (shr_m r1) (loc_of_shr_record r1)) as Hq. set (q := round_nearest_even _ _) in *.
  pose proof (shr_fexp_fits q e1 loc_Exact ltac:(lia)) as H2. destruct (shr_fexp _ _ q _ _) as [r2 e2].
  destruct (shr_m r2); [done| |done]. by destruct (_ <=? _).
Qed.

(** What stays below the largest exponent does not overflow. *)
Lemma round_aux_finite s m e l : 0 <= m -> Z.max e (Z.max (Zdigits2 m + e - prec) least) < emax - prec ->
  match binary_round_aux prec emax s m e l with S754_infinity _ => False | _ => True end.
Proof.
  intros Hm Hsmall. unfold binary_round_aux.
  pose proof (shr_fexp_le m e l Hm) as H1. pose proof (shr_fexp_fits m e l Hm) as F1.
  destruct (shr_fexp _ _ m e _) as [r1 e1]. destruct H1 as (Hr1 & -> & _), F1 as [Hm1 Hmin].
  pose proof (round_up_le (shr_m r1) (loc_of_shr_record r1)) as Hq. set (q := round_nearest_even _ _) in *.
  pose proof (shr_fexp_le q (e + places_in m e) loc_Exact ltac:(lia)) as H2. destruct (shr_fexp _ _ q _ _) as [r2 e2].
  destruct H2 as (Hr2 & -> & _).
  assert (Hd : Zdigits2 q <= prec + 1).
  { destruct (Z.eq_dec q 0) as [->|]; [cbn; lia|]. apply Zdigits2_le. rewrite Z.pow_add_r by lia. change (2 ^ 1) with 2. lia. }
  assert (e + places_in m e + places_in q (e + places_in m e) <= emax - prec) as He by (unfold places_in in *; lia).
  destruct (shr_m r2) as [|p|p]; [done| |done]. by rewrite (proj2 (Z.leb_le _ _) He).
Qed.

(** A number that is not NaN has a sum with a finite one, and a quotient by a finite nonzero
    one, that is not NaN either, and fits. *)
Definition number (f : spec_float) : Prop := f <> S754_nan /\ fits_in f.

Lemma round_aux_number s m e l : 0 <= m -> number (binary_round_aux prec emax s m e l).
Proof.
  intros Hm. split; [|by apply round_aux_fits]. pose proof (round_aux_le s m e l Hm). by destruct (binary_round_aux _ _ _ _ _ _).
Qed.

Lemma normalize_number m e z : number (binary_normalize prec emax m e z).
Proof. destruct m as [|p|p]; [done| |]; unfold binary_normalize, binary_round; (destruct (shl_align _ _ _); by apply round_aux_number). Qed.

Lemma SFsub_number f s m e : number f -> fits_in (S754_finite s m e) -> number (SFsub prec emax f (S754_finite s m e)).
Proof. intros [Hn Hf] Hc. destruct f as [| | |s' m' e']; try done. apply normalize_number. Qed.

Lemma SFdiv_number f s m e : number f -> number (SFdiv prec emax f (S754_finite s m e)).
Proof.
  intros [Hn Hf]. destruct f as [| | |s' m' e']; try done. cbn [SFdiv]. unfold SFdiv_core_binary.
  set (e1 := Z.min _ _). set (m1 := match (e' - e - e1) with Z0 => _ | _ => _ end).
  assert (0 <= m1) as Hm1 by (unfold m1; destruct (e' - e - e1); [done| |done]; by rewrite Z.shiftl_nonneg).
  pose proof (Z.div_pos m1 (Z.pos m) Hm1 ltac:(lia)) as Hq. unfold Z.div in Hq.
  destruct (Z.div_eucl m1 (Z.pos m)) as [q r]. by apply round_aux_number.
Qed.
End Format.

(** The same of a [double]. *)
Definition places (m e : Z) : Z := Z.max 0 (Z.max (Zdigits2 m + e - prec) (-1074) - e).

Lemma binary_round_aux_le p e :
  match binary_round_aux prec emax false (Z.pos p) e loc_Exact with
  | S754_finite s m e' => s = false /\ e <= e' /\ Z.pos m * 2 ^ (e' - e) <= Z.pos p + 2 ^ places (Z.pos p) e
  | S754_zero _ | S754_infinity _ => True
  | S754_nan => False
  end.
Proof. exact (round_aux_le prec emax false (Z.pos p) e loc_Exact ltac:(lia)). Qed.

Lemma binary_round_aux_fits s p e : fits (binary_round_aux prec emax s (Z.pos p) e loc_Exact).
Proof. exact (round_aux_fits prec emax eq_refl s (Z.pos p) e loc_Exact ltac:(lia)). Qed.

(** A product of two mantissas with an exponent that is not positive does not overflow. *)
Lemma binary_round_aux_finite s p e : Z.pos p < 2 ^ 106 -> e <= 0 ->
  match binary_round_aux prec emax s (Z.pos p) e loc_Exact with S754_infinity _ => False | _ => True end.
Proof.
  intros Hp He. apply (round_aux_finite prec emax eq_refl); [lia|].
  pose proof (Zdigits2_le (Z.pos p) 106 ltac:(lia)). unfold prec, emax. lia.
Qed.

Lemma double_of_Z_fits z : fits (double_of_Z z).
Proof.
  destruct z as [|p|p]; [done| |]; unfold double_of_Z, binary_normalize, binary_round;
    (destruct (shl_align _ _ _); apply binary_round_aux_fits).
Qed.

(** The integer part of a double that is [m * 2 ^ (e' - e)] units of [2 ^ e]. *)
Lemma double_trunc_le m e e' N B :
  e <= e' -> e <= 0 -> Z.pos m * 2 ^ (e' - e) <= N -> N < (B + 1) * 2 ^ (- e) ->
  0 <= double_trunc (S754_finite false m e') <= B.
Proof.
  intros He He0 Hm HN. cbn. destruct (Z.leb_spec 0 e') as [H0|H0].
  - pose proof (Z.pow_pos_nonneg 2 e' ltac:(lia) ltac:(lia)). split; [lia|].
    replace (e' - e) with (e' + - e) in Hm by lia. rewrite Z.pow_add_r in Hm by lia.
    pose proof (Z.pow_pos_nonneg 2 (- e) ltac:(lia) ltac:(lia)). nia.
  - split; [apply Z.div_pos; [lia|apply Z.pow_pos_nonneg; lia]|].
    apply Z.lt_succ_r. apply Z.div_lt_upper_bound; [apply Z.pow_pos_nonneg; lia|].
    pose proof (Z.pow_pos_nonneg 2 (e' - e) ltac:(lia) ltac:(lia)).
    assert (2 ^ (- e) = 2 ^ (- e') * 2 ^ (e' - e)) as E by (rewrite <- Z.pow_add_r by lia; f_equal; lia).
    rewrite E in HN. nia.
Qed.
