(* ===== verification/Text.v ===== *)
(** Text codecs and validators: form decoding, percent encoding, host names,
    store segments, Wi-Fi credentials and camel-case splitting.

    Models [src/src/core/url_codec.cpp], the encoder of
    [src/src/core/weather_routes.cpp], [src/src/core/host_validation.h],
    [src/src/core/wifi_credentials.h], [src/src/platform/store_key_validation.h],
    the setting validators of [harmony_connection.cpp] and [kodi_client.cpp], and
    [src/src/ui/text_format.cpp]. *)
From S2P Require Import Prelude.

(** ** [url_codec.cpp] *)

Definition hex_value (c : ascii) : Z :=
  if isdigit c then code c - 48 else code (tolower c) - 97 + 10.

Fixpoint UrlDecode (text : string) : string :=
  match text with
  | EmptyString => EmptyString
  | String c rest =>
      let plain :=
        String (if Ascii.eqb c "+" then " "%char else c) (UrlDecode rest) in
      match rest with
      | String h1 (String h2 rest') =>
          if Ascii.eqb c "%" && isxdigit h1 && isxdigit h2
          then String (char_of (hex_value h1 * 16 + hex_value h2)) (UrlDecode rest')
          else plain
      | _ => plain
      end
  end.

(** The loop of [ParseFormField]: the first place where [prefix] occurs at a field
    boundary (the start of the text, or after an ampersand); the result is the
    text after it. *)
Fixpoint find_field (prefix : string) (boundary : bool) (form_data : string) : option string :=
  if boundary && starts_with prefix form_data
  then Some (drop_chars (String.length prefix) form_data)
  else match form_data with
       | EmptyString => None
       | String c rest => find_field prefix (Ascii.eqb c "&") rest
       end.

Definition ParseFormField (form_data key : string) : option string :=
  match find_field (key +:+ "=") true form_data with
  | Some rest => Some (UrlDecode (break_at "&" rest).1)
  | None => None
  end.

(** ** [UrlEncode] of [weather_routes.cpp] *)

Definition is_unreserved (c : ascii) : bool :=
  isalnum c || Ascii.eqb c "-" || Ascii.eqb c "_" || Ascii.eqb c "." || Ascii.eqb c "~".

Definition upper_hex_digit (d : Z) : ascii := if d <? 10 then char_of (48 + d) else char_of (55 + d).

Fixpoint UrlEncode (text : string) : string :=
  match text with
  | EmptyString => EmptyString
  | String c rest =>
      if is_unreserved c then String c (UrlEncode rest)
      else String "%" (String (upper_hex_digit (Z.shiftr (code c) 4))
             (String (upper_hex_digit (Z.land (code c) 15)) (UrlEncode rest)))
  end.

(** ** [host_validation.h] *)

Definition HasUnsafeHostChars (value : string) (allow_colon : bool) : bool :=
  if contains_sub "://" value then true
  else if string_existsb (fun c => isspace c || (128 <=? code c) || (code c <? 32) || (code c =? 127)) value
  then true
  else if contains_any "/#?@" value then true
  else if negb allow_colon && contains_char ":" value then true
  else false.

Fixpoint last_char (s : string) : option ascii :=
  match s with
  | EmptyString => None
  | String c EmptyString => Some c
  | String _ s' => last_char s'
  end.

Definition is_hyphen (c : option ascii) : bool :=
  match c with Some c => Ascii.eqb c "-" | None => false end.

Definition first_char (s : string) : option ascii :=
  match s with String c _ => Some c | EmptyString => None end.

Definition IsValidHostnameLabel (label : string) : bool :=
  if is_empty label || (63 <? size label) then false
  else if is_hyphen (first_char label) || is_hyphen (last_char label) then false
  else string_forallb (fun c => isalnum c || Ascii.eqb c "-") label.

(** ** The validators built on it *)

Definition IsValidHubHost (value : string) : bool := negb (HasUnsafeHostChars value false).
Definition IsValidKodiHost (value : string) : bool := negb (HasUnsafeHostChars value false).

Definition kHubHostKey : string := "hub_host".
Definition kHostKey : string := "host".

Definition IsValidHarmonySetting (key value : string) : bool :=
  negb (String.eqb key kHubHostKey) || IsValidHubHost value.
Definition IsValidKodiSetting (key value : string) : bool :=
  negb (String.eqb key kHostKey) || IsValidKodiHost value.

Definition IsValidHubId (value : string) : bool :=
  if is_empty value then false else string_forallb isalnum value.

(** ** [store_key_validation.h] and [wifi_credentials.h] *)

Definition kMaxStoreSegmentLength : Z := 15.

Definition IsValidStoreSegment (segment : string) : bool :=
  if is_empty segment || String.eqb segment "." || String.eqb segment ".."
     || (kMaxStoreSegmentLength <? size segment)
  then false
  else negb (contains_any (String "/" (String backslash EmptyString)) segment)
       && negb (contains_char nul segment).

Definition kMaxWifiSsidBytes : Z := 31.
Definition kMaxWifiPasswordBytes : Z := 63.

Definition IsValidWifiCredentials (ssid password : string) : bool :=
  negb (is_empty ssid) && (size ssid <=? kMaxWifiSsidBytes)
  && (size password <=? kMaxWifiPasswordBytes).

(** ** [text_format.cpp] *)

(** The loop of [SplitCamelCase] after its first character [prev]. *)
Fixpoint split_camel (prev : ascii) (text : string) : string :=
  match text with
  | EmptyString => EmptyString
  | String curr rest =>
      let lower_to_upper := (islower prev || isdigit prev) && isupper curr in
      let acronym_boundary :=
        isupper prev && isupper curr &&
        match rest with String next _ => islower next | EmptyString => false end in
      if lower_to_upper || acronym_boundary
      then String " " (String curr (split_camel curr rest))
      else String curr (split_camel curr rest)
  end.

Definition SplitCamelCase (text : string) : string :=
  match text with
  | EmptyString => EmptyString
  | String c rest => String c (split_camel c rest)
  end.

(** ** Lemmas *)

(** One encoded byte decodes to itself. *)
Lemma hex_pair_decodes c :
  isxdigit (upper_hex_digit (Z.shiftr (code c) 4)) = true /\
  isxdigit (upper_hex_digit (Z.land (code c) 15)) = true /\
  char_of (hex_value (upper_hex_digit (Z.shiftr (code c) 4)) * 16
           + hex_value (upper_hex_digit (Z.land (code c) 15))) = c.
Proof.
  pose proof (by_chars (fun c =>
    isxdigit (upper_hex_digit (Z.shiftr (code c) 4))
    && isxdigit (upper_hex_digit (Z.land (code c) 15))
    && Ascii.eqb (char_of (hex_value (upper_hex_digit (Z.shiftr (code c) 4)) * 16
           + hex_value (upper_hex_digit (Z.land (code c) 15)))) c)
    ltac:(vm_compute; reflexivity) c) as H.
  cbn beta in H. bool_to_prop. split_and!; [done|done|]. by apply Ascii.eqb_eq.
Qed.

Lemma unreserved_plain c :
  is_unreserved c = true -> Ascii.eqb c "%" = false /\ Ascii.eqb c "+" = false /\ Ascii.eqb c "&" = false.
Proof.
  pose proof (by_chars (fun c => implb (is_unreserved c)
    (negb (Ascii.eqb c "%") && negb (Ascii.eqb c "+") && negb (Ascii.eqb c "&")))
    ltac:(vm_compute; reflexivity) c) as H. cbn beta in H.
  intros Hc. rewrite Hc in H. cbn in H. bool_to_prop. done.
Qed.

Lemma UrlDecode_unreserved c s :
  is_unreserved c = true -> UrlDecode (String c s) = String c (UrlDecode s).
Proof.
  intros Hc. destruct (unreserved_plain c Hc) as (H1 & H2 & _). cbn [UrlDecode].
  rewrite H1, H2. cbn [andb]. destruct s as [|? [|? ?]]; done.
Qed.

(** What [UrlEncode] writes holds only unreserved characters and [%]. *)
Lemma upper_hex_digit_unreserved c k :
  k = Z.shiftr (code c) 4 \/ k = Z.land (code c) 15 -> is_unreserved (upper_hex_digit k) = true.
Proof.
  pose proof (by_chars (fun c => is_unreserved (upper_hex_digit (Z.shiftr (code c) 4))
     && is_unreserved (upper_hex_digit (Z.land (code c) 15))) ltac:(vm_compute; reflexivity) c) as H.
  cbn beta in H. bool_to_prop. intros [-> | ->]; done.
Qed.

Lemma UrlEncode_lacks_ampersand s : lacks "&" (UrlEncode s) = true.
Proof.
  induction s as [|c s IH]; [done|]. cbn [UrlEncode].
  destruct (is_unreserved c) eqn:E; rewrite !lacks_cons, IH, ?andb_true_r.
  - by destruct (unreserved_plain c E) as (_ & _ & ->).
  - destruct (unreserved_plain _ (upper_hex_digit_unreserved c _ (or_introl eq_refl))) as (_ & _ & ->).
    by destruct (unreserved_plain _ (upper_hex_digit_unreserved c _ (or_intror eq_refl))) as (_ & _ & ->).
Qed.

Lemma decode_encode s : UrlDecode (UrlEncode s) = s.
Proof.
  induction s as [|c s IH]; [done|]. cbn [UrlEncode].
  destruct (is_unreserved c) eqn:E.
  - by rewrite UrlDecode_unreserved, IH.
  - destruct (hex_pair_decodes c) as (H1 & H2 & H3). cbn [UrlDecode].
    rewrite H1, H2. cbn [andb Ascii.eqb Bool.eqb]. by rewrite H3, IH.
Qed.

(** ** Form bodies *)

(** The body a form with these fields is submitted as. *)
Fixpoint render_form (fields : list (string * string)) : string :=
  match fields with
  | [] => EmptyString
  | (k, v) :: rest =>
      let item := k +:+ "=" +:+ UrlEncode v in
      match rest with [] => item | _ => item +:+ "&" +:+ render_form rest end
  end.

Definition form_key (k : string) : bool := lacks "&" k && lacks "=" k.

Lemma find_field_skip p t r :
  lacks "&" t = true -> find_field p false (t +:+ String "&" r) = find_field p true r.
Proof.
  induction t as [|c t IH]; [done|]. rewrite lacks_cons, sapp_cons. intros H. bool_to_prop.
  cbn [find_field andb]. rewrite H. by apply IH.
Qed.

Lemma find_field_none p t : lacks "&" t = true -> find_field p false t = None.
Proof.
  induction t as [|c t IH]; [done|]. rewrite lacks_cons. intros H. bool_to_prop.
  cbn [find_field andb]. rewrite H. by apply IH.
Qed.

(** A field item [k=...] starts with [key=] exactly when it is the field [key]. *)
Lemma starts_with_key key k s :
  lacks "=" key = true -> lacks "=" k = true ->
  starts_with (key +:+ "=") (k +:+ String "=" s) = String.eqb key k.
Proof.
  revert k. induction key as [|a key IH]; intros [|b k]; cbn [starts_with String.eqb];
    rewrite ?lacks_cons, ?sapp_nil_l, ?sapp_cons; intros H1 H2; bool_to_prop; cbn [starts_with].
  - done.
  - by rewrite Ascii.eqb_sym, H.
  - by rewrite H.
  - rewrite IH by done. by destruct (Ascii.eqb a b).
Qed.

(** Looking a key up at an item that is not its field moves on to the next item. *)
Lemma find_field_miss key k v tail :
  form_key key = true -> form_key k = true -> String.eqb key k = false ->
  lacks "&" v = true ->
  find_field (key +:+ "=") true ((k +:+ String "=" v) +:+ String "&" tail)
    = find_field (key +:+ "=") true tail /\
  find_field (key +:+ "=") true (k +:+ String "=" v) = None.
Proof.
  unfold form_key. intros H1 H2 Hne Hv. bool_to_prop.
  assert (Hitem : lacks "&" (k +:+ String "=" v) = true) by (rewrite lacks_app, lacks_cons, Hv; by rewrite H).
  pose proof (starts_with_key key k v ltac:(done) ltac:(done)) as Hs1.
  pose proof (starts_with_key key k (v +:+ String "&" tail) ltac:(done) ltac:(done)) as Hs2.
  rewrite Hne in *. rewrite <- sapp_cons, <- sapp_assoc in Hs2.
  destruct (k +:+ String "=" v) as [|c t] eqn:Et; [by destruct k|].
  rewrite lacks_cons in Hitem. apply andb_true_iff in Hitem as [Hc Ht].
  apply negb_true_iff in Hc. rewrite sapp_cons in *. cbn [find_field].
  rewrite Hs1, Hs2. cbn [andb]. rewrite Hc.
  split; [by apply find_field_skip | by apply find_field_none].
Qed.

Lemma find_field_hit key v :
  find_field (key +:+ "=") true (key +:+ String "=" v) = Some v.
Proof.
  replace (key +:+ String "=" v) with ((key +:+ "=") +:+ v) by (by rewrite sapp_assoc).
  destruct ((key +:+ "=") +:+ v) as [|c s] eqn:E; [by destruct key|].
  pose proof (starts_with_app (key +:+ "=") v) as Hs.
  pose proof (drop_chars_app (key +:+ "=") v) as Hd. rewrite E in Hs, Hd.
  cbn [find_field]. by rewrite Hs, Hd.
Qed.

(** ** Properties *)

(** Percent-encoding a query component and decoding it again gives the original
    bytes, for every byte string: spaces, plus signs, ampersands and non-ASCII
    bytes included. *)
Theorem url_encode_decode (text : string) : UrlDecode (UrlEncode text) = text.
Proof. apply decode_encode. Qed.

(** Field extraction is correct on every form body whose keys hold no [&] or [=]:
    it returns the decoded value of the first field with that key and nothing else,
    so no text inside another field's value can be taken for the field. *)
Theorem parse_form_field_correct (fields : list (string * string)) (key : string) :
  forallb (fun '(k, _) => form_key k) fields = true -> form_key key = true ->
  ParseFormField (render_form fields) key = assoc key fields.
Proof.
  unfold ParseFormField. intros Hf Hk.
  induction fields as [|[k v] rest IH]; cbn [render_form assoc forallb] in *.
  { destruct key; [done|]. reflexivity. }
  bool_to_prop. specialize (IH ltac:(done)).
  pose proof (UrlEncode_lacks_ampersand v) as Hv.
  change ("=" +:+ UrlEncode v) with (String "=" (UrlEncode v)).
  destruct (String.eqb key k) eqn:E.
  - apply String.eqb_eq in E as <-. destruct rest as [|f rest].
    + rewrite find_field_hit, break_at_missing by done. cbn [fst]. by rewrite decode_encode.
    + rewrite sapp_assoc, sapp_cons, find_field_hit.
      change ("&" +:+ ?r) with (String "&" r).
      rewrite break_at_found by done. cbn [fst]. by rewrite decode_encode.
  - destruct rest as [|f rest].
    + by rewrite (proj2 (find_field_miss key k _ EmptyString Hk ltac:(done) E Hv)).
    + change ("&" +:+ ?r) with (String "&" r).
      rewrite (proj1 (find_field_miss key k _ _ Hk ltac:(done) E Hv)). exact IH.
Qed.

Lemma parse_form_field_correct_witness :
  forallb (fun '(k, _) => form_key k) [("password", "ssid=x&ssid=y"); ("ssid", "Real Net+")] = true
  /\ ParseFormField (render_form [("password", "ssid=x&ssid=y"); ("ssid", "Real Net+")]) "ssid"
     = Some "Real Net+".
Proof.
  split; [reflexivity|].
  apply (parse_form_field_correct [("password", "ssid=x&ssid=y"); ("ssid", "Real Net+")] "ssid");
    reflexivity.
Defined.

(** The bytes that cannot change where a URL points: printable ASCII that is not a
    path, fragment, query or userinfo separator, nor a colon unless allowed. *)
Definition url_safe_char (allow_colon : bool) (c : ascii) : bool :=
  (32 <? code c) && (code c <? 127)
  && negb (Ascii.eqb c "/" || Ascii.eqb c "#" || Ascii.eqb c "?" || Ascii.eqb c "@")
  && (allow_colon || negb (Ascii.eqb c ":")).

Lemma safe_no_scheme allow s :
  string_forallb (url_safe_char allow) s = true -> contains_sub "://" s = false.
Proof.
  induction s as [|c s IH]; [done|]. cbn [string_forallb]. intros H.
  apply andb_true_iff in H as [Hc Hs]. cbn [contains_sub]. rewrite IH, orb_false_r by done.
  cbn [starts_with]. destruct s as [|d s]; [by rewrite andb_false_r|].
  cbn [string_forallb] in Hs. apply andb_true_iff in Hs as [Hd _]. cbn [starts_with].
  destruct (Ascii.eqb_spec "/" d); [subst d|by rewrite andb_false_r].
  by destruct allow.
Qed.

Lemma url_safe_split allow c :
  url_safe_char allow c =
    negb (isspace c || (128 <=? code c) || (code c <? 32) || (code c =? 127))
    && negb (contains_char c "/#?@") && (allow || negb (Ascii.eqb ":" c)).
Proof.
  destruct allow;
    [pose proof (by_chars (fun c => Bool.eqb (url_safe_char true c)
       (negb (isspace c || (128 <=? code c) || (code c <? 32) || (code c =? 127))
        && negb (contains_char c "/#?@") && true)) ltac:(vm_compute; reflexivity) c) as H
    |pose proof (by_chars (fun c => Bool.eqb (url_safe_char false c)
       (negb (isspace c || (128 <=? code c) || (code c <? 32) || (code c =? 127))
        && negb (contains_char c "/#?@") && negb (Ascii.eqb ":" c)))
        ltac:(vm_compute; reflexivity) c) as H];
  by apply eqb_prop in H.
Qed.

Lemma screened_lacks_slash value allow : HasUnsafeHostChars value allow = false -> lacks "/" value = true.
Proof.
  unfold HasUnsafeHostChars. destruct (contains_sub _ _); [done|]. destruct (string_existsb _ value) in |- *; [done|].
  destruct (contains_any "/#?@" value) eqn:Ea; [done|]. intros _.
  unfold contains_any, string_existsb in Ea. apply negb_false_iff in Ea. unfold lacks. revert Ea.
  apply string_forallb_impl. intros c. destruct (Ascii.eqb_spec c "/"); [by subst|done].
Qed.

(** The host screen accepts exactly the values made of URL-safe bytes: whatever it
    lets through, no byte of it can start a scheme, path, query, fragment or
    userinfo, and a manually entered value cannot carry a port or an IPv6 literal. *)
Theorem host_screen_exact (value : string) (allow_colon : bool) :
  HasUnsafeHostChars value allow_colon = negb (string_forallb (url_safe_char allow_colon) value).
Proof.
  destruct (string_forallb (url_safe_char allow_colon) value) eqn:E; cbn [negb];
    unfold HasUnsafeHostChars.
  - rewrite (safe_no_scheme _ _ E). rewrite (string_forallb_ext _ _ _ (url_safe_split allow_colon)) in E.
    rewrite !string_forallb_and in E. apply andb_true_iff in E as [[E1 E2]%andb_true_iff E3].
    unfold contains_any, contains_char at 1, string_existsb. rewrite E1.
    unfold contains_char, string_existsb in E2. unfold contains_char, string_existsb. rewrite E2. cbn [negb].
    destruct allow_colon; [done|]. cbn [orb andb negb] in *. by rewrite E3.
  - rewrite (string_forallb_ext _ _ _ (url_safe_split allow_colon)), !string_forallb_and in E.
    destruct (contains_sub "://" value); [done|].
    unfold contains_any, contains_char, string_existsb in *.
    destruct (string_forallb (fun c => negb (isspace c || _ || _ || _)) value); [|done]. cbn [negb].
    destruct (string_forallb (fun c => negb (negb _)) value); [|done]. cbn [negb andb] in *.
    destruct allow_colon; cbn [orb negb andb] in *.
    + clear -E.
      induction value as [|c s IH]; [done|exact (IH E)].
    + by rewrite E.
Qed.
