(* ===== verification/Storage.v ===== *)
(** The storage service and the host's file-backed stores.

    Models [src/src/core/storage.cpp] over an interface ([KvStore]) that states what
    a settings, cache or secret store promises, and [src/src/platform/host/]
    ([file_backed_store.cpp], [settings_store.cpp], [cache_store.cpp],
    [secret_store.cpp]) as an instance of it over a file tree whose every write and
    erase may fail. The file tree is shared by the three tiers, as the simulator's
    root directory is. *)
From S2P Require Import Prelude Text.

(** ** The stores' interface

    [platform/settings_store.h], [cache_store.h] and [secret_store.h]: one
    namespaced key-value store per tier. *)
Inductive tier := Settings | Cache | Secrets.

#[export] Instance tier_eq_dec : EqDecision tier.
Proof. solve_decision. Defined.

Record SettingsEntry := { se_ns : string; se_key : string; se_value : string }.

Class KvStore (S : Type) := {
  kv_set : tier -> string -> string -> string -> M S bool;
  kv_get : tier -> string -> string -> S -> option string;
  kv_erase : tier -> string -> string -> M S bool;
  kv_list_settings : S -> list SettingsEntry
}.

(** What the clients rely on: a successful write is read back, a successful erase
    leaves nothing, and no operation touches another cell, whether it succeeds or not. The
    host's files keep the first of these where closing them works ([host_laws_closing]), which
    the code does not check ([close_loses_value]). *)
Class KvLaws (S : Type) `{KvStore S} := {
  kv_get_set t ns k v s s' : kv_set t ns k v s = (true, s') -> kv_get t ns k s' = Some v;
  kv_get_erase t ns k s s' : kv_erase t ns k s = (true, s') -> kv_get t ns k s' = None;
  kv_set_other t ns k v s t' ns' k' :
    (t', ns', k') <> (t, ns, k) -> kv_get t' ns' k' (exec (kv_set t ns k v) s) = kv_get t' ns' k' s;
  kv_erase_other t ns k s t' ns' k' :
    (t', ns', k') <> (t, ns, k) -> kv_get t' ns' k' (exec (kv_erase t ns k) s) = kv_get t' ns' k' s
}.

(** ** [storage.cpp] *)

Record VersionedValue := { schema_version : Z; vv_value : string }.

Record SettingEntry := {
  module_id : string; entry_key : string; entry_schema_version : Z; entry_value : string
}.

(** [AdminAuthService::kModuleId], [kPasswordKey] and [IsReservedSettingsKey]. *)
Definition kCoreModuleId : string := "core".
Definition kPasswordKey : string := "admin_pw_hash".

Definition IsReservedSettingsKey (module_id key : string) : bool :=
  String.eqb module_id kCoreModuleId && String.eqb key kPasswordKey.

Definition Encode (schema_version : Z) (value : string) : string :=
  to_string schema_version +:+ String newline value.

Definition Decode (raw : string) : option VersionedValue :=
  match break_at newline raw with
  | (_, None) => None
  | (version, Some value) =>
      match from_chars INT_MIN INT_MAX version with
      | Some (schema_version, EmptyString) =>
          Some {| schema_version := schema_version; vv_value := value |}
      | _ => None
      end
  end.

Definition DecodeIfPresent (raw : option string) : option VersionedValue :=
  match raw with None => None | Some raw => Decode raw end.

Section Storage.
Context {S : Type} `{KvStore S}.

Definition SetSetting (module_id key : string) (schema_version : Z) (value : string) : M S bool :=
  if IsReservedSettingsKey module_id key then ret false
  else kv_set Settings module_id key (Encode schema_version value).

Definition GetSetting (module_id key : string) (s : S) : option VersionedValue :=
  DecodeIfPresent (kv_get Settings module_id key s).

Definition EraseSetting (module_id key : string) : M S bool :=
  if IsReservedSettingsKey module_id key then ret false
  else kv_erase Settings module_id key.

(** The body of the loop of [ListAllSettings]. *)
Definition list_entry (raw : SettingsEntry) : option SettingEntry :=
  if IsReservedSettingsKey (se_ns raw) (se_key raw) then None
  else match Decode (se_value raw) with
       | None => None
       | Some decoded =>
           Some {| module_id := se_ns raw; entry_key := se_key raw;
                   entry_schema_version := schema_version decoded;
                   entry_value := vv_value decoded |}
       end.

Definition ListAllSettings (s : S) : list SettingEntry :=
  omap list_entry (kv_list_settings s).

Definition SetSecret (module_id key : string) (schema_version : Z) (value : string) : M S bool :=
  kv_set Secrets module_id key (Encode schema_version value).

Definition GetSecret (module_id key : string) (s : S) : option VersionedValue :=
  DecodeIfPresent (kv_get Secrets module_id key s).

Definition EraseSecret (module_id key : string) : M S bool := kv_erase Secrets module_id key.

Definition WriteCache (module_id key : string) (schema_version : Z) (value : string) : M S bool :=
  kv_set Cache module_id key (Encode schema_version value).

Definition ReadCache (module_id key : string) (s : S) : option VersionedValue :=
  DecodeIfPresent (kv_get Cache module_id key s).

Definition EraseCache (module_id key : string) : M S bool := kv_erase Cache module_id key.
End Storage.

(** ** The host's files

    A path is its list of components. Appending a string splits it at its slashes,
    and a leading slash restarts from the root, as [std::filesystem::path] does;
    [resolve] is what the operating system makes of [.] and [..]. *)
Abbreviation path := (list string) (only parsing).

Fixpoint split_on (c : ascii) (s : string) : list string :=
  match s with
  | EmptyString => [EmptyString]
  | String a s' =>
      match split_on c s' with
      | [] => []
      | w :: ws => if Ascii.eqb a c then EmptyString :: w :: ws else String a w :: ws
      end
  end.

Definition components (s : string) : path :=
  List.filter (fun w => negb (is_empty w)) (split_on "/" s).

Definition path_append (p : path) (s : string) : path :=
  if starts_with "/" s then components s else p ++ components s.

Definition resolve (p : path) : path :=
  foldl (fun acc w =>
    if String.eqb w "." then acc
    else if String.eqb w ".." then List.removelast acc
    else acc ++ [w]) [] p.

(** How one file operation ends: it works, the directory or the file cannot be
    opened, or the write stops after [written]. *)
Inductive io_outcome := IoOk | IoNoDirectory | IoNoOpen | IoShort (written : string).

(** The regular files, and the outcomes of the operations to come (all of them work
    once the list is used up). *)
Record FileTree := { files : gmap (list string) string; outcomes : list io_outcome }.

Definition next_outcome : M FileTree io_outcome := fun fs =>
  match outcomes fs with
  | [] => (IoOk, fs)
  | o :: os => (o, {| files := files fs; outcomes := os |})
  end.

Definition put_file (p : path) (content : string) : M FileTree unit :=
  modify (fun fs => {| files := <[p := content]> (files fs); outcomes := outcomes fs |}).

(** [WriteFile] looks at the stream before it goes out of scope; what is still in its buffer is
    written when it is closed, and nothing sees whether that works. [at_close] says what a file
    is left with when it does not. *)
Abbreviation closing := (FileTree -> path -> string -> option string) (only parsing).

Definition closes_ok : closing := fun _ _ _ => None.

Definition WriteFile (at_close : closing) (p : path) (content : string) : M FileTree bool :=
  let* o := next_outcome in
  match o with
  | IoNoDirectory => ret false
  | IoNoOpen => ret false
  | IoShort written => put_file p written ;;* ret false
  | IoOk =>
      let* fs := get in
      put_file p (default content (at_close fs p content)) ;;* ret true
  end.

Definition ReadFile (p : path) (fs : FileTree) : option string := files fs !! p.

(** Removing a file that is not there is not an error. *)
Definition EraseFile (p : path) : M FileTree bool :=
  let* o := next_outcome in
  match o with
  | IoOk =>
      modify (fun fs => {| files := delete p (files fs); outcomes := outcomes fs |}) ;;* ret true
  | _ => ret false
  end.

(** The stores differ only in the directory they use under the root. *)
Definition tier_directory (t : tier) : string :=
  match t with Settings => "settings" | Cache => "cache" | Secrets => "secrets" end.

Section HostStore.
Context (at_close : closing) (root_dir : path).

Definition PathFor (t : tier) (ns key : string) : path :=
  resolve (path_append (path_append (path_append root_dir (tier_directory t)) ns) key).

Definition HostSet (t : tier) (ns key value : string) : M FileTree bool :=
  if negb (IsValidStoreSegment ns) || negb (IsValidStoreSegment key) then ret false
  else WriteFile at_close (PathFor t ns key) value.

Definition HostGet (t : tier) (ns key : string) (fs : FileTree) : option string :=
  if negb (IsValidStoreSegment ns) || negb (IsValidStoreSegment key) then None
  else ReadFile (PathFor t ns key) fs.

Definition HostErase (t : tier) (ns key : string) : M FileTree bool :=
  if negb (IsValidStoreSegment ns) || negb (IsValidStoreSegment key) then ret false
  else EraseFile (PathFor t ns key).

(** The entry a file stands for when it lies two levels below the settings directory. *)
Definition settings_entry_of (f : path * string) : option SettingsEntry :=
  let dir := resolve (path_append root_dir "settings") in
  if decide (take (length dir) f.1 = dir) then
    match drop (length dir) f.1 with
    | [ns; key] => Some {| se_ns := ns; se_key := key; se_value := f.2 |}
    | _ => None
    end
  else None.

Definition HostListAll (fs : FileTree) : list SettingsEntry :=
  omap settings_entry_of (map_to_list (files fs)).

Definition HostKvStore : KvStore FileTree := {|
  kv_set := HostSet; kv_get := HostGet; kv_erase := HostErase;
  kv_list_settings := HostListAll
|}.
End HostStore.

(** ** Lemmas: the envelope *)

Lemma int_bounds z : INT_MIN <= z <= INT_MAX -> Z.abs z < 10 ^ 20.
Proof. unfold INT_MIN, INT_MAX. intros H. assert (2 ^ 31 < 10 ^ 20) by (vm_compute; done). lia. Qed.

Lemma Decode_Encode v value :
  INT_MIN <= v <= INT_MAX -> Decode (Encode v value) = Some {| schema_version := v; vv_value := value |}.
Proof.
  intros Hv. unfold Decode, Encode.
  rewrite break_at_found by (by apply to_string_lacks).
  rewrite <- (sapp_nil_r (to_string v)), to_string_from_chars;
    [done|lia|unfold INT_MIN; lia|by apply int_bounds|done].
Qed.
#[export] Hint Rewrite Decode_Encode using done : homedeck.

(** ** Lemmas: paths *)

Lemma split_on_lacks c s : lacks c s = true -> split_on c s = [s].
Proof.
  induction s as [|a s IH]; [done|]. rewrite lacks_cons. intros H.
  apply andb_true_iff in H as [Ha Hs]. apply negb_true_iff in Ha.
  cbn [split_on]. by rewrite IH, Ha.
Qed.

Lemma existsb_lacks c s : contains_char c s = false -> lacks c s = true.
Proof.
  unfold contains_char, string_existsb, lacks. rewrite negb_false_iff. intros H.
  erewrite string_forallb_ext; [exact H|]. intros a. cbn. by rewrite Ascii.eqb_sym.
Qed.

(** A valid segment is one ordinary path component. *)
Lemma valid_segment seg :
  IsValidStoreSegment seg = true ->
  lacks "/" seg = true /\ is_empty seg = false /\
  String.eqb seg "." = false /\ String.eqb seg ".." = false.
Proof.
  unfold IsValidStoreSegment. intros H. repeat case_if; [done|].
  bool_to_prop. split_and!; try done.
  unfold contains_any, string_existsb in *. rewrite negb_false_iff in *.
  unfold lacks. eapply string_forallb_impl; [|done]. intros c. cbn beta.
  unfold contains_char, string_existsb. cbn [string_forallb].
  rewrite (Ascii.eqb_sym c "/"). by destruct (Ascii.eqb c "/"), (Ascii.eqb "/" c).
Qed.

Lemma append_valid p seg : IsValidStoreSegment seg = true -> path_append p seg = p ++ [seg].
Proof.
  intros H. destruct (valid_segment seg H) as (Hl & He & _ & _).
  unfold path_append, components. rewrite split_on_lacks by done. cbn [List.filter].
  rewrite He. cbn [negb]. destruct seg as [|c s]; [done|].
  rewrite lacks_cons in Hl. apply andb_true_iff in Hl as [Hc _]. apply negb_true_iff in Hc.
  cbn [starts_with]. by rewrite Ascii.eqb_sym, Hc.
Qed.

Lemma resolve_snoc p seg :
  String.eqb seg "." = false -> String.eqb seg ".." = false ->
  resolve (p ++ [seg]) = resolve p ++ [seg].
Proof. intros H1 H2. unfold resolve. rewrite foldl_app. cbn. by rewrite H1, H2. Qed.

Lemma tier_directory_append root t :
  resolve (path_append root (tier_directory t)) = resolve root ++ [tier_directory t].
Proof. destruct t; unfold path_append; cbn; by rewrite resolve_snoc. Qed.

(** A valid key's file lies two levels below its tier's directory. *)
Lemma PathFor_valid root t ns key :
  IsValidStoreSegment ns = true -> IsValidStoreSegment key = true ->
  PathFor root t ns key = resolve root ++ [tier_directory t; ns; key].
Proof.
  intros Hn Hk. unfold PathFor. rewrite !append_valid by done.
  destruct (valid_segment ns Hn) as (_ & _ & ? & ?). destruct (valid_segment key Hk) as (_ & _ & ? & ?).
  rewrite !resolve_snoc, tier_directory_append by done. by rewrite <- !app_assoc.
Qed.

Lemma tier_directory_inj t t' : tier_directory t = tier_directory t' -> t = t'.
Proof. by destruct t, t'. Qed.

Lemma PathFor_inj root t ns key t' ns' key' :
  IsValidStoreSegment ns = true -> IsValidStoreSegment key = true ->
  IsValidStoreSegment ns' = true -> IsValidStoreSegment key' = true ->
  PathFor root t ns key = PathFor root t' ns' key' -> (t, ns, key) = (t', ns', key').
Proof.
  intros ????. rewrite !PathFor_valid by done. intros [= Ht -> ->]%app_inv_head.
  by apply tier_directory_inj in Ht as ->.
Qed.

(** ** Lemmas: the host store keeps the interface's laws *)

Section HostLaws.
Context (at_close : FileTree -> list string -> string -> option string) (root : list string).

(** A file operation that can only change one path leaves the other cells alone. *)
Lemma host_other t ns k t' ns' k' (m : M FileTree bool) fs :
  (t', ns', k') <> (t, ns, k) ->
  IsValidStoreSegment ns = true -> IsValidStoreSegment k = true ->
  (forall p, p <> PathFor root t ns k -> files (exec m fs) !! p = files fs !! p) ->
  HostGet root t' ns' k' (exec m fs) = HostGet root t' ns' k' fs.
Proof.
  intros Hne Hn Hk Hm. unfold HostGet, ReadFile.
  destruct (IsValidStoreSegment ns') eqn:Hn'; [|done].
  destruct (IsValidStoreSegment k') eqn:Hk'; [|done]. cbn [negb orb].
  apply Hm. intros Heq. by apply PathFor_inj in Heq.
Qed.

Lemma WriteFile_other p content p' fs :
  p' <> p -> files (exec (WriteFile at_close p content) fs) !! p' = files fs !! p'.
Proof.
  intros Hne. unfold WriteFile, next_outcome, put_file. destruct fs as [m [|[] os]]; run;
    by rewrite ?lookup_insert_ne by done.
Qed.

Lemma EraseFile_other p p' fs :
  p' <> p -> files (exec (EraseFile p) fs) !! p' = files fs !! p'.
Proof.
  intros Hne. unfold EraseFile, next_outcome. destruct fs as [m [|[] os]]; run;
    by rewrite ?lookup_delete_ne by done.
Qed.

(** A write that reports success has left the value, or what the failed close left of it. *)
Lemma host_set_holds t ns k v fs fs' :
  HostSet at_close root t ns k v fs = (true, fs') ->
  exists fs1, HostGet root t ns k fs' = Some (default v (at_close fs1 (PathFor root t ns k) v)).
Proof.
  unfold HostSet, HostGet. destruct (IsValidStoreSegment ns) eqn:Hn; [|by run].
  destruct (IsValidStoreSegment k) eqn:Hk; [|by run]. cbn [negb orb].
  unfold WriteFile, next_outcome, put_file, ReadFile.
  destruct fs as [m [|[] os]]; run; intros [= <-]; eexists; cbn; by rewrite lookup_insert_eq.
Qed.

(** The interface's laws hold where files close without an error. *)
Lemma host_laws_closing (Hclose : forall fs p content, at_close fs p content = None) :
  KvLaws FileTree (H := HostKvStore at_close root).
Proof.
  constructor; cbn [kv_set kv_get kv_erase HostKvStore].
  - intros t ns k v s s' Hs. destruct (host_set_holds _ _ _ _ _ _ Hs) as [fs1 ->]. by rewrite Hclose.
  - intros t ns k s s'. unfold HostErase, HostGet.
    destruct (IsValidStoreSegment ns) eqn:Hn; [|by run].
    destruct (IsValidStoreSegment k) eqn:Hk; [|by run]. cbn [negb orb].
    unfold EraseFile, next_outcome, ReadFile.
    destruct s as [m [|[] os]]; run; intros [= <-]; cbn; by rewrite lookup_delete_eq.
  - intros t ns k v s t' ns' k' Hne. unfold HostSet.
    destruct (IsValidStoreSegment ns) eqn:Hn; [|done].
    destruct (IsValidStoreSegment k) eqn:Hk; [|done]. cbn [negb orb].
    apply (host_other t ns k); [done..|]. intros p Hp. by apply WriteFile_other.
  - intros t ns k s t' ns' k' Hne. unfold HostErase.
    destruct (IsValidStoreSegment ns) eqn:Hn; [|done].
    destruct (IsValidStoreSegment k) eqn:Hk; [|done]. cbn [negb orb].
    apply (host_other t ns k); [done..|]. intros p Hp. by apply EraseFile_other.
Qed.
End HostLaws.

Lemma host_laws root : KvLaws FileTree (H := HostKvStore closes_ok root).
Proof. by apply host_laws_closing. Qed.

(** The host reports a write as done that a failing close has cut short. *)
Example close_loses_value :
  let store := HostKvStore (fun _ _ _ => Some EmptyString) ["root"] in
  exists fs, kv_set (KvStore := store) Settings "core" "device_name" "deck" {| files := ∅; outcomes := [] |} = (true, fs) /\
    kv_get (KvStore := store) Settings "core" "device_name" fs = Some EmptyString.
Proof. eexists. split; by vm_compute. Qed.

(** ** The storage service as one map per tier *)

(** The three write, read and erase calls of [Storage], by tier. *)
Definition store_write {S} `{KvStore S} (t : tier) : string -> string -> Z -> string -> M S bool :=
  match t with Settings => SetSetting | Cache => WriteCache | Secrets => SetSecret end.

Definition store_read {S} `{KvStore S} (t : tier) : string -> string -> S -> option VersionedValue :=
  match t with Settings => GetSetting | Cache => ReadCache | Secrets => GetSecret end.

Definition store_erase {S} `{KvStore S} (t : tier) : string -> string -> M S bool :=
  match t with Settings => EraseSetting | Cache => EraseCache | Secrets => EraseSecret end.

Lemma store_read_view {S} `{KvStore S} t m k (s : S) :
  store_read t m k s = DecodeIfPresent (kv_get t m k s).
Proof. by destruct t. Qed.

(** A write either is refused and changes nothing, or is the tier's [kv_set]. *)
Lemma store_write_cases {S} `{KvStore S} t m k ver v (s : S) :
  store_write t m k ver v s = (false, s) \/
  store_write t m k ver v s = kv_set t m k (Encode ver v) s.
Proof.
  destruct t; [|by right..]. cbn. unfold SetSetting.
  destruct (IsReservedSettingsKey m k); [by left|by right].
Qed.

Lemma store_erase_cases {S} `{KvStore S} t m k (s : S) :
  store_erase t m k s = (false, s) \/ store_erase t m k s = kv_erase t m k s.
Proof.
  destruct t; [|by right..]. cbn. unfold EraseSetting.
  destruct (IsReservedSettingsKey m k); [by left|by right].
Qed.

Section StorageSpec.
Context {S : Type} `{HL : KvLaws S}.

Lemma store_write_spec t m k ver v (s : S) ok s' :
  INT_MIN <= ver <= INT_MAX -> store_write t m k ver v s = (ok, s') ->
  (ok = true -> store_read t m k s' = Some {| schema_version := ver; vv_value := v |}) /\
  (forall t' m' k', (t', m', k') <> (t, m, k) -> store_read t' m' k' s' = store_read t' m' k' s).
Proof.
  intros Hv Hw. destruct (store_write_cases t m k ver v s) as [E|E]; rewrite E in Hw.
  - by simplify_eq.
  - split.
    + intros ->. apply kv_get_set in Hw. rewrite store_read_view, Hw. by apply Decode_Encode.
    + intros t' m' k' Hne. rewrite !store_read_view. f_equal.
      rewrite <- (kv_set_other t m k (Encode ver v) s t' m' k' Hne). unfold exec. by rewrite Hw.
Qed.

Lemma store_erase_spec t m k (s : S) ok s' :
  store_erase t m k s = (ok, s') ->
  (ok = true -> store_read t m k s' = None) /\
  (forall t' m' k', (t', m', k') <> (t, m, k) -> store_read t' m' k' s' = store_read t' m' k' s).
Proof.
  intros Hw. destruct (store_erase_cases t m k s) as [E|E]; rewrite E in Hw.
  - by simplify_eq.
  - split.
    + intros ->. apply kv_get_erase in Hw. by rewrite store_read_view, Hw.
    + intros t' m' k' Hne. rewrite !store_read_view. f_equal.
      rewrite <- (kv_erase_other t m k s t' m' k' Hne). unfold exec. by rewrite Hw.
Qed.
End StorageSpec.

Lemma host_entry_listed root ns k v fs :
  IsValidStoreSegment ns = true -> IsValidStoreSegment k = true ->
  files fs !! PathFor root Settings ns k = Some v ->
  In {| se_ns := ns; se_key := k; se_value := v |} (HostListAll root fs).
Proof.
  intros Hn Hk Hf. apply list_elem_of_In, list_elem_of_omap.
  exists (PathFor root Settings ns k, v). split; [by apply elem_of_map_to_list|].
  unfold settings_entry_of. rewrite PathFor_valid by done. cbn [fst snd].
  change "settings" with (tier_directory Settings). rewrite tier_directory_append.
  change [tier_directory Settings; ns; k] with ([tier_directory Settings] ++ [ns; k]).
  rewrite app_assoc, take_app_length, drop_app_length. by case_decide.
Qed.

(** ** Properties *)

(** C8: Storage refines a map from (tier, module, key) to versioned values. Over any
    store that keeps the interface's laws, a write that reports success is read back
    with its version and value, byte for byte; and no write or erase, successful or
    failed, changes what any other cell of any tier reads as. *)
Theorem storage_refines_map {S} `{KvLaws S} (t : tier) (m k v : string) (ver : Z) (s : S) :
  INT_MIN <= ver <= INT_MAX ->
  let '(ok, s') := store_write t m k ver v s in
  let '(gone, s'') := store_erase t m k s' in
  (ok = true -> store_read t m k s' = Some {| schema_version := ver; vv_value := v |}) /\
  (gone = true -> store_read t m k s'' = None) /\
  (forall t' m' k', (t', m', k') <> (t, m, k) ->
     store_read t' m' k' s' = store_read t' m' k' s /\
     store_read t' m' k' s'' = store_read t' m' k' s).
Proof.
  intros Hv. destruct (store_write t m k ver v s) as [ok s'] eqn:Ew.
  destruct (store_erase t m k s') as [gone s''] eqn:Ee.
  destruct (store_write_spec _ _ _ _ _ _ _ _ Hv Ew) as [H1 H2].
  destruct (store_erase_spec _ _ _ _ _ _ Ee) as [H3 H4].
  split_and!; [done|done|]. intros t' m' k' Hne. rewrite H4, H2 by done. done.
Qed.

Lemma storage_refines_map_witness :
  let s := {| files := ∅; outcomes := [IoOk; IoNoOpen] |} in
  GetSetting (H := HostKvStore closes_ok ["root"]) "core" "device_name"
    (exec (SetSetting (H := HostKvStore closes_ok ["root"]) "core" "device_name" 1 "deck") s)
  = Some {| schema_version := 1; vv_value := "deck" |}.
Proof.
  intros s.
  exact (proj1 (storage_refines_map (H0 := host_laws ["root"]) Settings "core" "device_name" "deck" 1 s
                 ltac:(vm_compute; split; discriminate)) eq_refl).
Defined.

(** The generic settings API cannot reach the admin password: on every store it
    refuses to write or erase the reserved key, leaving the store as it was, and
    never lists it, even if the store holds an entry under that name. *)
Theorem reserved_key_unreachable {S} `{KvStore S} (s : S) :
  (forall ver v, SetSetting kCoreModuleId kPasswordKey ver v s = (false, s)) /\
  EraseSetting kCoreModuleId kPasswordKey s = (false, s) /\
  (forall e, In e (ListAllSettings s) -> IsReservedSettingsKey (module_id e) (entry_key e) = false).
Proof.
  split_and!; [done|done|]. intros e He. apply list_elem_of_In, list_elem_of_omap in He as (raw & _ & Hr).
  unfold list_entry in Hr. destruct (IsReservedSettingsKey (se_ns raw) (se_key raw)) eqn:E; [done|].
  destruct (Decode (se_value raw)); by simplify_eq.
Qed.

(** On the host, a key the stores accept always names a file exactly two levels below
    its own tier's directory, whatever its bytes, and two different keys never share
    a file: module and key strings from a request cannot escape or collide. *)
Theorem host_keys_contained (root : list string) (t t' : tier) (ns key ns' key' : string) :
  IsValidStoreSegment ns = true -> IsValidStoreSegment key = true ->
  IsValidStoreSegment ns' = true -> IsValidStoreSegment key' = true ->
  PathFor root t ns key = resolve root ++ [tier_directory t; ns; key] /\
  (PathFor root t ns key = PathFor root t' ns' key' -> (t, ns, key) = (t', ns', key')).
Proof. intros. split; [by apply PathFor_valid | by apply PathFor_inj]. Qed.

Lemma host_keys_contained_witness :
  PathFor ["srv"; ".."; "deck"] Secrets "core" "...a" = ["deck"; "secrets"; "core"; "...a"].
Proof.
  apply (host_keys_contained ["srv"; ".."; "deck"] Secrets Cache "core" "...a" "core" "x"); reflexivity.
Defined.

(** A setting saved through [Storage] is in the next backup: after a successful
    [SetSetting] on the host, [ListAllSettings] holds the entry with its version and
    value. *)
Theorem saved_setting_is_listed (root : list string) (m k v : string) (ver : Z) (fs fs' : FileTree) :
  INT_MIN <= ver <= INT_MAX ->
  SetSetting (H := HostKvStore closes_ok root) m k ver v fs = (true, fs') ->
  In {| module_id := m; entry_key := k; entry_schema_version := ver; entry_value := v |}
     (ListAllSettings (H := HostKvStore closes_ok root) fs').
Proof.
  intros Hv. unfold SetSetting. destruct (IsReservedSettingsKey m k) eqn:Hr; [by run|].
  intros Hs. pose proof (kv_get_set (KvLaws := host_laws root) _ _ _ _ _ _ Hs) as Hg.
  cbn [kv_get HostKvStore] in Hg. unfold HostGet in Hg.
  destruct (IsValidStoreSegment m) eqn:Hm; [|done]. destruct (IsValidStoreSegment k) eqn:Hk; [|done].
  cbn [negb orb] in Hg. unfold ListAllSettings.
  apply list_elem_of_In, list_elem_of_omap. eexists. split.
  - apply list_elem_of_In. exact (host_entry_listed root m k _ fs' Hm Hk Hg).
  - unfold list_entry. cbn [se_ns se_key se_value]. rewrite Hr. by rewrite Decode_Encode.
Qed.

Lemma saved_setting_is_listed_witness :
  In {| module_id := "weather"; entry_key := "latitude"; entry_schema_version := 1; entry_value := "52.5" |}
     (ListAllSettings (H := HostKvStore closes_ok ["r"])
        (exec (SetSetting (H := HostKvStore closes_ok ["r"]) "weather" "latitude" 1 "52.5")
              {| files := ∅; outcomes := [] |})).
Proof.
  apply (saved_setting_is_listed ["r"] "weather" "latitude" "52.5" 1 {| files := ∅; outcomes := [] |});
    [vm_compute; split; discriminate|vm_compute; reflexivity].
Defined.
