(* ===== verification/FirmwareStores.v ===== *)
(** FirmwareStores: the stores of the device.

    Models [src/src/platform/firmware/nvs_blob_store.cpp], [settings_store.cpp],
    [secret_store.cpp] and [cache_store.cpp] as a second instance of the stores' interface
    ([Storage.KvStore]): the settings and the secrets are blobs of two partitions of the NVS
    library, the cache is files of a FAT volume. Both libraries are parameters ([Nvs], [Fat])
    with what their documentation says of a call that succeeds or fails as laws; any call may
    fail, and nothing is assumed of the cell a failed write was for. The two calls that read a
    blob see one state. *)
From S2P Require Import Prelude Text Storage.

(** ** The NVS library *)

Inductive esp_err := ESP_OK | ESP_ERR_NVS_NOT_FOUND | ESP_FAIL (code : Z).

Definition is_ok (err : esp_err) : bool := match err with ESP_OK => true | _ => false end.

(** A handle is its partition and namespace. A read-only call does not change the state;
    [nvs_get_size] is [nvs_get_blob] with no buffer, and [nvs_get_blob] returns what the
    buffer holds. [nvs_blob_entries] is what [nvs_entry_find] and [nvs_entry_next] go through:
    an entry's names, or [None] where [nvs_entry_info] fails. *)
Class Nvs (N : Type) := {
  nvs_open_readwrite : string -> string -> M N esp_err;
  nvs_open_readonly : string -> string -> N -> esp_err;
  nvs_set_blob : string -> string -> string -> string -> M N esp_err;
  nvs_commit : string -> string -> M N esp_err;
  nvs_get_size : string -> string -> string -> N -> esp_err * Z;
  nvs_get_blob : string -> string -> string -> Z -> N -> esp_err * string;
  nvs_erase_key : string -> string -> string -> M N esp_err;
  nvs_blob_entries : string -> N -> list (option (string * string))
}.

(** The names NVS keeps apart: C strings of one to fifteen characters. *)
Definition nvs_name (s : string) : bool := negb (is_empty s) && (size s <=? 15) && lacks nul s.

(** What the library documents: [nvs_blob part ns key n] is the blob stored there. *)
Class NvsLaws (N : Type) `{Nvs N} := {
  nvs_blob : string -> string -> string -> N -> option string;
  nvs_open_keeps p ns p' ns' k' n : nvs_blob p' ns' k' (exec (nvs_open_readwrite p ns) n) = nvs_blob p' ns' k' n;
  nvs_commit_keeps p ns p' ns' k' n : nvs_blob p' ns' k' (exec (nvs_commit p ns) n) = nvs_blob p' ns' k' n;
  nvs_set_stores p ns k v n n' : nvs_set_blob p ns k v n = (ESP_OK, n') -> nvs_blob p ns k n' = Some v;
  nvs_set_keeps p ns k v p' ns' k' n :
    nvs_name ns && nvs_name k && nvs_name ns' && nvs_name k' = true -> (p', ns', k') <> (p, ns, k) ->
    nvs_blob p' ns' k' (exec (nvs_set_blob p ns k v) n) = nvs_blob p' ns' k' n;
  nvs_erase_erases p ns k n err n' : nvs_erase_key p ns k n = (err, n') ->
    match err with ESP_FAIL _ => True | _ => nvs_blob p ns k n' = None end;
  nvs_erase_keeps p ns k p' ns' k' n :
    nvs_name ns && nvs_name k && nvs_name ns' && nvs_name k' = true -> (p', ns', k') <> (p, ns, k) ->
    nvs_blob p' ns' k' (exec (nvs_erase_key p ns k) n) = nvs_blob p' ns' k' n;
  nvs_size_right p ns k n z : nvs_get_size p ns k n = (ESP_OK, z) -> exists v, nvs_blob p ns k n = Some v /\ z = size v;
  nvs_get_right p ns k v n v' : nvs_blob p ns k n = Some v -> nvs_get_blob p ns k (size v) n = (ESP_OK, v') -> v' = v
}.

(** ** [nvs_blob_store.cpp] *)

Section NvsBlobs.
Context {N : Type} `{Nvs N}.

Definition NvsSetBlob (partition_name ns key value : string) : M N bool :=
  if negb (IsValidStoreSegment ns) || negb (IsValidStoreSegment key) then ret false
  else
    let* err := nvs_open_readwrite partition_name ns in
    if negb (is_ok err) then ret false
    else
      let* err := nvs_set_blob partition_name ns key value in
      let* err := if is_ok err then nvs_commit partition_name ns else ret err in
      ret (is_ok err).

Definition NvsGetBlob (partition_name ns key : string) (n : N) : option string :=
  if negb (IsValidStoreSegment ns) || negb (IsValidStoreSegment key) then None
  else if negb (is_ok (nvs_open_readonly partition_name ns n)) then None
  else
    let '(err, z) := nvs_get_size partition_name ns key n in
    if negb (is_ok err) then None
    else
      let '(err, value) := nvs_get_blob partition_name ns key z n in
      if negb (is_ok err) then None else Some value.

Definition NvsEraseBlob (partition_name ns key : string) : M N bool :=
  if negb (IsValidStoreSegment ns) || negb (IsValidStoreSegment key) then ret false
  else
    let* err := nvs_open_readwrite partition_name ns in
    if negb (is_ok err) then ret true
    else
      let* err := nvs_erase_key partition_name ns key in
      match err with
      | ESP_ERR_NVS_NOT_FOUND => ret true
      | ESP_OK => let* err := nvs_commit partition_name ns in ret (is_ok err)
      | ESP_FAIL _ => ret false
      end.

Definition kDefaultPartition : string := "nvs".
Definition kPartitionName : string := "secrets".

(** [FirmwareSettingsStore::ListAll]. *)
Definition ListAll (n : N) : list SettingsEntry :=
  let ns_keys := omap id (nvs_blob_entries kDefaultPartition n) in
  omap (fun '(ns, key) =>
    value ← NvsGetBlob kDefaultPartition ns key n; Some {| se_ns := ns; se_key := key; se_value := value |}) ns_keys.
End NvsBlobs.

(** ** The FAT volume *)

Inductive RemoveResult := Removed | NotThere | RemoveFailed.

(** The C calls on a path. [fat_fwrite] may leave what it took in the stream's buffer;
    [fat_fclose] writes the rest out, and tells whether it could. [fat_open_read] is the size that [ftell] gives after [fopen] and
    [fseek] (negative when it fails), and nothing when [fopen] fails; [fat_fread] what was read.
    [fat_name] is the name the volume looks a path up by: it does not tell upper from lower
    case, among others. *)
Class Fat (F : Type) := {
  fat_mkdir : string -> M F Z;
  fat_open_write : string -> M F bool;
  fat_fwrite : string -> string -> M F Z;
  fat_fclose : string -> M F bool;
  fat_open_read : string -> F -> option Z;
  fat_fread : string -> Z -> F -> string;
  fat_remove : string -> M F RemoveResult;
  fat_name : string -> string
}.

Class FatLaws (F : Type) `{Fat F} := {
  fat_file : string -> F -> option string;
  fat_mkdir_keeps d p f : fat_file p (exec (fat_mkdir d) f) = fat_file p f;
  fat_open_keeps p p' f : fat_name p' <> fat_name p -> fat_file p' (exec (fat_open_write p) f) = fat_file p' f;
  fat_written p data f f1 f2 f3 : fat_open_write p f = (true, f1) -> fat_fwrite p data f1 = (size data, f2) ->
    fat_fclose p f2 = (true, f3) -> fat_file p f3 = Some data;
  fat_fwrite_keeps p data p' f : fat_name p' <> fat_name p -> fat_file p' (exec (fat_fwrite p data) f) = fat_file p' f;
  fat_fclose_keeps p p' f : fat_name p' <> fat_name p -> fat_file p' (exec (fat_fclose p) f) = fat_file p' f;
  fat_read_right p f z : fat_open_read p f = Some z -> 0 <= z -> size (fat_fread p z f) = z ->
    fat_file p f = Some (fat_fread p z f);
  fat_remove_removes p f r f' : fat_remove p f = (r, f') -> match r with RemoveFailed => True | _ => fat_file p f' = None end;
  fat_remove_keeps p p' f : fat_name p' <> fat_name p -> fat_file p' (exec (fat_remove p) f) = fat_file p' f
}.

(** ** [cache_store.cpp] *)

Section CacheFiles.
Context {F : Type} `{Fat F} (mounted_ : bool).

Definition kMountPoint : string := "/storage".

Definition PathFor (ns key : string) : string := kMountPoint +:+ "/" +:+ ns +:+ "/" +:+ key.

Definition refused (ns key : string) : bool := negb mounted_ || negb (IsValidStoreSegment ns) || negb (IsValidStoreSegment key).

(** A failed [mkdir] is only logged, and nothing looks at what [fclose] returns. *)
Definition Write (ns key content : string) : M F bool :=
  if refused ns key then ret false
  else
    let* _ := fat_mkdir (kMountPoint +:+ "/" +:+ ns) in
    let* file := fat_open_write (PathFor ns key) in
    if negb file then ret false
    else
      let* written := fat_fwrite (PathFor ns key) content in
      let* _ := fat_fclose (PathFor ns key) in
      ret (written =? size content).

Definition Read (ns key : string) (f : F) : option string :=
  if refused ns key then None
  else
    match fat_open_read (PathFor ns key) f with
    | None => None
    | Some z =>
        if z <? 0 then None
        else
          let content := fat_fread (PathFor ns key) z f in
          if size content =? z then Some content else None
    end.

Definition Erase (ns key : string) : M F bool :=
  if refused ns key then ret false
  else
    let* r := fat_remove (PathFor ns key) in
    ret (match r with RemoveFailed => false | _ => true end).
End CacheFiles.

(** ** The three stores as one *)

Section FirmwareStore.
Context {N F : Type} `{Nvs N} `{Fat F}.

(** [mounted_] is set once, by the constructor. *)
Record Flash := { nvs : N; fat : F; mounted_ : bool }.

Definition on_nvs {A} (m : M N A) : M Flash A := fun s =>
  let '(a, n) := m (nvs s) in (a, {| nvs := n; fat := fat s; mounted_ := mounted_ s |}).

Definition on_fat {A} (m : bool -> M F A) : M Flash A := fun s =>
  let '(a, f) := m (mounted_ s) (fat s) in (a, {| nvs := nvs s; fat := f; mounted_ := mounted_ s |}).

(** The partition of a tier that is in NVS. *)
Definition partition (t : tier) : option string :=
  match t with Settings => Some kDefaultPartition | Secrets => Some kPartitionName | Cache => None end.

Definition FirmwareSet (t : tier) (ns key value : string) : M Flash bool :=
  match partition t with
  | Some p => on_nvs (NvsSetBlob p ns key value)
  | None => on_fat (fun mounted => Write mounted ns key value)
  end.

Definition FirmwareGet (t : tier) (ns key : string) (s : Flash) : option string :=
  match partition t with
  | Some p => NvsGetBlob p ns key (nvs s)
  | None => Read (mounted_ s) ns key (fat s)
  end.

Definition FirmwareErase (t : tier) (ns key : string) : M Flash bool :=
  match partition t with
  | Some p => on_nvs (NvsEraseBlob p ns key)
  | None => on_fat (fun mounted => Erase mounted ns key)
  end.

Definition FirmwareKvStore : KvStore Flash := {|
  kv_set := FirmwareSet; kv_get := FirmwareGet; kv_erase := FirmwareErase;
  kv_list_settings := fun s => ListAll (nvs s)
|}.
End FirmwareStore.
Arguments Flash : clear implicits.

(** ** Lemmas *)

(** The screen of the names is as strict as NVS. *)
Lemma valid_nvs_name s : IsValidStoreSegment s = true -> nvs_name s = true.
Proof.
  unfold IsValidStoreSegment, nvs_name, kMaxStoreSegmentLength. case_if; [done|]. intros Hs. bool_to_prop.
  rewrite !andb_true_iff, Z.leb_le. split_and!; [by apply negb_true_iff|lia|by apply existsb_lacks].
Qed.

(** A state-changing call leaves what [f] reads alone, if each call it makes does. *)
Lemma keeps_bind {S A B T} (f : S -> T) (m : M S A) (k : A -> M S B) s :
  f (exec m s) = f s -> (forall a s, f (exec (k a) s) = f s) -> f (exec (bind m k) s) = f s.
Proof. unfold exec, bind. destruct (m s) as [a s']. cbn. intros <- Hk. apply Hk. Qed.

Lemma on_nvs_exec {N F A} (m : M N A) (s : Flash N F) :
  (on_nvs m s).2 = {| nvs := exec m (nvs s); fat := fat s; mounted_ := mounted_ s |}.
Proof. unfold on_nvs, exec. by destruct (m (nvs s)). Qed.

Lemma on_fat_exec {N F A} (m : bool -> M F A) (s : Flash N F) :
  (on_fat m s).2 = {| nvs := nvs s; fat := exec (m (mounted_ s)) (fat s); mounted_ := mounted_ s |}.
Proof. unfold on_fat, exec. by destruct (m (mounted_ s) (fat s)). Qed.

Section Laws.
Context {N F : Type} `{NvsLaws N} `{FatLaws F}.

(** What a cell's storage holds. *)
Definition holds (t : tier) (ns key : string) (s : Flash N F) : option string :=
  match partition t with
  | Some p => nvs_blob p ns key (nvs s)
  | None => fat_file (PathFor ns key) (fat s)
  end.

(** Two valid cells are separate when they differ and, on the volume, so do their files' names. *)
Definition separate (t' : tier) (ns' key' : string) (t : tier) (ns key : string) : Prop :=
  IsValidStoreSegment ns' && IsValidStoreSegment key' = true /\ (t', ns', key') <> (t, ns, key) /\
  (t = Cache -> t' = Cache -> fat_name (PathFor ns' key') <> fat_name (PathFor ns key)).

(** NVS refuses to open the namespace for writing. *)
Definition open_fails (t : tier) (ns : string) (s : Flash N F) : Prop :=
  exists p, partition t = Some p /\ is_ok (eval (nvs_open_readwrite p ns) (nvs s)) = false.

(** What [fwrite] left in the buffer does not get to the volume any more. *)
Definition buffer_lost (t : tier) (ns key value : string) (s : Flash N F) : Prop :=
  t = Cache /\
  eval (fat_mkdir (kMountPoint +:+ "/" +:+ ns) ;;* fat_open_write (PathFor ns key) ;;*
        fat_fwrite (PathFor ns key) value ;;* fat_fclose (PathFor ns key)) (fat s) = false.

Lemma get_blob_holds p ns key n v : NvsGetBlob p ns key n = Some v -> nvs_blob p ns key n = Some v.
Proof.
  unfold NvsGetBlob. case_match; [done|]. case_match; [done|]. destruct (nvs_get_size p ns key n) as [err z] eqn:Ez.
  destruct err; try done. cbn. apply nvs_size_right in Ez as (w & Hw & ->).
  destruct (nvs_get_blob p ns key (size w) n) as [err' v'] eqn:Ev. destruct err'; try done. cbn. intros [= <-].
  by rewrite (nvs_get_right p ns key w n v' Hw Ev).
Qed.

Lemma set_blob_holds p ns key v n : (NvsSetBlob p ns key v n).1 = true ->
  nvs_blob p ns key (NvsSetBlob p ns key v n).2 = Some v.
Proof.
  unfold NvsSetBlob. case_match; [done|]. unfold bind, ret. destruct (nvs_open_readwrite p ns n) as [e n1].
  destruct e; try done. cbn. destruct (nvs_set_blob p ns key v n1) as [e n2] eqn:Es. destruct e; try done. cbn.
  destruct (nvs_commit p ns n2) as [e n3] eqn:Ec. destruct e; try done. intros _. cbn.
  replace n3 with (exec (nvs_commit p ns) n2) by (unfold exec; by rewrite Ec). rewrite nvs_commit_keeps. by eapply nvs_set_stores.
Qed.

Lemma erase_blob_holds p ns key n : (NvsEraseBlob p ns key n).1 = true ->
  nvs_blob p ns key (NvsEraseBlob p ns key n).2 = None \/
  is_ok (eval (nvs_open_readwrite p ns) n) = false /\ nvs_blob p ns key (NvsEraseBlob p ns key n).2 = nvs_blob p ns key n.
Proof.
  unfold NvsEraseBlob. case_match; [done|]. unfold bind, ret, eval. pose proof (nvs_open_keeps p ns p ns key n) as Ho.
  unfold exec in Ho. destruct (nvs_open_readwrite p ns n) as [e n1]. cbn in Ho. destruct e; cbn; [|by right|by right].
  intros Hok. left. destruct (nvs_erase_key p ns key n1) as [e n2] eqn:Ee. pose proof (nvs_erase_erases _ _ _ _ _ _ Ee) as Hn.
  destruct e; try done. cbn. pose proof (nvs_commit_keeps p ns p ns key n2) as Hc. unfold exec in Hc.
  destruct (nvs_commit p ns n2) as [e n3]. cbn in *. by rewrite Hc.
Qed.

Lemma set_blob_keeps p ns key v p' ns' key' n :
  IsValidStoreSegment ns' && IsValidStoreSegment key' = true -> (p', ns', key') <> (p, ns, key) ->
  nvs_blob p' ns' key' (exec (NvsSetBlob p ns key v) n) = nvs_blob p' ns' key' n.
Proof.
  intros Hv Hne. apply andb_true_iff in Hv as [Hn' Hk']. unfold NvsSetBlob.
  destruct (IsValidStoreSegment ns) eqn:Hn; [|done]. destruct (IsValidStoreSegment key) eqn:Hk; [|done]. cbn [negb orb].
  apply (keeps_bind (nvs_blob p' ns' key')); [apply nvs_open_keeps|]. intros e s. destruct e; cbn [is_ok negb]; try done.
  apply (keeps_bind (nvs_blob p' ns' key')); [apply nvs_set_keeps; [by rewrite !valid_nvs_name|done]|]. intros e' s'.
  apply (keeps_bind (nvs_blob p' ns' key')); [|done]. destruct e'; cbn [is_ok]; [apply nvs_commit_keeps|done|done].
Qed.

Lemma erase_blob_keeps p ns key p' ns' key' n :
  IsValidStoreSegment ns' && IsValidStoreSegment key' = true -> (p', ns', key') <> (p, ns, key) ->
  nvs_blob p' ns' key' (exec (NvsEraseBlob p ns key) n) = nvs_blob p' ns' key' n.
Proof.
  intros Hv Hne. apply andb_true_iff in Hv as [Hn' Hk']. unfold NvsEraseBlob.
  destruct (IsValidStoreSegment ns) eqn:Hn; [|done]. destruct (IsValidStoreSegment key) eqn:Hk; [|done]. cbn [negb orb].
  apply (keeps_bind (nvs_blob p' ns' key')); [apply nvs_open_keeps|]. intros e s. destruct e; cbn [is_ok negb]; try done.
  apply (keeps_bind (nvs_blob p' ns' key')); [apply nvs_erase_keeps; [by rewrite !valid_nvs_name|done]|]. intros e' s'.
  destruct e'; try done. apply (keeps_bind (nvs_blob p' ns' key')); [apply nvs_commit_keeps|done].
Qed.

Lemma read_holds mounted ns key f v : Read mounted ns key f = Some v -> fat_file (PathFor ns key) f = Some v.
Proof.
  unfold Read. case_match; [done|]. destruct (fat_open_read (PathFor ns key) f) as [z|] eqn:Ez; [|done].
  destruct (z <? 0) eqn:E0; [done|]. cbn. destruct (size (fat_fread (PathFor ns key) z f) =? z) eqn:Es; [|done]. intros [= <-].
  apply fat_read_right; [done|lia|lia].
Qed.

Lemma write_holds mounted ns key v f : (Write mounted ns key v f).1 = true ->
  fat_file (PathFor ns key) (Write mounted ns key v f).2 = Some v \/
  eval (fat_mkdir (kMountPoint +:+ "/" +:+ ns) ;;* fat_open_write (PathFor ns key) ;;*
        fat_fwrite (PathFor ns key) v ;;* fat_fclose (PathFor ns key)) f = false.
Proof.
  unfold Write. case_match; [done|]. unfold bind, ret, eval. destruct (fat_mkdir _ f) as [z f1].
  destruct (fat_open_write (PathFor ns key) f1) as [[] f2] eqn:Eo; [|done]. cbn.
  destruct (fat_fwrite (PathFor ns key) v f2) as [w f3] eqn:Ew.
  destruct (fat_fclose (PathFor ns key) f3) as [[] f4] eqn:Ec; cbn; [|by right]. intros Hw. left.
  eapply fat_written; [exact Eo| |exact Ec]. rewrite Ew. f_equal. lia.
Qed.

Lemma remove_holds mounted ns key f : (Erase mounted ns key f).1 = true -> fat_file (PathFor ns key) (Erase mounted ns key f).2 = None.
Proof.
  unfold Erase. case_match; [done|]. unfold bind, ret. destruct (fat_remove (PathFor ns key) f) as [r f'] eqn:Er.
  pose proof (fat_remove_removes _ _ _ _ Er). by destruct r.
Qed.

Lemma write_keeps mounted ns key v p f : fat_name p <> fat_name (PathFor ns key) ->
  fat_file p (exec (Write mounted ns key v) f) = fat_file p f.
Proof.
  intros Hp. unfold Write. case_match; [done|]. apply (keeps_bind (fat_file p)); [apply fat_mkdir_keeps|]. intros _ s.
  apply (keeps_bind (fat_file p)); [by apply fat_open_keeps|]. intros [] s'; [|done].
  apply (keeps_bind (fat_file p)); [by apply fat_fwrite_keeps|]. intros w s''.
  apply (keeps_bind (fat_file p)); [by apply fat_fclose_keeps|done].
Qed.

Lemma remove_keeps mounted ns key p f : fat_name p <> fat_name (PathFor ns key) ->
  fat_file p (exec (Erase mounted ns key) f) = fat_file p f.
Proof. intros Hp. unfold Erase. case_match; [done|]. apply (keeps_bind (fat_file p)); [by apply fat_remove_keeps|done]. Qed.
End Laws.

(** ** Properties *)

(** C9: The device's stores keep their cells apart and never make a value up, whatever the libraries'
    calls come to: a value that is read is the one the cell holds; neither a write nor an erase,
    whatever it reports, touches a cell that is separate (of another tier, another module or
    another key, and in the cache also of another name as the FAT volume compares names, which
    is without upper and lower case); the listing of the settings holds settings only. A write
    that reports success has stored its value, and an erase that reports success has emptied the
    cell, with one exception each, which the code reports as success all the same: the cache
    file's buffer could not be written out when it was closed, and NVS could not open the
    namespace. *)
Theorem firmware_store_keeps_cells {N F} `{NvsLaws N} `{FatLaws F} (t : tier) (ns key value : string) (s : Flash N F) :
  let written := FirmwareSet t ns key value s in
  let erased := FirmwareErase t ns key s in
  (forall v, FirmwareGet t ns key s = Some v -> holds t ns key s = Some v) /\
  (written.1 = true -> holds t ns key written.2 = Some value \/ buffer_lost t ns key value s) /\
  (erased.1 = true -> holds t ns key erased.2 = None \/ open_fails t ns s /\ holds t ns key erased.2 = holds t ns key s) /\
  (forall t' ns' key', separate t' ns' key' t ns key ->
     holds t' ns' key' written.2 = holds t' ns' key' s /\ holds t' ns' key' erased.2 = holds t' ns' key' s) /\
  (forall e, In e (kv_list_settings (KvStore := FirmwareKvStore) s) -> holds Settings (se_ns e) (se_key e) s = Some (se_value e)).
Proof.
  cbv zeta. unfold FirmwareGet, FirmwareSet, FirmwareErase, holds, open_fails, buffer_lost. split_and!.
  - destruct (partition t); [apply get_blob_holds|apply read_holds].
  - destruct (partition t) as [p|] eqn:Ep; unfold on_nvs, on_fat.
    + pose proof (set_blob_holds p ns key value (nvs s)). destruct (NvsSetBlob p ns key value (nvs s)). cbn in *. auto.
    + pose proof (write_holds (mounted_ s) ns key value (fat s)) as Hw. destruct (Write (mounted_ s) ns key value (fat s)).
      cbn in *. intros Hok. destruct (Hw Hok); [by left|]. right. by destruct t.
  - destruct (partition t) as [p|]; unfold on_nvs, on_fat.
    + pose proof (erase_blob_holds p ns key (nvs s)) as He. destruct (NvsEraseBlob p ns key (nvs s)). cbn in *.
      intros Hok. destruct (He Hok) as [|[]]; [by left|]. right. split; [by exists p|done].
    + pose proof (remove_holds (mounted_ s) ns key (fat s)) as He. destruct (Erase (mounted_ s) ns key (fat s)). cbn in *. auto.
  - intros t' ns' key' (Hv & Hne & Hf).
    split; destruct t, t'; cbn [partition]; rewrite ?on_nvs_exec, ?on_fat_exec; cbn [nvs fat]; try done;
      first [apply set_blob_keeps|apply erase_blob_keeps|apply write_keeps; by apply Hf|apply remove_keeps; by apply Hf];
      try done; unfold kDefaultPartition, kPartitionName; congruence.
  - intros e He. cbn [kv_list_settings FirmwareKvStore] in He. unfold ListAll in He.
    apply list_elem_of_In, list_elem_of_omap in He as ([ns' key'] & _ & He).
    destruct (NvsGetBlob kDefaultPartition ns' key' (nvs s)) as [v|] eqn:Eg; [|done]. cbn in He. injection He as <-.
    by apply get_blob_holds.
Qed.

(** A flash with both libraries working, but for the opening of a namespace for writing when
    memory is short ([ESP_ERR_NO_MEM]). *)
Module Sample.
Record SampleNvs := { blobs : gmap (string * string * string) string; no_memory : bool }.

Definition with_blobs (f : gmap (string * string * string) string -> gmap (string * string * string) string) (n : SampleNvs) : SampleNvs :=
  {| blobs := f (blobs n); no_memory := no_memory n |}.

#[export] Instance sample_nvs : Nvs SampleNvs := {|
  nvs_open_readwrite := fun _ _ n => (if no_memory n then ESP_FAIL 257 else ESP_OK, n);
  nvs_open_readonly := fun _ _ _ => ESP_OK;
  nvs_set_blob := fun p ns k v n => (ESP_OK, with_blobs (insert (p, ns, k) v) n);
  nvs_commit := fun _ _ n => (ESP_OK, n);
  nvs_get_size := fun p ns k n => match blobs n !! (p, ns, k) with Some v => (ESP_OK, size v) | None => (ESP_ERR_NVS_NOT_FOUND, 0) end;
  nvs_get_blob := fun p ns k _ n => (ESP_OK, default EmptyString (blobs n !! (p, ns, k)));
  nvs_erase_key := fun p ns k n =>
    match blobs n !! (p, ns, k) with Some _ => (ESP_OK, with_blobs (delete (p, ns, k)) n) | None => (ESP_ERR_NVS_NOT_FOUND, n) end;
  nvs_blob_entries := fun p n =>
    omap (fun '((p', ns, k), _) => if String.eqb p' p then Some (Some (ns, k)) else None) (map_to_list (blobs n))
|}.

#[export] Instance sample_nvs_laws : NvsLaws SampleNvs.
Proof.
  refine {| nvs_blob := fun p ns k n => blobs n !! (p, ns, k) |}; try done.
  - intros p ns k v n n' [= <-]. apply lookup_insert_eq.
  - intros p ns k v p' ns' k' n _ Hne. apply lookup_insert_ne. congruence.
  - cbn. intros p ns k n err n'. destruct (blobs n !! (p, ns, k)) eqn:E; intros [= <- <-]; [apply lookup_delete_eq|done].
  - cbn. intros p ns k p' ns' k' n _ Hne. unfold exec. destruct (blobs n !! (p, ns, k)); [|done]. apply lookup_delete_ne. congruence.
  - cbn. intros p ns k n z. destruct (blobs n !! (p, ns, k)) as [v|]; [|done]. intros [= <-]. by exists v.
  - cbn. intros p ns k v n v' ->. by intros [= <-].
Defined.

(** A volume whose streams keep what is written until they are closed, which fails when it is full. *)
Record SampleFat := { entries : gmap string string; buffer : gmap string string; full : bool }.

Definition with_entries (f : gmap string string -> gmap string string) (v : SampleFat) : SampleFat :=
  {| entries := f (entries v); buffer := buffer v; full := full v |}.

#[export] Instance sample_fat : Fat SampleFat := {|
  fat_mkdir := fun _ => ret 0;
  fat_open_write := fun p v => (true, with_entries (insert (string_map tolower p) EmptyString) v);
  fat_fwrite := fun p data v =>
    (size data, {| entries := entries v; buffer := <[string_map tolower p := data]> (buffer v); full := full v |});
  fat_fclose := fun p v =>
    let data := default EmptyString (buffer v !! string_map tolower p) in
    let v := {| entries := entries v; buffer := delete (string_map tolower p) (buffer v); full := full v |} in
    if full v then (false, v) else (true, with_entries (insert (string_map tolower p) data) v);
  fat_open_read := fun p v => size <$> entries v !! string_map tolower p;
  fat_fread := fun p _ v => default EmptyString (entries v !! string_map tolower p);
  fat_remove := fun p v =>
    match entries v !! string_map tolower p with
    | Some _ => (Removed, with_entries (delete (string_map tolower p)) v)
    | None => (NotThere, v)
    end;
  fat_name := string_map tolower
|}.

#[export] Instance sample_fat_laws : FatLaws SampleFat.
Proof.
  refine {| fat_file := fun p (v : SampleFat) => entries v !! string_map tolower p |}; cbn.
  - done.
  - intros p p' v Hp. by apply lookup_insert_ne.
  - intros p data v f1 f2 f3 [= <-] [= <-]. cbn. destruct (full v); [done|]. intros [= <-]. cbn.
    by rewrite !lookup_insert_eq.
  - intros p data p' v Hp. done.
  - intros p p' v Hp. unfold exec. destruct (full v); [done|]. cbn. by apply lookup_insert_ne.
  - intros p v z. destruct (entries v !! string_map tolower p); [done|done].
  - intros p v r v'. destruct (entries v !! string_map tolower p) eqn:E; intros [= <- <-]; [apply lookup_delete_eq|done].
  - intros p p' v Hp. unfold exec. destruct (entries v !! string_map tolower p); [|done]. by apply lookup_delete_ne.
Defined.

Definition flash (no_memory full : bool) : Flash SampleNvs SampleFat :=
  {| nvs := {| blobs := {[("nvs", "core", "device_name") := "deck"; ("secrets", "core", "admin_pw_hash") := "hash"]}; no_memory := no_memory |};
     fat := {| entries := {["/storage/core/log_current" := "log"]}; buffer := ∅; full := full |}; mounted_ := true |}.

(** A write of another key leaves the password; with memory short the erase of the password
    reports success, and the password is still there; and on a full volume a write to the cache
    reports success, and its file is empty. *)
Lemma firmware_store_keeps_cells_witness :
  holds Secrets "core" "admin_pw_hash" (FirmwareSet Settings "core" "device_name" "kitchen" (flash false false)).2 = Some "hash" /\
  (exists s, FirmwareErase Secrets "core" "admin_pw_hash" (flash true false) = (true, s) /\ open_fails Secrets "core" (flash true false) /\
     FirmwareGet Secrets "core" "admin_pw_hash" s = Some "hash") /\
  (exists s, FirmwareSet Cache "core" "log_current" "new log" (flash false true) = (true, s) /\
     buffer_lost Cache "core" "log_current" "new log" (flash false true) /\ FirmwareGet Cache "core" "log_current" s = Some EmptyString).
Proof.
  split_and!.
  - destruct (firmware_store_keeps_cells Settings "core" "device_name" "kitchen" (flash false false)) as (_ & _ & _ & Hsep & _).
    destruct (Hsep Secrets "core" "admin_pw_hash") as [H1 _]; [|exact H1]. split; [reflexivity|]. split; congruence.
  - eexists. split; [by vm_compute|]. split; [|by vm_compute]. exists "secrets". by vm_compute.
  - eexists. split; [by vm_compute|]. split; [|by vm_compute]. by vm_compute.
Defined.
End Sample.
