(* ===== verification/Boot.v ===== *)
(** Boot: the device's start-up and its firmware images.

    Models of [src/firmware/main/homedeck.cpp] what decides something: the initialisation of the
    NVS partitions, the writer that [core/ota_routes.cpp] is given, the confirmation of a new
    image once the web interface is up, the deferred restarts and the core dump's reader; and
    [src/firmware/main/crash_diagnostics.cpp]. ESP-IDF is the environment. *)
From S2P Require Import Prelude Text Storage.

(** ** [InitNvsPartition] *)

Module NvsInit.

Inductive Result := Ok | NoFreePages | NewVersionFound | OtherError.

(** What [ESP_ERROR_CHECK] leaves: the boot goes on, or the device aborts and restarts. *)
Inductive Outcome := Continues | Aborts.

Section Init.
Context {E : Type} (init : M E Result) (erase : M E bool).

Definition InitNvsPartition : M E Outcome :=
  let* result := init in
  match result with
  | Ok => ret Continues
  | NoFreePages | NewVersionFound =>
      let* erased := erase in
      if negb erased then ret Aborts
      else let* result := init in ret (match result with Ok => Continues | _ => Aborts end)
  | OtherError => ret Aborts
  end.
End Init.

(** [InitNvs]: the default partition, then the secrets'. *)
Definition InitNvs {E} (init_default : M E Result) (erase_default : M E bool) (init_secrets : M E Result) (erase_secrets : M E bool)
    : M E Outcome :=
  let* o := InitNvsPartition init_default erase_default in
  match o with Continues => InitNvsPartition init_secrets erase_secrets | Aborts => ret Aborts end.
End NvsInit.

(** ** Firmware images *)

(** ESP-IDF's image functions; a partition and a handle are numbers, and [esp_ota_next] is
    [esp_ota_get_next_update_partition] with the partition's size. *)
Class EspOta (E : Type) := {
  esp_ota_next : E -> option (nat * Z);
  esp_ota_begin : nat -> Z -> M E (option nat);
  esp_ota_write : nat -> string -> M E bool;
  esp_ota_end : nat -> M E bool;
  esp_ota_set_boot_partition : nat -> M E bool;
  esp_ota_mark_app_valid_cancel_rollback : M E bool
}.

(** What the documentation says of them. [running] is the partition of the program that runs,
    [boots] the one the next restart takes, and [image] what a partition holds. [opened] is the
    partition a handle is for, with what has been written to it so far: [esp_ota_begin] erases
    the partition, [esp_ota_write] appends, and only an [esp_ota_end] that succeeds says that
    the partition holds what was written and that it is a [valid] program. *)
Class EspOtaLaws (E : Type) `{EspOta E} := {
  running : E -> nat;
  boots : E -> nat;
  image : nat -> E -> string;
  opened : nat -> E -> option (nat * string);
  valid : string -> bool;
  next_not_running e p z : esp_ota_next e = Some (p, z) -> p <> running e;
  begin_boots p z e : boots (exec (esp_ota_begin p z) e) = boots e;
  begin_other p z q e : q <> p -> image q (exec (esp_ota_begin p z) e) = image q e;
  begin_opens p z e h e' : esp_ota_begin p z e = (Some h, e') -> opened h e' = Some (p, EmptyString);
  write_boots h d e : boots (exec (esp_ota_write h d) e) = boots e;
  write_other h d p s q e : opened h e = Some (p, s) -> q <> p -> image q (exec (esp_ota_write h d) e) = image q e;
  write_appends h d p s e : opened h e = Some (p, s) ->
    exists s', opened h (exec (esp_ota_write h d) e) = Some (p, s') /\ (eval (esp_ota_write h d) e = true -> s' = s +:+ d);
  end_boots h e : boots (exec (esp_ota_end h) e) = boots e;
  end_other h p s q e : opened h e = Some (p, s) -> q <> p -> image q (exec (esp_ota_end h) e) = image q e;
  end_validates h p s e e' : opened h e = Some (p, s) -> esp_ota_end h e = (true, e') -> image p e' = s /\ valid s = true;
  set_boot p e b e' : esp_ota_set_boot_partition p e = (b, e') -> boots e' = if b then p else boots e;
  set_boot_images p q e : image q (exec (esp_ota_set_boot_partition p) e) = image q e
}.

Section Images.
Context {E : Type} `{EspOta E}.

(** [BuildOtaWriter]'s functions. *)
Definition max_image_size (e : E) : Z := match esp_ota_next e with Some (_, z) => z | None => 0 end.

Definition write_image (img : string) : M E bool :=
  let* next := gets esp_ota_next in
  match next with
  | None => ret false
  | Some (partition, _) =>
      let* begun := esp_ota_begin partition (size img) in
      match begun with
      | None => ret false
      | Some handle =>
          let* ok := esp_ota_write handle img in
          if negb ok then esp_ota_end handle ;;* ret false
          else
            let* ok := esp_ota_end handle in
            if negb ok then ret false else esp_ota_set_boot_partition partition
      end
  end.

(** The end of [FinalizeBootAfterWifiConnected]: the log's warning, if any, comes back. *)
Definition confirm_image (web_server_started : bool) (error_name : string) : M E (option string) :=
  if web_server_started then
    let* ok := esp_ota_mark_app_valid_cancel_rollback in
    ret (if ok then None else Some ("Failed to cancel rollback: " +:+ error_name))
  else ret (Some "Web UI failed to start - leaving OTA rollback unconfirmed").
End Images.

(** ** Deferred restarts and the core dump *)

Section Deferred.
Context {E : Type}.

(** [RunOnceAfterResponseDelay]: the calls that create, start and delete the timer. *)
Definition RunOnceAfterResponseDelay (esp_timer_create esp_timer_start_once : M E bool) (esp_timer_delete : M E unit) : M E bool :=
  let* created := esp_timer_create in
  if negb created then ret false
  else
    let* started := esp_timer_start_once in
    if negb started then esp_timer_delete ;;* ret false else ret true.

(** The [wifi_reset] callback: the access point's name the device will have, if the reset is on its way. *)
Definition wifi_reset (schedule : M E bool) (ap_ssid : string) : M E (option string) :=
  let* scheduled := schedule in ret (if scheduled then Some ap_ssid else None).

(** [read_core_dump]; [esp_core_dump_image_get] gives an address and a size. *)
Definition read_core_dump (esp_core_dump_image_check : E -> bool) (esp_core_dump_image_get : E -> option (Z * Z))
    (esp_flash_read : Z -> Z -> E -> option string) (e : E) : option string :=
  if negb (esp_core_dump_image_check e) then None
  else
    match esp_core_dump_image_get e with
    | None => None
    | Some (addr, sz) => if sz =? 0 then None else esp_flash_read addr sz e
    end.
End Deferred.

(** ** [crash_diagnostics.cpp] *)

Inductive esp_reset_reason_t :=
  | ESP_RST_UNKNOWN | ESP_RST_POWERON | ESP_RST_EXT | ESP_RST_SW | ESP_RST_PANIC | ESP_RST_INT_WDT | ESP_RST_TASK_WDT
  | ESP_RST_WDT | ESP_RST_DEEPSLEEP | ESP_RST_BROWNOUT | ESP_RST_SDIO | ESP_RST_USB | ESP_RST_JTAG | ESP_RST_EFUSE
  | ESP_RST_PWR_GLITCH | ESP_RST_CPU_LOCKUP.

Definition ResetReasonToString (reason : esp_reset_reason_t) : string :=
  match reason with
  | ESP_RST_POWERON => "power-on"
  | ESP_RST_EXT => "external-pin"
  | ESP_RST_SW => "software"
  | ESP_RST_PANIC => "panic"
  | ESP_RST_INT_WDT => "interrupt-watchdog"
  | ESP_RST_TASK_WDT => "task-watchdog"
  | ESP_RST_WDT => "other-watchdog"
  | ESP_RST_DEEPSLEEP => "deep-sleep-wake"
  | ESP_RST_BROWNOUT => "brownout"
  | ESP_RST_SDIO => "sdio"
  | ESP_RST_USB => "usb"
  | ESP_RST_JTAG => "jtag"
  | ESP_RST_EFUSE => "efuse-error"
  | ESP_RST_PWR_GLITCH => "power-glitch"
  | ESP_RST_CPU_LOCKUP => "cpu-lockup"
  | ESP_RST_UNKNOWN => "unknown"
  end.

Section Crash.
Context {S : Type} `{KvStore S}.

(** A failed write is only logged, and so is the summary of a core dump. *)
Definition LogCrashDiagnostics (reason : esp_reset_reason_t) (has_core_dump : bool) : M S unit :=
  let* _ := SetSetting "core" "reset_reason" 1 (ResetReasonToString reason) in
  let* _ := SetSetting "core" "has_core_dump" 1 (if has_core_dump then "true" else "false") in
  ret tt.

Definition ResolveDeviceName (s : S) : string :=
  match GetSetting "core" "device_name" s with Some v => vv_value v | None => "homedeck" end.
End Crash.

(** ** Properties *)

Section ImagesOk.
Context {E : Type} `{EspOtaLaws E}.

(** The program the next restart takes. *)
Definition restarts_as (e : E) : string := image (boots e) e.

(** Erasing, writing and ending: the other partitions stay, and the boot partition with them. *)
Lemma begin_write_end p z img e h e1 (q : nat) : q <> p -> esp_ota_begin p z e = (Some h, e1) ->
  let e2 := exec (esp_ota_write h img) e1 in
  let e3 := exec (esp_ota_end h) e2 in
  boots e3 = boots e /\ image q e3 = image q e /\
  (eval (esp_ota_write h img) e1 = true -> eval (esp_ota_end h) e2 = true -> image p e3 = img /\ valid img = true).
Proof.
  intros Hq Eb e2 e3. pose proof (begin_opens _ _ _ _ _ Eb) as Ho.
  destruct (write_appends h img _ _ _ Ho) as (s' & Ho2 & Hs). fold e2 in Ho2.
  assert (e1 = exec (esp_ota_begin p z) e) as E1 by (unfold exec; by rewrite Eb). split_and!.
  - unfold e3, e2. by rewrite end_boots, write_boots, E1, begin_boots.
  - unfold e3. rewrite (end_other h p s' q e2 Ho2 Hq). unfold e2. rewrite (write_other h img _ _ q e1 Ho Hq), E1. by apply begin_other.
  - intros Hw He. rewrite <- (Hs Hw : s' = img). apply (end_validates h p s' e2 e3 Ho2).
    rewrite <- He. apply surjective_pairing.
Qed.

(** C32: An update never touches the program that runs, and it is taken whole or not at all: one
    that reports success is taken by the next restart, byte for byte and as a program that has
    been validated; one that fails at any point leaves the choice of the next restart as it
    was, and also what it takes, unless that is the partition of an earlier update that is still
    waiting for its restart: that one has been erased. *)
Theorem update_boots_whole_image_or_old (img : string) (e : E) :
  let '(ok, e') := write_image img e in
  image (running e) e' = image (running e) e /\
  (ok = true -> restarts_as e' = img /\ valid img = true /\ boots e' <> running e) /\
  (ok = false -> boots e' = boots e /\
     ((forall p z, esp_ota_next e = Some (p, z) -> p <> boots e) -> restarts_as e' = restarts_as e)).
Proof.
  unfold write_image, bind, gets, ret. destruct (esp_ota_next e) as [[p z]|] eqn:En; [|done].
  assert (running e <> p) as Hr by (pose proof (next_not_running _ _ _ En); congruence).
  destruct (esp_ota_begin p (size img) e) as [[h|] e1] eqn:Eb.
  2:{ pose proof (begin_boots p (size img) e) as B. pose proof (fun q => begin_other p (size img) q e) as I.
      unfold exec in B, I. rewrite Eb in B, I. cbn in *. split_and!; [by apply I|done|]. intros _. split; [done|].
      intros Hn. unfold restarts_as. rewrite B. apply I. pose proof (Hn p z eq_refl). congruence. }
  pose proof (fun q Hq => begin_write_end p (size img) img e h e1 q Hq Eb) as Hall. cbv zeta in Hall. unfold exec, eval in Hall.
  destruct (Hall _ Hr) as (Hb & Hi & Hv).
  assert (Hrest : (forall p0 z0, Some (p, z) = Some (p0, z0) -> p0 <> boots e) -> forall e', boots e' = boots e ->
            image (boots e) e' = image (boots e) ((esp_ota_end h (esp_ota_write h img e1).2).2) -> restarts_as e' = restarts_as e).
  { intros Hn e' He' Hi'. unfold restarts_as. rewrite He', Hi'. apply Hall. pose proof (Hn p z eq_refl). congruence. }
  destruct (esp_ota_write h img e1) as [w e2]. cbn [fst snd] in *.
  destruct w; cbn [negb]; destruct (esp_ota_end h e2) as [b e3]; cbn [fst snd] in *; [destruct b; cbn [negb]|];
    try (split_and!; [done|done|]; intros _; split; [done|]; intros Hn; by apply Hrest).
  destruct (Hv eq_refl eq_refl) as [Himg Hvalid]. pose proof (fun q => set_boot_images p q e3) as I4. unfold exec in I4.
  destruct (esp_ota_set_boot_partition p e3) as [b e4] eqn:Es. pose proof (set_boot p e3 b e4 Es) as B4. cbn [snd] in I4.
  split_and!; [by rewrite I4|intros ->|intros ->].
  - unfold restarts_as. rewrite B4, I4. by split_and!.
  - split; [by rewrite B4|]. intros Hn. apply Hrest; [done|by rewrite B4|apply I4].
Qed.
End ImagesOk.

(** A device with two partitions, of which the first runs; a program is valid when it starts
    with an E, as the magic byte of an image. *)
Module Sample.
Record Device := { next_boot : nat; images : gmap nat string; handle : option (nat * string) }.

Definition is_program (s : string) : bool := starts_with "E" s.

#[export] Instance device_ota : EspOta Device := {|
  esp_ota_next := fun _ => Some (1%nat, 4096);
  esp_ota_begin := fun p _ d =>
    (Some 7%nat, {| next_boot := next_boot d; images := delete p (images d); handle := Some (p, EmptyString) |});
  esp_ota_write := fun _ s d =>
    (true, {| next_boot := next_boot d; images := images d;
              handle := match handle d with Some (p, t) => Some (p, t +:+ s) | None => None end |});
  esp_ota_end := fun _ d =>
    match handle d with
    | Some (p, t) => (is_program t, {| next_boot := next_boot d; images := <[p := t]> (images d); handle := None |})
    | None => (false, d)
    end;
  esp_ota_set_boot_partition := fun p d => (true, {| next_boot := p; images := images d; handle := handle d |});
  esp_ota_mark_app_valid_cancel_rollback := ret true
|}.

#[export] Instance device_laws : EspOtaLaws Device.
Proof.
  refine {| running := fun _ => 0%nat; boots := next_boot; image := fun p d => default EmptyString (images d !! p);
            opened := fun _ => handle; valid := is_program |}; try done.
  - by intros e p z [= <- <-].
  - intros p z q e Hq. cbn. by rewrite lookup_delete_ne.
  - by intros p z e h e' [= <- <-].
  - intros h d p s e Ho. cbn in *. rewrite Ho. by eexists.
  - intros h e. unfold exec. cbn. by destruct (handle e) as [[p t]|].
  - intros h p s q e Ho Hq. unfold exec. cbn in *. rewrite Ho. cbn. by rewrite lookup_insert_ne.
  - intros h p s e e' Ho. cbn in *. rewrite Ho. intros [= Hv <-]. cbn. by rewrite lookup_insert_eq.
  - by intros p e b e' [= <- <-].
Defined.

Definition device : Device := {| next_boot := 0; images := {[0%nat := "Eold"]}; handle := None |}.

Lemma update_boots_whole_image_or_old_witness :
  restarts_as (exec (write_image "Enew") device) = "Enew" /\ restarts_as (exec (write_image "broken") device) = "Eold".
Proof.
  split; [exact (proj1 (proj1 (proj2 (update_boots_whole_image_or_old "Enew" device)) eq_refl))|].
  refine (proj2 (proj2 (proj2 (update_boots_whole_image_or_old "broken" device)) eq_refl) _).
  by intros p z [= <- <-].
Defined.

(** A second upload before the restart erases the program the restart would take; when it fails
    the device is left with the choice of that partition. *)
Example second_upload_loses_first :
  let updated := exec (write_image "Enew") device in
  eval (write_image "broken") updated = false /\
  boots (exec (write_image "broken") updated) = 1%nat /\ valid (restarts_as (exec (write_image "broken") updated)) = false.
Proof. by vm_compute. Qed.
End Sample.

Section CrashOk.
Context {S : Type} `{KvLaws S}.

(** After a boot whose two writes have succeeded, the settings hold why the device was reset and
    whether there is a core dump, as [core/diagnostics_routes.cpp] reads them. *)
Theorem crash_report_is_stored (reason : esp_reset_reason_t) (dump : bool) (s s1 s2 : S) :
  SetSetting "core" "reset_reason" 1 (ResetReasonToString reason) s = (true, s1) ->
  SetSetting "core" "has_core_dump" 1 (if dump then "true" else "false") s1 = (true, s2) ->
  let s' := exec (LogCrashDiagnostics reason dump) s in
  vv_value <$> GetSetting "core" "reset_reason" s' = Some (ResetReasonToString reason) /\
  (fun v => String.eqb (vv_value v) "true") <$> GetSetting "core" "has_core_dump" s' = Some dump.
Proof.
  intros H1 H2. unfold LogCrashDiagnostics, exec, bind. rewrite H1, H2. cbn [ret snd].
  change (SetSetting (S := S)) with (store_write (S := S) Settings) in H1, H2.
  destruct (store_write_spec Settings _ _ 1 _ _ _ _ ltac:(vm_compute; split; discriminate) H1) as [G1 _].
  destruct (store_write_spec Settings _ _ 1 _ _ _ _ ltac:(vm_compute; split; discriminate) H2) as [G2 K2].
  change (GetSetting (S := S)) with (store_read (S := S) Settings). rewrite K2 by congruence.
  rewrite G1, G2 by done. split; [done|]. by destruct dump.
Qed.
End CrashOk.
