(* ===== verification/Startup.v ===== *)
(** Startup: what [app_main] does, in order.

    Models [app_main] of [src/firmware/main/homedeck.cpp] and the functions it is cut into, over
    the results of the platform's calls ([Platform]): the steps a boot takes, what it logs, and
    where it ends. What the steps build is modelled in the other files. *)
From S2P Require Import Prelude Text Boot.

(** The calls whose result the boot depends on or logs; [false] is a failure, and
    [connect_to_wifi] is [ConnectToWifi], which returns only once connected. *)
Class Platform (P : Type) := {
  esp_register_shutdown_handler : M P bool;
  bsp_display_start : M P bool;
  nvs_flash_init : M P NvsInit.Result;
  nvs_flash_erase : M P bool;
  nvs_flash_init_partition : M P NvsInit.Result;
  nvs_flash_erase_partition : M P bool;
  esp_netif_init : M P bool;
  esp_event_loop_create_default : M P bool;
  init_wifi_and_check_stored_credentials : M P bool;
  connect_to_wifi : M P bool;
  esp_netif_sntp_init : M P bool;
  mdns_init : M P bool;
  mdns_hostname_set : string -> M P bool;
  mdns_instance_name_set : string -> M P bool;
  mdns_service_add : M P bool;
  device_name : P -> string;
  web_server_start : M P bool;
  esp_err_to_name : P -> string
}.

(** The steps, in the order of the code. *)
Inductive Step :=
  | RegisterShutdownHandler | StartDisplay | InitUiDispatchQueue | ShowSplashScreen | InitNvsStep | ServeEmbeddedWebUi
  | NetifInit | EventLoop | CheckCredentials | BuildAppCore | ShowSetupScreen | DeleteSplash | StartMdnsStep | StartAppCore
  | LogCrashDiagnosticsStep | SetNameCallbacks | WifiConnected | TimeSync | RegisterMdnsStep | StartWebServer | CancelRollback.

#[export] Instance step_eq_dec : EqDecision Step.
Proof. solve_decision. Defined.

Definition boot_order : list Step :=
  [RegisterShutdownHandler; StartDisplay; InitUiDispatchQueue; ShowSplashScreen; InitNvsStep; ServeEmbeddedWebUi;
   NetifInit; EventLoop; CheckCredentials; BuildAppCore; ShowSetupScreen; DeleteSplash; StartMdnsStep; StartAppCore;
   LogCrashDiagnosticsStep; SetNameCallbacks; WifiConnected; TimeSync; RegisterMdnsStep; StartWebServer; CancelRollback].

(** Halted without a display, aborted by [ESP_ERROR_CHECK], waiting for Wi-Fi, or at the
    heartbeats. *)
Inductive Ending := Halted | Aborted | WaitsForWifi | Running.

Section Boot_.
Context {P : Type} `{Platform P} `{EspOta P}.

(** The steps taken with their results, and what has been logged (module and message). *)
Record Boot := { platform : P; steps : list (Step * bool); log : list (string * string) }.

Definition call {A} (m : M P A) : M Boot A := fun w =>
  let '(a, p) := m (platform w) in (a, {| platform := p; steps := steps w; log := log w |}).

Definition note (s : Step) (ok : bool) : M Boot bool := fun w =>
  (ok, {| platform := platform w; steps := steps w ++ [(s, ok)]; log := log w |}).

(** A step with a result, and one that cannot fail. *)
Definition step (s : Step) (m : M P bool) : M Boot bool := let* ok := call m in note s ok.
Definition does (s : Step) : M Boot bool := note s true.

Definition Log (module_ message : string) : M Boot unit := fun w =>
  (tt, {| platform := platform w; steps := steps w; log := log w ++ [(module_, message)] |}).

Definition init_nvs : M P bool :=
  let* o := NvsInit.InitNvs nvs_flash_init nvs_flash_erase nvs_flash_init_partition nvs_flash_erase_partition in
  ret (match o with NvsInit.Continues => true | NvsInit.Aborts => false end).

Definition StartMdns : M Boot unit :=
  let* ok := step StartMdnsStep mdns_init in
  if ok then ret tt else let* name := call (gets esp_err_to_name) in Log "mdns" ("Init failed: " +:+ name).

Definition StartTimeSync : M Boot unit := step TimeSync esp_netif_sntp_init ;;* ret tt.

Definition register_mdns (name : string) : M P (option bool) :=
  let* ok := mdns_init in
  if negb ok then ret None
  else
    let* host := mdns_hostname_set name in
    let* instance := mdns_instance_name_set "HomeDeck" in
    let* service := mdns_service_add in
    ret (Some (host && instance && service)).

Definition RegisterMdns (name : string) : M Boot unit :=
  let* r := call (register_mdns name) in
  note RegisterMdnsStep (match r with Some true => true | _ => false end) ;;*
  match r with
  | Some true => Log "mdns" ("Advertising as " +:+ name +:+ ".local")
  | Some false => Log "mdns" ("Setup for " +:+ name +:+ ".local partially failed - it may not be reachable there")
  | None => let* e := call (gets esp_err_to_name) in Log "mdns" ("Init failed: " +:+ e)
  end.

(** The [OnDeviceNameCommitted] callback. *)
Definition OnDeviceNameCommitted (value : string) : M Boot unit :=
  let* ok := call (mdns_hostname_set value) in
  if ok then Log "mdns" ("Re-announced as " +:+ value +:+ ".local")
  else Log "mdns" ("Failed to re-announce as " +:+ value +:+ ".local").

(** The end of the boot; the confirmation is [Boot.confirm_image]. *)
Definition FinalizeBootAfterWifiConnected : M Boot unit :=
  StartTimeSync ;;*
  let* name := call (gets device_name) in
  RegisterMdns name ;;*
  let* web_server_started := step StartWebServer web_server_start in
  Log "web_server" (if web_server_started then "Listening on port 80" else "Failed to start") ;;*
  let* error_name := call (gets esp_err_to_name) in
  let* warning := call (confirm_image web_server_started error_name) in
  (if web_server_started then note CancelRollback (match warning with None => true | Some _ => false end) else ret false) ;;*
  match warning with Some message => Log "ota" message | None => ret tt end.

Definition BlockUntilWifiConnected : M Boot bool :=
  let* connected := step WifiConnected connect_to_wifi in
  (if connected then Log "wifi" "Connected to Wi-Fi" else ret tt) ;;* ret connected.

(** From the first screen to the heartbeats. *)
Definition after_wifi_check (has_stored_credentials : bool) : M Boot Ending :=
  does BuildAppCore ;;*
  (if has_stored_credentials then ret true else does ShowSetupScreen) ;;*
  does DeleteSplash ;;*
  Log "boot" (if has_stored_credentials then "Dashboard loaded" else "Wi-Fi setup screen loaded") ;;*
  StartMdns ;;*
  does StartAppCore ;;*
  does LogCrashDiagnosticsStep ;;*
  does SetNameCallbacks ;;*
  let* connected := BlockUntilWifiConnected in
  if negb connected then ret WaitsForWifi else FinalizeBootAfterWifiConnected ;;* ret Running.

Definition app_main : M Boot Ending :=
  step RegisterShutdownHandler esp_register_shutdown_handler ;;*
  let* display := step StartDisplay bsp_display_start in
  if negb display then ret Halted
  else
    does InitUiDispatchQueue ;;*
    does ShowSplashScreen ;;*
    let* nvs := step InitNvsStep init_nvs in
    if negb nvs then ret Aborted
    else
      does ServeEmbeddedWebUi ;;*
      let* netif := step NetifInit esp_netif_init in
      if negb netif then ret Aborted
      else
        let* loop := step EventLoop esp_event_loop_create_default in
        if negb loop then ret Aborted
        else
          let* has_stored_credentials := step CheckCredentials init_wifi_and_check_stored_credentials in
          after_wifi_check has_stored_credentials.

Definition power_on (p : P) : Boot := {| platform := p; steps := []; log := [] |}.
End Boot_.

(** ** What a boot's steps show *)

#[export] Instance ending_eq_dec : EqDecision Ending.
Proof. solve_decision. Defined.

(** What the device is of no use without. *)
Definition vital : list Step := [StartDisplay; InitNvsStep; NetifInit; EventLoop; WifiConnected].

(** The steps come in the order of the code, none twice; the boot comes to the end exactly when
    every vital step succeeded; and the image is confirmed exactly when the web server is up
    besides. *)
Definition trace_ok (e : Ending) (l : list (Step * bool)) : Prop :=
  map fst l = filter (fun s => s ∈ map fst l) boot_order /\
  (e = Running <-> Forall (fun s => (s, true) ∈ l) vital) /\
  (e = Halted <-> (StartDisplay, false) ∈ l) /\
  (CancelRollback ∈ map fst l <-> e = Running /\ (StartWebServer, true) ∈ l).

#[export] Instance trace_ok_dec e l : Decision (trace_ok e l).
Proof. unfold trace_ok. apply _. Defined.

Section BootOk.
Context {P : Type} `{Platform P} `{EspOta P}.

(** A program that appends to the steps, with what it appends. *)
Definition takes {A} (m : M (Boot (P := P)) A) (Q : A -> list (Step * bool) -> Prop) : Prop :=
  forall w, exists l, steps (exec m w) = steps w ++ l /\ Q (eval m w) l.

Lemma takes_bind {A B} (m : M Boot A) (k : A -> M Boot B) Q :
  takes m (fun a l => takes (k a) (fun b l' => Q b (l ++ l'))) -> takes (bind m k) Q.
Proof.
  intros Hm w. unfold exec, eval. rewrite run_bind. destruct (Hm w) as (l & El & Hk).
  destruct (Hk (exec m w)) as (l' & El' & HQ). exists (l ++ l').
  split; [|exact HQ]. change (steps (exec (k (eval m w)) (exec m w)) = steps w ++ l ++ l'). by rewrite El', El, app_assoc.
Qed.

Lemma takes_ret {A} (a : A) (Q : A -> list (Step * bool) -> Prop) : Q a [] -> takes (ret a) Q.
Proof. intros HQ w. exists []. split; [cbn; by rewrite app_nil_r|exact HQ]. Qed.

Lemma takes_call {A} (m : M P A) (Q : A -> list (Step * bool) -> Prop) : (forall a, Q a []) -> takes (call m) Q.
Proof.
  intros HQ w. unfold exec, eval, call. destruct (m (platform w)) as [a p]. exists []. split; [cbn; by rewrite app_nil_r|apply HQ].
Qed.

Lemma takes_note s ok (Q : bool -> list (Step * bool) -> Prop) : Q ok [(s, ok)] -> takes (note s ok) Q.
Proof. intros HQ w. by exists [(s, ok)]. Qed.

Lemma takes_step s (m : M P bool) (Q : bool -> list (Step * bool) -> Prop) : (forall ok, Q ok [(s, ok)]) -> takes (step s m) Q.
Proof. intros HQ. apply takes_bind, takes_call. intros ok. by apply takes_note. Qed.

Lemma takes_log module_ message (Q : unit -> list (Step * bool) -> Prop) : Q tt [] -> takes (Log module_ message) Q.
Proof. intros HQ w. exists []. split; [cbn; by rewrite app_nil_r|exact HQ]. Qed.
End BootOk.

(** Runs a program of steps symbolically. *)
Ltac boot_step :=
  lazymatch goal with
  | |- takes (bind _ _) _ => apply takes_bind
  | |- takes (ret _) _ => apply takes_ret; cbn [negb app]
  | |- takes (call _) _ => apply takes_call; intros ?
  | |- takes (step _ _) _ => apply takes_step; intros ?
  | |- takes (does _) _ => apply takes_note
  | |- takes (note _ _) _ => apply takes_note
  | |- takes (Log _ _) _ => apply takes_log
  | |- takes (if negb ?b then _ else _) _ => destruct b; cbn [negb app]
  | |- takes (if ?b then _ else _) _ => destruct b; cbn [negb app]
  | |- takes (match ?r with Some _ => _ | None => _ end) _ => destruct r; cbn [negb app]
  end.

Lemma finalize_takes {P} `{Platform P} `{EspOta P} (Q : unit -> list (Step * bool) -> Prop) :
  (forall sntp mdns, Q tt [(TimeSync, sntp); (RegisterMdnsStep, mdns); (StartWebServer, false)]) ->
  (forall sntp mdns confirmed, Q tt [(TimeSync, sntp); (RegisterMdnsStep, mdns); (StartWebServer, true); (CancelRollback, confirmed)]) ->
  takes FinalizeBootAfterWifiConnected Q.
Proof.
  intros Hdown Hup. unfold FinalizeBootAfterWifiConnected, StartTimeSync, RegisterMdns.
  repeat boot_step; cbn [app]; auto.
Qed.

(** Whatever the platform's calls return, the steps of a boot come in the
    order of the code, so that nothing runs before what it needs (mDNS is up before the tasks
    that browse, the first tick comes after every subscriber, the web server after the routes and
    after Wi-Fi); the boot comes to its end exactly when display, NVS, network and Wi-Fi came up,
    and a new image is confirmed, once, exactly when the web server is up besides: any other boot
    leaves it to be rolled back. *)
Theorem image_confirmed_when_reachable {P : Type} `{Platform P} `{EspOta P} (p : P) :
  let '(ending, w) := app_main (power_on p) in trace_ok ending (steps w).
Proof.
  assert (Ht : takes (P := P) app_main (fun e l => trace_ok e l)).
  { unfold app_main, after_wifi_check, BlockUntilWifiConnected, StartMdns.
    repeat first [apply finalize_takes; intros | boot_step]; cbn [app];
      repeat match goal with b : bool |- _ => destruct b end; apply (bool_decide_unpack _); vm_compute; exact I. }
  destruct (Ht (power_on p)) as (l & El & HQ). unfold exec, eval in *. destruct (app_main (power_on p)) as [e w].
  cbn in *. by rewrite El.
Qed.
