(* ===== verification/EventBus.v ===== *)
(** The publish/subscribe bus and the UI hand-off queue.

    Models [src/src/core/event_bus.h], [event_bus.cpp] and the queue of
    [src/src/ui/ui_dispatch.cpp], as steps of several threads: each section under the bus's
    mutex is one step, and so is each call of a callback, which the code makes with the mutex
    released. A publish works through its copy of the subscribers while other threads, and the
    callbacks themselves, subscribe, unsubscribe and publish. Every call is recorded in order. *)
From S2P Require Import Prelude.

Section Bus.
Context {T C P : Type} `{Countable T}.

(** ** Data *)

Record Subscriber := { sub_id : Z; is_ui : bool; callback : C }.

Record EventBus := {
  ui_dispatcher : bool;   (* whether [SetUiDispatcher] has registered one *)
  next_id : Z;
  subscribers : gmap T (list Subscriber)
}.

Definition empty_bus : EventBus := {| ui_dispatcher := false; next_id := 1; subscribers := ∅ |}.

(** The RAII handle; [None] is a null [bus_]. *)
Abbreviation ScopedSubscription := (option (T * Z)).

Definition SetUiDispatcher (b : EventBus) : EventBus :=
  {| ui_dispatcher := true; next_id := next_id b; subscribers := subscribers b |}.

(** [subscribers_[type]], empty when there is no entry. *)
Definition subscribers_of (type : T) (b : EventBus) : list Subscriber :=
  match subscribers b !! type with Some l => l | None => [] end.

Definition SubscribeImpl (type : T) (ui : bool) (cb : C) : M EventBus ScopedSubscription := fun b =>
  let id := next_id b in
  (Some (type, id),
   {| ui_dispatcher := ui_dispatcher b;
      next_id := wrap_u 64 (id + 1);
      subscribers :=
        <[type := subscribers_of type b ++ [{| sub_id := id; is_ui := ui; callback := cb |}]]>
          (subscribers b) |}).

Definition Subscribe (type : T) (cb : C) : M EventBus ScopedSubscription := SubscribeImpl type false cb.
Definition SubscribeUi (type : T) (cb : C) : M EventBus ScopedSubscription := SubscribeImpl type true cb.

Definition Unsubscribe (type : T) (id : Z) (b : EventBus) : EventBus :=
  match subscribers b !! type with
  | None => b
  | Some list =>
      {| ui_dispatcher := ui_dispatcher b; next_id := next_id b;
         subscribers := <[type := List.filter (fun s => negb (sub_id s =? id)) list]> (subscribers b) |}
  end.

(** [ScopedSubscription::Reset], and the move assignment (source and target). *)
Definition Reset (h : ScopedSubscription) (b : EventBus) : ScopedSubscription * EventBus :=
  match h with
  | Some (type, id) => (None, Unsubscribe type id b)
  | None => (None, b)
  end.

Definition move_assign (target source : ScopedSubscription) (b : EventBus)
  : ScopedSubscription * ScopedSubscription * EventBus :=
  (source, None, (Reset target b).2).

Definition FindCallback (type : T) (id : Z) (b : EventBus) : option C :=
  match subscribers b !! type with
  | None => None
  | Some list =>
      match List.find (fun s => sub_id s =? id) list with
      | None => None
      | Some s => Some (callback s)
      end
  end.

(** ** Delivery *)

(** What a thread does to the bus under its lock; a callback may do it too. *)
Inductive bus_op :=
  | OpSubscribe (type : T) (ui : bool) (cb : C)
  | OpUnsubscribe (type : T) (id : Z)
  | OpSetUiDispatcher.

Definition apply_op (b : EventBus) (op : bus_op) : EventBus :=
  match op with
  | OpSubscribe type ui cb => exec (SubscribeImpl type ui cb) b
  | OpUnsubscribe type id => Unsubscribe type id b
  | OpSetUiDispatcher => SetUiDispatcher b
  end.

(** The closure handed to the UI dispatcher captures the type, the id and the
    payload, not the callback. *)
Record Deferred := { def_type : T; def_id : Z; def_payload : P }.

(** A publish under way: the copies it made under the lock, and how far it is. *)
Record Publish := { pub_type : T; pub_payload : P; dispatcher : bool; subscribers_to_notify : list Subscriber }.

(** One invocation of a subscriber's callback: by which publish, or by the UI thread. *)
Record Call := { call_by : option nat; call_type : T; call_id : Z; call_callback : C; call_payload : P }.

(** The UI thread: between two closures, with a closure it has taken from the queue, or about
    to call the callback that [FindCallback] has copied. *)
Inductive UiThread := UiIdle | UiTaken (d : Deferred) | UiFound (d : Deferred) (cb : C).

Record World := {
  bus : EventBus;
  publishing : list Publish;   (* every publish so far, those that are through included *)
  ui_queue : list Deferred;    (* posted to the UI thread, not yet taken *)
  ui_thread : UiThread;
  calls : list Call            (* every invocation so far, oldest first *)
}.

Definition with_bus (b : EventBus) (w : World) : World :=
  {| bus := b; publishing := publishing w; ui_queue := ui_queue w; ui_thread := ui_thread w; calls := calls w |}.

Definition PostToUiThread (d : Deferred) (w : World) : World :=
  {| bus := bus w; publishing := publishing w; ui_queue := ui_queue w ++ [d]; ui_thread := ui_thread w; calls := calls w |}.

Definition invoke (by_ : option nat) (type : T) (id : Z) (cb : C) (payload : P) (w : World) : World :=
  {| bus := bus w; publishing := publishing w; ui_queue := ui_queue w; ui_thread := ui_thread w;
     calls := calls w ++ [{| call_by := by_; call_type := type; call_id := id; call_callback := cb; call_payload := payload |}] |}.

(** [PublishImpl] as far as its lock goes. *)
Definition PublishImpl_begin (type : T) (payload : P) (w : World) : World :=
  {| bus := bus w;
     publishing := publishing w ++ [{| pub_type := type; pub_payload := payload; dispatcher := ui_dispatcher (bus w);
                                       subscribers_to_notify := subscribers_of type (bus w) |}];
     ui_queue := ui_queue w; ui_thread := ui_thread w; calls := calls w |}.

(** One iteration of its loop, for publish [i]. *)
Definition notify (i : nat) (p : Publish) (s : Subscriber) (w : World) : World :=
  if is_ui s then
    if negb (dispatcher p) then w
    else PostToUiThread {| def_type := pub_type p; def_id := sub_id s; def_payload := pub_payload p |} w
  else invoke (Some i) (pub_type p) (sub_id s) (callback s) (pub_payload p) w.

Definition PublishImpl_next (i : nat) (w : World) : World :=
  match publishing w !! i with
  | Some p =>
      match subscribers_to_notify p with
      | [] => w
      | s :: rest =>
          notify i p s
            {| bus := bus w;
               publishing := <[i := {| pub_type := pub_type p; pub_payload := pub_payload p; dispatcher := dispatcher p;
                                       subscribers_to_notify := rest |}]> (publishing w);
               ui_queue := ui_queue w; ui_thread := ui_thread w; calls := calls w |}
      end
  | None => w
  end.

Definition with_ui (u : UiThread) (w : World) : World :=
  {| bus := bus w; publishing := publishing w; ui_queue := ui_queue w; ui_thread := u; calls := calls w |}.

(** The next step of [DrainQueue] and of the closures it runs: take a closure, look its callback
    up, call it. *)
Definition ui_step (w : World) : World :=
  match ui_thread w with
  | UiIdle =>
      match ui_queue w with
      | [] => w
      | d :: rest => {| bus := bus w; publishing := publishing w; ui_queue := rest; ui_thread := UiTaken d; calls := calls w |}
      end
  | UiTaken d =>
      match FindCallback (def_type d) (def_id d) (bus w) with
      | Some cb => with_ui (UiFound d cb) w
      | None => with_ui UiIdle w
      end
  | UiFound d cb => invoke None (def_type d) (def_id d) cb (def_payload d) (with_ui UiIdle w)
  end.

(** ** Runs

    Any thread's steps, in any order. The id counter is 64 bits wide; the runs considered make
    fewer than 2^64 subscriptions, which is what [no_wrap] says. *)
Definition is_subscribe (op : bus_op) : bool := match op with OpSubscribe _ _ _ => true | _ => false end.

Definition no_wrap (op : bus_op) (b : EventBus) : Prop := is_subscribe op = true -> next_id b + 1 < 2 ^ 64.

Inductive step (w : World) : World -> Prop :=
  | step_op op : no_wrap op (bus w) -> step w (with_bus (apply_op (bus w) op) w)
  | step_publish_begin type payload : step w (PublishImpl_begin type payload w)
  | step_publish_next i : step w (PublishImpl_next i w)
  | step_ui : step w (ui_step w).

Inductive steps : World -> World -> Prop :=
  | steps_refl w : steps w w
  | steps_step w1 w2 w3 : step w1 w2 -> steps w2 w3 -> steps w1 w3.

(** *** What is under way

    The calls of a subscription's callback that threads are already on their way to make: from
    the copies of the publishes under way, and after the UI thread's lookup. *)
Definition held (id : Z) (s : Subscriber) : bool := negb (is_ui s) && (sub_id s =? id).

Definition held_by (type : T) (id : Z) (p : Publish) : nat :=
  if decide (pub_type p = type) then length (List.filter (held id) (subscribers_to_notify p)) else O.

Definition found (type : T) (id : Z) (u : UiThread) : nat :=
  match u with UiFound d _ => if decide (def_type d = type /\ def_id d = id) then 1%nat else O | _ => O end.

Definition under_way (type : T) (id : Z) (w : World) : nat :=
  (sum_list (map (held_by type id) (publishing w)) + found type id (ui_thread w))%nat.

Definition is_call_of (type : T) (id : Z) (c : Call) : bool := bool_decide (call_type c = type /\ call_id c = id).

Definition calls_of (type : T) (id : Z) (l : list Call) : nat := length (List.filter (is_call_of type id) l).

(** ** Lemmas *)

(** No subscriber of [type] has this id, and the id has already been given out. *)
Definition gone (type : T) (id : Z) (b : EventBus) : Prop :=
  id < next_id b /\ forall s, In s (subscribers_of type b) -> sub_id s <> id.

Lemma subscribers_of_insert t t' l b d n :
  subscribers_of t' {| ui_dispatcher := d; next_id := n; subscribers := <[t := l]> (subscribers b) |}
  = if decide (t = t') then l else subscribers_of t' b.
Proof. unfold subscribers_of; cbn. rewrite lookup_insert. by case_decide. Qed.

Lemma subscribers_of_unsubscribe t id t' b :
  subscribers_of t' (Unsubscribe t id b)
  = if decide (t = t') then List.filter (fun s => negb (sub_id s =? id)) (subscribers_of t b)
    else subscribers_of t' b.
Proof.
  unfold Unsubscribe. destruct (subscribers b !! t) as [l|] eqn:E.
  - rewrite subscribers_of_insert. unfold subscribers_of. by rewrite E.
  - case_decide; [|done]. subst. unfold subscribers_of. by rewrite E.
Qed.

Lemma next_id_unsubscribe t id b : next_id (Unsubscribe t id b) = next_id b.
Proof. unfold Unsubscribe. by destruct (subscribers b !! t). Qed.

Lemma gone_unsubscribe t id b : id < next_id b -> gone t id (Unsubscribe t id b).
Proof.
  intros Hid. split; [by rewrite next_id_unsubscribe|].
  intros s. rewrite subscribers_of_unsubscribe, decide_True by done.
  rewrite List.filter_In. intros [_ Hs]. apply negb_true_iff in Hs. by apply Z.eqb_neq.
Qed.

Lemma gone_op t id b op : gone t id b -> 0 <= next_id b -> no_wrap op b ->
  gone t id (apply_op b op) /\ 0 <= next_id (apply_op b op).
Proof.
  intros [Hid Hs] Hn Hw. destruct op as [t' ui cb|t' id'|]; cbn [apply_op]; [| |done].
  - specialize (Hw eq_refl). unfold SubscribeImpl, exec. cbn [snd]. rewrite wrap_u_id by lia.
    split; [split; cbn [next_id]; [lia|]|cbn; lia].
    intros s. rewrite subscribers_of_insert. case_decide; [|by apply Hs]. subst.
    rewrite in_app_iff. intros [Hin|[<-|[]]]; [by apply Hs|]. cbn. lia.
  - split; [|by rewrite next_id_unsubscribe]. split; [by rewrite next_id_unsubscribe|]. intros s.
    rewrite subscribers_of_unsubscribe. case_decide; [|by apply Hs]. subst.
    rewrite List.filter_In. intros [Hin _]. by apply Hs.
Qed.

Lemma gone_not_found t id b : gone t id b -> FindCallback t id b = None.
Proof.
  intros [_ Hs]. unfold FindCallback, subscribers_of in *.
  destruct (subscribers b !! t) as [l|]; [|done].
  destruct (List.find _ l) as [s|] eqn:E; [|done].
  apply find_some in E as [Hin He]. apply Z.eqb_eq in He. by apply Hs in Hin.
Qed.

(** A copy made when the subscription was gone does not hold it. *)
Lemma gone_not_held t id b : gone t id b -> length (List.filter (held id) (subscribers_of t b)) = O.
Proof.
  intros [_ Hs]. induction (subscribers_of t b) as [|s l IH]; [done|]. cbn [List.filter].
  unfold held at 1. destruct (Z.eqb_spec (sub_id s) id) as [E|_]; [by destruct (Hs s (in_eq _ _))|].
  rewrite andb_false_r. apply IH. auto using in_cons.
Qed.

Lemma calls_of_app t id l1 l2 : calls_of t id (l1 ++ l2) = (calls_of t id l1 + calls_of t id l2)%nat.
Proof. unfold calls_of. by rewrite List.filter_app, length_app. Qed.

Lemma calls_of_one t id c : calls_of t id [c] = if decide (call_type c = t /\ call_id c = id) then 1%nat else O.
Proof. unfold calls_of, is_call_of. cbn. by case_decide; case_bool_decide. Qed.

Lemma sum_insert (f : Publish -> nat) (l : list Publish) i p p' :
  l !! i = Some p -> (sum_list (map f (<[i := p']> l)) + f p = sum_list (map f l) + f p')%nat.
Proof. revert i. induction l as [|q l IH]; intros [|i] E; simplify_eq/=; [lia|]. specialize (IH i E). lia. Qed.

(** Since [w], what was called, and what is still on its way, was on its way. *)
Definition fades (t : T) (id : Z) (w w' : World) : Prop :=
  gone t id (bus w') /\ 0 <= next_id (bus w') /\
  exists new, calls w' = calls w ++ new /\ (calls_of t id new + under_way t id w' <= under_way t id w)%nat.

Lemma fades_trans t id w1 w2 w3 : fades t id w1 w2 -> fades t id w2 w3 -> fades t id w1 w3.
Proof.
  intros (_ & _ & n1 & E1 & F1) (G & N & n2 & E2 & F2). split_and!; [done..|].
  exists (n1 ++ n2). rewrite E2, E1, app_assoc, calls_of_app. split; [done|lia].
Qed.

Lemma fades_quietly t id w w' :
  gone t id (bus w') -> 0 <= next_id (bus w') -> calls w' = calls w -> under_way t id w' = under_way t id w -> fades t id w w'.
Proof. intros Hg Hn Hc Hu. split_and!; [done..|]. exists []. rewrite app_nil_r, Hc, Hu. by split. Qed.

Lemma fades_next t id i w : gone t id (bus w) -> 0 <= next_id (bus w) -> fades t id w (PublishImpl_next i w).
Proof.
  intros Hg Hn. unfold PublishImpl_next. destruct (publishing w !! i) as [p|] eqn:Ei; [|by apply fades_quietly].
  destruct (subscribers_to_notify p) as [|s rest] eqn:Es; [by apply fades_quietly|].
  set (p' := {| pub_type := pub_type p; subscribers_to_notify := rest |}).
  pose proof (sum_insert (held_by t id) (publishing w) i p p' Ei) as Hsum.
  assert (Hp : held_by t id p = ((if decide (pub_type p = t) then if held id s then 1 else 0 else 0) + held_by t id p')%nat).
  { unfold held_by, p'. cbn. rewrite Es. cbn [List.filter]. repeat case_decide; try done. by destruct (held id s). }
  unfold notify. unfold held in Hp. destruct (is_ui s) eqn:Eu; cbn [negb andb] in *.
  - assert (Hq : held_by t id p = held_by t id p') by (rewrite Hp; by case_decide).
    destruct (dispatcher p); apply fades_quietly; try done; unfold under_way; cbn; lia.
  - split_and!; [done..|]. eexists. split; [done|]. rewrite calls_of_one. unfold under_way. cbn.
    destruct (Z.eqb_spec (sub_id s) id) as [E|E]; repeat case_decide; try lia; naive_solver lia.
Qed.

Lemma fades_ui t id w : gone t id (bus w) -> 0 <= next_id (bus w) -> fades t id w (ui_step w).
Proof.
  intros Hg Hn. unfold ui_step. destruct (ui_thread w) as [|d|d cb] eqn:Eu.
  - destruct (ui_queue w); apply fades_quietly; try done. unfold under_way. cbn. by rewrite Eu.
  - destruct (FindCallback _ _ _) as [cb|] eqn:Ef; apply fades_quietly; try done; unfold under_way; cbn; rewrite Eu; [|done].
    cbn. case_decide as Hd; [|done]. destruct Hd as [Ht Hi]. by rewrite Ht, Hi, gone_not_found in Ef.
  - split_and!; [done..|]. eexists. split; [done|]. rewrite calls_of_one. unfold under_way. rewrite Eu. cbn. lia.
Qed.

Lemma fades_step t id w w' : gone t id (bus w) -> 0 <= next_id (bus w) -> step w w' -> fades t id w w'.
Proof.
  intros Hg Hn Hs. destruct Hs as [op Hw|ty pl|i|].
  - destruct (gone_op t id _ op Hg Hn Hw) as [Hg' Hn']. by apply fades_quietly.
  - apply fades_quietly; try done. unfold under_way. cbn. rewrite map_app.
    assert (Hz : held_by t id {| pub_type := ty; pub_payload := pl; dispatcher := ui_dispatcher (bus w); subscribers_to_notify := subscribers_of ty (bus w) |} = O).
    { unfold held_by. cbn. case_decide; [|done]. subst. by apply gone_not_held. }
    cbn. revert Hz. set (x := held_by _ _ _). intros ->. clear. induction (map (held_by t id) (publishing w)); cbn in *; lia.
  - by apply fades_next.
  - by apply fades_ui.
Qed.

Lemma fades_steps t id w w' : steps w w' -> gone t id (bus w) -> 0 <= next_id (bus w) -> fades t id w w'.
Proof.
  induction 1 as [w|w1 w2 w3 H1 _ IH]; intros Hg Hn; [by apply fades_quietly|].
  pose proof (fades_step t id _ _ Hg Hn H1) as Hs. eapply fades_trans; [exact Hs|]. apply IH; apply Hs.
Qed.

(** The calls a publish makes itself. *)
Definition made_by (i : nat) (l : list Call) : list Call := List.filter (fun c => bool_decide (call_by c = Some i)) l.

Definition direct_calls (i : nat) (p : Publish) : list Call :=
  map (fun s => {| call_by := Some i; call_type := pub_type p; call_id := sub_id s; call_callback := callback s; call_payload := pub_payload p |})
    (List.filter (fun s => negb (is_ui s)) (subscribers_to_notify p)).

Definition calls_due (i : nat) (w : World) : list Call := match publishing w !! i with Some p => direct_calls i p | None => [] end.

#[local] Arguments made_by : simpl never.

Lemma made_by_app i l1 l2 : made_by i (l1 ++ l2) = made_by i l1 ++ made_by i l2.
Proof. apply List.filter_app. Qed.

Lemma due_step i w w' : (i < length (publishing w))%nat -> step w w' ->
  made_by i (calls w') ++ calls_due i w' = made_by i (calls w) ++ calls_due i w /\ (i < length (publishing w'))%nat.
Proof.
  intros Hi Hs. destruct Hs as [op Hw|ty pl|j|]; cbn.
  - done.
  - unfold calls_due. cbn. rewrite lookup_app_l, length_app by done. split; [done|lia].
  - unfold PublishImpl_next. destruct (publishing w !! j) as [p|] eqn:Ej; [|done].
    destruct (subscribers_to_notify p) as [|s rest] eqn:Es; [done|]. unfold notify, calls_due.
    destruct (decide (j = i)) as [->|Hne].
    + destruct (is_ui s) eqn:Eu; [destruct (dispatcher p)|]; cbn; rewrite list_lookup_insert_eq, length_insert, Ej by done;
        (split; [|done]); unfold direct_calls; cbn; rewrite Es; cbn [List.filter]; rewrite Eu; cbn; try done.
      rewrite made_by_app, <- app_assoc. unfold made_by at 2. cbn [List.filter call_by]. by rewrite bool_decide_eq_true_2.
    + destruct (is_ui s); [destruct (dispatcher p)|]; cbn; rewrite list_lookup_insert_ne, length_insert by done; (split; [|done]); try done.
      rewrite made_by_app. unfold made_by at 2. cbn [List.filter call_by]. rewrite bool_decide_eq_false_2 by congruence. by rewrite app_nil_r.
  - unfold ui_step. destruct (ui_thread w); [destruct (ui_queue w); done|destruct (FindCallback _ _ _); done|].
    cbn. rewrite made_by_app. unfold made_by at 2. cbn [List.filter call_by]. rewrite bool_decide_eq_false_2 by done. by rewrite app_nil_r.
Qed.

(** ** Properties *)

(** A publish calls exactly the direct subscribers registered when it began, in the order of
    their subscriptions, whatever other threads and the callbacks themselves subscribe,
    unsubscribe and publish meanwhile: what it has called and what it still has to call is
    always that list. *)
Theorem publish_delivers_snapshot (type : T) (payload : P) (w w' : World) :
  let i := length (publishing w) in
  let p := {| pub_type := type; pub_payload := payload; dispatcher := ui_dispatcher (bus w);
              subscribers_to_notify := subscribers_of type (bus w) |} in
  made_by i (calls w) = [] -> steps (PublishImpl_begin type payload w) w' ->
  made_by i (calls w') ++ calls_due i w' = direct_calls i p.
Proof.
  intros i p Hnone Hs.
  assert (H0 : made_by i (calls (PublishImpl_begin type payload w)) ++ calls_due i (PublishImpl_begin type payload w) = direct_calls i p
    /\ (i < length (publishing (PublishImpl_begin type payload w)))%nat).
  { cbn. rewrite Hnone. unfold calls_due. cbn. rewrite lookup_app_r, Nat.sub_diag, length_app by done. cbn. split; [done|lia]. }
  clear Hnone. revert H0. generalize (PublishImpl_begin type payload w) as w0, Hs. clear Hs.
  intros w0. induction 1 as [w0|w0 w1 w2 H1 _ IH]; intros [E Hi]; [done|].
  apply IH. destruct (due_step i w0 w1 Hi H1) as [E' Hi']. by rewrite E'.
Qed.

(** C12: Once a subscription is cancelled, no later publish and no delivery that waits for the UI
    thread calls its callback, whatever the threads and the other callbacks do afterwards. The
    only calls that can still come are those that were under way at that moment: of a publish
    that had already copied the subscription as a direct one, or of the UI thread when it had
    already looked the callback up; at most one for each, and none when nothing was under way. *)
Theorem no_call_after_unsubscribe (type : T) (id : Z) (w w' : World) :
  0 <= id < next_id (bus w) ->
  steps (with_bus (Unsubscribe type id (bus w)) w) w' ->
  exists new, calls w' = calls w ++ new /\ (calls_of type id new <= under_way type id w)%nat.
Proof.
  intros Hid Hs. eapply (fades_steps type id) in Hs as (_ & _ & new & E & Hle).
  - exists new. split; [exact E|]. change (under_way type id (with_bus _ w)) with (under_way type id w) in Hle. lia.
  - apply gone_unsubscribe. lia.
  - cbn. rewrite next_id_unsubscribe. lia.
Qed.
End Bus.

(** A direct and a UI subscriber that are cancelled while a publish has only copied them: the
    posted delivery is dropped, and the direct call is still made. *)
Definition two_subscribers : World (T := string) (C := string) (P := unit) :=
  {| bus := exec (SubscribeUi "tick" "label") (exec (Subscribe "tick" "monitor") (SetUiDispatcher empty_bus));
     publishing := []; ui_queue := []; ui_thread := UiIdle; calls := [] |}.

Definition after_publish : World := PublishImpl_begin "tick" tt two_subscribers.

Example direct_call_after_unsubscribe :
  let w := with_bus (Unsubscribe "tick" 2 (Unsubscribe "tick" 1 (bus after_publish))) after_publish in
  let w' := ui_step (ui_step (PublishImpl_next 0 (PublishImpl_next 0 w))) in
  map call_callback (calls w') = ["monitor"] /\ under_way "tick" 1 after_publish = 1%nat /\ under_way "tick" 2 after_publish = O.
Proof. by vm_compute. Qed.

Lemma no_call_after_unsubscribe_witness :
  let w := with_bus (Unsubscribe "tick" 2 (bus after_publish)) after_publish in
  let w' := ui_step (ui_step (PublishImpl_next 0 (PublishImpl_next 0 w))) in
  exists new, calls w' = calls after_publish ++ new /\ (calls_of "tick" 2 new <= 0)%nat.
Proof.
  intros w w'. apply (no_call_after_unsubscribe "tick" 2 after_publish w').
  - vm_compute. split; [discriminate|reflexivity].
  - eapply steps_step; [apply (step_publish_next _ 0)|]. eapply steps_step; [apply (step_publish_next _ 0)|].
    eapply steps_step; [apply step_ui|]. eapply steps_step; [apply step_ui|]. apply steps_refl.
Defined.
