(* ===== verification/Power.v ===== *)
(** Power: battery monitors, the network monitor, the power manager and the OTA gate.

    Models [src/src/core/latched_threshold_monitor.cpp], [low_battery_monitor.cpp],
    [critical_battery_monitor.cpp], [network_status_monitor.cpp],
    [harmony_notification_bridge.cpp], [power_manager.cpp] and [ota_gate.h], and how
    they are wired through the bus: the monitors run on the publishing thread, the
    power manager on the UI thread, behind the UI queue ([SystemStep]). Times are
    milliseconds. *)
From S2P Require Import Prelude.

(** ** Events *)

Inductive NotificationSeverity := kDeferred | kAlertPriority.

Inductive PowerState := kActive | kIdle | kSleeping | kUpdating | kError.

#[export] Instance power_state_eq_dec : EqDecision PowerState.
Proof. solve_decision. Defined.

Inductive HarmonyState := kDisconnected | kConnecting | kConnected | kConnError.

Inductive Event :=
  | NotificationEvent (message : string) (severity : NotificationSeverity)
  | CriticalBatteryStateChangedEvent (critical : bool)
  | OtaUpdateStateChangedEvent (in_progress : bool)
  | PowerStateChangedEvent (state : PowerState)
  | WifiConnectivityChangedEvent (connected : bool).

(** [platform/battery_reader.h]: one reading of the battery. *)
Record BatteryReading := {
  IsBatteryPresent : bool; ReadPercent : Z; IsExternalPowerConnected : bool
}.

(** ** [latched_threshold_monitor.cpp] and the two monitors built on it *)

Section Latched.
Context (is_bad : BatteryReading -> bool) (on_entering on_leaving : list Event).

(** One tick: the state is [already_bad_], the result the events published. *)
Definition LatchedTick (r : BatteryReading) : M bool (list Event) := fun already_bad =>
  if negb (IsBatteryPresent r) then
    if already_bad then (on_leaving, false) else ([], already_bad)
  else
    let bad := is_bad r in
    if bad && negb already_bad then (on_entering, true)
    else if negb bad && already_bad then (on_leaving, false)
    else ([], already_bad).
End Latched.

Definition kLowThresholdPercent : Z := 15.
Definition kCriticalThresholdPercent : Z := 5.

Definition LowBatteryTick : BatteryReading -> M bool (list Event) :=
  LatchedTick (fun r => ReadPercent r <? kLowThresholdPercent)
    [NotificationEvent "Battery low" kDeferred] [].

Definition CriticalBatteryTick : BatteryReading -> M bool (list Event) :=
  LatchedTick (fun r => (ReadPercent r <? kCriticalThresholdPercent) && negb (IsExternalPowerConnected r))
    [CriticalBatteryStateChangedEvent true;
     NotificationEvent "Battery critically low" kAlertPriority]
    [CriticalBatteryStateChangedEvent false].

(** ** [network_status_monitor.cpp]: the state is [last_connected_] *)

Definition NetworkStatusTick (connected : bool) : M bool (list Event) := fun last_connected =>
  if negb (Bool.eqb connected last_connected) then ([WifiConnectivityChangedEvent connected], connected)
  else ([], last_connected).

(** ** [harmony_notification_bridge.cpp]: the state is [already_notified_] *)

Definition BridgeOnState (state : HarmonyState) : M bool (list Event) := fun already_notified =>
  match state with
  | kConnError =>
      if negb already_notified
      then ([NotificationEvent "Harmony Hub connection lost" kDeferred], true)
      else ([], already_notified)
  | kConnected => ([], false)
  | _ => ([], already_notified)
  end.

Definition BridgeOnConfigUpdated : M bool (list Event) := fun _ => ([], false).

(** ** [power_manager.cpp] *)

Definition kIdleTimeoutMs : Z := 30000.
Definition kSleepTimeoutMs : Z := kIdleTimeoutMs + 90000.
Definition kDimBrightnessPercent : Z := 20.
Definition kSleepBrightnessPercent : Z := 0.
Definition kMinActiveBrightnessPercent : Z := 5.

(** [display] is the percentage last given to [DisplayBrightness::SetPercent], and
    [published] every state the manager has published, oldest first. *)
Record PowerManager := {
  state_ : PowerState;
  ota_in_progress_ : bool;
  active_brightness_percent_ : Z;
  sleep_veto_until_ : option Z;
  display : Z;
  published : list PowerState
}.

(** The constructor leaves the display at what the boot code set it to. *)
Definition NewPowerManager (initial_active_brightness_percent boot_display : Z) : PowerManager := {|
  state_ := kActive; ota_in_progress_ := false;
  active_brightness_percent_ := clamp initial_active_brightness_percent kMinActiveBrightnessPercent 100;
  sleep_veto_until_ := None; display := boot_display; published := []
|}.

Definition TransitionTo (new_state : PowerState) (pm : PowerManager) : PowerManager :=
  let brightness_percent :=
    match new_state with
    | kIdle => Z.min kDimBrightnessPercent (active_brightness_percent_ pm)
    | kSleeping => kSleepBrightnessPercent
    | _ => active_brightness_percent_ pm
    end in
  {| state_ := new_state; ota_in_progress_ := ota_in_progress_ pm;
     active_brightness_percent_ := active_brightness_percent_ pm;
     sleep_veto_until_ := sleep_veto_until_ pm; display := brightness_percent;
     published := published pm ++ [new_state] |}.

Definition SetActiveBrightnessPercent (percent : Z) (pm : PowerManager) : PowerManager :=
  let active := clamp percent kMinActiveBrightnessPercent 100 in
  {| state_ := state_ pm; ota_in_progress_ := ota_in_progress_ pm;
     active_brightness_percent_ := active; sleep_veto_until_ := sleep_veto_until_ pm;
     display := if decide (state_ pm = kActive) then active else display pm;
     published := published pm |}.

Definition RequestSleepVeto (now duration : Z) (pm : PowerManager) : PowerManager :=
  {| state_ := state_ pm; ota_in_progress_ := ota_in_progress_ pm;
     active_brightness_percent_ := active_brightness_percent_ pm;
     sleep_veto_until_ := Some (now + duration); display := display pm; published := published pm |}.

Definition HasActiveSleepVeto (now : Z) (pm : PowerManager) : bool :=
  match sleep_veto_until_ pm with Some t => now <? t | None => false end.

Definition OnTick (now inactive_ms : Z) (pm : PowerManager) : PowerManager :=
  match state_ pm with
  | kUpdating | kError => pm
  | kActive => if kIdleTimeoutMs <=? inactive_ms then TransitionTo kIdle pm else pm
  | kIdle =>
      if inactive_ms <? kIdleTimeoutMs then TransitionTo kActive pm
      else if (kSleepTimeoutMs <=? inactive_ms) && negb (HasActiveSleepVeto now pm)
      then TransitionTo kSleeping pm else pm
  | kSleeping => if inactive_ms <? kIdleTimeoutMs then TransitionTo kActive pm else pm
  end.

Definition with_ota (in_progress : bool) (pm : PowerManager) : PowerManager :=
  {| state_ := state_ pm; ota_in_progress_ := in_progress;
     active_brightness_percent_ := active_brightness_percent_ pm;
     sleep_veto_until_ := sleep_veto_until_ pm; display := display pm; published := published pm |}.

(** The [OtaUpdateStateChangedEvent] subscription. *)
Definition OnOta (now inactive_ms : Z) (in_progress : bool) (pm : PowerManager) : PowerManager :=
  let pm := with_ota in_progress pm in
  if in_progress then
    if decide (state_ pm = kError) then pm else TransitionTo kUpdating pm
  else if decide (state_ pm = kError) then pm
  else if (kSleepTimeoutMs <=? inactive_ms) && negb (HasActiveSleepVeto now pm)
  then TransitionTo kSleeping pm
  else if kIdleTimeoutMs <=? inactive_ms then TransitionTo kIdle pm
  else TransitionTo kActive pm.

(** The [CriticalBatteryStateChangedEvent] subscription. *)
Definition OnCritical (critical : bool) (pm : PowerManager) : PowerManager :=
  if critical then TransitionTo kError pm
  else if decide (state_ pm = kError)
  then TransitionTo (if ota_in_progress_ pm then kUpdating else kActive) pm
  else pm.

(** ** [ota_gate.h] *)

Definition kMinBatteryPercent : Z := 30.

Record OtaGateStatus := { open : bool; reason : string; battery_percent : Z }.

Definition EvaluateOtaGate (r : BatteryReading) : OtaGateStatus :=
  let battery_percent := ReadPercent r in
  if kMinBatteryPercent <=? battery_percent then
    {| open := true; reason := ""; battery_percent := battery_percent |}
  else if IsExternalPowerConnected r then
    {| open := true; reason := ""; battery_percent := battery_percent |}
  else
    {| open := false;
       reason := "Battery is below " +:+ to_string kMinBatteryPercent +:+
         "% and no external power is connected. Connect a charger to update.";
       battery_percent := battery_percent |}.

(** ** The wired system

    What is posted to the UI thread for the power manager, in order. *)
Inductive UiEvent := UiTick | UiOta (in_progress : bool) | UiCritical (critical : bool).

Record System := {
  crit_latch : bool;            (* [CriticalBatteryMonitor]'s [already_bad_] *)
  writing_image : bool;         (* an upload handler is between its two publishes *)
  ui_queue : list UiEvent;
  pm : PowerManager
}.

Definition ui_of_event (e : Event) : option UiEvent :=
  match e with
  | CriticalBatteryStateChangedEvent c => Some (UiCritical c)
  | OtaUpdateStateChangedEvent p => Some (UiOta p)
  | _ => None
  end.

Definition deliver (now inactive_ms : Z) (e : UiEvent) (m : PowerManager) : PowerManager :=
  match e with
  | UiTick => OnTick now inactive_ms m
  | UiOta p => OnOta now inactive_ms p m
  | UiCritical c => OnCritical c m
  end.

(** The clock tick reaches the critical-battery monitor directly and the power
    manager through the queue; which of the two posts first depends on the order
    they subscribed in ([tick_first]). *)
Definition clock_tick (tick_first : bool) (r : BatteryReading) (s : System) : System :=
  let '(events, latch) := CriticalBatteryTick r (crit_latch s) in
  let posted := omap ui_of_event events in
  {| crit_latch := latch; writing_image := writing_image s;
     ui_queue := ui_queue s ++ (if tick_first then UiTick :: posted else posted ++ [UiTick]);
     pm := pm s |}.

Inductive SystemStep : System -> System -> Prop :=
  | step_clock s tick_first r : SystemStep s (clock_tick tick_first r s)
  | step_ota_begin s : writing_image s = false ->
      SystemStep s {| crit_latch := crit_latch s; writing_image := true;
                      ui_queue := ui_queue s ++ [UiOta true]; pm := pm s |}
  | step_ota_end s : writing_image s = true ->
      SystemStep s {| crit_latch := crit_latch s; writing_image := false;
                      ui_queue := ui_queue s ++ [UiOta false]; pm := pm s |}
  | step_ui s e q now inactive_ms : ui_queue s = e :: q ->
      SystemStep s {| crit_latch := crit_latch s; writing_image := writing_image s;
                      ui_queue := q; pm := deliver now inactive_ms e (pm s) |}
  | step_brightness s percent :
      SystemStep s {| crit_latch := crit_latch s; writing_image := writing_image s;
                      ui_queue := ui_queue s; pm := SetActiveBrightnessPercent percent (pm s) |}
  | step_veto s now duration :
      SystemStep s {| crit_latch := crit_latch s; writing_image := writing_image s;
                      ui_queue := ui_queue s; pm := RequestSleepVeto now duration (pm s) |}.

Definition boot (initial_brightness boot_display : Z) : System :=
  {| crit_latch := false; writing_image := false; ui_queue := [];
     pm := NewPowerManager initial_brightness boot_display |}.

Inductive reachable (initial_brightness boot_display : Z) : System -> Prop :=
  | reach_boot : reachable initial_brightness boot_display (boot initial_brightness boot_display)
  | reach_step s s' : reachable initial_brightness boot_display s -> SystemStep s s' ->
      reachable initial_brightness boot_display s'.

(** ** The invariant *)

(** What the power manager will believe once the queue has been delivered. *)
Definition pending_critical (b : bool) (q : list UiEvent) : bool :=
  foldl (fun b e => match e with UiCritical c => c | _ => b end) b q.

Definition pending_ota (b : bool) (q : list UiEvent) : bool :=
  foldl (fun b e => match e with UiOta p => p | _ => b end) b q.

Definition is_state (p : PowerState) (m : PowerManager) : bool := bool_decide (state_ m = p).

(** The manager's own consistency: its brightness range, [kUpdating] exactly when an
    image is being written and the battery is not critical, and a display that is
    dark only when sleeping. *)
Definition pm_ok (m : PowerManager) : Prop :=
  kMinActiveBrightnessPercent <= active_brightness_percent_ m <= 100 /\
  (state_ m <> kError -> (state_ m = kUpdating <-> ota_in_progress_ m = true)) /\
  match state_ m with
  | kSleeping => display m = 0
  | kIdle => 1 <= display m <= kDimBrightnessPercent
  | _ => 1 <= display m
  end.

Definition system_ok (s : System) : Prop :=
  pm_ok (pm s) /\
  pending_critical (is_state kError (pm s)) (ui_queue s) = crit_latch s /\
  pending_ota (ota_in_progress_ (pm s)) (ui_queue s) = writing_image s.

(** ** Lemmas *)

Lemma TransitionTo_ok p m :
  kMinActiveBrightnessPercent <= active_brightness_percent_ m <= 100 ->
  (p <> kError -> (p = kUpdating <-> ota_in_progress_ m = true)) ->
  pm_ok (TransitionTo p m).
Proof.
  intros Hb Ho. unfold pm_ok, TransitionTo, kMinActiveBrightnessPercent in *. cbn.
  split_and!; [lia|lia|exact Ho|]. unfold kDimBrightnessPercent, kSleepBrightnessPercent.
  destruct p; cbn -[Z.min]; lia.
Qed.

Lemma not_updating m : pm_ok m -> state_ m <> kError -> state_ m <> kUpdating -> ota_in_progress_ m = false.
Proof. intros (_ & Ho & _) He Hu. destruct (ota_in_progress_ m); [|done]. destruct Hu. by apply (Ho He). Qed.

Lemma OnTick_ok now i m : pm_ok m -> pm_ok (OnTick now i m).
Proof.
  intros Hm. pose proof (not_updating m Hm) as Hu. destruct (Hm) as (Hb & _ & _).
  unfold OnTick. destruct (state_ m) eqn:Es; try done; repeat case_if; try done;
    apply TransitionTo_ok; try done; rewrite Hu by done; done.
Qed.

Lemma OnOta_ok now i p m : pm_ok m -> pm_ok (OnOta now i p m).
Proof.
  intros (Hb & Ho & Hd). unfold OnOta.
  assert (He : state_ m = kError -> pm_ok (with_ota p m)).
  { intros E. unfold pm_ok. cbn. rewrite E in *. split_and!; try done; apply Hb. }
  destruct p; case_decide as Hs; cbn in Hs; auto; repeat case_if;
    apply TransitionTo_ok; cbn; done.
Qed.

Lemma OnCritical_ok c m : pm_ok m -> pm_ok (OnCritical c m).
Proof.
  intros Hm. destruct (Hm) as (Hb & Ho & Hd). unfold OnCritical.
  destruct c; [by apply TransitionTo_ok|]. case_decide; [|done].
  apply TransitionTo_ok; [done|]. by destruct (ota_in_progress_ m).
Qed.

Lemma deliver_ok now i e m : pm_ok m -> pm_ok (deliver now i e m).
Proof. destruct e; [apply OnTick_ok|apply OnOta_ok|apply OnCritical_ok]. Qed.

(** Delivering an event leaves the manager believing what the event says. *)
Lemma deliver_views now i e m :
  is_state kError (deliver now i e m) = pending_critical (is_state kError m) [e] /\
  ota_in_progress_ (deliver now i e m) = pending_ota (ota_in_progress_ m) [e].
Proof.
  unfold is_state. destruct e as [|p|c]; cbn.
  - unfold OnTick. destruct (state_ m) eqn:Es; repeat case_if; cbn; rewrite ?Es; done.
  - unfold OnOta. destruct p; case_decide as Hs; cbn in Hs; repeat case_if; cbn; rewrite ?Hs; split; try done;
      symmetry; by apply bool_decide_eq_false.
  - unfold OnCritical. destruct c; [done|]. case_decide as Hs; cbn.
    + by destruct (ota_in_progress_ m).
    + split; [|done]. by apply bool_decide_eq_false.
Qed.

Lemma pending_app_critical b q q' : pending_critical b (q ++ q') = pending_critical (pending_critical b q) q'.
Proof. apply foldl_app. Qed.

Lemma pending_app_ota b q q' : pending_ota b (q ++ q') = pending_ota (pending_ota b q) q'.
Proof. apply foldl_app. Qed.

(** What one tick of the critical monitor posts leaves the last posted value at its latch. *)
Lemma critical_posts tick_first r latch :
  let '(events, latch') := CriticalBatteryTick r latch in
  let posted := omap ui_of_event events in
  let q := if tick_first : bool then UiTick :: posted else posted ++ [UiTick] in
  pending_critical latch q = latch' /\ (forall b, pending_ota b q = b).
Proof. unfold CriticalBatteryTick, LatchedTick. repeat case_if; destruct tick_first, latch; done. Qed.

Lemma system_step_ok s s' : system_ok s -> SystemStep s s' -> system_ok s'.
Proof.
  intros (Hm & Hc & Ho) Hs. destruct Hs as [s tf r|s|s|s e q now i Hq|s p|s now d]; unfold system_ok; cbn.
  - unfold clock_tick. pose proof (critical_posts tf r (crit_latch s)) as Hp.
    destruct (CriticalBatteryTick r (crit_latch s)) as [events latch']. destruct Hp as [Hp1 Hp2]. cbn.
    by rewrite pending_app_critical, pending_app_ota, Hc, Hp2.
  - by rewrite pending_app_critical, pending_app_ota.
  - by rewrite pending_app_critical, pending_app_ota.
  - rewrite Hq in Hc, Ho. destruct (deliver_views now i e (pm s)) as [-> ->].
    split; [by apply deliver_ok|]. done.
  - split; [|done]. destruct Hm as (Hb & Hu & Hd). unfold pm_ok. cbn.
    pose proof (clamp_bounds p kMinActiveBrightnessPercent 100 ltac:(unfold kMinActiveBrightnessPercent; lia)).
    unfold kMinActiveBrightnessPercent in *.
    split_and!; [lia|lia|done|]. case_decide as Ha; [|done]. rewrite Ha. lia.
  - done.
Qed.

Lemma reachable_ok b d s : 1 <= d -> reachable b d s -> system_ok s.
Proof.
  intros Hd. induction 1 as [|s s' _ IH Hs]; [|by eapply system_step_ok].
  unfold system_ok, pm_ok. cbn.
  pose proof (clamp_bounds b kMinActiveBrightnessPercent 100 ltac:(unfold kMinActiveBrightnessPercent; lia)).
  unfold kMinActiveBrightnessPercent in *. split_and!; try lia; done.
Qed.

(** The critical state of one reading, and the edges of a boolean signal. *)
Definition bad_now (is_bad : BatteryReading -> bool) (r : BatteryReading) : bool :=
  IsBatteryPresent r && is_bad r.

Fixpoint edges (prev : bool) (signal : list bool) : list bool :=
  match signal with
  | [] => []
  | b :: signal' => if Bool.eqb b prev then edges b signal' else b :: edges b signal'
  end.

(** The monitor over a sequence of clock ticks. *)
Fixpoint latched_run is_bad on_entering on_leaving (rs : list BatteryReading) : M bool (list Event) :=
  match rs with
  | [] => ret []
  | r :: rs' =>
      let* events := LatchedTick is_bad on_entering on_leaving r in
      let* more := latched_run is_bad on_entering on_leaving rs' in
      ret (events ++ more)
  end.

Lemma LatchedTick_edge is_bad on_entering on_leaving r b :
  LatchedTick is_bad on_entering on_leaving r b =
    (if Bool.eqb (bad_now is_bad r) b then []
     else if bad_now is_bad r then on_entering else on_leaving, bad_now is_bad r).
Proof.
  unfold LatchedTick, bad_now. destruct (IsBatteryPresent r), (is_bad r), b; done.
Qed.

(** One clock tick's effect on the state, once repeated ticks have settled it. *)
Definition settled_state (now inactive_ms : Z) (m : PowerManager) : PowerState :=
  if inactive_ms <? kIdleTimeoutMs then kActive
  else if ((kSleepTimeoutMs <=? inactive_ms) && negb (HasActiveSleepVeto now m))
          || is_state kSleeping m then kSleeping
  else kIdle.

Definition awake_or_asleep (m : PowerManager) : bool :=
  negb (is_state kUpdating m) && negb (is_state kError m).

(** One tick as a function of the state, the two thresholds and the veto. *)
Definition tick_state (idle sleep veto : bool) (p : PowerState) : PowerState :=
  match p with
  | kUpdating | kError => p
  | kActive => if idle then kIdle else kActive
  | kIdle => if negb idle then kActive else if sleep && negb veto then kSleeping else kIdle
  | kSleeping => if negb idle then kActive else kSleeping
  end.

Definition tick_state_of (now i : Z) (m : PowerManager) : PowerState -> PowerState :=
  tick_state (kIdleTimeoutMs <=? i) (kSleepTimeoutMs <=? i) (HasActiveSleepVeto now m).

Lemma OnTick_eq now i m :
  OnTick now i m =
    if decide (tick_state_of now i m (state_ m) = state_ m) then m
    else TransitionTo (tick_state_of now i m (state_ m)) m.
Proof.
  unfold OnTick, tick_state_of. rewrite (Z.ltb_antisym kIdleTimeoutMs i).
  destruct (state_ m); cbn [tick_state];
    destruct (kIdleTimeoutMs <=? i), (kSleepTimeoutMs <=? i), (HasActiveSleepVeto now m); done.
Qed.

Lemma OnTick_state now i m : state_ (OnTick now i m) = tick_state_of now i m (state_ m).
Proof. rewrite OnTick_eq. by case_decide. Qed.

Lemma OnTick_veto now i m : tick_state_of now i (OnTick now i m) = tick_state_of now i m.
Proof. rewrite OnTick_eq. by case_decide. Qed.

(** ** Properties *)

(** Over any sequence of battery readings, what a latched battery
    monitor publishes is exactly its entering events on each rising edge of the bad
    condition and its leaving events on each falling edge, an absent battery counting
    as not bad: never twice in one episode, never a missed episode. *)
Theorem monitor_publishes_edges is_bad on_entering on_leaving rs b :
  (latched_run is_bad on_entering on_leaving rs b).1 =
  concat (map (fun bad : bool => if bad then on_entering else on_leaving)
            (edges b (map (bad_now is_bad) rs))).
Proof.
  revert b. induction rs as [|r rs IH]; intros b; [done|].
  cbn [latched_run map edges]. unfold bind, ret. rewrite LatchedTick_edge.
  specialize (IH (bad_now is_bad r)).
  destruct (latched_run _ _ _ rs _) as [more b']. cbn in *. rewrite IH.
  destruct (Bool.eqb (bad_now is_bad r) b); [done|]. by destruct (bad_now is_bad r).
Qed.

(** C13: On every reachable state of the wired system whose UI queue has
    been delivered, the power manager is in [kError] exactly when the critical-battery
    monitor has latched, and in [kUpdating] exactly when an image is being written and
    the battery is not critical, whatever order the clock, the uploads, the battery and
    the brightness slider were interleaved in. *)
Theorem power_state_meaning b d s :
  1 <= d -> reachable b d s -> ui_queue s = [] ->
  (state_ (pm s) = kError <-> crit_latch s = true) /\
  (state_ (pm s) = kUpdating <-> writing_image s = true /\ crit_latch s = false).
Proof.
  intros Hd Hr Hq. destruct (reachable_ok b d s Hd Hr) as ((_ & Hu & _) & Hc & Ho).
  rewrite Hq in Hc, Ho. cbn in Hc, Ho. unfold is_state in Hc. rewrite <- Hc, <- Ho.
  rewrite bool_decide_eq_true, bool_decide_eq_false.
  split; [done|]. split.
  - intros E. assert (state_ (pm s) <> kError) by (rewrite E; done). split; [|done]. by apply Hu.
  - intros [E Hn]. by apply Hu.
Qed.

(** On every reachable state the active brightness is between 5%% and
    100%%, and the display is dark exactly when the device sleeps. *)
Theorem display_dark_iff_sleeping b d s :
  1 <= d -> reachable b d s ->
  5 <= active_brightness_percent_ (pm s) <= 100 /\
  (display (pm s) = 0 <-> state_ (pm s) = kSleeping).
Proof.
  intros Hd Hr. destruct (reachable_ok b d s Hd Hr) as ((Hb & _ & Hs) & _).
  unfold kMinActiveBrightnessPercent in Hb. split; [exact Hb|].
  destruct (state_ (pm s)); split; try done; lia.
Qed.

(** Outside an update and an error, two clock ticks bring the manager
    to the state its inactivity calls for (Active below 30 s, Sleeping from 120 s when
    no veto holds, Idle between, Sleeping only left by activity), every later tick with
    the same readings changes nothing, and the end of an update lands on that same
    state in one step. *)
Theorem ticks_settle now inactive_ms m :
  awake_or_asleep m = true ->
  let settled := OnTick now inactive_ms (OnTick now inactive_ms m) in
  state_ settled = settled_state now inactive_ms m /\
  OnTick now inactive_ms settled = settled /\
  (forall u, state_ u = kUpdating -> sleep_veto_until_ u = sleep_veto_until_ m ->
     is_state kSleeping m = false ->
     state_ (OnOta now inactive_ms false u) = settled_state now inactive_ms m).
Proof.
  unfold awake_or_asleep, settled_state, OnOta.
  rewrite (Z.ltb_antisym kIdleTimeoutMs inactive_ms). intros Ha.
  assert (Hlt : (kSleepTimeoutMs <=? inactive_ms) = true -> (kIdleTimeoutMs <=? inactive_ms) = true)
    by (unfold kSleepTimeoutMs, kIdleTimeoutMs; lia).
  split_and!.
  - rewrite OnTick_state, OnTick_veto, OnTick_state. unfold tick_state_of.
    unfold is_state in *. destruct (state_ m), (kIdleTimeoutMs <=? inactive_ms), (kSleepTimeoutMs <=? inactive_ms),
      (HasActiveSleepVeto now m); try done; by specialize (Hlt eq_refl).
  - rewrite (OnTick_eq _ _ (OnTick _ _ (OnTick _ _ _))), ?OnTick_veto, ?OnTick_state, ?OnTick_veto, ?OnTick_state.
    case_decide as Hn; [done|]. destruct Hn. unfold tick_state_of.
    unfold is_state in *. destruct (state_ m), (kIdleTimeoutMs <=? inactive_ms), (kSleepTimeoutMs <=? inactive_ms),
      (HasActiveSleepVeto now m); try done; by specialize (Hlt eq_refl).
  - intros u Eu Ev ->. unfold HasActiveSleepVeto. cbn. rewrite Eu, Ev, orb_false_r.
    case_decide; [done|].
    destruct (kIdleTimeoutMs <=? inactive_ms), (kSleepTimeoutMs <=? inactive_ms),
      (match sleep_veto_until_ m with Some t => now <? t | None => false end);
      try done; by specialize (Hlt eq_refl).
Qed.

(** The tick before the two thresholds dims, the next one sleeps. *)
Lemma ticks_settle_witness :
  let m := NewPowerManager 80 100 in
  let settled := OnTick 500000 130000 (OnTick 500000 130000 m) in
  state_ settled = kSleeping /\ OnTick 500000 130000 settled = settled.
Proof.
  destruct (ticks_settle 500000 130000 (NewPowerManager 80 100) eq_refl) as (H1 & H2 & _).
  split; [exact H1|exact H2].
Defined.

(** A run in which the battery turns critical while an image is being written. *)
Definition critical_reading : BatteryReading :=
  {| IsBatteryPresent := true; ReadPercent := 3; IsExternalPowerConnected := false |}.

Definition deliver_next (s : System) : System :=
  match ui_queue s with
  | [] => s
  | e :: q => {| crit_latch := crit_latch s; writing_image := writing_image s;
                 ui_queue := q; pm := deliver 0 0 e (pm s) |}
  end.

Definition critical_during_update : System :=
  let s := boot 80 100 in
  let s := {| crit_latch := crit_latch s; writing_image := true;
              ui_queue := ui_queue s ++ [UiOta true]; pm := pm s |} in
  deliver_next (deliver_next (deliver_next (clock_tick true critical_reading s))).

Lemma critical_during_update_reachable : reachable 80 100 critical_during_update.
Proof.
  unfold critical_during_update.
  eapply reach_step; [|apply step_ui; reflexivity].
  eapply reach_step; [|apply step_ui; reflexivity].
  eapply reach_step; [|apply step_ui; reflexivity].
  eapply reach_step; [|apply step_clock].
  eapply reach_step; [apply reach_boot|by apply step_ota_begin].
Qed.

Lemma power_state_meaning_witness :
  ui_queue critical_during_update = [] /\
  (state_ (pm critical_during_update) = kError <-> crit_latch critical_during_update = true).
Proof.
  split; [reflexivity|].
  apply (power_state_meaning 80 100 critical_during_update ltac:(lia)
           critical_during_update_reachable eq_refl).
Defined.

Lemma display_dark_iff_sleeping_witness :
  5 <= active_brightness_percent_ (pm critical_during_update) <= 100.
Proof.
  apply (display_dark_iff_sleeping 80 100 critical_during_update ltac:(lia)
           critical_during_update_reachable).
Defined.
