(* ===== verification/Connectivity.v ===== *)
(** Connectivity: the retry and approval policies of the connection loops.

    Models [src/src/core/retry_backoff.h], [wifi_reconnect_policy.h],
    [pending_wifi_credentials.h], [connection_wake.h] and [platform/queue.h]. Every
    object is a record and every method a state function; each method holds its
    object's mutex for its whole body, so a concurrent execution is a sequence of
    method calls. *)
From S2P Require Import Prelude Text.

(** ** [RetryBackoff] *)

Record RetryBackoff := { initial_delay_ : Z; max_delay_ : Z; current_delay_ : Z }.

Definition NewRetryBackoff (initial_delay max_delay : Z) : RetryBackoff :=
  {| initial_delay_ := initial_delay; max_delay_ := max_delay; current_delay_ := initial_delay |}.

Definition NextDelay : M RetryBackoff Z := fun b =>
  let delay := current_delay_ b in
  (delay, {| initial_delay_ := initial_delay_ b; max_delay_ := max_delay_ b;
             current_delay_ := Z.min (current_delay_ b * 2) (max_delay_ b) |}).

Definition ResetBackoff (b : RetryBackoff) : RetryBackoff :=
  {| initial_delay_ := initial_delay_ b; max_delay_ := max_delay_ b; current_delay_ := initial_delay_ b |}.

(** [n] failures in a row: the delays waited. *)
Fixpoint delays (n : nat) : M RetryBackoff (list Z) :=
  match n with
  | O => ret []
  | S n' => let* d := NextDelay in let* ds := delays n' in ret (d :: ds)
  end.

(** ** [WifiReconnectPolicy] *)

Inductive Decision := kRetry | kGiveUp.

Record WifiReconnectPolicy := {
  max_setup_attempts_ : Z; normal_mode_recovery_attempts_ : Z;
  retry_delay_ms_ : Z; recovery_ap_retry_delay_ms_ : Z; attempts_ : Z
}.

Definition with_attempts (n : Z) (p : WifiReconnectPolicy) : WifiReconnectPolicy :=
  {| max_setup_attempts_ := max_setup_attempts_ p;
     normal_mode_recovery_attempts_ := normal_mode_recovery_attempts_ p;
     retry_delay_ms_ := retry_delay_ms_ p;
     recovery_ap_retry_delay_ms_ := recovery_ap_retry_delay_ms_ p; attempts_ := n |}.

Definition OnDisconnected (in_setup_mode : bool) : M WifiReconnectPolicy Decision := fun p =>
  if in_setup_mode && (max_setup_attempts_ p <=? attempts_ p) then (kGiveUp, p)
  else (kRetry, with_attempts (attempts_ p + 1) p).

Definition ShouldOfferRecovery (in_setup_mode : bool) (p : WifiReconnectPolicy) : bool :=
  negb in_setup_mode && (attempts_ p =? normal_mode_recovery_attempts_ p).

Definition RetryDelayMs (recovery_ap_up : bool) (ap_clients : Z) (p : WifiReconnectPolicy) : option Z :=
  if negb recovery_ap_up || (attempts_ p <=? max_setup_attempts_ p) then Some (retry_delay_ms_ p)
  else if 0 <? ap_clients then None
  else Some (recovery_ap_retry_delay_ms_ p).

Definition ResetAttempts (p : WifiReconnectPolicy) : WifiReconnectPolicy := with_attempts 0 p.

(** The disconnect handler asks for the decision and then for the recovery offer. *)
Fixpoint disconnects (in_setup_mode : bool) (n : nat) : M WifiReconnectPolicy (list (Decision * bool)) :=
  match n with
  | O => ret []
  | S n' =>
      let* d := OnDisconnected in_setup_mode in
      let* offer := gets (ShouldOfferRecovery in_setup_mode) in
      let* rest := disconnects in_setup_mode n' in
      ret ((d, offer) :: rest)
  end.

(** ** [PendingWifiCredentials] *)

Record WifiCredentials := { ssid : string; password : string }.

Record PendingWifiCredentials := { pending_ : option WifiCredentials; last_id_ : Z }.

Definition no_pending : PendingWifiCredentials := {| pending_ := None; last_id_ := 0 |}.

Definition Submit (s p : string) : M PendingWifiCredentials (option Z) := fun st =>
  if IsValidWifiCredentials s p then
    let id := wrap_u 32 (last_id_ st + 1) in
    (Some id, {| pending_ := Some {| ssid := s; password := p |}; last_id_ := id |})
  else (None, st).

Definition Take (id : Z) : M PendingWifiCredentials (option WifiCredentials) := fun st =>
  match pending_ st with
  | Some c => if id =? last_id_ st then (Some c, {| pending_ := None; last_id_ := last_id_ st |}) else (None, st)
  | None => (None, st)
  end.

Definition Clear (st : PendingWifiCredentials) : PendingWifiCredentials :=
  {| pending_ := None; last_id_ := last_id_ st |}.

(** The calls the HTTP worker and the UI task make, in the order they take the lock. *)
Inductive cred_op := CSubmit (s p : string) | CTake (id : Z) | CClear.

Definition cred_step (st : PendingWifiCredentials) (op : cred_op) : PendingWifiCredentials :=
  match op with
  | CSubmit s p => exec (Submit s p) st
  | CTake id => exec (Take id) st
  | CClear => Clear st
  end.

Definition cred_run (ops : list cred_op) (st : PendingWifiCredentials) : PendingWifiCredentials :=
  foldl cred_step st ops.

(** ** [ConnectionWake]: the state is [requested_] *)

Inductive Reason := kTimeout | kTriggered | kCommandPending | kStopRequested.

Definition Trigger (requested : bool) : bool := true.

Definition ClearTriggerLocked (requested : bool) : bool := false.

(** What the waiting loop sees, in order: nothing more (the delay elapses), another
    thread's trigger or queued work, a stop request. *)
Inductive wake_event := WakeTrigger | WakeWork | WakeStop.

(** [Wait]: the condition holds at once, or the first event that makes it hold (or a
    stop) ends the wait, or the delay does. [watch] says whether [work_pending] was
    given, [work] is its value; the second result is the events not yet seen. *)
Fixpoint Wait (watch work : bool) (stop : bool) (events : list wake_event) (requested : bool)
    : Reason * bool * list wake_event :=
  if stop then (kStopRequested, requested, events)
  else if requested then (kTriggered, false, events)
  else if watch && work then (kCommandPending, requested, events)
  else match events with
       | [] => (kTimeout, requested, [])
       | WakeTrigger :: es => Wait watch work stop es true
       | WakeWork :: es => Wait watch true stop es requested
       | WakeStop :: es => Wait watch work true es requested
       end.

(** ** [Queue]: an unbounded first-in first-out queue *)

Section Queue.
Context {T : Type}.

Definition Push (item : T) (items : list T) : list T := items ++ [item].

(** [Pop(stop_token)]: [None] when it is stopped while the queue is empty. *)
Definition Pop (items : list T) : option T * list T :=
  match items with
  | [] => (None, [])
  | item :: rest => (Some item, rest)
  end.

Definition TryPop (items : list T) : option T * list T :=
  match items with
  | [] => (None, [])
  | item :: rest => (Some item, rest)
  end.

(** [while ((next = queue.TryPop()))]: everything queued, in order. *)
Fixpoint drain (fuel : nat) (items : list T) : list T * list T :=
  match fuel with
  | O => ([], items)
  | S fuel' =>
      match TryPop items with
      | (None, items') => ([], items')
      | (Some item, items') => let '(more, remaining) := drain fuel' items' in (item :: more, remaining)
      end
  end.

Lemma drain_all fuel items : (List.length items <= fuel)%nat -> drain fuel items = (items, []).
Proof.
  revert items. induction fuel as [|fuel IH]; intros [|a items] H; cbn in *; try done; [lia|].
  rewrite IH by lia. done.
Qed.
End Queue.

(** ** Lemmas *)

Lemma delays_from n b k :
  0 < initial_delay_ b <= max_delay_ b ->
  current_delay_ b = Z.min (initial_delay_ b * 2 ^ Z.of_nat k) (max_delay_ b) ->
  eval (delays n) b =
  map (fun i => Z.min (initial_delay_ b * 2 ^ Z.of_nat i) (max_delay_ b)) (seq k n).
Proof.
  revert b k. induction n as [|n IH]; intros b k Hb Hc; [done|].
  cbn [delays seq map]. unfold eval, bind, ret in *. cbn.
  match goal with |- context [delays n ?b'] => specialize (IH b' (S k)); set (b1 := b') in * end.
  destruct (delays n b1) as [ds b2] eqn:E. cbn in *. rewrite Hc. f_equal.
  apply IH; [done|]. rewrite Hc, Nat2Z.inj_succ, Z.pow_succ_r by lia.
  pose proof (Z.pow_pos_nonneg 2 (Z.of_nat k) ltac:(lia) ltac:(lia)). nia.
Qed.

Lemma disconnects_normal n p :
  eval (disconnects false n) p =
  map (fun i => (kRetry, attempts_ p + 1 + Z.of_nat i =? normal_mode_recovery_attempts_ p)) (seq 0 n).
Proof.
  revert p. induction n as [|n IH]; intros p; [done|].
  cbn [disconnects seq map]. rewrite <- seq_shift, map_map.
  specialize (IH (with_attempts (attempts_ p + 1) p)).
  unfold eval, bind, ret, gets, OnDisconnected, ShouldOfferRecovery in *. cbn in *.
  destruct (disconnects false n _) as [rest p']. cbn in *. rewrite IH.
  f_equal; [by rewrite Z.add_0_r|]. apply map_ext. intros i. do 2 f_equal. lia.
Qed.

Lemma disconnects_setup n p :
  0 <= attempts_ p ->
  eval (disconnects true n) p =
  map (fun i => (if attempts_ p + Z.of_nat i <? max_setup_attempts_ p then kRetry else kGiveUp, false)) (seq 0 n).
Proof.
  revert p. induction n as [|n IH]; intros p Hp; [done|].
  cbn [disconnects seq map]. rewrite <- seq_shift, map_map.
  destruct (Z.leb_spec (max_setup_attempts_ p) (attempts_ p)) as [Hle|Hlt].
  - specialize (IH p Hp).
    unfold eval, bind, ret, gets, OnDisconnected, ShouldOfferRecovery in *. cbn in *.
    replace (max_setup_attempts_ p <=? attempts_ p) with true by lia. cbn.
    destruct (disconnects true n _) as [rest p']. cbn in *. rewrite IH.
    change (Z.of_nat 0) with 0. rewrite Z.add_0_r.
    replace (attempts_ p <? max_setup_attempts_ p) with false by lia. f_equal.
    apply map_ext. intros i.
    assert ((attempts_ p + Z.of_nat i <? max_setup_attempts_ p) = false) as -> by zbool.
    assert ((attempts_ p + Z.of_nat (S i) <? max_setup_attempts_ p) = false) as -> by zbool. done.
  - specialize (IH (with_attempts (attempts_ p + 1) p) ltac:(cbn; lia)).
    unfold eval, bind, ret, gets, OnDisconnected, ShouldOfferRecovery in *. cbn in *.
    replace (max_setup_attempts_ p <=? attempts_ p) with false by lia. cbn.
    destruct (disconnects true n _) as [rest p']. cbn in *. rewrite IH.
    change (Z.of_nat 0) with 0. rewrite Z.add_0_r.
    replace (attempts_ p <? max_setup_attempts_ p) with true by lia. f_equal.
    apply map_ext. intros i.
    by replace (attempts_ p + 1 + Z.of_nat i) with (attempts_ p + Z.of_nat (S i)) by lia.
Qed.

(** The id of the latest accepted submission only grows, up to the width of the counter. *)
Definition id_after (id : Z) (st : PendingWifiCredentials) : Prop := id < last_id_ st.

Lemma cred_run_cons op ops st : cred_run (op :: ops) st = cred_run ops (cred_step st op).
Proof. done. Qed.

Lemma last_id_step op st :
  0 <= last_id_ st -> last_id_ st + 1 < 2 ^ 32 ->
  last_id_ st <= last_id_ (cred_step st op) <= last_id_ st + 1.
Proof.
  intros H0 H1. destruct op as [s p|id|]; cbn; unfold exec, Submit, Take.
  - destruct (IsValidWifiCredentials s p); cbn; [|lia]. rewrite wrap_u_id; lia.
  - destruct (pending_ st); [|cbn; lia]. destruct (id =? last_id_ st); cbn; lia.
  - lia.
Qed.

(** Under request [id] nothing is pending but [c]: [id] is no longer the latest
    request, or nothing is pending, or [c] is. *)
Definition only_for (id : Z) (c : option WifiCredentials) (st : PendingWifiCredentials) : Prop :=
  0 <= last_id_ st /\ id <= last_id_ st /\ (id = last_id_ st -> pending_ st = None \/ pending_ st = c).

Lemma only_for_step id c st op :
  only_for id c st -> last_id_ st + 1 < 2 ^ 32 -> only_for id c (cred_step st op).
Proof.
  intros (H0 & H1 & H2) Hw. pose proof (last_id_step op st H0 Hw) as Hl. unfold only_for.
  split_and!; [lia|lia|].
  destruct op as [s p|i|]; cbn in *; unfold exec, Submit, Take in *; [| |auto].
  - destruct (IsValidWifiCredentials s p); cbn in *; [|done].
    rewrite wrap_u_id in * by lia. lia.
  - destruct (pending_ st) eqn:E; [|cbn in *; rewrite E; auto].
    destruct (i =? last_id_ st); cbn in *; rewrite ?E; auto.
Qed.

Lemma only_for_run id c ops st :
  only_for id c st -> last_id_ st + Z.of_nat (List.length ops) < 2 ^ 32 ->
  only_for id c (cred_run ops st).
Proof.
  revert st. induction ops as [|op ops IH]; intros st Hst Hl; [done|].
  rewrite cred_run_cons. cbn [List.length] in Hl.
  pose proof (last_id_step op st (proj1 Hst) ltac:(lia)).
  apply IH; [apply only_for_step; [done|lia]|]. lia.
Qed.

Lemma last_id_run ops st :
  0 <= last_id_ st -> last_id_ st + Z.of_nat (List.length ops) < 2 ^ 32 ->
  0 <= last_id_ (cred_run ops st) <= last_id_ st + Z.of_nat (List.length ops).
Proof.
  revert st. induction ops as [|op ops IH]; intros st H0 Hl; [cbn; lia|].
  rewrite cred_run_cons. cbn [List.length] in *.
  pose proof (last_id_step op st H0 ltac:(lia)).
  specialize (IH (cred_step st op) ltac:(lia) ltac:(lia)). lia.
Qed.

(** ** Properties *)

(** The [i]-th delay after a reset is the initial delay doubled [i]
    times, cut at the maximum, and a successful connection starts the sequence over. *)
Theorem backoff_closed_form (initial_delay max_delay : Z) (n k : nat) :
  0 < initial_delay <= max_delay ->
  let expected m := map (fun i => Z.min (initial_delay * 2 ^ Z.of_nat i) max_delay) (seq 0 m) in
  let b := NewRetryBackoff initial_delay max_delay in
  eval (delays n) b = expected n /\
  eval (delays k) (ResetBackoff (exec (delays n) b)) = expected k.
Proof.
  intros H. cbn zeta.
  assert (Hc : forall m b, initial_delay_ b = initial_delay -> max_delay_ b = max_delay ->
            initial_delay_ (exec (delays m) b) = initial_delay /\ max_delay_ (exec (delays m) b) = max_delay).
  { induction m as [|m IH]; intros b Hi Hm; [done|]. cbn [delays]. unfold exec, bind, ret in *. cbn.
    match goal with |- context [delays m ?b'] => specialize (IH b' Hi Hm); destruct (delays m b') end. done. }
  split.
  - rewrite (delays_from n _ 0); cbn; [done|lia|lia].
  - destruct (Hc n (NewRetryBackoff initial_delay max_delay) eq_refl eq_refl) as [Hi Hm].
    rewrite (delays_from k _ 0); cbn; rewrite Hi, Hm; [done|lia|lia].
Qed.

Lemma backoff_closed_form_witness :
  eval (delays 7) (NewRetryBackoff 2000 60000) = [2000; 4000; 8000; 16000; 32000; 60000; 60000].
Proof.
  destruct (backoff_closed_form 2000 60000 7 0 ltac:(lia)) as [H _]. exact H.
Defined.

(** Every normal-mode disconnect is retried, and among any number of
    them since the attempts were reset recovery is offered at exactly the one that
    reaches the threshold; in setup mode exactly the first [max_setup_attempts]
    disconnects are retried, every later one gives up, and recovery is never offered. *)
Theorem reconnect_policy_schedule (p : WifiReconnectPolicy) (n : nat) :
  eval (disconnects false n) (ResetAttempts p) =
    map (fun i => (kRetry, Z.of_nat i + 1 =? normal_mode_recovery_attempts_ p)) (seq 0 n) /\
  eval (disconnects true n) (ResetAttempts p) =
    map (fun i => (if Z.of_nat i <? max_setup_attempts_ p then kRetry else kGiveUp, false)) (seq 0 n).
Proof.
  split.
  - rewrite disconnects_normal. cbn. apply map_ext. intros i. do 2 f_equal. lia.
  - rewrite disconnects_setup by done. done.
Qed.

(** A tap that approves request [id] can only apply the credentials
    that were submitted under [id], the ones shown on the device: whatever the access
    point's visitors submit and the UI takes or clears between the submission and the
    tap, [Take id] returns those credentials or nothing, and never twice. *)
Theorem approval_applies_what_was_shown (before after : list cred_op) (s p : string) (id : Z) :
  let st := cred_run before no_pending in
  let st1 := exec (Submit s p) st in
  let st2 := cred_run after st1 in
  eval (Submit s p) st = Some id ->
  Z.of_nat (List.length before + List.length after) + 1 < 2 ^ 32 ->
  (eval (Take id) st2 = None \/ eval (Take id) st2 = Some {| ssid := s; password := p |}) /\
  forall later, Z.of_nat (List.length before + List.length after + List.length later) + 1 < 2 ^ 32 ->
    eval (Take id) st2 <> None -> eval (Take id) (cred_run later (exec (Take id) st2)) = None.
Proof.
  intros st st1 st2 Hid Hlen.
  pose proof (last_id_run before no_pending ltac:(cbn; lia) ltac:(cbn; lia)) as Hst.
  fold st in Hst. cbn in Hst.
  unfold eval, Submit in Hid. destruct (IsValidWifiCredentials s p) eqn:Ev; [|done].
  cbn in Hid. rewrite wrap_u_id in Hid by lia. simplify_eq.
  assert (Hst1 : st1 = {| pending_ := Some {| ssid := s; password := p |}; last_id_ := last_id_ st + 1 |}).
  { unfold st1, exec, Submit. rewrite Ev. cbn. by rewrite wrap_u_id by lia. }
  assert (Ho : only_for (last_id_ st + 1) (Some {| ssid := s; password := p |}) st2).
  { apply only_for_run; rewrite Hst1; [|cbn; lia]. unfold only_for; cbn. split_and!; [lia|lia|auto]. }
  pose proof (last_id_run after st1 ltac:(rewrite Hst1; cbn; lia) ltac:(rewrite Hst1; cbn; lia)) as Hst2.
  fold st2 in Hst2. rewrite Hst1 in Hst2. cbn in Hst2.
  destruct Ho as (_ & _ & Ho). unfold eval, exec, Take in *. split.
  - destruct (pending_ st2) eqn:Ep; [|auto]. destruct (Z.eqb_spec (last_id_ st + 1) (last_id_ st2)); [|auto].
    right. destruct Ho; by simplify_eq.
  - intros later Hl Hn. destruct (pending_ st2) eqn:Ep; [|done].
    destruct (Z.eqb_spec (last_id_ st + 1) (last_id_ st2)) as [E|]; [|done]. cbn [fst snd].
    set (st3 := {| pending_ := None; last_id_ := last_id_ st2 |}).
    assert (Ha : only_for (last_id_ st + 1) None (cred_run later st3)).
    { apply only_for_run; [|cbn; lia]. unfold only_for; cbn. split_and!; [lia|lia|auto]. }
    destruct Ha as (_ & _ & Ha). destruct (pending_ (cred_run later st3)) eqn:Ep3; [|done].
    destruct (Z.eqb_spec (last_id_ st + 1) (last_id_ (cred_run later st3))) as [E3|]; [|done].
    by destruct (Ha E3).
Qed.

Lemma approval_applies_what_was_shown_witness :
  eval (Submit "home" "secret12") no_pending = Some 1 /\
  (eval (Take 1) (cred_run [CSubmit "evil" "x"] (exec (Submit "home" "secret12") no_pending)) = None \/
   eval (Take 1) (cred_run [CSubmit "evil" "x"] (exec (Submit "home" "secret12") no_pending))
     = Some {| ssid := "home"; password := "secret12" |}).
Proof.
  split; [reflexivity|].
  apply (approval_applies_what_was_shown [] [CSubmit "evil" "x"] "home" "secret12" 1 eq_refl).
  cbn. lia.
Defined.
