(* ===== verification/Http.v ===== *)
(** Http: requests, responses and handlers.

    Models the data of [src/src/platform/http_server.h] and [http_client.h]. A handler is a function of
    the request and of the state it shares with the other handlers; the server that
    calls it (civetweb, esp_http_server) is not modelled. *)
From S2P Require Import Prelude.

Definition kMaxHttpRequestBodyBytes : Z := 8 * 1024 * 1024.

Inductive HttpMethod := kGet | kPost.

#[export] Instance http_method_eq_dec : EqDecision HttpMethod.
Proof. solve_decision. Defined.

Record HttpRequest := {
  req_path : string; req_query : string; req_body : string; cookie_header : option string
}.

Record HttpResponse := {
  status_code : Z; content_type : string; resp_body : string; extra_headers : list (string * string)
}.

Definition HttpReasonPhrase (status : Z) : string :=
  if status =? 200 then "OK"
  else if status =? 400 then "Bad Request"
  else if status =? 401 then "Unauthorized"
  else if status =? 403 then "Forbidden"
  else if status =? 404 then "Not Found"
  else if status =? 405 then "Method Not Allowed"
  else if status =? 409 then "Conflict"
  else if status =? 429 then "Too Many Requests"
  else if status =? 500 then "Internal Server Error"
  else if status =? 502 then "Bad Gateway"
  else "Unknown".

(** What [platform/http_client.h]'s client returns. *)
Record HttpClientResponse := { success : bool; http_status : Z; http_body : string }.

(** A handler over a shared state [W]. *)
Definition Handler (W : Type) : Type := HttpRequest -> M W HttpResponse.

(** ** The literal bodies the handlers answer with *)

Definition quoted (s : string) : string := String dquote (s +:+ String dquote EmptyString).

Definition json_response (status : Z) (body : string) : HttpResponse :=
  {| status_code := status; content_type := "application/json"; resp_body := body; extra_headers := [] |}.

(** [{status, "application/json", R"({"error":"..."})", {}}]. *)
Definition error_response (status : Z) (error : string) : HttpResponse :=
  json_response status ("{" +:+ quoted "error" +:+ ":" +:+ quoted error +:+ "}").

(** [{400, ..., R"({"error":"missing_field","field":"..."})"}]. *)
Definition missing_field (field : string) : HttpResponse :=
  json_response 400 ("{" +:+ quoted "error" +:+ ":" +:+ quoted "missing_field" +:+ "," +:+
                     quoted "field" +:+ ":" +:+ quoted field +:+ "}").

(** [{200, ..., R"({"status":"ok"})"}]. *)
Definition status_ok : HttpResponse := json_response 200 ("{" +:+ quoted "status" +:+ ":" +:+ quoted "ok" +:+ "}").

(** [{200, "application/json", R"({"ok":true})", {}}]. *)
Definition ok_response : HttpResponse := json_response 200 ("{" +:+ quoted "ok" +:+ ":true}").

Definition add_header (k v : string) (r : HttpResponse) : HttpResponse :=
  {| status_code := status_code r; content_type := content_type r; resp_body := resp_body r;
     extra_headers := extra_headers r ++ [(k, v)] |}.

(** ** Shared state

    A handler reaches the objects it captured by reference as parts of the state [W]
    all the handlers share. *)
Class Part (W A : Type) := { view : W -> A; update : A -> W -> W }.

Class PartLaws (W A : Type) `{Part W A} := {
  view_update a w : view (update a w) = a;
  update_view w : update (view w) w = w
}.

(** Runs a method of the captured object. *)
Definition on {W A B : Type} `{Part W A} (m : M A B) : M W B := fun w =>
  let '(b, a) := m (view w) in (b, update a w).

#[export] Instance part_self (A : Type) : Part A A := {| view := fun a => a; update := fun a _ => a |}.

#[export] Instance part_self_laws (A : Type) : PartLaws A A.
Proof. by split. Qed.

(** Reading a part leaves the state as it was. *)
Lemma on_gets {W A B : Type} `{PartLaws W A} (f : A -> B) (w : W) : on (gets f) w = (f (view w), w).
Proof. unfold on, gets. by rewrite update_view. Qed.
