(* ===== verification/HttpServer.v ===== *)
(** HttpServer: the two servers behind the Web API, and the files they serve.

    Models [src/src/platform/host/http_server.cpp] (over civetweb),
    [platform/firmware/http_server.cpp] (over esp_http_server) and
    [platform/static_assets.cpp]: the table of handlers, the reading of a request's body and
    the reply. The libraries underneath are parameters: what one read gives, and which
    registered route esp_http_server picks. *)
From S2P Require Import Prelude Http.

(** ** The handlers *)

Section Handlers.
Context {W : Type}.

(** [std::map<std::pair<HttpMethod, std::string>, Handler>]. *)
Definition Handlers : Type := list (HttpMethod * string * Handler W).

Definition route_eqb (m : HttpMethod) (path : string) (r : HttpMethod * string * Handler W) : bool :=
  bool_decide (r.1.1 = m) && String.eqb r.1.2 path.

(** [handlers_[{method, path}] = handler]: a second registration replaces the first. *)
Definition RegisterHandler (m : HttpMethod) (path : string) (h : Handler W) (handlers_ : Handlers) : Handlers :=
  (m, path, h) :: List.filter (fun r => negb (route_eqb m path r)) handlers_.

(** [handlers_.find({method, path})]. *)
Definition find_handler (m : HttpMethod) (path : string) (handlers_ : Handlers) : option (Handler W) :=
  match List.find (route_eqb m path) handlers_ with Some r => Some r.2 | None => None end.

(** A sequence of registrations. *)
Definition register_all (routes : Handlers) (handlers_ : Handlers) : Handlers :=
  foldl (fun hs r => RegisterHandler r.1.1 r.1.2 r.2 hs) handlers_ routes.

(** [StaticAsset]. *)
Record StaticAsset := { path : string; asset_type : string; asset_body : string }.

Definition serve_asset (asset : StaticAsset) : HttpMethod * string * Handler W :=
  (kGet, path asset,
   fun _ => ret {| status_code := 200; content_type := asset_type asset; resp_body := asset_body asset; extra_headers := [] |}).

Definition ServeStaticFiles (assets : list StaticAsset) (handlers_ : Handlers) : Handlers :=
  register_all (map serve_asset assets) handlers_.
End Handlers.

(** ** Reading the body *)

(** What one [mg_read] or [httpd_req_recv] gives: some bytes, the timeout that may be
    retried, or the end of the connection or an error. *)
Inductive Recv := RecvBytes (chunk : string) | RecvTimeout | RecvFailed.

(** The body, whole; the error reply; or more reads than [fuel]. *)
Inductive Body := BodyRead (body : string) | BodyRefused | OutOfFuel.

Definition kMaxConsecutiveRecvTimeouts : Z := 3.
Definition kMaxTotalRecvTimeouts : Z := 120.

Section Reading.
Context {E : Type} (recv : Z -> M E Recv).

(** [HostHttpServer::Dispatch]: the loop over [mg_read]. *)
Fixpoint host_read (fuel : nat) (len : Z) (body : string) : M E Body :=
  if size body <? len then
    match fuel with
    | O => ret OutOfFuel
    | S fuel' =>
        let* received := recv (len - size body) in
        match received with
        | RecvBytes chunk => host_read fuel' len (body +:+ chunk)
        | RecvTimeout | RecvFailed => ret BodyRefused
        end
    end
  else ret (BodyRead body).

(** [FirmwareHttpServer::DispatchTrampoline]: the loop over [httpd_req_recv], which retries
    a timeout three times in a row and 120 times in all. *)
Fixpoint firmware_read (fuel : nat) (len : Z) (body : string) (consecutive_timeouts total_timeouts : Z) : M E Body :=
  if size body <? len then
    match fuel with
    | O => ret OutOfFuel
    | S fuel' =>
        let* received := recv (len - size body) in
        match received with
        | RecvTimeout =>
            if kMaxConsecutiveRecvTimeouts <? consecutive_timeouts + 1 then ret BodyRefused
            else if kMaxTotalRecvTimeouts <? total_timeouts + 1 then ret BodyRefused
            else firmware_read fuel' len body (consecutive_timeouts + 1) (total_timeouts + 1)
        | RecvFailed => ret BodyRefused
        | RecvBytes chunk => firmware_read fuel' len (body +:+ chunk) 0 total_timeouts
        end
    end
  else ret (BodyRead body).

(** Reads enough for a body of [len] bytes, whatever the client does. *)
Definition read_fuel (len : Z) : nat := Z.to_nat (len + kMaxTotalRecvTimeouts + 1).

Definition read_whole (read : nat -> Z -> string -> M E Body) (len : Z) : M E Body :=
  if 0 <? len then
    if kMaxHttpRequestBodyBytes <? len then ret BodyRefused else read (read_fuel len) len EmptyString
  else ret (BodyRead EmptyString).

Definition host_body (len : Z) : M E Body := read_whole host_read len.
Definition firmware_body (len : Z) : M E Body := read_whole (fun fuel n body => firmware_read fuel n body 0 0) len.
End Reading.

(** ** Serving a request *)

(** What civetweb parsed of a request, [info] of [mg_get_request_info]; the URI is without the
    query, and decoded. *)
Record RequestInfo := {
  request_method : string; request_uri : string; query_string : option string;
  content_length : Z; cookie : option string
}.

(** [httpd_req_t]: the target as the client sent it, with its query; the value of the Cookie
    header, and whether [httpd_req_get_hdr_value_str] manages to copy it. *)
Record HttpdRequest := {
  httpd_method : string; uri : string; content_len : Z; cookie_value : option string; cookie_copied : bool
}.

(** An error of the server itself, or a handler's response. *)
Inductive Reply := ReplyError (status : Z) | ReplyWith (r : HttpResponse).

Definition method_of (text : string) : option HttpMethod :=
  if String.eqb text "GET" then Some kGet else if String.eqb text "POST" then Some kPost else None.

(** The status a body that is not read is answered with. *)
Definition body_error (len : Z) : Z := if kMaxHttpRequestBodyBytes <? len then 413 else 500.

Section Serving.
Context {E W : Type} (recv : Z -> M E Recv).

(** [HostHttpServer::Dispatch]; [conn] is the connection. *)
Definition Dispatch (handlers_ : Handlers) (info : RequestInfo) (conn : E) : M W Reply :=
  match method_of (request_method info) with
  | None => ret (ReplyError 405)
  | Some method =>
      match find_handler method (request_uri info) handlers_ with
      | None => ret (ReplyError 404)
      | Some handler =>
          match eval (host_body recv (content_length info)) conn with
          | BodyRead body =>
              let* response := handler {| req_path := request_uri info;
                                          req_query := match query_string info with Some q => q | None => EmptyString end;
                                          req_body := body; cookie_header := cookie info |} in
              ret (ReplyWith response)
          | BodyRefused | OutOfFuel => ret (ReplyError (body_error (content_length info)))
          end
      end
  end.

(** [FirmwareHttpServer::DispatchTrampoline]; [handler] is the [user_ctx] of the route. *)
Definition DispatchTrampoline (handler : Handler W) (req : HttpdRequest) (conn : E) : M W Reply :=
  let '(path, query) := break_at "?" (uri req) in
  match eval (firmware_body recv (content_len req)) conn with
  | BodyRead body =>
      let cookie_len := match cookie_value req with Some value => size value | None => 0 end in
      let cookie_header := if (0 <? cookie_len) && cookie_copied req then cookie_value req else None in
      let* response := handler {| req_path := path; req_query := match query with Some q => q | None => EmptyString end;
                                  req_body := body; cookie_header := cookie_header |} in
      ret (ReplyWith response)
  | BodyRefused | OutOfFuel => ret (ReplyError (body_error (content_len req)))
  end.

(** [FirmwareHttpServer::Start]: the routes that esp_http_server knows afterwards, each under
    the C string of its path. One that [httpd_register_uri_handler] refuses is only logged. *)
Definition Start (httpd_register_uri_handler : HttpMethod -> string -> bool) (handlers_ : Handlers (W := W)) :
    Handlers (W := W) :=
  omap (fun '(m, p, h) => if httpd_register_uri_handler m (c_str p) then Some (m, c_str p, h) else None) handlers_.

(** A request of a server that has been started; [httpd_route] is esp_http_server's choice
    among its routes, or the error it answers by itself. *)
Definition firmware_serve (httpd_register_uri_handler : HttpMethod -> string -> bool)
    (httpd_route : Handlers (W := W) -> HttpdRequest -> Handler W + Z) (handlers_ : Handlers)
    (req : HttpdRequest) (conn : E) : M W Reply :=
  match httpd_route (Start httpd_register_uri_handler handlers_) req with
  | inl handler => DispatchTrampoline handler req conn
  | inr status => ret (ReplyError status)
  end.
End Serving.

(** ** The reply on the wire *)

Definition crlf : string := String carriage_return (String newline EmptyString).

(** The [mg_printf] calls of [HostHttpServer::Dispatch]. *)
Definition host_text (r : HttpResponse) : string :=
  "HTTP/1.1 " +:+ to_string (status_code r) +:+ " " +:+ HttpReasonPhrase (status_code r) +:+ crlf +:+
  "Content-Type: " +:+ content_type r +:+ crlf +:+
  "Content-Length: " +:+ to_string (size (resp_body r)) +:+ crlf +:+
  string_concat (map (fun h => h.1 +:+ ": " +:+ h.2 +:+ crlf) (extra_headers r)) +:+ crlf +:+ resp_body r.

(** [StatusLine] of the firmware, given to [httpd_resp_set_status]. *)
Definition StatusLine (status : Z) : string := to_string status +:+ " " +:+ HttpReasonPhrase status.

(** ** Lemmas: the handlers *)

Section HandlerLemmas.
Context {W : Type}.
Implicit Types (table routes : Handlers (W := W)).

Lemma find_handler_in m p table h : find_handler m p table = Some h -> (m, p, h) ∈ table.
Proof.
  unfold find_handler. destruct (List.find _ _) as [[[m' p'] h']|] eqn:E; [|done]. intros [= <-].
  apply find_some in E as [Hin Hr]. unfold route_eqb in Hr. apply andb_true_iff in Hr as [H1 H2].
  apply bool_decide_eq_true in H1. apply String.eqb_eq in H2. cbn in *. subst. by apply list_elem_of_In.
Qed.

Lemma register_in m p h table r : r ∈ RegisterHandler m p h table -> r = (m, p, h) \/ r ∈ table.
Proof.
  unfold RegisterHandler. rewrite elem_of_cons. intros [->|Hin]; [by left|]. right.
  apply list_elem_of_In, filter_In in Hin as [Hin _]. by apply list_elem_of_In.
Qed.

Lemma register_all_in routes table r : r ∈ register_all routes table -> r ∈ routes \/ r ∈ table.
Proof.
  revert table. induction routes as [|[[m p] h] routes IH]; intros table Hin; [by right|].
  unfold register_all in Hin. cbn [foldl fst snd] in Hin.
  destruct (IH _ Hin) as [Hr|Hr]; [left; by right|].
  apply register_in in Hr as [->|Hr]; [left; by left|by right].
Qed.

(** The latest registration of a route is the one that is found. *)
Lemma find_register m p h table m' p' :
  find_handler m' p' (RegisterHandler m p h table) =
  if bool_decide (m = m') && String.eqb p p' then Some h else find_handler m' p' table.
Proof.
  unfold find_handler, RegisterHandler. cbn [List.find]. unfold route_eqb at 1. cbn [fst snd].
  destruct (bool_decide (m = m') && String.eqb p p') eqn:E; [done|].
  match goal with |- match ?a with _ => _ end = match ?b with _ => _ end => assert (a = b) as ->; [|done] end.
  induction table as [|r rs IH]; [done|]. cbn [List.filter List.find].
  destruct (route_eqb m p r) eqn:E1; cbn [negb].
  - rewrite IH. replace (route_eqb m' p' r) with false; [done|].
    symmetry. unfold route_eqb in *. apply andb_true_iff in E1 as [H1 H2]. apply bool_decide_eq_true in H1.
    apply String.eqb_eq in H2. by rewrite H1, H2.
  - cbn [List.find]. by rewrite IH.
Qed.
End HandlerLemmas.

(** What the firmware registers is what the program registered. *)
Lemma start_find {W} register (table : Handlers (W := W)) m p h :
  find_handler m p (Start register table) = Some h -> exists p', c_str p' = p /\ (m, p', h) ∈ table.
Proof.
  intros Hf. apply find_handler_in in Hf. unfold Start in Hf.
  apply list_elem_of_omap in Hf as ([[m' p'] h'] & Hin & Hr). destruct (register m' (c_str p')); [|done].
  injection Hr as <- <- <-. by exists p'.
Qed.


(** ** Lemmas: reading *)

(** What the libraries promise of a read of [n] bytes: never nothing, never more. *)
Class RecvLaws {E} (recv : Z -> M E Recv) := {
  recv_bounds n e chunk : 0 < n -> eval (recv n) e = RecvBytes chunk -> 0 < size chunk <= n
}.

(** A body that a loop may end with. *)
Definition body_of (len : Z) (b : Body) : Prop :=
  match b with BodyRead body => size body = len | BodyRefused => True | OutOfFuel => False end.

Section ReadLemmas.
Context {E : Type} (recv : Z -> M E Recv) `{!RecvLaws recv}.

Lemma recv_cases (len : Z) (body : string) (e : E) :
  size body < len ->
  match eval (recv (len - size body)) e with RecvBytes chunk => size body < size (body +:+ chunk) <= len | _ => True end.
Proof.
  intros Hl. destruct (eval (recv _) e) eqn:Er; [|done..].
  apply recv_bounds in Er; [|lia]. rewrite size_app. lia.
Qed.

Lemma host_read_ends fuel len body e :
  size body <= len -> len - size body <= Z.of_nat fuel -> body_of len (eval (host_read recv fuel len body) e).
Proof.
  revert body e. induction fuel as [|fuel IH]; intros body e Hs Hf; cbn [host_read].
  - destruct (Z.ltb_spec (size body) len); cbn; lia.
  - destruct (Z.ltb_spec (size body) len) as [Hl|Hl]; [|cbn; lia].
    unfold eval. rewrite run_bind. pose proof (recv_cases len body e Hl) as Hc. unfold eval in Hc.
    destruct (recv _ e).1; [|done..]. apply IH; lia.
Qed.

Lemma firmware_read_ends fuel len body c t e :
  size body <= len -> len - size body + (kMaxTotalRecvTimeouts - t) < Z.of_nat fuel -> t <= kMaxTotalRecvTimeouts ->
  body_of len (eval (firmware_read recv fuel len body c t) e).
Proof.
  revert body c t e. induction fuel as [|fuel IH]; intros body c t e Hs Hf Ht; cbn [firmware_read]; [lia|].
  destruct (Z.ltb_spec (size body) len) as [Hl|Hl]; [|cbn; lia].
  unfold eval. rewrite run_bind. pose proof (recv_cases len body e Hl) as Hc. unfold eval in Hc.
  destruct (recv _ e).1; [apply IH; lia| |done].
  destruct (_ <? c + 1); [done|]. destruct (Z.ltb_spec kMaxTotalRecvTimeouts (t + 1)); [done|]. apply IH; lia.
Qed.


End ReadLemmas.

(** ** Properties *)

Section Properties.
Context {E W : Type} (recv : Z -> M E Recv) `{!RecvLaws recv}.

(** No client keeps a worker: whatever it sends and however slowly, the loop over a body of
    [len] bytes ends within [len + 121] reads, and with the whole body, of exactly [len]
    bytes and never more than 8 MiB, or with a refusal. *)
Theorem reading_always_ends (len : Z) (conn : E) :
  let whole b := body_of (Z.max 0 len) b /\ (forall body, b = BodyRead body -> size body <= kMaxHttpRequestBodyBytes) in
  whole (eval (host_body recv len) conn) /\ whole (eval (firmware_body recv len) conn).
Proof.
  cbv zeta. unfold host_body, firmware_body, read_whole.
  assert (H0 : size EmptyString = 0) by done.
  assert (Hend : forall read, 0 < len ->
            body_of len (eval (read (read_fuel len) len EmptyString) conn) ->
            let b := eval (if kMaxHttpRequestBodyBytes <? len then ret BodyRefused else read (read_fuel len) len EmptyString) conn in
            body_of (Z.max 0 len) b /\ (forall body, b = BodyRead body -> size body <= kMaxHttpRequestBodyBytes)).
  { intros read Hl Hb. cbv zeta. destruct (Z.ltb_spec kMaxHttpRequestBodyBytes len); [by split|].
    rewrite Z.max_r by lia. split; [done|]. intros body Eb. rewrite Eb in Hb. cbn in Hb. lia. }
  destruct (Z.ltb_spec 0 len) as [Hl|Hl].
  - split.
    + apply (Hend (host_read recv)); [done|].
      apply (host_read_ends recv); rewrite H0; unfold read_fuel, kMaxTotalRecvTimeouts; lia.
    + apply (Hend (fun fuel n body => firmware_read recv fuel n body 0 0)); [done|].
      apply (firmware_read_ends recv); rewrite ?H0; unfold read_fuel, kMaxTotalRecvTimeouts; lia.
  - rewrite Z.max_l by lia. repeat split; intros body [= <-]; rewrite ?H0; unfold kMaxHttpRequestBodyBytes; cbn; lia.
Qed.

(** A request as the client sends it: the target cut at its first question mark. *)
Record Sent := {
  sent_method : string; sent_path : string; sent_query : option string; sent_length : option Z; sent_cookie : option string
}.

(** The same request through civetweb, which decodes the path, and through esp_http_server,
    which does not and whose copy of the cookie may fail. *)
Definition civetweb_info (url_decode : string -> string) (s : Sent) : RequestInfo :=
  {| request_method := sent_method s; request_uri := url_decode (sent_path s); query_string := sent_query s;
     content_length := default (-1) (sent_length s); cookie := sent_cookie s |}.

Definition httpd_request (copied : bool) (s : Sent) : HttpdRequest :=
  {| httpd_method := sent_method s;
     uri := match sent_query s with Some q => sent_path s +:+ String "?" q | None => sent_path s end;
     content_len := default 0 (sent_length s); cookie_value := sent_cookie s; cookie_copied := copied |}.




End Properties.

(** ** A client's bytes in any segmentation *)

Definition take_chars (n : nat) (s : string) : string := substring 0 n s.

(** A socket over the segments that arrive; a read takes no more than it asks for. *)
Definition script_recv (n : Z) : M (list Recv) Recv := fun segments =>
  match segments with
  | [] => (RecvFailed, [])
  | RecvBytes s :: rest =>
      if size s <=? n then (RecvBytes s, rest)
      else (RecvBytes (take_chars (Z.to_nat n) s), RecvBytes (drop_chars (Z.to_nat n) s) :: rest)
  | r :: rest => (r, rest)
  end.

Definition segment_bytes (r : Recv) : string := match r with RecvBytes s => s | _ => EmptyString end.

Definition bytes_of (segments : list Recv) : string := string_concat (map segment_bytes segments).

(** No failure, and never more silence than the firmware waits for. *)
Fixpoint patient (consecutive total : Z) (segments : list Recv) : bool :=
  match segments with
  | [] => true
  | RecvFailed :: _ => false
  | RecvTimeout :: rest =>
      (consecutive + 1 <=? kMaxConsecutiveRecvTimeouts) && (total + 1 <=? kMaxTotalRecvTimeouts) &&
      patient (consecutive + 1) (total + 1) rest
  | RecvBytes s :: rest => negb (is_empty s) && patient 0 total rest
  end.

Lemma take_drop_chars n s : take_chars n s +:+ drop_chars n s = s.
Proof.
  unfold take_chars. revert s. induction n as [|n IH]; intros s; destruct s as [|c s]; try done.
  cbn [substring drop_chars]. by rewrite sapp_cons, IH.
Qed.

Lemma size_take_chars n s : Z.of_nat n <= size s -> size (take_chars n s) = Z.of_nat n.
Proof.
  unfold take_chars. revert s. induction n as [|n IH]; intros s Hs; destruct s as [|c s]; try done.
  cbn [substring]. rewrite size_cons in *. rewrite IH; lia.
Qed.

(** Two splits of one string at the same place. *)
Lemma sapp_inj_l a b c d : a +:+ b = c +:+ d -> size a = size c -> a = c /\ b = d.
Proof.
  revert c. induction a as [|x a IH]; intros [|y c] He Hs; rewrite ?size_cons in Hs; try done.
  - pose proof (size_nonneg c). change (size EmptyString) with 0 in Hs. lia.
  - pose proof (size_nonneg a). change (size EmptyString) with 0 in Hs. lia.
  - rewrite !sapp_cons in He. injection He as -> He. destruct (IH c He ltac:(lia)) as [-> ->]. done.
Qed.

Lemma sapp_split a b c d : a +:+ b = c +:+ d -> size a <= size c -> exists m, c = a +:+ m /\ b = m +:+ d.
Proof.
  revert c. induction a as [|x a IH]; intros c He Hs; [by exists c|].
  destruct c as [|y c]; rewrite ?size_cons in Hs.
  - pose proof (size_nonneg a). change (size EmptyString) with 0 in Hs. lia.
  - rewrite !sapp_cons in He. injection He as -> He. destruct (IH c He ltac:(lia)) as (m & -> & ->).
    exists m. by rewrite sapp_cons.
Qed.


Lemma firmware_reads_script fuel len body todo rest c t segments :
  patient c t segments = true -> bytes_of segments = todo +:+ rest -> len = size body + size todo ->
  t <= kMaxTotalRecvTimeouts -> size todo + (kMaxTotalRecvTimeouts - t) < Z.of_nat fuel ->
  eval (firmware_read script_recv fuel len body c t) segments = BodyRead (body +:+ todo).
Proof.
  revert body todo c t segments. induction fuel as [|fuel IH]; intros body todo c t segments Hp Hb Hlen Ht Hf;
    [pose proof (size_nonneg todo); lia|].
  cbn [firmware_read]. destruct (Z.ltb_spec (size body) len) as [Hl|Hl].
  2:{ destruct todo as [|ch todo]; [by rewrite sapp_nil_r|]. rewrite size_cons in Hlen. pose proof (size_nonneg todo). lia. }
  unfold eval. rewrite run_bind. destruct segments as [|[s| |] segments]; cbn [patient] in Hp.
  - destruct todo as [|ch todo]; [|done]. change (size EmptyString) with 0 in Hlen. lia.
  - apply andb_true_iff in Hp as [Hne Hp]. cbn in Hb. fold (bytes_of segments) in Hb.
    assert (Hs : 0 < size s). { destruct s as [|ch s]; [done|]. rewrite size_cons. pose proof (size_nonneg s). lia. }
    unfold script_recv. destruct (Z.leb_spec (size s) (len - size body)) as [Hle|Hgt]; cbn [fst snd].
    + destruct (sapp_split _ _ _ _ Hb ltac:(lia)) as (m & -> & Hm). rewrite size_app in *.
      rewrite <- sapp_assoc. apply IH; [done|done|rewrite size_app; lia|done|lia].
    + set (n := Z.to_nat (len - size body)).
      assert (Hn : size (take_chars n s) = size todo) by (rewrite size_take_chars by lia; lia).
      rewrite <- (take_drop_chars n s), sapp_assoc in Hb. destruct (sapp_inj_l _ _ _ _ Hb Hn) as [<- _].
      destruct fuel as [|fuel]; cbn [firmware_read];
        by replace (size (body +:+ take_chars n s) <? len) with false by (rewrite size_app; lia).
  - apply andb_true_iff in Hp as [Hp Hp']. apply andb_true_iff in Hp as [H1 H2]. cbn [script_recv fst snd].
    replace (kMaxConsecutiveRecvTimeouts <? c + 1) with false by lia.
    replace (kMaxTotalRecvTimeouts <? t + 1) with false by lia. apply IH; [done|done|done|lia|lia].
  - done.
Qed.

(** The body a handler sees is the body the client sent: however the network cuts it into
    segments, and with any pauses the firmware waits out, the bytes read are the first
    [Content-Length] bytes sent, in order. *)
Theorem segmentation_is_invisible (segments : list Recv) (body rest : string) :
  patient 0 0 segments = true -> bytes_of segments = body +:+ rest -> size body <= kMaxHttpRequestBodyBytes ->
  eval (firmware_body script_recv (size body)) segments = BodyRead body.
Proof.
  intros Hp Hb Hs. unfold firmware_body, read_whole.
  destruct (Z.ltb_spec 0 (size body)) as [Hl|Hl].
  - destruct (Z.ltb_spec kMaxHttpRequestBodyBytes (size body)); [lia|].
    apply (firmware_reads_script _ _ EmptyString body rest); [done|done|done|unfold kMaxTotalRecvTimeouts; lia|].
    unfold read_fuel, kMaxTotalRecvTimeouts. lia.
  - destruct body as [|c b]; [done|]. rewrite size_cons in Hl. pose proof (size_nonneg b). lia.
Qed.

(** ** Witnesses *)

Module Sample.

(** A client that sends one byte per read, for ever. *)
Definition drip (n : Z) : M unit Recv := ret (RecvBytes "x").

#[export] Instance drip_laws : RecvLaws drip.
Proof. constructor. intros n e chunk Hn [= <-]. change (size "x") with 1. lia. Qed.

Definition echo : Handler nat := fun request => let* _ := modify Nat.succ in ret (json_response 200 (req_body request)).

Definition table : Handlers (W := nat) := RegisterHandler kPost "/echo" echo [].

Definition sent : Sent :=
  {| sent_method := "POST"; sent_path := "/echo"; sent_query := Some "a=b?c"; sent_length := Some 3; sent_cookie := Some "session=1" |}.

(** The routes looked up by method and path. *)
Definition route (table : Handlers (W := nat)) (req : HttpdRequest) : Handler nat + Z :=
  match method_of (httpd_method req) with
  | None => inr 405
  | Some m => match find_handler m (break_at "?" (uri req)).1 table with Some h => inl h | None => inr 404 end
  end.

End Sample.

Lemma reading_always_ends_witness : body_of 3 (eval (firmware_body Sample.drip 3) tt).
Proof. exact (proj1 (proj2 (reading_always_ends (RecvLaws0 := Sample.drip_laws) Sample.drip 3 tt))). Defined.


(** An escaped path, and a route that was not registered, are where they part. *)
Example servers_differ :
  let escaped := {| sent_method := "POST"; sent_path := "/ech%6f"; sent_query := None; sent_length := None; sent_cookie := None |} in
  eval (Dispatch Sample.drip Sample.table (civetweb_info (fun _ => "/echo") escaped) tt) 0%nat = ReplyWith (json_response 200 EmptyString) /\
  eval (firmware_serve Sample.drip (fun _ _ => true) Sample.route Sample.table (httpd_request true escaped) tt) 0%nat = ReplyError 404 /\
  eval (firmware_serve Sample.drip (fun _ _ => false) Sample.route Sample.table (httpd_request true Sample.sent) tt) 0%nat = ReplyError 404.
Proof. by vm_compute. Qed.

Lemma segmentation_is_invisible_witness :
  eval (firmware_body script_recv 5) [RecvTimeout; RecvBytes "he"; RecvTimeout; RecvTimeout; RecvBytes "llo, and more"] = BodyRead "hello".
Proof.
  apply (segmentation_is_invisible [RecvTimeout; RecvBytes "he"; RecvTimeout; RecvTimeout; RecvBytes "llo, and more"] "hello" ", and more").
  - vm_compute. reflexivity.
  - vm_compute. reflexivity.
  - vm_compute. discriminate.
Defined.
