(* ===== verification/Threads.v ===== *)
(** Threads: programs that share a state and may be interrupted between any two steps.

    The code that runs on several tasks (the ESP event loop, the timers' task, the HTTP
    worker, the UI) takes a mutex around a few reads and writes and releases it before any
    call that blocks. Such a program is a tree of atomic sections: each runs on the shared
    state without interruption, and anything may happen between two of them. [ok] is the
    rule to reason about one program while the others run (a rely and a guarantee), with a
    debt: what the program owes the others. *)
From S2P Require Import Prelude.

Section Programs.
Context {W : Type}.

Inductive prog (A : Type) : Type :=
| Done (a : A)
| Atomic {B : Type} (m : M W B) (k : B -> prog A).

#[global] Arguments Done {A} a.
#[global] Arguments Atomic {A B} m k.

Fixpoint pbind {A B : Type} (p : prog A) (k : A -> prog B) : prog B :=
  match p with
  | Done a => k a
  | Atomic m k' => Atomic m (fun b => pbind (k' b) k)
  end.

(** One section that is a program by itself. *)
Definition atomic {A : Type} (m : M W A) : prog A := Atomic m Done.

(** The next section of a program. *)
Definition step_prog {A : Type} (p : prog A) : M W (prog A) := fun w =>
  match p with
  | Done a => (Done a, w)
  | Atomic m k => (k (eval m w), exec m w)
  end.

Definition is_done {A : Type} (p : prog A) : bool := match p with Done _ => true | Atomic _ _ => false end.

(** The program alone, from beginning to end. *)
Fixpoint run_prog {A : Type} (p : prog A) : M W A :=
  match p with
  | Done a => ret a
  | Atomic m k => let* b := m in run_prog (k b)
  end.
End Programs.

#[global] Arguments prog W A : clear implicits.

Notation "'let!' x ':=' p 'in' k" := (pbind p (fun x => k))
  (at level 10, x pattern, k at level 200) : homedeck_scope.
Notation "p ';;!' k" := (pbind p (fun _ => k)) (at level 199, right associativity) : homedeck_scope.

(** ** Reasoning about one program among others *)

Section Rely.
Context {W : Type}.
(** [R] is what the others may do between two sections; [St d d'] is what a section may do
    that is entered with the debt [d] and left with [d']. *)
Context {D : Type} (R : W -> W -> Prop) (St : D -> D -> W -> W -> Prop) (nothing : D).

Fixpoint ok {A : Type} (Q : A -> D -> W -> Prop) (p : prog W A) (d : D) (w : W) : Prop :=
  match p with
  | Done a => forall w1, R w w1 -> Q a d w1
  | Atomic m k => forall w1, R w w1 -> exists d', St d d' w1 (exec m w1) /\ ok Q (k (eval m w1)) d' (exec m w1)
  end.

(** At the end nothing is owed. *)
Definition settled {A : Type} (_ : A) (d : D) (_ : W) : Prop := d = nothing.

Definition fine (p : prog W unit) (d : D) (w : W) : Prop := ok settled p d w.

Context `{!PreOrder R}.

Lemma ok_stable {A} Q (p : prog W A) d w w1 : R w w1 -> ok Q p d w -> ok Q p d w1.
Proof. intros Hr. destruct p; cbn; intros H w2 H2; apply H; by etrans. Qed.

Lemma ok_bind {A B} Q (p : prog W A) (k : A -> prog W B) d w :
  ok (fun a d w => ok Q (k a) d w) p d w -> ok Q (pbind p k) d w.
Proof.
  revert d w. induction p as [a|C m k' IH]; cbn; intros d w H.
  - apply H. reflexivity.
  - intros w1 H1. destruct (H w1 H1) as (d' & Hs & Hk). exists d'. split; [done|]. by apply IH.
Qed.

Lemma ok_done {A} (Q : A -> D -> W -> Prop) a d w : (forall w1, R w w1 -> Q a d w1) -> ok Q (Done a) d w.
Proof. done. Qed.

(** A section followed by the rest. *)
Lemma ok_atomic {A B} (Q : B -> D -> W -> Prop) (m : M W A) (k : A -> prog W B) d w :
  (forall w1, R w w1 -> exists d', St d d' w1 (exec m w1) /\ ok Q (k (eval m w1)) d' (exec m w1)) ->
  ok Q (pbind (atomic m) k) d w.
Proof. done. Qed.

Lemma ok_step p d w :
  fine p d w -> exists d', (p <> Done tt -> St d d' w (exec (step_prog p) w)) /\
                           (p = Done tt -> d' = d /\ d = nothing) /\ fine (eval (step_prog p) w) d' (exec (step_prog p) w).
Proof.
  unfold fine. destruct p as [[]|B m k]; cbn; intros H.
  - exists d. split_and!; [done| |done]. intros _. split; [done|]. apply (H w). reflexivity.
  - destruct (H w) as (d' & H1 & H2); [reflexivity|]. by exists d'.
Qed.
End Rely.

(** ** A pool of programs *)

Section Pool.
Context {W : Type}.

(** Thread [i] runs its next section. *)
Definition step_nth (i : nat) (threads : list (prog W unit)) : M W (list (prog W unit)) := fun w =>
  match threads !! i with
  | Some p => let '(p', w') := step_prog p w in (<[i := p']> threads, w')
  | None => (threads, w)
  end.

Lemma step_nth_some i threads p w :
  threads !! i = Some p -> step_nth i threads w = (<[i := eval (step_prog p) w]> threads, exec (step_prog p) w).
Proof. unfold step_nth. intros ->. unfold eval, exec. by destruct (step_prog p w). Qed.

Lemma step_nth_none i threads w : threads !! i = None -> step_nth i threads w = (threads, w).
Proof. unfold step_nth. by intros ->. Qed.
End Pool.
