(* ===== verification/Tasks.v ===== *)
(** Tasks: background tasks and timers, and the modules that own one.

    Models the device's [src/src/platform/firmware/task.cpp] and [timer.cpp] over FreeRTOS, the
    host's [platform/host/task.cpp] and [timer.cpp], and [Start] and [Stop] of
    [core/harmony_connection.cpp] and [core/kodi_client.cpp]. The threads are steps of one
    relation; a freed object is one that must not be touched again. *)
From S2P Require Import Prelude.

(** ** What FreeRTOS gives *)

(** A binary semaphore; a take that finds nothing blocks. *)
Class Semaphore (S : Type) := { sem_new : S; sem_give : S -> S; sem_take : S -> option S }.

Class SemaphoreLaws (S : Type) `{Semaphore S} : Prop := {
  new_blocks : sem_take sem_new = None;
  give_wakes s : sem_take (sem_give s) <> None
}.

(** The queue of the timer service task: commands come out in the order they went in. *)
Class CommandQueue (Q C : Type) := {
  queue_new : Q; queue_send : C -> Q -> Q; queue_receive : Q -> option (C * Q); waiting : Q -> list C
}.

Class CommandQueueLaws (Q C : Type) `{CommandQueue Q C} : Prop := {
  new_empty : waiting queue_new = [];
  send_last c q : waiting (queue_send c q) = waiting q ++ [c];
  receive_first q : match queue_receive q with
                    | Some (c, q') => waiting q = c :: waiting q'
                    | None => waiting q = []
                    end
}.

#[export] Instance bool_semaphore : Semaphore bool :=
  { sem_new := false; sem_give _ := true; sem_take s := if s then Some false else None }.
#[export] Instance bool_semaphore_laws : SemaphoreLaws bool.
Proof. by split. Qed.

#[export] Instance list_queue C : CommandQueue (list C) C :=
  { queue_new := []; queue_send c q := q ++ [c]; queue_receive q := match q with c :: q => Some (c, q) | [] => None end;
    waiting q := q }.
#[export] Instance list_queue_laws C : CommandQueueLaws (list C) C.
Proof. split; try done. by intros [|c q]. Qed.

(** ** [platform/firmware/task.cpp] *)

Module FirmwareTask.
Section Task.
Context {S : Type} `{SemaphoreLaws S}.

(** Where [TaskTrampoline] is, and where the owner is in the constructor and the destructor. *)
Inductive TaskAt := BeforeFunction | InFunction | BeforeGive | BeforeDelete | Deleted.
Inductive OwnerAt := Owning | BeforeTake | BeforeSemaphoreDelete | BeforeFree | Destroyed.

#[global] Instance TaskAt_eq_dec : EqDecision TaskAt.
Proof. solve_decision. Defined.
#[global] Instance OwnerAt_eq_dec : EqDecision OwnerAt.
Proof. solve_decision. Defined.

(** [TaskContext] and what has become of it. *)
Record Task := {
  stop_requested : bool; finished : S; context_alive : bool; semaphore_alive : bool;
  task_at : TaskAt; owner_at : OwnerAt
}.

(** The constructor; [None] is [abort]. *)
Definition NewTask (semaphore_created task_created : bool) : option Task :=
  if negb semaphore_created then None
  else if negb task_created then None
  else Some {| stop_requested := false; finished := sem_new; context_alive := true; semaphore_alive := true;
               task_at := BeforeFunction; owner_at := Owning |}.

Definition task_moves (t : TaskAt) (w : Task) : Task :=
  {| stop_requested := stop_requested w; finished := finished w; context_alive := context_alive w;
     semaphore_alive := semaphore_alive w; task_at := t; owner_at := owner_at w |}.

(** The trampoline's next step; the client's function returns when it returns. *)
Definition TaskTrampoline_step (w : Task) : option Task :=
  match task_at w with
  | BeforeFunction => Some (task_moves InFunction w)
  | InFunction => Some (task_moves BeforeGive w)
  | BeforeGive =>
      Some {| stop_requested := stop_requested w; finished := sem_give (finished w); context_alive := context_alive w;
              semaphore_alive := semaphore_alive w; task_at := BeforeDelete; owner_at := owner_at w |}
  | BeforeDelete => Some (task_moves Deleted w)
  | Deleted => None
  end.

(** [~Task]'s next step: [None] where it blocks or is over. *)
Definition Destructor_step (w : Task) : option Task :=
  match owner_at w with
  | Owning =>
      Some {| stop_requested := true; finished := finished w; context_alive := context_alive w;
              semaphore_alive := semaphore_alive w; task_at := task_at w; owner_at := BeforeTake |}
  | BeforeTake =>
      option_map (fun s => {| stop_requested := stop_requested w; finished := s; context_alive := context_alive w;
              semaphore_alive := semaphore_alive w; task_at := task_at w; owner_at := BeforeSemaphoreDelete |})
        (sem_take (finished w))
  | BeforeSemaphoreDelete =>
      Some {| stop_requested := stop_requested w; finished := finished w; context_alive := context_alive w;
              semaphore_alive := false; task_at := task_at w; owner_at := BeforeFree |}
  | BeforeFree =>
      Some {| stop_requested := stop_requested w; finished := finished w; context_alive := false;
              semaphore_alive := semaphore_alive w; task_at := task_at w; owner_at := Destroyed |}
  | Destroyed => None
  end.

Inductive TaskStep (w : Task) : Task -> Prop :=
  | by_task w' : TaskTrampoline_step w = Some w' -> TaskStep w w'
  | by_owner w' : Destructor_step w = Some w' -> TaskStep w w'.

(** A task that still has something of its context to touch. *)
Definition needs_context (w : Task) : bool :=
  match task_at w with BeforeFunction | InFunction | BeforeGive => true | BeforeDelete | Deleted => false end.

(** What a step of the task or of its owner touches is there. *)
Definition safe (w : Task) : Prop :=
  (needs_context w = true -> context_alive w = true /\ semaphore_alive w = true) /\
  (owner_at w <> Destroyed -> context_alive w = true) /\
  (owner_at w = Owning \/ owner_at w = BeforeTake \/ owner_at w = BeforeSemaphoreDelete -> semaphore_alive w = true).

Definition task_ok (w : Task) : Prop :=
  safe w /\
  (needs_context w = true -> sem_take (finished w) = None /\ (owner_at w = Owning \/ owner_at w = BeforeTake)) /\
  (needs_context w = false -> owner_at w = Owning \/ owner_at w = BeforeTake -> sem_take (finished w) <> None) /\
  (owner_at w <> Owning -> stop_requested w = true).

Lemma NewTask_ok s t w : NewTask s t = Some w -> task_ok w.
Proof.
  unfold NewTask. destruct s, t; try done. intros [= <-]. unfold task_ok, safe, needs_context. cbn.
  split_and!; try done. intros _. split; [apply new_blocks|by left].
Qed.

Lemma task_step_ok w w' : task_ok w -> TaskStep w w' -> task_ok w'.
Proof.
  intros ((Hs1 & Hs2 & Hs3) & Hn & Hg & Hq) Hstep. unfold task_ok, safe, needs_context in *.
  destruct Hstep as [w' E|w' E].
  - unfold TaskTrampoline_step, task_moves in E. destruct (task_at w) eqn:Et; try done; injection E as <-; cbn in *;
      split_and!; try done; try (intros; apply give_wakes); naive_solver.
  - unfold Destructor_step in E. destruct (owner_at w) eqn:Eo; try done;
      [|destruct (sem_take (finished w)) as [s|] eqn:Es; [|done]| |]; injection E as <-; cbn in *;
      (assert (Hno : false <> true) by done); destruct (task_at w); intuition congruence.
Qed.

Inductive task_reachable : Task -> Prop :=
  | reach_new s t w : NewTask s t = Some w -> task_reachable w
  | reach_step w w' : task_reachable w -> TaskStep w w' -> task_reachable w'.

Lemma reached_by_task w w' : task_reachable w -> TaskTrampoline_step w = Some w' -> task_reachable w'.
Proof. intros Hw E. eapply reach_step; [exact Hw|by apply by_task]. Qed.

Lemma reached_by_owner w w' : task_reachable w -> Destructor_step w = Some w' -> task_reachable w'.
Proof. intros Hw E. eapply reach_step; [exact Hw|by apply by_owner]. Qed.

Lemma task_reachable_ok w : task_reachable w -> task_ok w.
Proof. induction 1 as [s t w E|w w' _ IH Hs]; [by eapply NewTask_ok|by eapply task_step_ok]. Qed.

(** What is left of a task and its destructor. *)
Definition work_left (w : Task) : nat :=
  (match task_at w with BeforeFunction => 4 | InFunction => 3 | BeforeGive => 2 | BeforeDelete => 1 | Deleted => 0 end +
   match owner_at w with Owning => 4 | BeforeTake => 3 | BeforeSemaphoreDelete => 2 | BeforeFree => 1 | Destroyed => 0 end)%nat.

Lemma step_works w w' : TaskStep w w' -> (work_left w' < work_left w)%nat.
Proof.
  intros [w'' E|w'' E]; unfold work_left.
  - unfold TaskTrampoline_step, task_moves in E. destruct (task_at w); try done; injection E as <-; cbn; lia.
  - unfold Destructor_step in E. destruct (owner_at w); try done; [|destruct (sem_take _); [|done]| |]; injection E as <-; cbn; lia.
Qed.
End Task.

(** ** Properties *)

(** When the destructor of a task has got past its wait, the task's
    function has returned, after a stop had been requested; until then the task finds its context
    and its semaphore alive whenever it touches them; and the destructor cannot hang: as long as
    it has not returned some step is left, and there are at most seven. *)
Theorem task_is_joined {S : Type} `{SemaphoreLaws S} (w : Task (S := S)) :
  task_reachable w ->
  (owner_at w <> Owning -> stop_requested w = true) /\
  (owner_at w <> Owning -> owner_at w <> BeforeTake -> needs_context w = false) /\
  (needs_context w = true -> context_alive w = true /\ semaphore_alive w = true) /\
  (owner_at w <> Owning -> owner_at w <> Destroyed ->
     exists w', TaskStep w w' /\ (work_left w' < work_left w <= 7)%nat).
Proof.
  intros Hw. destruct (task_reachable_ok w Hw) as (Hs & Hn & Hg & Hq). split_and!; try done.
  - intros H1 H2. apply not_true_is_false. intros Hx. destruct (Hn Hx) as [_ [Ho | Ho]]; done.
  - by destruct Hs.
  - intros H1 H2.
    assert (Hstep : exists w', TaskStep w w').
    { destruct (TaskTrampoline_step w) as [w'|] eqn:Et; [by exists w'; apply by_task|].
      assert (needs_context w = false) as Hnc by (unfold TaskTrampoline_step in Et; unfold needs_context; by destruct (task_at w)).
      destruct (Destructor_step w) as [w'|] eqn:Ed; [by exists w'; apply by_owner|]. exfalso. unfold Destructor_step in Ed.
      destruct (owner_at w); try done. specialize (Hg Hnc (or_intror eq_refl)). by destruct (sem_take (finished w)). }
    destruct Hstep as [w' Hw']. exists w'. split; [done|]. pose proof (step_works w w' Hw').
    assert (work_left w <= 7)%nat by (unfold work_left; destruct (task_at w), (owner_at w); try done; lia). lia.
Qed.

(** A task whose owner waits for it, and whose function has just returned. *)
Definition being_destroyed : Task (S := bool) :=
  {| stop_requested := true; finished := false; context_alive := true; semaphore_alive := true;
     task_at := BeforeGive; owner_at := BeforeTake |}.

Lemma being_destroyed_reachable : task_reachable being_destroyed.
Proof.
  pose proof (reach_new true true _ eq_refl : task_reachable (S := bool) _) as R.
  pose proof (reached_by_task _ _ R eq_refl) as R1. pose proof (reached_by_task _ _ R1 eq_refl) as R2.
  exact (reached_by_owner _ _ R2 eq_refl).
Qed.

Lemma task_is_joined_witness : exists w', TaskStep being_destroyed w' /\ (work_left w' < work_left being_destroyed <= 7)%nat.
Proof. apply (task_is_joined being_destroyed being_destroyed_reachable); discriminate. Defined.
End FirmwareTask.

(** ** [platform/firmware/timer.cpp] *)

Module FirmwareTimer.
(** The commands of this timer's object, and those of any other timer. *)
Inductive Command := StartTimer | DeleteTimer | CallGiveSemaphore | OtherCommand.

#[global] Instance Command_eq_dec : EqDecision Command.
Proof. solve_decision. Defined.

Section Timer.
Context {S Q : Type} `{SemaphoreLaws S} `{CommandQueueLaws Q Command}.

(** Where the timer service task is, and where the owner is; [NullSent] after it has pended the
    call with a semaphore that could not be created, [Aborted] when FreeRTOS has been given it. *)
Inductive ServiceAt := BetweenCommands | InCallback.
Inductive OwnerAt := Owning | DeleteSent | CallSent | Taken | SemaphoreDeleted | Destroyed | NullSent | Aborted.

#[global] Instance TimerOwnerAt_eq_dec : EqDecision OwnerAt.
Proof. solve_decision. Defined.

(** [done_] is there between its creation and its deletion. *)
Record Timer := {
  queue : Q; active : bool; service_at : ServiceAt; context_alive : bool; done_ : option S; owner_at : OwnerAt
}.

(** The constructor, between whatever else is queued; [None] is [abort]. *)
Definition NewTimer (created : bool) (q : Q) : option Timer :=
  if negb created then None
  else Some {| queue := queue_send StartTimer q; active := false; service_at := BetweenCommands;
               context_alive := true; done_ := None; owner_at := Owning |}.

Definition with_queue (q : Q) (w : Timer) : Timer :=
  {| queue := q; active := active w; service_at := service_at w; context_alive := context_alive w; done_ := done_ w; owner_at := owner_at w |}.

Definition with_active (b : bool) (w : Timer) : Timer :=
  {| queue := queue w; active := b; service_at := service_at w; context_alive := context_alive w; done_ := done_ w; owner_at := owner_at w |}.

Definition with_service (p : ServiceAt) (w : Timer) : Timer :=
  {| queue := queue w; active := active w; service_at := p; context_alive := context_alive w; done_ := done_ w; owner_at := owner_at w |}.

Definition with_done (d : option S) (w : Timer) : Timer :=
  {| queue := queue w; active := active w; service_at := service_at w; context_alive := context_alive w; done_ := d; owner_at := owner_at w |}.

Definition owner_moves (p : OwnerAt) (w : Timer) : Timer :=
  {| queue := queue w; active := active w; service_at := service_at w; context_alive := context_alive w; done_ := done_ w; owner_at := p |}.

(** [GiveSemaphore], on the service task; FreeRTOS asserts that there is a semaphore. *)
Definition GiveSemaphore (w : Timer) : Timer :=
  match done_ w with Some s => with_done (Some (sem_give s)) w | None => owner_moves Aborted w end.

Definition run_command (c : Command) (w : Timer) : Timer :=
  match c with
  | StartTimer => with_active true w
  | DeleteTimer => with_active false w
  | CallGiveSemaphore => GiveSemaphore w
  | OtherCommand => w
  end.

(** [~Timer]'s next step: [None] where it blocks or is over. [created] is whether
    [xSemaphoreCreateBinary] gives a semaphore, which nothing checks: a null one is pended and
    taken all the same. *)
Definition Destructor_step (created : bool) (w : Timer) : option Timer :=
  match owner_at w with
  | Owning => Some (owner_moves DeleteSent (with_queue (queue_send DeleteTimer (queue w)) w))
  | DeleteSent =>
      Some (owner_moves (if created then CallSent else NullSent)
              (with_done (if created then Some sem_new else None) (with_queue (queue_send CallGiveSemaphore (queue w)) w)))
  | CallSent =>
      match option_map sem_take (done_ w) with
      | Some (Some s) => Some (owner_moves Taken (with_done (Some s) w))
      | _ => None
      end
  | Taken => Some (owner_moves SemaphoreDeleted (with_done None w))
  | SemaphoreDeleted =>
      Some {| queue := queue w; active := active w; service_at := service_at w; context_alive := false;
              done_ := done_ w; owner_at := Destroyed |}
  | NullSent => Some (owner_moves Aborted w)
  | Destroyed | Aborted => None
  end.

(** The service task runs one command or one callback at a time, and calls back a timer only
    while it is active. *)
Inductive TimerStep (w : Timer) : Timer -> Prop :=
  | service_command c q : service_at w = BetweenCommands -> queue_receive (queue w) = Some (c, q) ->
      TimerStep w (run_command c (with_queue q w))
  | service_fires : service_at w = BetweenCommands -> active w = true -> TimerStep w (with_service InCallback w)
  | service_returns : service_at w = InCallback -> TimerStep w (with_service BetweenCommands w)
  | owner_step created w' : Destructor_step created w = Some w' -> TimerStep w w'
  | others_send : TimerStep w (with_queue (queue_send OtherCommand (queue w)) w).

(** The commands of this timer that wait, in their order. *)
Definition own (q : Q) : list Command := filter (fun c => c <> OtherCommand) (waiting q).

Lemma own_send c q : own (queue_send c q) = own q ++ if decide (c = OtherCommand) then [] else [c].
Proof. unfold own. rewrite send_last, filter_app. f_equal. destruct c; done. Qed.

Lemma own_receive q c q' : queue_receive q = Some (c, q') -> own q = (if decide (c = OtherCommand) then [] else [c]) ++ own q'.
Proof. intros E. pose proof (receive_first q) as Hr. rewrite E in Hr. unfold own. rewrite Hr. destruct c; done. Qed.

(** Which of the commands have been sent, by where the owner is, and what has come of them. *)
Definition sent_so_far (o : OwnerAt) : list Command :=
  match o with Owning => [StartTimer] | DeleteSent => [StartTimer; DeleteTimer] | _ => [StartTimer; DeleteTimer; CallGiveSemaphore] end.

Definition timer_ok (w : Timer) : Prop :=
  (exists run, run ++ own (queue w) = sent_so_far (owner_at w) /\
     (active w = true <-> run = [StartTimer]) /\
     (service_at w = InCallback -> run = [StartTimer]) /\
     match owner_at w with
     | CallSent => exists s, done_ w = Some s /\ match own (queue w) with [] => sem_take s <> None | _ => sem_take s = None end
     | Taken => own (queue w) = [] /\ is_Some (done_ w)
     | NullSent => done_ w = None
     | SemaphoreDeleted | Destroyed => own (queue w) = []
     | _ => True
     end) /\
  (owner_at w <> Destroyed -> context_alive w = true).

Lemma NewTimer_ok created q w : own q = [] -> NewTimer created q = Some w -> timer_ok w.
Proof.
  unfold NewTimer. intros Hq. destruct created; [|done]. intros [= <-]. split; [|done]. exists [].
  cbn. rewrite own_send, Hq. by split_and!.
Qed.

(** The commands that have run are the first of those sent. *)
Lemma run_prefix (run l : list Command) o : run ++ l = sent_so_far o ->
  run = [] \/ run = [StartTimer] \/ run = [StartTimer; DeleteTimer] \/ run = [StartTimer; DeleteTimer; CallGiveSemaphore].
Proof.
  destruct run as [|a [|b [|c [|d run]]]]; [by left| | | |]; destruct o; cbn; intros E; simplify_eq; tauto.
Qed.

Lemma command_ok w c q : timer_ok w -> service_at w = BetweenCommands -> queue_receive (queue w) = Some (c, q) ->
  timer_ok (run_command c (with_queue q w)).
Proof.
  intros ((run & E & Ha & Hi & Ho) & Hc) Hs Hr. pose proof (own_receive _ _ _ Hr) as Eq. rewrite Eq in E, Ho.
  destruct (decide (c = OtherCommand)) as [->|Hown].
  - split; [|done]. exists run. by split_and!.
  - assert (Hsame : forall w', owner_at w' = owner_at w \/ owner_at w' = Aborted /\ owner_at w <> Destroyed ->
              context_alive w' = context_alive w -> owner_at w' <> Destroyed -> context_alive w' = true).
    { intros w' Hor -> Hd. apply Hc. destruct Hor as [<-|[_ Hor]]; done. }
    destruct (run_prefix run _ _ E) as [-> | [-> | [-> | ->]]]; destruct (owner_at w) eqn:Eo; cbn in E; try discriminate;
      injection E as ?; subst c; cbn [run_command] in *; try discriminate Ho; try (by destruct Ho).
    10: destruct Ho as (s & Ed & Ho). 11: rename Ho into Ed. 12: destruct (done_ w) eqn:Ed.
    all: try (assert (GiveSemaphore (with_queue q w) = with_done (Some (sem_give s)) (with_queue q w)) as Eg
                by (unfold GiveSemaphore; cbn; by rewrite Ed); rewrite Eg).
    all: try (assert (GiveSemaphore (with_queue q w) = owner_moves Aborted (with_queue q w)) as Eg
                by (unfold GiveSemaphore; cbn; by rewrite Ed); rewrite Eg).
    all: split; [|apply Hsame; cbn; rewrite ?Eo; auto].
    1-5: exists [StartTimer]. 6-9: exists [StartTimer; DeleteTimer]. 10-13: exists [StartTimer; DeleteTimer; CallGiveSemaphore].
    all: cbn; rewrite ?Eo, ?Hs; cbn; (split; [congruence|]); (split; [split; (done || discriminate || by intros ?%Ha)|]);
      (split; [discriminate|]); try done.
    all: try (destruct Ho as (s' & Ed' & Ho); exists s'; split; [done|]).
    all: match goal with Hq : own _ = _ |- _ => rewrite Hq in * end; try done.
    eexists. split; [done|]. by apply give_wakes.
Qed.

Lemma timer_step_ok w w' : timer_ok w -> TimerStep w w' -> timer_ok w'.
Proof.
  intros Hw Hstep. destruct Hstep as [c q Hs Hr|Hs Ha|Hs|created w' E|]; [by apply command_ok| | | |].
  - destruct Hw as ((run & E & Hact & Hi & Ho) & Hc). split; [|done]. exists run. split_and!; try done. intros _. by apply Hact.
  - destruct Hw as ((run & E & Hact & Hi & Ho) & Hc). split; [|done]. by exists run.
  - destruct Hw as ((run & Er & Hact & Hi & Ho) & Hc). unfold Destructor_step in E.
    destruct (owner_at w) eqn:Eo; try done; cbn in Er.
    + injection E as <-. split; [|by intros _; apply Hc]. exists run. cbn. rewrite own_send, app_assoc, Er. by split_and!.
    + injection E as <-. split; [|by intros _; apply Hc]. exists run. cbn. rewrite own_send, app_assoc, Er.
      destruct created; split_and!; try done.
      exists sem_new. split; [done|]. destruct (own (queue w)); cbn; apply new_blocks.
    + destruct Ho as (s & Es & Ho). rewrite Es in E. cbn in E. destruct (sem_take s) as [s'|] eqn:Et; [|done]. injection E as <-.
      split; [|by intros _; apply Hc]. exists run. cbn. split_and!; try done. by destruct (own (queue w)).
    + injection E as <-. split; [|by intros _; apply Hc]. exists run. cbn. by destruct Ho as [Ho _].
    + injection E as <-. split; [|done]. by exists run.
    + injection E as <-. split; [|by intros _; apply Hc]. by exists run.
  - destruct Hw as ((run & E & Hact & Hi & Ho) & Hc). split; [|done]. exists run. cbn. rewrite own_send, app_nil_r. by split_and!.
Qed.

Inductive timer_reachable : Timer -> Prop :=
  | reach_new created q w : own q = [] -> NewTimer created q = Some w -> timer_reachable w
  | reach_step w w' : timer_reachable w -> TimerStep w w' -> timer_reachable w'.

Lemma reached_by_service w c q : timer_reachable w -> service_at w = BetweenCommands -> queue_receive (queue w) = Some (c, q) ->
  timer_reachable (run_command c (with_queue q w)).
Proof. intros Hw E1 E2. eapply reach_step; [exact Hw|by apply service_command]. Qed.

Lemma reached_by_fire w : timer_reachable w -> service_at w = BetweenCommands -> active w = true -> timer_reachable (with_service InCallback w).
Proof. intros Hw E1 E2. eapply reach_step; [exact Hw|by apply service_fires]. Qed.

Lemma reached_by_destructor created w w' : timer_reachable w -> Destructor_step created w = Some w' -> timer_reachable w'.
Proof. intros Hw E. eapply reach_step; [exact Hw|by apply (owner_step w created)]. Qed.

Lemma timer_reachable_ok w : timer_reachable w -> timer_ok w.
Proof. induction 1 as [c q w Hq E|w w' _ IH Hs]; [by eapply NewTimer_ok|by eapply timer_step_ok]. Qed.

(** Once the pended call has run the timer is deleted for good. *)
Lemma deleted_for_good w : timer_ok w -> sent_so_far (owner_at w) = [StartTimer; DeleteTimer; CallGiveSemaphore] -> own (queue w) = [] ->
  active w = false /\ service_at w = BetweenCommands.
Proof.
  intros ((run & E & Ha & Hi & _) & _) Hall Hq. rewrite Hq, app_nil_r, Hall in E. subst run.
  split; [apply not_true_is_false; intros Hx; by apply Ha in Hx|]. destruct (service_at w); [done|]. by specialize (Hi eq_refl).
Qed.

Lemma call_waits w : timer_ok w -> CallGiveSemaphore ∈ waiting (queue w) ->
  is_Some (done_ w) \/ owner_at w = NullSent \/ owner_at w = Aborted.
Proof.
  intros ((run & E & _ & _ & Ho) & _) Hin. assert (Hown : CallGiveSemaphore ∈ own (queue w)) by (by apply list_elem_of_filter).
  destruct (owner_at w); try (by right; auto); try (left; by destruct Ho as (s & -> & _)); try (rewrite Ho in Hown; by apply elem_of_nil in Hown);
    try (left; by destruct Ho).
  all: assert (Hx : CallGiveSemaphore ∈ run ++ own (queue w)) by (apply elem_of_app; by right).
  all: rewrite E in Hx; cbn in Hx; set_solver.
Qed.
End Timer.

(** ** Properties *)

(** C39: A timer of the device is never called back once its destructor has
    returned, not even by a tick that was due while it ran: no callback is running then and none
    can start; the context a callback touches is alive in every callback, the pended call never
    gives a deleted semaphore, and when this timer's commands have been processed the destructor
    returns. Where there is no memory for the semaphore, which the destructor does not look at,
    the null one is given to FreeRTOS, whose assertion stops the device: by the pended call or
    by the destructor's own next step. *)
Theorem no_callback_after_timer {S Q : Type} `{SemaphoreLaws S} `{CommandQueueLaws Q Command} (w : Timer (S := S) (Q := Q)) :
  timer_reachable w ->
  (service_at w = InCallback -> context_alive w = true) /\
  (CallGiveSemaphore ∈ waiting (queue w) -> is_Some (done_ w) \/ owner_at w = NullSent \/ owner_at w = Aborted) /\
  (owner_at w = Destroyed ->
     service_at w = BetweenCommands /\ forall w', TimerStep w w' -> service_at w' = BetweenCommands /\ owner_at w' = Destroyed) /\
  (owner_at w <> Owning -> owner_at w <> Destroyed -> owner_at w <> Aborted -> own (queue w) = [] ->
     forall created, is_Some (Destructor_step created w)) /\
  (owner_at w = NullSent -> forall created w', Destructor_step created w = Some w' -> owner_at w' = Aborted).
Proof.
  intros Hw. pose proof (timer_reachable_ok w Hw) as Hok. pose proof Hok as ((run & E & Ha & Hi & Ho) & Hc).
  assert (Hgone : owner_at w = Destroyed -> active w = false /\ service_at w = BetweenCommands /\ own (queue w) = []).
  { intros Hd. rewrite Hd in Ho. destruct (deleted_for_good w); [done|by rewrite Hd|done|]. done. }
  split_and!.
  - intros Hs. apply Hc. intros Hd. destruct (Hgone Hd) as (_ & Hb & _). congruence.
  - by apply call_waits.
  - intros Hd. destruct (Hgone Hd) as (Hact & Hsv & Hq). split; [done|].
    intros w' Hstep. destruct Hstep as [c q _ Hr|_ Hf|Hf|created w' Es|]; try congruence; [| |done].
    + apply own_receive in Hr. rewrite Hq in Hr. destruct c; try discriminate. done.
    + unfold Destructor_step in Es. by rewrite Hd in Es.
  - intros H1' H2' H3' Hq created. unfold Destructor_step. destruct (owner_at w); try done.
    destruct Ho as (s & -> & Ho). rewrite Hq in Ho. cbn. by destruct (sem_take s).
  - intros Hn created w' Es. unfold Destructor_step in Es. rewrite Hn in Es. by injection Es as <-.
Qed.

(** A timer whose destructor waits while a callback runs and the commands queue. *)
Definition waiting_timer : Timer (S := bool) (Q := list Command) :=
  {| queue := [DeleteTimer; CallGiveSemaphore]; active := true; service_at := InCallback; context_alive := true;
     done_ := Some false; owner_at := CallSent |}.

Lemma waiting_timer_reachable : timer_reachable waiting_timer.
Proof.
  pose proof (reach_new true [] _ eq_refl eq_refl : timer_reachable (S := bool) (Q := list Command) _) as R.
  pose proof (reached_by_service _ _ _ R eq_refl eq_refl) as R1. pose proof (reached_by_fire _ R1 eq_refl eq_refl) as R2.
  pose proof (reached_by_destructor true _ _ R2 eq_refl) as R3. exact (reached_by_destructor true _ _ R3 eq_refl).
Qed.

Lemma no_callback_after_timer_witness : context_alive waiting_timer = true /\ is_Some (done_ waiting_timer).
Proof.
  destruct (no_callback_after_timer waiting_timer waiting_timer_reachable) as (H1 & H2 & _).
  split; [by apply H1|]. destruct H2 as [H2|[H2|H2]]; [cbn; set_solver|exact H2|discriminate H2|discriminate H2].
Defined.
End FirmwareTimer.

(** ** [platform/host/timer.cpp] *)

Module HostTimer.
Section Timer.
(** The stop token, the wait on the condition variable and the client's callback. *)
Class HostEnv (E : Type) := { stop_requested : E -> bool; wait_for : E -> E; callback : E -> E }.

Context {E : Type} `{HostEnv E}.

(** [mutex_held] is the lock's; [calls] counts the callbacks, and whether the mutex was held. *)
Record Thread := { env : E; mutex_held : bool; calls : list bool }.

Definition with_env (e : E) (w : Thread) : Thread := {| env := e; mutex_held := mutex_held w; calls := calls w |}.
Definition with_lock (b : bool) (w : Thread) : Thread := {| env := env w; mutex_held := b; calls := calls w |}.

Definition call_back (w : Thread) : Thread :=
  {| env := callback (env w); mutex_held := mutex_held w; calls := calls w ++ [mutex_held w] |}.

Fixpoint timer_loop (fuel : nat) (w : Thread) : bool * Thread :=
  match fuel with
  | O => (false, w)
  | Datatypes.S fuel =>
      if stop_requested (env w) then (true, w)
      else
        let w := with_env (wait_for (env w)) w in
        if stop_requested (env w) then (true, w)
        else timer_loop fuel (with_lock true (call_back (with_lock false w)))
  end.

Definition timer_thread (fuel : nat) (e : E) : bool * Thread :=
  let '(ended, w) := timer_loop fuel {| env := e; mutex_held := true; calls := [] |} in
  (ended, with_lock false w).

(** [remaining] waits pass before the stop is seen, and it is seen for good. *)
Class HostStopLaws (remaining : E -> nat) : Prop := {
  wait_counts e : (remaining (wait_for e) <= Nat.pred (remaining e))%nat;
  callback_keeps e : (remaining (callback e) <= remaining e)%nat;
  none_left e : remaining e = O -> stop_requested e = true
}.

Lemma timer_loop_ends remaining `{!HostStopLaws remaining} fuel w :
  (remaining (env w) < fuel)%nat ->
  let '(ended, w') := timer_loop fuel w in
  ended = true /\ stop_requested (env w') = true /\
  exists n, calls w' = calls w ++ repeat false n /\ (n <= Nat.pred (remaining (env w)))%nat.
Proof.
  revert w. induction fuel as [|fuel IH]; intros w Hf; [lia|]. cbn [timer_loop].
  destruct (stop_requested (env w)) eqn:E1.
  { split_and!; try done. exists O. cbn. rewrite app_nil_r. split; [done|lia]. }
  destruct (stop_requested (env (with_env _ w))) eqn:E2.
  { cbn in *. split_and!; try done. exists O. cbn. rewrite app_nil_r. split; [done|lia]. }
  cbn in E2. set (w1 := with_lock true _).
  pose proof (wait_counts (env w)) as Hw. pose proof (callback_keeps (wait_for (env w))) as Hk.
  assert (Hpos : remaining (wait_for (env w)) <> O) by (intros Hz; apply none_left in Hz; congruence).
  assert (H1 : (remaining (env w1) < fuel)%nat) by (cbn; lia).
  specialize (IH w1 H1). destruct (timer_loop fuel w1) as [ended w']. destruct IH as (He & Hs & n & Hc & Hn).
  split_and!; try done. exists (Datatypes.S n). rewrite Hc. cbn in *. rewrite <- app_assoc. split; [done|lia].
Qed.
End Timer.
End HostTimer.

(** ** [Start] and [Stop] of a module *)

Module Lifecycle.
Import FirmwareTask.
Section Module_.
Context {S : Type} `{SemaphoreLaws S}.

(** Every task the module has made, oldest first; [task_] is the index of its own;
    [stopping] while [Stop] is in the destructor. *)
Record Owner := { tasks : list (Task (S := S)); task_ : option nat; stopping : bool }.

Definition NewModule : Owner := {| tasks := []; task_ := None; stopping := false |}.

(** [None] is [abort]. *)
Definition Start (semaphore_created task_created : bool) (o : Owner) : option Owner :=
  match task_ o with
  | Some _ => Some o
  | None =>
      option_map (fun w => {| tasks := tasks o ++ [w]; task_ := Some (length (tasks o)); stopping := stopping o |})
        (NewTask semaphore_created task_created)
  end.

(** [task_.reset()]: into the destructor, and out of it. *)
Definition Stop_begin (o : Owner) : Owner :=
  match task_ o with
  | Some _ => {| tasks := tasks o; task_ := task_ o; stopping := true |}
  | None => o
  end.

Definition Stop_end (o : Owner) : Owner := {| tasks := tasks o; task_ := None; stopping := false |}.

Definition update (i : nat) (w : Task) (o : Owner) : Owner :=
  {| tasks := <[i := w]> (tasks o); task_ := task_ o; stopping := stopping o |}.

(** The owner's thread starts and stops, and the tasks run. *)
Inductive OwnerStep (o : Owner) : Owner -> Prop :=
  | starts a b o' : stopping o = false -> Start a b o = Some o' -> OwnerStep o o'
  | stop_begins : stopping o = false -> OwnerStep o (Stop_begin o)
  | stop_goes_on i w w' : stopping o = true -> task_ o = Some i -> tasks o !! i = Some w -> Destructor_step w = Some w' ->
      OwnerStep o (update i w' o)
  | stop_ends i w : stopping o = true -> task_ o = Some i -> tasks o !! i = Some w -> owner_at w = Destroyed ->
      OwnerStep o (Stop_end o)
  | task_runs i w w' : tasks o !! i = Some w -> TaskTrampoline_step w = Some w' -> OwnerStep o (update i w' o).

Inductive module_reachable : Owner -> Prop :=
  | reach_module : module_reachable NewModule
  | reach_module_step o o' : module_reachable o -> OwnerStep o o' -> module_reachable o'.

(** A task whose function has not returned is the module's own, and no other is left half destroyed. *)
Definition module_ok (o : Owner) : Prop :=
  Forall task_ok (tasks o) /\
  (forall i w, tasks o !! i = Some w -> task_ o <> Some i -> owner_at w = Destroyed) /\
  (forall i, task_ o = Some i -> exists w, tasks o !! i = Some w /\ (stopping o = false -> owner_at w = Owning)) /\
  (task_ o = None -> stopping o = false).

Lemma trampoline_owner w w' : TaskTrampoline_step w = Some w' -> owner_at w' = owner_at w.
Proof. unfold TaskTrampoline_step, task_moves. destruct (task_at w); try done; by intros [= <-]. Qed.

Lemma update_ok i w w' o : module_ok o -> tasks o !! i = Some w -> TaskStep w w' ->
  (task_ o <> Some i \/ stopping o = false -> owner_at w' = owner_at w) -> module_ok (update i w' o).
Proof.
  intros (Ht & Hd & Hc & Hn) Hi Hstep Ho. unfold module_ok, update. cbn.
  pose proof (lookup_lt_Some _ _ _ Hi) as Hlt. split_and!; [|intros j x Hx Hj|intros j Hj|done].
  - apply Forall_insert; [done|]. eapply task_step_ok; [|exact Hstep]. by apply (Forall_lookup_1 _ _ _ _ Ht Hi).
  - destruct (decide (j = i)) as [->|Hne].
    + rewrite list_lookup_insert_eq in Hx by done. injection Hx as <-. rewrite Ho by (by left). by apply (Hd i w).
    + rewrite list_lookup_insert_ne in Hx by done. by apply (Hd j x).
  - destruct (Hc j Hj) as (x & Hx & Hown). destruct (decide (j = i)) as [->|Hne].
    + exists w'. rewrite list_lookup_insert_eq by done. split; [done|]. intros Hs. rewrite Ho by (by right). rewrite Hi in Hx. injection Hx as <-. by apply Hown.
    + exists x. by rewrite list_lookup_insert_ne.
Qed.

Lemma module_start_ok a b o o' : module_ok o -> stopping o = false -> Start a b o = Some o' -> module_ok o'.
Proof.
  intros Hok Hs. pose proof Hok as (Ht & Hd & Hc & Hn). unfold Start. destruct (task_ o) as [i|] eqn:Ei; [by intros [= <-]|].
  destruct (NewTask a b) as [w|] eqn:Ew; [|done]. intros [= <-]. unfold module_ok. cbn.
  assert (Hown : owner_at w = Owning) by (unfold NewTask in Ew; destruct a, b; try done; by injection Ew as <-).
  split_and!; [|intros j x Hx Hj|intros j Hj|done].
  - apply Forall_app. split; [done|]. apply Forall_singleton. by eapply NewTask_ok.
  - apply lookup_snoc_Some in Hx as [[_ Hx]|[-> _]]; [|done]. by apply (Hd j x).
  - injection Hj as <-. exists w. split; [by rewrite lookup_app_r, Nat.sub_diag|done].
Qed.

Lemma module_step_ok o o' : module_ok o -> OwnerStep o o' -> module_ok o'.
Proof.
  intros Hok Hstep. destruct Hstep as [a b o' Hs E|Hs|i w w' Hs Hi Hw E|i w Hs Hi Hw E|i w w' Hw E].
  - by apply (module_start_ok a b o).
  - pose proof Hok as (Ht & Hd & Hc & Hn). unfold Stop_begin. destruct (task_ o) as [i|] eqn:Ei; [|done].
    unfold module_ok. cbn. split_and!; try done. intros j Hj. destruct (Hc j Hj) as (w & Hw & _). by exists w.
  - apply (update_ok i w); [done|done|by apply by_owner|]. intros [Hx|Hx]; congruence.
  - destruct Hok as (Ht & Hd & Hc & Hn). unfold module_ok, Stop_end. cbn. split_and!; try done.
    intros j x Hx _. destruct (decide (j = i)) as [->|Hne]; [congruence|]. apply (Hd j x); [done|congruence].
  - apply (update_ok i w); [done|done|by apply by_task|]. intros _. by apply trampoline_owner.
Qed.

Lemma module_reachable_ok o : module_reachable o -> module_ok o.
Proof.
  induction 1 as [|o o' _ IH Hs]; [|by eapply module_step_ok]. unfold module_ok. cbn.
  by split_and!.
Qed.
End Module_.

(** ** Properties *)

(** However [Start] and [Stop] of a module follow each other, a
    connection loop that has not returned is the one of the task the module holds: two never run
    at a time, none runs once [Stop] has returned, and until a [Stop] begins the loop is not
    asked to end. *)
Theorem one_loop_at_a_time {S : Type} `{SemaphoreLaws S} (o : Owner (S := S)) :
  module_reachable o ->
  (forall i w, tasks o !! i = Some w -> needs_context w = true -> task_ o = Some i) /\
  (task_ o = None -> Forall (fun w => needs_context w = false /\ owner_at w = Destroyed) (tasks o)) /\
  (forall i, task_ o = Some i -> stopping o = false -> exists w, tasks o !! i = Some w /\ owner_at w = Owning).
Proof.
  intros Ho. destruct (module_reachable_ok o Ho) as (Ht & Hd & Hc & Hn).
  assert (Hdone : forall i w, tasks o !! i = Some w -> owner_at w = Destroyed -> needs_context w = false).
  { intros i w Hw Hx. apply not_true_is_false. intros Hnc.
    destruct (Forall_lookup_1 _ _ _ _ Ht Hw) as (_ & Hl & _). destruct (Hl Hnc) as [_ [Hy|Hy]]; congruence. }
  split_and!.
  - intros i w Hw Hnc. destruct (decide (task_ o = Some i)) as [|Hne]; [done|].
    rewrite (Hdone i w Hw (Hd i w Hw Hne)) in Hnc. done.
  - intros Hnone. apply Forall_lookup_2. intros i w Hw. assert (owner_at w = Destroyed) by (apply (Hd i w Hw); congruence).
    split; [by apply (Hdone i w)|done].
  - intros i Hi Hs. destruct (Hc i Hi) as (w & Hw & Hown). exists w. split; [done|by apply Hown].
Qed.

(** One step of the owner's thread in the destructor, or of a task. *)
Definition run_owner (i : nat) (o : Owner (S := bool)) : option Owner :=
  match tasks o !! i with Some w => option_map (fun w' => update i w' o) (Destructor_step w) | None => None end.

Definition run_task (i : nat) (o : Owner (S := bool)) : option Owner :=
  match tasks o !! i with Some w => option_map (fun w' => update i w' o) (TaskTrampoline_step w) | None => None end.

Lemma reach_task i o o' : module_reachable o -> run_task i o = Some o' -> module_reachable o'.
Proof.
  intros Ho. unfold run_task. destruct (tasks o !! i) as [w|] eqn:Ew; [|done].
  destruct (TaskTrampoline_step w) as [w'|] eqn:E; [|done]. intros [= <-]. eapply reach_module_step; [exact Ho|by eapply task_runs].
Qed.

Lemma reach_owner i o o' : module_reachable o -> stopping o = true -> task_ o = Some i -> run_owner i o = Some o' -> module_reachable o'.
Proof.
  intros Ho Hs Hi. unfold run_owner. destruct (tasks o !! i) as [w|] eqn:Ew; [|done].
  destruct (Destructor_step w) as [w'|] eqn:E; [|done]. intros [= <-]. eapply reach_module_step; [exact Ho|by eapply stop_goes_on].
Qed.

Lemma reach_start a b (o o' : Owner (S := bool)) : module_reachable o -> stopping o = false -> Start a b o = Some o' -> module_reachable o'.
Proof. intros Ho Hs E. eapply reach_module_step; [exact Ho|by eapply starts]. Qed.

Lemma reach_stop_begins (o : Owner (S := bool)) : module_reachable o -> stopping o = false -> module_reachable (Stop_begin o).
Proof. intros Ho Hs. eapply reach_module_step; [exact Ho|by apply stop_begins]. Qed.

Lemma reach_stop_ends i w (o : Owner (S := bool)) :
  module_reachable o -> stopping o = true -> task_ o = Some i -> tasks o !! i = Some w -> owner_at w = Destroyed -> module_reachable (Stop_end o).
Proof. intros Ho Hs Hi Hw E. eapply reach_module_step; [exact Ho|by eapply stop_ends]. Qed.

(** A module that is stopped while its loop runs, and started again. *)
Definition joined : Task (S := bool) :=
  {| stop_requested := true; finished := false; context_alive := false; semaphore_alive := false;
     task_at := BeforeDelete; owner_at := Destroyed |}.

Definition fresh : Task (S := bool) :=
  {| stop_requested := false; finished := false; context_alive := true; semaphore_alive := true;
     task_at := BeforeFunction; owner_at := Owning |}.

Definition restarted : Owner := {| tasks := [joined; fresh]; task_ := Some 1%nat; stopping := false |}.

Lemma restarted_reachable : module_reachable restarted.
Proof.
  pose proof (reach_start true true _ _ reach_module eq_refl eq_refl) as R.
  pose proof (reach_stop_begins _ (reach_task 0 _ _ R eq_refl) eq_refl) as R2. clear R.
  pose proof (reach_task 0 _ _ (reach_owner 0 _ _ R2 eq_refl eq_refl eq_refl) eq_refl) as R4. clear R2.
  pose proof (reach_owner 0 _ _ (reach_task 0 _ _ R4 eq_refl) eq_refl eq_refl eq_refl) as R6. clear R4.
  pose proof (reach_owner 0 _ _ (reach_owner 0 _ _ R6 eq_refl eq_refl eq_refl) eq_refl eq_refl eq_refl) as R8. clear R6.
  pose proof (reach_stop_ends 0 _ _ R8 eq_refl eq_refl eq_refl eq_refl) as R9.
  exact (reach_start true true _ _ R9 eq_refl eq_refl).
Qed.

Lemma one_loop_at_a_time_witness :
  (forall i w, tasks restarted !! i = Some w -> needs_context w = true -> task_ restarted = Some i).
Proof. exact (proj1 (one_loop_at_a_time restarted restarted_reachable)). Defined.
End Lifecycle.
