(* ===== verification/Auth.v ===== *)
(** Auth: the admin password, sessions and the login throttle.

    Models [src/src/core/admin_auth_service.cpp] and its routes. The key derivation
    and the random generator are mbedtls's (not under [src/]): [kdf] and [random] are
    parameters. [Login] holds the mutex before and after the derivation but not
    during it, so it is two atomic steps, [LoginBegin] and [LoginFinish], with the
    hash-and-compare ([verify]) between them; [world_step] interleaves them freely.
    Times are milliseconds of the system clock; an operation that reads the clock
    several times takes the successive readings [t 0], [t 1], ... *)
From S2P Require Import Prelude Text Json Storage Http.

(** ** Hexadecimal *)

Definition hex_digit (d : Z) : ascii := if d <? 10 then char_of (48 + d) else char_of (87 + d).

Fixpoint ToHex (data : list Z) : string :=
  match data with
  | [] => EmptyString
  | b :: rest => String (hex_digit (Z.shiftr b 4)) (String (hex_digit (Z.land b 15)) (ToHex rest))
  end.

Definition hex_digit_value (c : ascii) : option Z := if isxdigit c then Some (hex_value c) else None.

Fixpoint skip_space (s : string) : string :=
  match s with
  | String c s' => if isspace c then skip_space s' else s
  | EmptyString => s
  end.

(** [sscanf(s, "%2x", &byte)]: white space is skipped, then at most two characters of
    an optionally signed, optionally 0x-prefixed hexadecimal number are read. *)
Definition sscanf_2x (s : string) : option Z :=
  match skip_space s with
  | EmptyString => None
  | String a r =>
      let next := match r with String b _ => hex_digit_value b | EmptyString => None end in
      match hex_digit_value a, next with
      | Some d, Some e => Some (16 * d + e)
      | Some d, None =>
          let prefix := match r with String b _ => Ascii.eqb (tolower b) "x" | EmptyString => false end in
          if (d =? 0) && prefix then None else Some d
      | None, Some e =>
          if Ascii.eqb a "+" then Some e else if Ascii.eqb a "-" then Some (wrap_u 32 (- e)) else None
      | None, None => None
      end
  end.

Fixpoint FromHex_loop (n : nat) (hex : string) : option (list Z) :=
  match n with
  | O => Some []
  | S n' =>
      match sscanf_2x hex with
      | None => None
      | Some byte =>
          match FromHex_loop n' (drop_chars 2 hex) with
          | None => None
          | Some rest => Some (wrap_u 8 byte :: rest)
          end
      end
  end.

Definition FromHex (hex : string) : option (list Z) :=
  if is_empty hex || negb (size hex mod 2 =? 0) then None
  else FromHex_loop (Z.to_nat (size hex / 2)) hex.

(** ** [ConstantTimeEquals]: the differences of all the bytes, or-ed together *)

Fixpoint diff_bytes (a b : list Z) (diff : Z) : Z :=
  match a, b with
  | x :: a', y :: b' => diff_bytes a' b' (Z.lor diff (Z.lxor x y))
  | _, _ => diff
  end.

Definition ConstantTimeEquals (a b : list Z) : bool :=
  if negb (Z.of_nat (List.length a) =? Z.of_nat (List.length b)) then false else diff_bytes a b 0 =? 0.

(** The overload on strings. *)
Definition ConstantTimeEqualsString (a b : string) : bool :=
  ConstantTimeEquals (string_bytes a) (string_bytes b).

(** ** The stored hash *)

Definition kPasswordSchemaVersion : Z := 1.
Definition kPbkdf2Iterations : Z := 25000.
Definition kMaxStoredPbkdf2Iterations : Z := 1000000.
Definition kSaltBytes : Z := 16.
Definition kHashBytes : Z := 32.
Definition kSessionTokenBytes : Z := 32.
Definition kSessionLifetime : Z := 24 * 60 * 60 * 1000.
Definition kSessionLifetimeSeconds : Z := 24 * 60 * 60.
Definition kMinPasswordLength : Z := 8.
Definition kMaxPasswordLength : Z := 256.
Definition kMaxFailedLoginAttempts : Z := 5.
Definition kLoginLockoutDuration : Z := 60000.

Record StoredPasswordHash := { iterations : Z; salt : list Z; hash : list Z }.

(** [std::getline(stream, field, '$')]: the field, and what is left of the stream;
    an exhausted stream gives an empty field. *)
Definition getline (stream : string) : string * string :=
  match break_at "$" stream with
  | (field, Some rest) => (field, rest)
  | (field, None) => (field, EmptyString)
  end.

Definition ParseStoredPasswordHash (stored : option VersionedValue) : option StoredPasswordHash :=
  match stored with
  | None => None
  | Some stored =>
      let '(algorithm, s1) := getline (vv_value stored) in
      let '(iterations_str, s2) := getline s1 in
      let '(salt_hex, s3) := getline s2 in
      let '(hash_hex, _) := getline s3 in
      if negb (String.eqb algorithm "pbkdf2-sha256") || is_empty salt_hex || is_empty hash_hex then None
      else match from_chars 0 UINT_MAX iterations_str with
           | Some (iterations, EmptyString) =>
               if (iterations =? 0) || (kMaxStoredPbkdf2Iterations <? iterations) then None
               else match FromHex salt_hex, FromHex hash_hex with
                    | Some salt, Some hash => Some {| iterations := iterations; salt := salt; hash := hash |}
                    | _, _ => None
                    end
           | _ => None
           end
  end.

(** ** [ExtractCookie] *)

Fixpoint trim_spaces (s : string) : string :=
  match s with String c s' => if Ascii.eqb c " " then trim_spaces s' else s | EmptyString => s end.

(** A key made only of spaces is left as it is. *)
Definition trim_key (key : string) : string :=
  if is_empty (trim_spaces key) then key else trim_spaces key.

Fixpoint find_cookie (pairs : list string) (name : string) : option string :=
  match pairs with
  | [] => None
  | p :: rest =>
      match break_at "=" p with
      | (key, Some value) => if String.eqb (trim_key key) name then Some value else find_cookie rest name
      | (_, None) => find_cookie rest name
      end
  end.

(** An empty header, and the empty text after a last semicolon, hold no pair. *)
Definition ExtractCookie (cookie_header name : string) : option string :=
  find_cookie (split_on ";" cookie_header) name.

(** ** The service *)

Record AuthState (R : Type) := {
  drbg : R;
  sessions_ : gmap string Z;
  failed_login_attempts_ : Z;
  locked_until_ : Z
}.
Arguments drbg {R}.
Arguments sessions_ {R}.
Arguments failed_login_attempts_ {R}.
Arguments locked_until_ {R}.

Definition NewAuthState {R} (seeded : R) : AuthState R :=
  {| drbg := seeded; sessions_ := ∅; failed_login_attempts_ := 0; locked_until_ := 0 |}.

Definition with_drbg {R} (r : R) (a : AuthState R) : AuthState R :=
  {| drbg := r; sessions_ := sessions_ a; failed_login_attempts_ := failed_login_attempts_ a;
     locked_until_ := locked_until_ a |}.

Definition with_sessions {R} (m : gmap string Z) (a : AuthState R) : AuthState R :=
  {| drbg := drbg a; sessions_ := m; failed_login_attempts_ := failed_login_attempts_ a;
     locked_until_ := locked_until_ a |}.

Definition with_throttle {R} (n until : Z) (a : AuthState R) : AuthState R :=
  {| drbg := drbg a; sessions_ := sessions_ a; failed_login_attempts_ := n; locked_until_ := until |}.

Section Service.
Context {S : Type} `{KvStore S} {R : Type}.

(** [mbedtls_ctr_drbg_random] and [mbedtls_pkcs5_pbkdf2_hmac_ext] with SHA-256 and
    [kHashBytes] of output; [None] is a non-zero return code. *)
Context (random : Z -> R -> option (list Z) * R).
Context (kdf : string -> list Z -> Z -> option (list Z)).

Definition Svc : Type := AuthState R * S.

Definition GenerateSalt : M Svc (option (list Z)) := fun '(a, s) =>
  let '(bytes, r) := random kSaltBytes (drbg a) in (bytes, (with_drbg r a, s)).

Definition GenerateSessionToken : M Svc (option string) := fun '(a, s) =>
  let '(bytes, r) := random kSessionTokenBytes (drbg a) in
  (match bytes with Some b => Some (ToHex b) | None => None end, (with_drbg r a, s)).

Definition HashPasswordHex (password : string) (salt : list Z) (iterations : Z) : option string :=
  match kdf password salt iterations with Some output => Some (ToHex output) | None => None end.

Definition SweepExpiredSessions (now : Z) : M Svc unit :=
  modify (fun '(a, s) => (with_sessions (base.filter (fun p => now < p.2) (sessions_ a)) a, s)).

Definition IsPasswordSet (w : Svc) : bool :=
  match GetSecret kCoreModuleId kPasswordKey w.2 with Some _ => true | None => false end.

(** The end of [SetInitialPassword] and of [Login]: a new session, for 24 hours. *)
Definition issue_session (t : nat -> Z) : M Svc (option string) :=
  SweepExpiredSessions (t 0%nat) ;;*
  let* token := GenerateSessionToken in
  match token with
  | None => ret None
  | Some token =>
      modify (fun '(a, s) => (with_sessions (<[token := t 1%nat + kSessionLifetime]> (sessions_ a)) a, s)) ;;*
      ret (Some token)
  end.

Definition store_hash (encoded : string) : M Svc bool := fun '(a, s) =>
  let '(ok, s') := SetSecret kCoreModuleId kPasswordKey kPasswordSchemaVersion encoded s in (ok, (a, s')).

Definition encode_hash (salt : list Z) (hash_hex : string) : string :=
  "pbkdf2-sha256$" +:+ to_string kPbkdf2Iterations +:+ "$" +:+ ToHex salt +:+ "$" +:+ hash_hex.

Definition SetInitialPassword (password : string) (t : nat -> Z) : M Svc (option string) :=
  let* already := gets IsPasswordSet in
  if already then ret None
  else
    let* salt := GenerateSalt in
    match salt with
    | None => ret None
    | Some salt =>
        match HashPasswordHex password salt kPbkdf2Iterations with
        | None => ret None
        | Some hash_hex =>
            let* stored := store_hash (encode_hash salt hash_hex) in
            if negb stored then ret None else issue_session t
        end
    end.

(** [Login] up to the release of the mutex: [None] when locked out, and otherwise
    what to compare the password with. *)
Definition LoginBegin (t : nat -> Z) : M Svc (option (option StoredPasswordHash)) := fun '(a, s) =>
  if t 0%nat <? locked_until_ a then (None, (a, s))
  else
    let n := failed_login_attempts_ a + 1 in
    let until := if kMaxFailedLoginAttempts <=? n then t 1%nat + kLoginLockoutDuration else locked_until_ a in
    (Some (ParseStoredPasswordHash (GetSecret kCoreModuleId kPasswordKey s)), (with_throttle n until a, s)).

(** The hash-and-compare, outside the mutex. *)
Definition verify (password : string) (stored_hash : option StoredPasswordHash) : bool :=
  match stored_hash with
  | None => false
  | Some h =>
      match HashPasswordHex password (salt h) (iterations h) with
      | None => false
      | Some hash_hex =>
          match FromHex hash_hex with
          | Some computed => ConstantTimeEquals computed (hash h)
          | None => false
          end
      end
  end.

(** [Login] from the second acquisition of the mutex on. *)
Definition LoginFinish (authenticated : bool) (t : nat -> Z) : M Svc (option string) :=
  if negb authenticated then ret None
  else
    modify (fun '(a, s) => (with_throttle 0 0 a, s)) ;;*
    issue_session t.

(** The readings of the clock after the first [n]. *)
Definition later (n : nat) (t : nat -> Z) : nat -> Z := fun i => t (n + i)%nat.

Definition Login (password : string) (t : nat -> Z) : M Svc (option string) :=
  let* stored_hash := LoginBegin t in
  match stored_hash with
  | None => ret None
  | Some stored_hash => LoginFinish (verify password stored_hash) (later 2 t)
  end.

Definition IsLoginLockedOut (now : Z) (w : Svc) : bool := now <? locked_until_ w.1.

(** The scan of [ValidateSession] over the table, in the table's own order. *)
Fixpoint validate_scan (now : Z) (token : string) (entries : list (string * Z)) (table : gmap string Z)
    : bool * gmap string Z :=
  match entries with
  | [] => (false, table)
  | (key, expiry) :: entries' =>
      if negb (ConstantTimeEqualsString key token) then validate_scan now token entries' table
      else if expiry <=? now then (false, delete key table)
      else (true, table)
  end.

Definition ValidateSession (now : Z) (token : string) : M Svc bool := fun '(a, s) =>
  let '(valid, table) := validate_scan now token (map_to_list (sessions_ a)) (sessions_ a) in
  (valid, (with_sessions table a, s)).

Definition Logout (token : string) : M Svc unit :=
  modify (fun '(a, s) => (with_sessions (delete token (sessions_ a)) a, s)).

(** ** The guard and the routes *)

Context {W : Type} `{Part W Svc}.

Definition session_cookie (request : HttpRequest) : option string :=
  match cookie_header request with Some header => ExtractCookie header "session" | None => None end.

(** [token.has_value() && auth.ValidateSession( *token)]. *)
Definition has_session (now : Z) (request : HttpRequest) : M W bool :=
  match session_cookie request with
  | Some token => on (ValidateSession now token)
  | None => ret false
  end.

Definition RequireAuth (now : Z) (inner : Handler W) : Handler W := fun request =>
  let* password_set := on (gets IsPasswordSet) in
  if negb password_set then ret (error_response 403 "setup_required")
  else
    let* valid := has_session now request in
    if negb valid then ret (error_response 401 "unauthenticated") else inner request.

Definition SetCookieHeader (token : string) (max_age_seconds : Z) : string :=
  "session=" +:+ token +:+ "; HttpOnly; SameSite=Strict; Path=/; Max-Age=" +:+ to_string max_age_seconds.

Context `{JsonCodec}.

Definition ReadPasswordField (body : string) : option string :=
  match TryParseJsonObject body with Some parsed => find_string "password" parsed | None => None end.

Definition GetStatus (now : Z) : Handler W := fun request =>
  let* authenticated := has_session now request in
  let* password_set := on (gets IsPasswordSet) in
  ret (json_response 200 (json_dump (JObject [("passwordSet", JBool password_set);
                                              ("authenticated", JBool authenticated)]))).

Definition PostSetup (t : nat -> Z) : Handler W := fun request =>
  let* password_set := on (gets IsPasswordSet) in
  if password_set then ret (error_response 409 "already_set")
  else match ReadPasswordField (req_body request) with
       | None => ret (error_response 400 "invalid_request")
       | Some password =>
           if size password <? kMinPasswordLength then ret (error_response 400 "password_too_short")
           else if kMaxPasswordLength <? size password then ret (error_response 400 "password_too_long")
           else
             let* token := on (SetInitialPassword password t) in
             match token with
             | None =>
                 let* password_set := on (gets IsPasswordSet) in
                 if password_set then ret (error_response 409 "already_set")
                 else ret (error_response 500 "storage_write_failed")
             | Some token =>
                 ret (add_header "Set-Cookie" (SetCookieHeader token kSessionLifetimeSeconds) ok_response)
             end
       end.

Definition PostLogin (t : nat -> Z) : Handler W := fun request =>
  let* locked := on (gets (IsLoginLockedOut (t 0%nat))) in
  if locked then ret (error_response 429 "too_many_attempts")
  else match ReadPasswordField (req_body request) with
       | None => ret (error_response 400 "invalid_request")
       | Some password =>
           if kMaxPasswordLength <? size password then ret (error_response 400 "password_too_long")
           else
             let* token := on (Login password (later 1 t)) in
             match token with
             | None => ret (error_response 401 "invalid_credentials")
             | Some token =>
                 ret (add_header "Set-Cookie" (SetCookieHeader token kSessionLifetimeSeconds) ok_response)
             end
       end.

Definition PostLogout : Handler W := fun request =>
  match session_cookie request with
  | Some token => on (Logout token)
  | None => ret tt
  end ;;*
  ret (add_header "Set-Cookie" (SetCookieHeader EmptyString 0) ok_response).

(** ** Concurrent logins

    The service with the logins that are between their two locked sections, each with
    the result of its comparison. *)
Record World := { svc : Svc; in_flight : list bool }.

Inductive AuthOp :=
  | OpBegin (password : string) (t : nat -> Z)
  | OpFinish (i : nat) (t : nat -> Z)
  | OpSetInitialPassword (password : string) (t : nat -> Z)
  | OpValidate (token : string) (now : Z)
  | OpLogout (token : string).

(** What an operation reports: an attempt let through to the derivation (when, and
    whether its password is the right one), a session issued (with its expiry), the
    answer about a token. *)
Inductive Report :=
  | Attempt (at_time : Z) (correct : bool)
  | Refused
  | Issued (token : string) (expiry : Z)
  | Denied
  | Validity (token : string) (valid : bool)
  | Done.

Definition issued (token : option string) (t : nat -> Z) : Report :=
  match token with Some token => Issued token (t 1%nat + kSessionLifetime) | None => Denied end.

Definition world_step (op : AuthOp) : M World Report := fun w =>
  match op with
  | OpBegin password t =>
      match LoginBegin t (svc w) with
      | (None, s) => (Refused, {| svc := s; in_flight := in_flight w |})
      | (Some stored, s) => (Attempt (t 0%nat) (verify password stored),
           {| svc := s; in_flight := in_flight w ++ [verify password stored] |})
      end
  | OpFinish i t =>
      match in_flight w !! i with
      | None => (Done, w)
      | Some authenticated =>
          let '(token, s) := LoginFinish authenticated t (svc w) in
          (issued token t, {| svc := s; in_flight := delete i (in_flight w) |})
      end
  | OpSetInitialPassword password t =>
      let '(token, s) := SetInitialPassword password t (svc w) in
      (issued token t, {| svc := s; in_flight := in_flight w |})
  | OpValidate token now =>
      let '(valid, s) := ValidateSession now token (svc w) in
      (Validity token valid, {| svc := s; in_flight := in_flight w |})
  | OpLogout token =>
      let '(_, s) := Logout token (svc w) in (Done, {| svc := s; in_flight := in_flight w |})
  end.

Fixpoint world_run (ops : list AuthOp) : M World (list Report) :=
  match ops with
  | [] => ret []
  | op :: ops' =>
      let* r := world_step op in
      let* rs := world_run ops' in
      ret (r :: rs)
  end.
End Service.

(** ** Lemmas: hexadecimal *)

Lemma hex_digit_roundtrip d : 0 <= d < 16 -> hex_digit_value (hex_digit d) = Some d /\ isspace (hex_digit d) = false.
Proof.
  intros Hd. assert (H : d = 0 \/ d = 1 \/ d = 2 \/ d = 3 \/ d = 4 \/ d = 5 \/ d = 6 \/ d = 7 \/ d = 8 \/
    d = 9 \/ d = 10 \/ d = 11 \/ d = 12 \/ d = 13 \/ d = 14 \/ d = 15) by lia.
  repeat (destruct H as [->|H]; [vm_compute; done|]). by subst d.
Qed.

Lemma nibbles b : byte_range b -> 0 <= Z.shiftr b 4 < 16 /\ 0 <= Z.land b 15 < 16 /\
  16 * Z.shiftr b 4 + Z.land b 15 = b.
Proof.
  unfold byte_range. intros Hb. change 15 with (Z.ones 4).
  rewrite Z.shiftr_div_pow2, Z.land_ones by lia. change (2 ^ 4) with 16.
  pose proof (Z.div_mod b 16 ltac:(lia)). pose proof (Z.mod_pos_bound b 16 ltac:(lia)).
  split_and!; try lia.
Qed.

Lemma size_ToHex data : size (ToHex data) = 2 * Z.of_nat (List.length data).
Proof. induction data as [|b data IH]; [done|]. cbn [ToHex List.length]. rewrite !size_cons, IH. lia. Qed.

Lemma FromHex_loop_ToHex data :
  Forall byte_range data -> FromHex_loop (List.length data) (ToHex data) = Some data.
Proof.
  induction 1 as [|b data Hb _ IH]; [done|]. cbn [List.length ToHex FromHex_loop].
  destruct (nibbles b Hb) as (H1 & H2 & H3).
  destruct (hex_digit_roundtrip _ H1) as [E1 S1], (hex_digit_roundtrip _ H2) as [E2 _].
  unfold sscanf_2x. cbn [skip_space]. rewrite S1, E1, E2, H3. cbn [drop_chars].
  rewrite IH. unfold wrap_u. rewrite Z.mod_small by (unfold byte_range in Hb; lia). done.
Qed.

Lemma FromHex_ToHex data : Forall byte_range data -> data <> [] -> FromHex (ToHex data) = Some data.
Proof.
  intros Hb Hne. unfold FromHex. rewrite size_ToHex.
  replace (is_empty (ToHex data)) with false by (by destruct data).
  replace (2 * Z.of_nat (List.length data)) with (Z.of_nat (List.length data) * 2) by lia.
  rewrite Z.mod_mul, Z.div_mul by lia. cbn.
  rewrite Nat2Z.id. by apply FromHex_loop_ToHex.
Qed.

Lemma hex_lacks c data :
  Forall byte_range data -> hex_digit_value c = None -> lacks c (ToHex data) = true.
Proof.
  intros Hb Hc. induction Hb as [|b data Hb _ IH]; [done|]. cbn [ToHex]. rewrite !lacks_cons, IH.
  destruct (nibbles b Hb) as (H1 & H2 & _).
  destruct (hex_digit_roundtrip _ H1) as [E1 _], (hex_digit_roundtrip _ H2) as [E2 _].
  destruct (Ascii.eqb_spec (hex_digit (Z.shiftr b 4)) c), (Ascii.eqb_spec (hex_digit (Z.land b 15)) c); done || congruence.
Qed.

(** ** Lemmas: comparison *)

Lemma diff_bytes_zero a b d :
  List.length a = List.length b -> (diff_bytes a b d = 0 <-> d = 0 /\ a = b).
Proof.
  revert b d. induction a as [|x a IH]; intros [|y b] d Hl; cbn in *; try lia; [naive_solver|].
  rewrite IH by lia. rewrite Z.lor_eq_0_iff, Z.lxor_eq_0_iff. naive_solver.
Qed.

Lemma ConstantTimeEquals_spec a b : ConstantTimeEquals a b = bool_decide (a = b).
Proof.
  unfold ConstantTimeEquals. destruct (Z.eqb_spec (Z.of_nat (List.length a)) (Z.of_nat (List.length b))) as [E|E]; cbn.
  - destruct (Z.eqb_spec (diff_bytes a b 0) 0) as [D|D]; symmetry.
    + apply bool_decide_eq_true. apply diff_bytes_zero in D; [naive_solver|lia].
    + apply bool_decide_eq_false. intros ->. apply D. apply diff_bytes_zero; done.
  - symmetry. apply bool_decide_eq_false. intros ->. done.
Qed.

Lemma ConstantTimeEqualsString_spec a b : ConstantTimeEqualsString a b = bool_decide (a = b).
Proof.
  unfold ConstantTimeEqualsString. rewrite ConstantTimeEquals_spec. apply bool_decide_ext.
  split; [apply string_bytes_inj|by intros ->].
Qed.

(** ** Lemmas: the service *)

Section ServiceLemmas.
Context {S : Type} `{KvStore S} {R : Type}.
Context (random : Z -> R -> option (list Z) * R) (kdf : string -> list Z -> Z -> option (list Z)).

Lemma validate_scan_spec now token entries table :
  NoDup entries.*1 ->
  validate_scan now token entries table =
  match assoc token entries with
  | None => (false, table)
  | Some expiry => if expiry <=? now then (false, delete token table) else (true, table)
  end.
Proof.
  induction entries as [|[key expiry] entries IH]; intros Hnd; [done|].
  cbn [validate_scan assoc]. rewrite ConstantTimeEqualsString_spec.
  apply NoDup_cons in Hnd as [_ Hnd].
  case_bool_decide as E.
  - subst. rewrite String.eqb_refl. done.
  - rewrite IH by done. by rewrite (proj2 (String.eqb_neq token key)) by congruence.
Qed.

Lemma assoc_map_to_list (m : gmap string Z) k : assoc k (map_to_list m) = m !! k.
Proof.
  assert (H1 : forall l : list (string * Z), assoc k l = None -> forall v, (k, v) ∉ l).
  { induction l as [|[k' v'] l IH]; cbn; intros Ha v Hin; [by apply not_elem_of_nil in Hin|].
    destruct (String.eqb_spec k k'); [done|]. apply elem_of_cons in Hin as [E|Hin]; [congruence|]. by eapply IH. }
  assert (H2 : forall (l : list (string * Z)) v, assoc k l = Some v -> (k, v) ∈ l).
  { induction l as [|[k' v'] l IH]; cbn; intros v Ha; [done|].
    destruct (String.eqb_spec k k'); [simplify_eq; by left|]. right. auto. }
  destruct (assoc k (map_to_list m)) as [v|] eqn:E.
  - apply H2, elem_of_map_to_list in E. done.
  - destruct (m !! k) as [v|] eqn:Em; [|done]. apply elem_of_map_to_list in Em. by apply H1 in Em.
Qed.

Lemma ValidateSession_spec now token (a : AuthState R) (s : S) :
  ValidateSession now token (a, s) =
  match sessions_ a !! token with
  | None => (false, (with_sessions (sessions_ a) a, s))
  | Some expiry =>
      if expiry <=? now then (false, (with_sessions (delete token (sessions_ a)) a, s))
      else (true, (with_sessions (sessions_ a) a, s))
  end.
Proof.
  unfold ValidateSession. rewrite validate_scan_spec, assoc_map_to_list by apply NoDup_fst_map_to_list.
  destruct (sessions_ a !! token); [|done]. by destruct (_ <=? now).
Qed.

Lemma with_sessions_id (a : AuthState R) : with_sessions (sessions_ a) a = a.
Proof. by destruct a. Qed.

(** What each operation may change: its own part of the state. *)
Definition throttle (s : Svc (S := S) (R := R)) : Z * Z := (failed_login_attempts_ s.1, locked_until_ s.1).

Lemma issue_session_frame t (s : Svc (S := S) (R := R)) :
  throttle (exec (issue_session random t) s) = throttle s /\ (exec (issue_session random t) s).2 = s.2.
Proof.
  destruct s as [a s]. unfold issue_session, GenerateSessionToken, SweepExpiredSessions. run.
  destruct (random kSessionTokenBytes (drbg a)) as [[bytes|] r]; done.
Qed.

Lemma SetInitialPassword_throttle password t (s : Svc (S := S) (R := R)) :
  throttle (exec (SetInitialPassword random kdf password t) s) = throttle s.
Proof.
  unfold SetInitialPassword, bind, exec, gets. destruct (IsPasswordSet s); [done|].
  destruct s as [a s]. unfold GenerateSalt. destruct (random kSaltBytes (drbg a)) as [[slt|] r]; [|done].
  destruct (HashPasswordHex kdf password slt kPbkdf2Iterations) as [hex|]; [|done].
  unfold store_hash. destruct (SetSecret _ _ _ _ _) as [ok s']. destruct ok; [|done]. cbn [negb].
  change ((issue_session random t ?x).2) with (exec (issue_session random t) x).
  by destruct (issue_session_frame t (with_drbg r a, s')) as [-> _].
Qed.

Lemma SetInitialPassword_already password t (s : Svc (S := S) (R := R)) :
  IsPasswordSet s = true -> SetInitialPassword random kdf password t s = (None, s).
Proof. intros Hp. unfold SetInitialPassword, bind, gets. by rewrite Hp. Qed.

Lemma LoginFinish_store authenticated t (s : Svc (S := S) (R := R)) :
  (exec (LoginFinish random authenticated t) s).2 = s.2.
Proof.
  destruct authenticated; [|done]. destruct s as [a s]. unfold LoginFinish, bind, exec, modify. cbn [negb].
  change ((issue_session random t ?x).2) with (exec (issue_session random t) x).
  by destruct (issue_session_frame t (with_throttle 0 0 a, s)) as [_ ->].
Qed.

Lemma ValidateSession_frame now token (s : Svc (S := S) (R := R)) :
  throttle (exec (ValidateSession now token) s) = throttle s /\ (exec (ValidateSession now token) s).2 = s.2.
Proof.
  destruct s as [a s]. unfold exec. rewrite ValidateSession_spec.
  destruct (sessions_ a !! token) as [e|]; [destruct (e <=? now)|]; done.
Qed.

(** *** The throttle *)

Definition is_attempt (r : Report) : bool := match r with Attempt _ _ => true | _ => false end.

Definition no_right_guess (r : Report) : bool := match r with Attempt _ correct => negb correct | _ => true end.

Definition allowed_attempts (rs : list Report) : Z := Z.of_nat (List.length (List.filter is_attempt rs)).

(** The clock an operation reads never goes back from [from], and stays below [until]. *)
Fixpoint clock_within (from until : Z) (ops : list AuthOp) : Prop :=
  match ops with
  | [] => True
  | OpBegin _ t :: ops' => from <= t 0%nat <= t 1%nat /\ t 0%nat <= until /\ clock_within (t 1%nat) until ops'
  | _ :: ops' => clock_within from until ops'
  end.

Lemma step_throttle op w :
  Forall (fun b => b = false) (in_flight w) ->
  let '(r, w') := world_step random kdf op w in
  no_right_guess r = true ->
  Forall (fun b => b = false) (in_flight w') /\
  match op with
  | OpBegin _ t =>
      if t 0%nat <? (throttle (svc w)).2 then is_attempt r = false /\ throttle (svc w') = throttle (svc w)
      else is_attempt r = true /\
           throttle (svc w') = ((throttle (svc w)).1 + 1,
             if kMaxFailedLoginAttempts <=? (throttle (svc w)).1 + 1 then t 1%nat + kLoginLockoutDuration
             else (throttle (svc w)).2)
  | _ => is_attempt r = false /\ throttle (svc w') = throttle (svc w)
  end.
Proof.
  intros Hf. destruct op as [password t|i t|password t|token now|token]; cbn [world_step].
  - unfold LoginBegin. destruct (svc w) as [a s] eqn:Es. cbn [throttle fst snd].
    destruct (t 0%nat <? locked_until_ a); [done|]. cbn. intros Hr. apply negb_true_iff in Hr.
    split; [|done]. rewrite Hr. apply Forall_app; split; [done|]. by constructor.
  - destruct (in_flight w !! i) as [b|] eqn:Ei; [|done].
    pose proof (Forall_lookup_1 _ _ _ _ Hf Ei) as ->. cbn. intros _. split; [|done].
    by apply Forall_delete.
  - pose proof (SetInitialPassword_throttle password t (svc w)) as Ht. unfold exec in Ht.
    destruct (SetInitialPassword random kdf password t (svc w)) as [[token|] s]; done.
  - pose proof (ValidateSession_frame now token (svc w)) as [Ht _]. unfold exec in Ht.
    destruct (ValidateSession now token (svc w)) as [v s]; done.
  - destruct (svc w) as [a s] eqn:Es. done.
Qed.

(** From a state with [f] failures charged and a lockout until [u], at most so many
    attempts fit before [until]. *)
Lemma attempts_bound ops w from until :
  Forall (fun b => b = false) (in_flight w) -> 0 <= (throttle (svc w)).1 ->
  clock_within from until ops ->
  let rs := eval (world_run random kdf ops) w in
  Forall (fun r => no_right_guess r = true) rs ->
  1 <= allowed_attempts rs ->
  60000 * (allowed_attempts rs - 1 - Z.max 0 (4 - (throttle (svc w)).1)) <=
    until - (if 5 <=? (throttle (svc w)).1 then Z.max from (throttle (svc w)).2 else from).
Proof.
  revert w from. induction ops as [|op ops IH]; intros w from Hf H0 Hc rs Hr Hn.
  { unfold rs, allowed_attempts in Hn. cbn in Hn. lia. }
  unfold rs in *. clear rs. pose proof (step_throttle op w Hf) as Hs.
  cbn [world_run] in *. unfold eval, bind, ret in *.
  destruct (world_step random kdf op w) as [r w'].
  destruct (world_run random kdf ops w') as [rs w''] eqn:Er. cbn [fst] in *.
  apply Forall_cons in Hr as [Hr Hrs]. destruct (Hs Hr) as [Hf' Ht].
  assert (Hcount : allowed_attempts (r :: rs) = (if is_attempt r then 1 else 0) + allowed_attempts rs).
  { unfold allowed_attempts. cbn. destruct (is_attempt r); cbn [List.length]; lia. }
  rewrite Hcount in *. clear Hcount.
  assert (Hsame : forall from', from <= from' -> is_attempt r = false -> throttle (svc w') = throttle (svc w) ->
    clock_within from' until ops ->
    60000 * (allowed_attempts rs - 1 - Z.max 0 (4 - (throttle (svc w)).1)) <=
    until - (if 5 <=? (throttle (svc w)).1 then Z.max from (throttle (svc w)).2 else from)).
  { intros from' Hle Ha Hth Hc'. rewrite Ha in Hn. change (1 <= 0 + allowed_attempts rs) in Hn.
    specialize (IH w' from' Hf'). rewrite Hth, Er in IH. cbn [fst] in IH.
    specialize (IH H0 Hc' Hrs ltac:(lia)).
    destruct (5 <=? (throttle (svc w)).1); lia. }
  assert (0 <= allowed_attempts rs) by (unfold allowed_attempts; lia).
  destruct op as [password t|i t|password t|token now|token]; cbn [clock_within] in Hc;
    try (destruct Ht as [Ha Hth]; rewrite Ha; by apply (Hsame from)).
  destruct Hc as ([Hc1 Hc2] & Hc3 & Hc4).
  destruct (Z.ltb_spec (t 0%nat) (throttle (svc w)).2) as [Hl|Hl]; destruct Ht as [Ha Hth]; rewrite Ha.
  { apply (Hsame (t 1%nat)); [lia|done|done|done]. }
  specialize (IH w' (t 1%nat) Hf'). rewrite Hth, Er in IH. cbn [fst snd] in IH.
  specialize (IH ltac:(lia) Hc4 Hrs). unfold kMaxFailedLoginAttempts, kLoginLockoutDuration in *.
  destruct (Z.eq_dec (allowed_attempts rs) 0) as [E0|E0].
  { rewrite E0. destruct (5 <=? (throttle (svc w)).1); lia. }
  specialize (IH ltac:(lia)).
  destruct (Z.leb_spec 5 ((throttle (svc w)).1 + 1)), (Z.leb_spec 5 (throttle (svc w)).1); lia.
Qed.

(** *** The password *)

Lemma step_store op w :
  IsPasswordSet (svc w) = true -> (svc (exec (world_step random kdf op) w)).2 = (svc w).2.
Proof.
  intros Hp. unfold exec. destruct op as [password t|i t|password t|token now|token]; cbn [world_step].
  - unfold LoginBegin. destruct (svc w) as [a s] eqn:Es. by destruct (t 0%nat <? locked_until_ a).
  - destruct (in_flight w !! i) as [b|]; [|done].
    pose proof (LoginFinish_store b t (svc w)) as Hs. unfold exec in Hs.
    by destruct (LoginFinish random b t (svc w)).
  - rewrite SetInitialPassword_already by done. done.
  - pose proof (ValidateSession_frame now token (svc w)) as [_ Hs]. unfold exec in Hs.
    by destruct (ValidateSession now token (svc w)).
  - by destruct (svc w).
Qed.

Lemma run_store ops w :
  IsPasswordSet (svc w) = true -> (svc (exec (world_run random kdf ops) w)).2 = (svc w).2.
Proof.
  revert w. induction ops as [|op ops IH]; intros w Hp; [done|].
  cbn [world_run]. unfold exec, bind, ret in *. pose proof (step_store op w Hp) as Hs. unfold exec in Hs.
  destruct (world_step random kdf op w) as [r w']. cbn in Hs.
  assert (Hp' : IsPasswordSet (svc w') = true) by (unfold IsPasswordSet in *; by rewrite Hs).
  specialize (IH w' Hp'). destruct (world_run random kdf ops w') as [rs w'']. cbn in *. congruence.
Qed.

(** *** Sessions *)

Definition table (w : World (S := S) (R := R)) : gmap string Z := sessions_ (svc w).1.

(** Every clock reading of an operation is at most [T]. *)
Definition reads_before (T : Z) (op : AuthOp) : Prop :=
  match op with
  | OpFinish _ t | OpSetInitialPassword _ t => forall i, t i <= T
  | OpValidate _ now => now <= T
  | _ => True
  end.

Definition is_logout_of (token : string) (op : AuthOp) : bool :=
  match op with OpLogout tk => String.eqb tk token | _ => false end.

Definition is_issue_of (token : string) (r : Report) : bool :=
  match r with Issued tk _ => String.eqb tk token | _ => false end.

(** The session is as it was, or gone because it had expired by [T]. *)
Definition session_kept (token : string) (expiry : option Z) (T : Z) (w : World (S := S) (R := R)) : Prop :=
  table w !! token = expiry \/ (table w !! token = None /\ exists e, expiry = Some e /\ e <= T).

Lemma issue_session_table t (s : Svc (S := S) (R := R)) :
  sessions_ (exec (issue_session random t) s).1 =
  let live := base.filter (fun p => t 0%nat < p.2) (sessions_ s.1) in
  match eval (issue_session random t) s with
  | Some token => <[token := t 1%nat + kSessionLifetime]> live
  | None => live
  end.
Proof.
  destruct s as [a s]. unfold issue_session, GenerateSessionToken, SweepExpiredSessions. run.
  destruct (random kSessionTokenBytes (drbg a)) as [[bytes|] r]; done.
Qed.

Lemma SetInitialPassword_table password t (s : Svc (S := S) (R := R)) :
  (eval (SetInitialPassword random kdf password t) s = None /\
   sessions_ (exec (SetInitialPassword random kdf password t) s).1 = sessions_ s.1) \/
  exists s1 : Svc (S := S) (R := R), sessions_ s1.1 = sessions_ s.1 /\
    SetInitialPassword random kdf password t s = issue_session random t s1.
Proof.
  unfold SetInitialPassword, bind, eval, exec, gets. destruct (IsPasswordSet s); [by left|].
  destruct s as [a s]. unfold GenerateSalt. destruct (random kSaltBytes (drbg a)) as [[slt|] r]; [|by left].
  destruct (HashPasswordHex kdf password slt kPbkdf2Iterations) as [hex|]; [|by left].
  unfold store_hash. destruct (SetSecret _ _ _ _ _) as [ok s']. destruct ok; [|by left].
  right. exists (with_drbg r a, s'). done.
Qed.

(** A session that was issued is in the table, with the expiry that was reported. *)
Lemma issue_session_issues t token expiry (s : Svc (S := S) (R := R)) :
  issued (eval (issue_session random t) s) t = Issued token expiry ->
  sessions_ (exec (issue_session random t) s).1 !! token = Some expiry.
Proof.
  rewrite issue_session_table. cbn zeta. destruct (eval (issue_session random t) s); cbn; [|done].
  intros E. simplify_eq. apply lookup_insert_eq.
Qed.

Lemma step_issues op w token expiry :
  eval (world_step random kdf op) w = Issued token expiry ->
  table (exec (world_step random kdf op) w) !! token = Some expiry.
Proof.
  unfold table, eval, exec. destruct op as [password t|i t|password t|tk now|tk]; cbn [world_step].
  - by destruct (LoginBegin t (svc w)) as [[?|] ?].
  - destruct (in_flight w !! i) as [[|]|]; try done. destruct (svc w) as [a s].
    unfold LoginFinish, bind, modify. cbn [negb].
    pose proof (issue_session_issues t token expiry (with_throttle 0 0 a, s)) as Ht. unfold eval, exec in Ht.
    by destruct (issue_session random t _).
  - destruct (SetInitialPassword_table password t (svc w)) as [[Hn _]|(s1 & _ & Heq)].
    + unfold eval in Hn. destruct (SetInitialPassword random kdf password t (svc w)). cbn in *. by subst.
    + rewrite Heq. pose proof (issue_session_issues t token expiry s1) as Ht. unfold eval, exec in Ht.
      by destruct (issue_session random t s1).
  - by destruct (ValidateSession now tk (svc w)).
  - by destruct (svc w).
Qed.

Lemma sweep_keeps (m : gmap string Z) now T token expiry :
  now <= T -> m !! token = expiry \/ (m !! token = None /\ exists e, expiry = Some e /\ e <= T) ->
  let m' := base.filter (fun p => now < p.2) m in
  m' !! token = expiry \/ (m' !! token = None /\ exists e, expiry = Some e /\ e <= T).
Proof.
  intros Hn Hm m'. unfold m'. rewrite map_lookup_filter.
  destruct Hm as [->|[-> He]]; [|by right]. destruct expiry as [e|]; cbn; [|by left].
  case_guard as Hg; cbn in *; [by left|]. right. split; [done|]. exists e. split; [done|lia].
Qed.

Lemma issue_keeps t T token expiry (s : Svc (S := S) (R := R)) :
  (forall i, t i <= T) -> eval (issue_session random t) s <> Some token ->
  (sessions_ s.1 !! token = expiry \/ (sessions_ s.1 !! token = None /\ exists e, expiry = Some e /\ e <= T)) ->
  let m := sessions_ (exec (issue_session random t) s).1 in
  m !! token = expiry \/ (m !! token = None /\ exists e, expiry = Some e /\ e <= T).
Proof.
  intros Ht Hne Hs m. unfold m. rewrite issue_session_table. cbn zeta.
  pose proof (sweep_keeps _ (t 0%nat) T token expiry (Ht 0%nat) Hs) as Hk. cbn zeta in Hk.
  destruct (eval (issue_session random t) s) as [tk|]; [|done].
  rewrite lookup_insert_ne by congruence. done.
Qed.

Lemma step_keeps_session op w token expiry T :
  reads_before T op -> is_logout_of token op = false ->
  is_issue_of token (eval (world_step random kdf op) w) = false ->
  session_kept token expiry T w -> session_kept token expiry T (exec (world_step random kdf op) w).
Proof.
  intros Hr Hl Hi Hk. unfold session_kept, table, eval, exec in *.
  destruct op as [password t|i t|password t|tk now|tk]; cbn [world_step reads_before is_logout_of] in *.
  - unfold LoginBegin. destruct (svc w) as [a s]. by destruct (t 0%nat <? locked_until_ a).
  - destruct (in_flight w !! i) as [b|]; [|done].
    destruct b; [|done]. destruct (svc w) as [a s] eqn:Es.
    unfold LoginFinish, bind, modify in *. cbn [negb] in *.
    pose proof (issue_keeps t T token expiry (with_throttle 0 0 a, s) Hr) as Hs.
    unfold eval, exec in Hs. destruct (issue_session random t _) as [[tk|] s']; cbn in *; apply Hs; try done.
    intros E; simplify_eq. by rewrite String.eqb_refl in Hi.
  - destruct (SetInitialPassword_table password t (svc w)) as [[_ Hs]|(s1 & Hs & Heq)].
    + unfold exec in Hs. destruct (SetInitialPassword random kdf password t (svc w)). cbn in *. by rewrite Hs.
    + rewrite Heq in *. rewrite <- Hs in Hk.
      pose proof (issue_keeps t T token expiry s1 Hr) as Hs'.
      unfold eval, exec in Hs'. destruct (issue_session random t _) as [[tk|] s']; cbn in *; apply Hs'; try done.
      intros E; simplify_eq. by rewrite String.eqb_refl in Hi.
  - destruct (svc w) as [a s]. rewrite ValidateSession_spec.
    destruct (sessions_ a !! tk) as [e|] eqn:Ee; [|done]. destruct (Z.leb_spec e now); [|done]. cbn in *.
    destruct (decide (tk = token)) as [->|Hne]; [|by rewrite lookup_delete_ne].
    rewrite lookup_delete_eq. right. split; [done|]. destruct Hk as [Hk|[Hk _]]; [|congruence].
    exists e. split; [congruence|lia].
  - destruct (svc w) as [a s]. cbn in *. apply String.eqb_neq in Hl. by rewrite lookup_delete_ne.
Qed.

Lemma run_keeps_session ops w token expiry T :
  Forall (reads_before T) ops -> Forall (fun op => is_logout_of token op = false) ops ->
  Forall (fun r => is_issue_of token r = false) (eval (world_run random kdf ops) w) ->
  session_kept token expiry T w -> session_kept token expiry T (exec (world_run random kdf ops) w).
Proof.
  revert w. induction ops as [|op ops IH]; intros w Hr Hl Hi Hk; [done|].
  apply Forall_cons in Hr as [Hr1 Hr2], Hl as [Hl1 Hl2].
  cbn [world_run] in *. unfold eval, exec, bind, ret in *.
  pose proof (step_keeps_session op w token expiry T Hr1 Hl1) as Hs. unfold eval, exec in Hs.
  destruct (world_step random kdf op w) as [r w']. specialize (IH w' Hr2 Hl2).
  destruct (world_run random kdf ops w') as [rs w'']. cbn in *.
  apply Forall_cons in Hi as [Hi1 Hi2]. auto.
Qed.

Lemma kept_validates token expiry T (w : World (S := S) (R := R)) :
  session_kept token expiry T w ->
  eval (ValidateSession T token) (svc w) = match expiry with Some e => T <? e | None => false end.
Proof.
  unfold session_kept, table, eval. destruct (svc w) as [a s]. rewrite ValidateSession_spec. cbn.
  intros [->|[-> (e & -> & He)]].
  - destruct expiry as [e|]; [|done]. rewrite Z.ltb_antisym. by destruct (e <=? T).
  - symmetry. by apply Z.ltb_ge.
Qed.
End ServiceLemmas.

(** ** Lemmas: cookies *)

(** A [Cookie] header as a browser writes it. *)
Fixpoint render_cookies (cookies : list (string * string)) : string :=
  match cookies with
  | [] => EmptyString
  | [(k, v)] => k +:+ "=" +:+ v
  | (k, v) :: rest => k +:+ "=" +:+ v +:+ "; " +:+ render_cookies rest
  end.

Definition cookie_name (k : string) : bool :=
  lacks ";" k && lacks "=" k && negb (is_empty k) && lacks " " k.

Definition cookie_ok (c : string * string) : Prop := cookie_name c.1 = true /\ lacks ";" c.2 = true.

Lemma split_on_not_nil c s : split_on c s <> [].
Proof.
  induction s as [|a s IH]; [done|]. cbn. destruct (split_on c s); [done|]. by destruct (Ascii.eqb a c).
Qed.

Lemma split_on_app c a b : lacks c a = true -> split_on c (a +:+ String c b) = a :: split_on c b.
Proof.
  induction a as [|x a IH]; rewrite ?sapp_nil_l, ?sapp_cons, ?lacks_cons; cbn [split_on].
  - intros _. rewrite Ascii.eqb_refl. destruct (split_on c b) eqn:E; [|done].
    by apply split_on_not_nil in E.
  - rewrite andb_true_iff, negb_true_iff. intros [-> Ha]. by rewrite IH.
Qed.

Lemma trim_spaces_none k : lacks " " k = true -> trim_spaces k = k.
Proof. destruct k as [|c k]; [done|]. rewrite lacks_cons, andb_true_iff, negb_true_iff. cbn. by intros [-> _]. Qed.

Lemma trim_key_spaced k : cookie_name k = true -> trim_key k = k /\ trim_key (String " " k) = k.
Proof.
  unfold cookie_name. rewrite !andb_true_iff, negb_true_iff. intros [[[_ _] He] Hs].
  unfold trim_key. change (trim_spaces (String " " k)) with (trim_spaces k).
  by rewrite (trim_spaces_none k Hs), He.
Qed.

Lemma find_cookie_pair k v rest name spaced :
  cookie_name k = true ->
  find_cookie ((if spaced : bool then String " " (k +:+ "=" +:+ v) else k +:+ "=" +:+ v) :: rest) name =
  if String.eqb k name then Some v else find_cookie rest name.
Proof.
  intros Hk. destruct (trim_key_spaced k Hk) as [H1 H2].
  assert (He : lacks "=" k = true) by (unfold cookie_name in Hk; bool_to_prop; done).
  cbn [find_cookie].
  change ("=" +:+ v) with (String "=" v).
  destruct spaced.
  - rewrite <- sapp_cons, break_at_found by (by rewrite lacks_cons, He). by rewrite H2.
  - rewrite break_at_found by done. by rewrite H1.
Qed.

Lemma find_rendered cookies name spaced :
  Forall cookie_ok cookies ->
  find_cookie (split_on ";" (if spaced : bool then String " " (render_cookies cookies) else render_cookies cookies)) name
  = assoc name cookies.
Proof.
  intros H. revert spaced. induction H as [|[k v] cookies [Hk Hv] Hrest IH]; intros spaced.
  - by destruct spaced.
  - assert (Hsemi : lacks ";" k = true) by (unfold cookie_name in Hk; bool_to_prop; done).
    cbn [assoc]. rewrite (String.eqb_sym name k). cbn [fst snd] in *.
    assert (Hl : lacks ";" (if spaced then String " " (k +:+ "=" +:+ v) else k +:+ "=" +:+ v) = true).
    { destruct spaced; rewrite ?lacks_cons, !lacks_app, Hsemi, Hv; done. }
    destruct cookies as [|c cookies].
    + cbn [render_cookies]. rewrite split_on_lacks by done. by rewrite find_cookie_pair.
    + specialize (IH true).
      change (render_cookies ((k, v) :: c :: cookies))
        with (k +:+ "=" +:+ v +:+ "; " +:+ render_cookies (c :: cookies)).
      replace (if spaced then String " " (k +:+ "=" +:+ v +:+ "; " +:+ render_cookies (c :: cookies))
               else k +:+ "=" +:+ v +:+ "; " +:+ render_cookies (c :: cookies))
        with ((if spaced then String " " (k +:+ "=" +:+ v) else k +:+ "=" +:+ v) +:+
              String ";" (String " " (render_cookies (c :: cookies))))
        by (destruct spaced; rewrite ?sapp_cons, !sapp_assoc; done).
      rewrite split_on_app by done. rewrite find_cookie_pair by done. rewrite <- IH. done.
Qed.

(** ** Properties *)

(** C1: The throttle bounds guessing under any interleaving of concurrent
    logins: as long as no right password is tried, the attempts let through to the
    key derivation in any span of time number at most five plus one per full minute
    of the span, since each attempt is charged before its password is hashed. *)
Theorem login_guess_bound {S} `{KvStore S} {R} (random : Z -> R -> option (list Z) * R)
    (kdf : string -> list Z -> Z -> option (list Z)) (s : Svc (S := S) (R := R))
    (ops : list AuthOp) (from until : Z) :
  failed_login_attempts_ s.1 = 0 -> from <= until -> clock_within from until ops ->
  let rs := eval (world_run random kdf ops) {| svc := s; in_flight := [] |} in
  Forall (fun r => no_right_guess r = true) rs ->
  allowed_attempts rs <= kMaxFailedLoginAttempts + (until - from) / kLoginLockoutDuration.
Proof.
  intros Hf Hle Hc rs Hr. unfold kMaxFailedLoginAttempts, kLoginLockoutDuration.
  pose proof (Z.div_pos (until - from) 60000 ltac:(lia) ltac:(lia)) as Hd.
  destruct (Z.le_gt_cases 1 (allowed_attempts rs)) as [Hn|]; [|lia].
  pose proof (attempts_bound random kdf ops {| svc := s; in_flight := [] |} from until) as Hb.
  unfold throttle in Hb. cbn [svc in_flight fst snd] in Hb. rewrite Hf in Hb.
  specialize (Hb ltac:(constructor) ltac:(lia) Hc Hr Hn). fold rs in Hb. cbn in Hb.
  pose proof (Z.div_le_lower_bound (until - from) 60000 (allowed_attempts rs - 5) ltac:(lia) ltac:(lia)). lia.
Qed.

(** The first password is the only one: once a password is set, no
    sequence of operations, interleaved in any way, writes anything to the stores, and
    a further setup is denied and changes nothing. *)
Theorem first_password_only {S} `{KvStore S} {R} (random : Z -> R -> option (list Z) * R)
    (kdf : string -> list Z -> Z -> option (list Z)) (w : World (S := S) (R := R)) (ops : list AuthOp)
    (password : string) (t : nat -> Z) :
  IsPasswordSet (svc w) = true ->
  let w' := exec (world_run random kdf ops) w in
  (svc w').2 = (svc w).2 /\ SetInitialPassword random kdf password t (svc w') = (None, svc w').
Proof.
  intros Hp w'. pose proof (run_store random kdf ops w Hp) as Hs. fold w' in Hs. split; [exact Hs|].
  apply SetInitialPassword_already. unfold IsPasswordSet in *. by rewrite Hs.
Qed.

(** What mbedtls documents: the generator fills the buffer it is given, the derivation
    writes [kHashBytes] bytes. *)
Definition random_fills {R} (random : Z -> R -> option (list Z) * R) : Prop :=
  forall n r bytes r', 0 <= n -> random n r = (Some bytes, r') ->
    Forall byte_range bytes /\ Z.of_nat (List.length bytes) = n.

Definition kdf_fills (kdf : string -> list Z -> Z -> option (list Z)) : Prop :=
  forall password slt n out, kdf password slt n = Some out ->
    Forall byte_range out /\ Z.of_nat (List.length out) = kHashBytes.

Lemma getline_found field rest : lacks "$" field = true -> getline (field +:+ String "$" rest) = (field, rest).
Proof. intros Hf. unfold getline. by rewrite break_at_found. Qed.

Lemma ParseStoredPasswordHash_encode slt h v :
  Forall byte_range slt -> slt <> [] -> Forall byte_range h -> h <> [] ->
  ParseStoredPasswordHash (Some {| schema_version := v; vv_value := encode_hash slt (ToHex h) |}) =
  Some {| iterations := kPbkdf2Iterations; salt := slt; hash := h |}.
Proof.
  intros Hs Hsn Hh Hhn. unfold ParseStoredPasswordHash, encode_hash. cbn [vv_value].
  change ("pbkdf2-sha256$" +:+ ?x) with ("pbkdf2-sha256" +:+ String "$" x).
  rewrite getline_found by done.
  change ("$" +:+ ToHex slt +:+ ?x) with (String "$" (ToHex slt +:+ x)).
  rewrite getline_found by (by apply to_string_lacks).
  change ("$" +:+ ToHex h) with (String "$" (ToHex h)).
  rewrite getline_found by (by apply hex_lacks).
  unfold getline. rewrite break_at_missing by (by apply hex_lacks).
  assert (Hne : forall l, l <> [] -> is_empty (ToHex l) = false) by (by intros [|? ?]).
  rewrite !Hne by done. rewrite String.eqb_refl. cbn [negb orb].
  rewrite <- (sapp_nil_r (to_string kPbkdf2Iterations)).
  rewrite to_string_from_chars by (unfold kPbkdf2Iterations, UINT_MAX; done || lia).
  by rewrite !FromHex_ToHex.
Qed.

Lemma filled_not_nil (l : list Z) n : Z.of_nat (List.length l) = n -> 0 < n -> l <> [].
Proof. intros H Hn ->. cbn in H. lia. Qed.

(** A setup that returned a session has stored a salted hash that the
    login comparison accepts for the very password that was set, and for another
    password exactly when its derivation with the same salt collides. *)
Theorem set_then_login {S} `{KvLaws S} {R} (random : Z -> R -> option (list Z) * R)
    (kdf : string -> list Z -> Z -> option (list Z)) (password token : string) (t : nat -> Z)
    (s s' : Svc (S := S) (R := R)) :
  random_fills random -> kdf_fills kdf ->
  SetInitialPassword random kdf password t s = (Some token, s') ->
  let stored := ParseStoredPasswordHash (GetSecret kCoreModuleId kPasswordKey s'.2) in
  IsPasswordSet s' = true /\
  exists slt h, kdf password slt kPbkdf2Iterations = Some h /\
    forall attempt, verify kdf attempt stored = bool_decide (kdf attempt slt kPbkdf2Iterations = Some h).
Proof.
  intros Hrnd Hkdf Hset stored. unfold SetInitialPassword, bind, gets in Hset.
  destruct (IsPasswordSet s); [done|]. destruct s as [a st]. unfold GenerateSalt in Hset.
  destruct (random kSaltBytes (drbg a)) as [[slt|] r] eqn:Er; [|done].
  unfold HashPasswordHex in Hset. destruct (kdf password slt kPbkdf2Iterations) as [h|] eqn:Ek; [|done].
  unfold store_hash in Hset. destruct (SetSecret _ _ _ _ st) as [ok st'] eqn:Es. destruct ok; [|done].
  cbn [negb] in Hset.
  destruct (Hrnd kSaltBytes _ _ _ ltac:(done) Er) as [Hs1 Hs2], (Hkdf _ _ _ _ Ek) as [Hh1 Hh2].
  assert (Hst : s'.2 = st').
  { pose proof (issue_session_frame random t (with_drbg r a, st')) as [_ Hf]. unfold exec in Hf.
    rewrite Hset in Hf. exact Hf. }
  pose proof (store_write_spec Secrets kCoreModuleId kPasswordKey kPasswordSchemaVersion
                (encode_hash slt (ToHex h)) st true st' ltac:(vm_compute; done) Es) as [Hread _].
  specialize (Hread eq_refl). change (store_read Secrets) with (GetSecret (S := S)) in Hread.
  unfold stored, IsPasswordSet. rewrite Hst, Hread. split; [done|]. exists slt, h. split; [done|].
  pose proof (filled_not_nil _ _ Hs2 ltac:(done)). pose proof (filled_not_nil _ _ Hh2 ltac:(done)).
  intros attempt. rewrite ParseStoredPasswordHash_encode by done.
  unfold verify, HashPasswordHex. cbn [salt iterations hash].
  destruct (kdf attempt slt kPbkdf2Iterations) as [out|] eqn:Ea; [|done].
  destruct (Hkdf _ _ _ _ Ea) as [Ho1 Ho2]. pose proof (filled_not_nil _ _ Ho2 ltac:(done)).
  rewrite FromHex_ToHex, ConstantTimeEquals_spec by done. apply bool_decide_ext. naive_solver.
Qed.

(** C35: A session is valid for 24 hours and no longer: after an operation
    that issued a token, and any operations of other users interleaved in any way (no
    logout of that token, no other session given the same token), the token validates
    at [T] exactly when [T] is before its expiry; and a token that was logged out
    validates no more. *)
Theorem session_lifecycle {S} `{KvStore S} {R} (random : Z -> R -> option (list Z) * R)
    (kdf : string -> list Z -> Z -> option (list Z)) (w : World (S := S) (R := R))
    (op : AuthOp) (ops : list AuthOp) (token : string) (expiry T : Z) :
  let w1 := exec (world_step random kdf op) w in
  let w2 := exec (world_run random kdf ops) w1 in
  Forall (reads_before T) ops -> Forall (fun o => is_logout_of token o = false) ops ->
  Forall (fun r => is_issue_of token r = false) (eval (world_run random kdf ops) w1) ->
  (eval (world_step random kdf op) w = Issued token expiry -> eval (ValidateSession T token) (svc w2) = (T <? expiry)) /\
  (op = OpLogout token -> eval (ValidateSession T token) (svc w2) = false).
Proof.
  intros w1 w2 Hr Hl Hi. split; intros Hop.
  - rewrite (kept_validates token (Some expiry) T); [done|].
    apply run_keeps_session; try done. left. by apply step_issues.
  - rewrite (kept_validates token None T); [done|].
    apply run_keeps_session; try done. left. subst op. unfold w1, table, exec. cbn.
    destruct (svc w) as [a s]. cbn. by rewrite lookup_delete_eq.
Qed.

(** C2: The guard: a wrapped handler runs exactly when a password is set and
    the request's session cookie names a session that has not expired, on a state the
    guard has not changed; otherwise the request is answered 403 or 401 without running it:
    the state is the one before, but for an expired session named by the cookie, which is
    removed. *)
Theorem require_auth_guards {S} `{KvStore S} {R W} `{PartLaws W (Svc (S := S) (R := R))}
    (now : Z) (inner : Handler W) (request : HttpRequest) (w : W) :
  let a := (view w).1 in
  let s := (view w).2 in
  let guarded := RequireAuth now inner request w in
  (IsPasswordSet (view w) = false -> guarded = (error_response 403 "setup_required", w)) /\
  (IsPasswordSet (view w) = true ->
     match session_cookie request with
     | None => guarded = (error_response 401 "unauthenticated", w)
     | Some token =>
         match sessions_ a !! token with
         | None => guarded = (error_response 401 "unauthenticated", w)
         | Some expiry =>
             guarded = if now <? expiry then inner request w
                       else (error_response 401 "unauthenticated",
                             update (with_sessions (delete token (sessions_ a)) a, s) w)
         end
     end).
Proof.
  intros a s guarded. unfold guarded, RequireAuth, bind. rewrite on_gets.
  split; intros Hp; rewrite Hp; cbn [negb]; [done|].
  unfold has_session. destruct (session_cookie request) as [token|]; [|done].
  unfold on, a, s. destruct (view w) as [a0 s0] eqn:Ev. rewrite ValidateSession_spec, with_sessions_id. cbn [fst snd].
  destruct (sessions_ a0 !! token) as [e|]; cbn.
  - rewrite (Z.ltb_antisym e now). destruct (e <=? now); cbn; [done|]. by rewrite <- Ev, update_view.
  - by rewrite <- Ev, update_view.
Qed.

(** A cookie is found by its name wherever it stands among the others
    the browser sends, and a name that is not there gives none: [ExtractCookie] on a
    rendered header is the first cookie of that name. *)
Theorem cookies_found_by_name (cookies : list (string * string)) (name : string) :
  Forall cookie_ok cookies -> ExtractCookie (render_cookies cookies) name = assoc name cookies.
Proof. intros H. exact (find_rendered cookies name false H). Qed.

Lemma cookies_found_by_name_witness :
  ExtractCookie "theme=dark; session=00ff; x=session=1" "session" = Some "00ff".
Proof.
  apply (cookies_found_by_name [("theme", "dark"); ("session", "00ff"); ("x", "session=1")] "session").
  repeat constructor.
Defined.

(** ** Concrete inputs

    A counter in place of the generator, the padded password in place of the
    derivation, and a host store, to run the service on. *)
Module Concrete.

Definition random (n r : Z) : option (list Z) * Z := (Some (repeat (r mod 256) (Z.to_nat n)), r + 1).

Definition kdf (password : string) (slt : list Z) (n : Z) : option (list Z) :=
  Some (take 32 (string_bytes password ++ repeat 0 32)).

#[export] Instance store : KvStore FileTree := HostKvStore closes_ok ["root"].

#[export] Instance store_laws : KvLaws FileTree := host_laws ["root"].

Definition blank : Svc (S := FileTree) (R := Z) := (NewAuthState 1, {| files := ∅; outcomes := [] |}).

Definition at_time (ms : Z) : nat -> Z := fun _ => ms.

Definition configured : Svc (S := FileTree) (R := Z) := exec (SetInitialPassword random kdf "correct horse" (at_time 0)) blank.

Definition guesses : list AuthOp :=
  map (fun i => OpBegin "guess" (at_time (10 * Z.of_nat i))) (seq 0 9) ++ [OpBegin "guess" (at_time 60100)].

End Concrete.

#[local] Existing Instance Concrete.store.
#[local] Existing Instance Concrete.store_laws.

Lemma concrete_random_fills : random_fills Concrete.random.
Proof.
  intros n r bytes r' Hn E. unfold Concrete.random in E. simplify_eq.
  split; [|rewrite repeat_length; lia].
  apply Forall_forall. intros b Hb. apply list_elem_of_In, repeat_spec in Hb as ->.
  unfold byte_range. apply Z.mod_pos_bound. lia.
Qed.

Lemma concrete_kdf_fills : kdf_fills Concrete.kdf.
Proof.
  intros password slt n out E. unfold Concrete.kdf in E. simplify_eq.
  split; [|rewrite length_take, length_app, repeat_length; unfold kHashBytes; lia].
  apply Forall_take, Forall_app. split; [|by repeat constructor].
  unfold string_bytes. apply Forall_forall. intros b Hb. apply list_elem_of_In, in_map_iff in Hb as (c & <- & _).
  apply code_bounds.
Qed.

Lemma login_guess_bound_witness :
  allowed_attempts (eval (world_run Concrete.random Concrete.kdf Concrete.guesses)
    {| svc := Concrete.configured; in_flight := [] |}) <= 5 + (60100 - 0) / 60000.
Proof.
  apply (login_guess_bound Concrete.random Concrete.kdf Concrete.configured Concrete.guesses 0 60100).
  - vm_compute. reflexivity.
  - lia.
  - cbn. unfold Concrete.at_time. lia.
  - vm_compute. repeat constructor.
Defined.

Lemma first_password_only_witness :
  SetInitialPassword Concrete.random Concrete.kdf "another" (Concrete.at_time 5)
    (svc (exec (world_run Concrete.random Concrete.kdf Concrete.guesses)
            {| svc := Concrete.configured; in_flight := [] |})) =
  (None, svc (exec (world_run Concrete.random Concrete.kdf Concrete.guesses)
            {| svc := Concrete.configured; in_flight := [] |})).
Proof.
  apply (first_password_only Concrete.random Concrete.kdf {| svc := Concrete.configured; in_flight := [] |}
           Concrete.guesses "another" (Concrete.at_time 5)).
  vm_compute. reflexivity.
Defined.

Lemma set_then_login_witness :
  let stored := ParseStoredPasswordHash (GetSecret kCoreModuleId kPasswordKey Concrete.configured.2) in
  verify Concrete.kdf "correct horse" stored = true /\ IsPasswordSet Concrete.configured = true.
Proof.
  assert (Hset : exists token, SetInitialPassword Concrete.random Concrete.kdf "correct horse" (Concrete.at_time 0)
                   Concrete.blank = (Some token, Concrete.configured)) by (eexists; vm_compute; reflexivity).
  destruct Hset as [token Hset].
  destruct (set_then_login Concrete.random Concrete.kdf "correct horse" token (Concrete.at_time 0)
              Concrete.blank Concrete.configured concrete_random_fills concrete_kdf_fills Hset)
    as (Hp & slt & h & Hk & Hv).
  split; [|exact Hp]. rewrite Hv. by apply bool_decide_eq_true.
Defined.

Definition first_login : AuthOp := OpSetInitialPassword "correct horse" (Concrete.at_time 1000).

Lemma session_lifecycle_witness :
  let w1 := exec (world_step Concrete.random Concrete.kdf first_login) {| svc := Concrete.blank; in_flight := [] |} in
  let w2 := exec (world_run Concrete.random Concrete.kdf [OpValidate "other" 5000]) w1 in
  exists token,
    eval (ValidateSession 86400999 token) (svc w2) = true /\
    eval (ValidateSession 86401000 token) (svc w2) = false.
Proof.
  intros w1 w2.
  set (token := ToHex (repeat 2 32)). exists token. split.
  - refine (eq_trans (proj1 (session_lifecycle Concrete.random Concrete.kdf {| svc := Concrete.blank; in_flight := [] |}
      first_login [OpValidate "other" 5000] token 86401000 86400999 _ _ _) _) _);
      [repeat constructor; cbn; lia|repeat constructor|vm_compute; repeat constructor|vm_compute; reflexivity|reflexivity].
  - refine (eq_trans (proj1 (session_lifecycle Concrete.random Concrete.kdf {| svc := Concrete.blank; in_flight := [] |}
      first_login [OpValidate "other" 5000] token 86401000 86401000 _ _ _) _) _);
      [repeat constructor; cbn; lia|repeat constructor|vm_compute; repeat constructor|vm_compute; reflexivity|reflexivity].
Defined.

Lemma require_auth_guards_witness :
  RequireAuth (W := Svc (S := FileTree) (R := Z)) 10 (fun _ => ret ok_response)
    {| req_path := "/api/settings/backup"; req_query := ""; req_body := ""; cookie_header := None |} Concrete.configured
  = (error_response 401 "unauthenticated", Concrete.configured).
Proof.
  apply (require_auth_guards (W := Svc (S := FileTree) (R := Z)) 10 (fun _ => ret ok_response)
    {| req_path := "/api/settings/backup"; req_query := ""; req_body := ""; cookie_header := None |} Concrete.configured).
  vm_compute. reflexivity.
Defined.
