(* ===== verification/Logger.v ===== *)
(** Logger: the persistent, size-capped log and its background writer.

    Models [src/src/core/logger.cpp]. Callers push items on a queue; one worker pops
    what is there, writes it as one batch and then sets the signals of the readers
    that were waiting. [LoggerOp] is the interleaving of the callers' pushes with the
    worker's two steps (take everything queued, write it); the diagnostics the writer
    prints to the console are part of its result, so that an empty console says every
    write succeeded. *)
From S2P Require Import Prelude Json Storage Connectivity.

Definition kCurrentKey : string := "log_current".
Definition kRotatedKey : string := "log_rotated".
Definition kSchemaVersion : Z := 1.

Inductive LogLevel := kDebug | kInfo | kWarning | kLogError.

Definition LevelToString (level : LogLevel) : string :=
  match level with
  | kDebug => "debug"
  | kInfo => "info"
  | kWarning => "warning"
  | kLogError => "error"
  end.

(** ** [TrimToTail] *)

(** The positions after a newline that another character follows. *)
Fixpoint starts_after (pos : Z) (s : string) : list Z :=
  match s with
  | EmptyString => []
  | String c s' =>
      if Ascii.eqb c newline && negb (is_empty s') then (pos + 1) :: starts_after (pos + 1) s'
      else starts_after (pos + 1) s'
  end.

(** The loop from the last line start back to the first. *)
Fixpoint find_cut (blob_size max_bytes cut : Z) (starts : list Z) : Z :=
  match starts with
  | [] => cut
  | start :: starts' =>
      if max_bytes <? blob_size - start then cut else find_cut blob_size max_bytes start starts'
  end.

Definition TrimToTail (blob : string) (max_bytes : Z) : string :=
  if size blob <=? max_bytes then blob
  else match rev (0 :: starts_after 0 blob) with
       | [] => blob
       | last_start :: starts => drop_chars (Z.to_nat (find_cut (size blob) max_bytes last_start starts)) blob
       end.

(** ** [JoinLinesAsArrayElements]: the loop, with the fuel of one step per line *)

Fixpoint join_lines (fuel : nat) (blob result : string) : string :=
  match fuel with
  | O => result
  | S fuel' =>
      if is_empty blob then result
      else
        let '(line, rest) := break_at newline blob in
        let result :=
          if is_empty line then result
          else (if is_empty result then result else result +:+ ",") +:+ line in
        match rest with
        | None => result
        | Some rest => join_lines fuel' rest result
        end
  end.

Definition JoinLinesAsArrayElements (blob : string) : string :=
  join_lines (S (String.length blob)) blob EmptyString.

(** ** The logger *)

Record LogRecord := { timestamp : Z; level : LogLevel; component : string; message : string }.

Record Item := { record : option LogRecord; flush_signal : option nat }.

Section Logger.
Context {S : Type} `{KvStore S} `{JsonCodec} (max_log_file_bytes : Z).

Definition entry_line (r : LogRecord) : string :=
  json_dump (JObject [("timestamp", JInt (timestamp r)); ("level", JString (LevelToString (level r)));
                      ("component", JString (component r)); ("message", JString (message r))]).

(** One cache write; what it prints when it fails. *)
Definition write_or_report (key value report : string) : M S (list string) :=
  let* ok := WriteCache kCoreModuleId key kSchemaVersion value in
  ret (if ok : bool then [] else [report]).

Definition entries_report (batch : list LogRecord) (suffix : string) : string :=
  "Logger: failed to persist " +:+ to_string (Z.of_nat (List.length batch)) +:+ " log entr" +:+
  (if decide (List.length batch = 1%nat) then "y" else "ies") +:+ suffix.

Definition stored_blob (key : string) (s : S) : string :=
  match ReadCache kCoreModuleId key s with Some v => vv_value v | None => EmptyString end.

Definition WriteBatch (batch : list LogRecord) : M S (list string) :=
  let lines := string_concat (map (fun r => entry_line r +:+ String newline EmptyString) batch) in
  let* previous := gets (stored_blob kCurrentKey) in
  let updated := previous +:+ lines in
  if max_log_file_bytes <? size updated then
    let* e1 := write_or_report kRotatedKey previous "Logger: failed to persist rotated log backup" in
    let* e2 := write_or_report kCurrentKey (TrimToTail lines max_log_file_bytes)
                 (entries_report batch " (rotation write)") in
    ret (e1 ++ e2)
  else write_or_report kCurrentKey updated (entries_report batch EmptyString).

(** [ReadAll] after its signal was set. *)
Definition ReadAll (s : S) : string :=
  let rotated_elements := JoinLinesAsArrayElements (stored_blob kRotatedKey s) in
  let current_elements := JoinLinesAsArrayElements (stored_blob kCurrentKey s) in
  "[" +:+ rotated_elements +:+
  (if negb (is_empty rotated_elements) && negb (is_empty current_elements) then "," else EmptyString) +:+
  current_elements +:+ "]".

(** The worker's batch and the signals to set after it. *)
Definition consume (acc : list LogRecord * list nat) (item : Item) : list LogRecord * list nat :=
  (match record item with Some r => acc.1 ++ [r] | None => acc.1 end,
   match flush_signal item with Some sg => acc.2 ++ [sg] | None => acc.2 end).

Record LoggerWorld := {
  store : S;
  queue : list Item;
  in_hand : option (list LogRecord * list nat);
  signalled : list nat;
  console : list string
}.

Inductive LoggerOp :=
  | OpLog (r : LogRecord)       (* [Log] *)
  | OpFlush (signal : nat)      (* the first half of [ReadAll] *)
  | OpTake                      (* the worker pops, then drains the queue *)
  | OpWrite.                    (* the worker writes the batch and sets the signals *)

Definition push (item : Item) (w : LoggerWorld) : LoggerWorld :=
  {| store := store w; queue := Push item (queue w); in_hand := in_hand w;
     signalled := signalled w; console := console w |}.

(** [Pop] blocks on an empty queue; what it returns and everything [TryPop] still finds. *)
Definition TakeBatch (w : LoggerWorld) : LoggerWorld :=
  match in_hand w, Pop (queue w) with
  | None, (Some first, rest) =>
      let '(more, remaining) := drain (List.length rest) rest in
      {| store := store w; queue := remaining; in_hand := Some (foldl consume ([], []) (first :: more));
         signalled := signalled w; console := console w |}
  | _, _ => w
  end.

Definition FinishBatch (w : LoggerWorld) : LoggerWorld :=
  match in_hand w with
  | None => w
  | Some (batch, signals) =>
      let '(printed, s) := match batch with [] => ([], store w) | _ => WriteBatch batch (store w) end in
      {| store := s; queue := queue w; in_hand := None; signalled := signalled w ++ signals;
         console := console w ++ printed |}
  end.

Definition logger_step (w : LoggerWorld) (op : LoggerOp) : LoggerWorld :=
  match op with
  | OpLog r => push {| record := Some r; flush_signal := None |} w
  | OpFlush sg => push {| record := None; flush_signal := Some sg |} w
  | OpTake => TakeBatch w
  | OpWrite => FinishBatch w
  end.

Definition logger_run (ops : list LoggerOp) (w : LoggerWorld) : LoggerWorld := foldl logger_step w ops.

Definition start (s : S) : LoggerWorld :=
  {| store := s; queue := []; in_hand := None; signalled := []; console := [] |}.
End Logger.

(** ** Lemmas: blobs of lines *)

Definition blob_of (lines : list string) : string :=
  string_concat (map (fun l => l +:+ String newline EmptyString) lines).

Definition line_ok (l : string) : Prop := lacks newline l = true /\ l <> EmptyString.

Lemma blob_cons l ls : blob_of (l :: ls) = l +:+ String newline (blob_of ls).
Proof. unfold blob_of. cbn [map string_concat foldr]. by rewrite sapp_assoc. Qed.

Lemma blob_app ls1 ls2 : blob_of (ls1 ++ ls2) = blob_of ls1 +:+ blob_of ls2.
Proof.
  induction ls1 as [|l ls1 IH]; [done|]. rewrite <- app_comm_cons, !blob_cons, IH, sapp_assoc. done.
Qed.

Lemma blob_nonempty l ls : is_empty (blob_of (l :: ls)) = false.
Proof. rewrite blob_cons. by destruct l. Qed.

Lemma starts_after_line l pos rest :
  lacks newline l = true ->
  starts_after pos (l +:+ String newline rest) =
  if is_empty rest then [] else (pos + size l + 1) :: starts_after (pos + size l + 1) rest.
Proof.
  revert pos. induction l as [|c l IH]; intros pos Hl.
  - rewrite sapp_nil_l. cbn. rewrite Z.add_0_r. by destruct rest.
  - rewrite lacks_cons in Hl. apply andb_true_iff in Hl as [Hc Hl]. apply negb_true_iff in Hc.
    rewrite sapp_cons. cbn [starts_after]. rewrite Hc, IH, size_cons by done. cbn [andb].
    by replace (pos + 1 + size l + 1) with (pos + (1 + size l) + 1) by lia.
Qed.

(** The line starts of a blob are the sizes of its proper prefixes. *)
Lemma starts_after_blob ls pos :
  Forall line_ok ls ->
  starts_after pos (blob_of ls) =
  map (fun i => pos + size (blob_of (take i ls))) (seq 1 (List.length ls - 1)).
Proof.
  intros H. revert pos. induction H as [|l ls [Hl _] Hls IH]; intros pos; [done|].
  rewrite blob_cons, starts_after_line by done. destruct ls as [|l' ls]; [done|].
  rewrite blob_nonempty, IH. cbn [List.length]. rewrite !Nat.sub_succ, !Nat.sub_0_r.
  cbn [seq map]. f_equal.
  - cbn [take]. rewrite blob_cons, size_app, size_cons. change (size (blob_of [])) with 0. lia.
  - rewrite <- (seq_shift _ 1), map_map. apply map_ext. intros i.
    change (take (S i) (l :: l' :: ls)) with (l :: take i (l' :: ls)).
    rewrite blob_cons, size_app, size_cons. lia.
Qed.

Lemma drop_prefix ls i : drop_chars (Z.to_nat (size (blob_of (take i ls)))) (blob_of ls) = blob_of (drop i ls).
Proof.
  rewrite <- (take_drop i ls) at 2. rewrite blob_app. unfold size. rewrite Nat2Z.id. apply drop_chars_app.
Qed.

Lemma size_drop ls i : size (blob_of ls) - size (blob_of (take i ls)) = size (blob_of (drop i ls)).
Proof. rewrite <- (take_drop i ls) at 1. rewrite blob_app, size_app. lia. Qed.

(** The cut is the start of a line: the last one, or an earlier one whose tail fits. *)
Lemma find_cut_spec ls max i :
  exists j, (j <= i)%nat /\
    find_cut (size (blob_of ls)) max (size (blob_of (take i ls)))
      (map (fun k => size (blob_of (take k ls))) (rev (seq 0 i))) = size (blob_of (take j ls)) /\
    (j = i \/ size (blob_of (drop j ls)) <= max) /\
    (j = 0%nat \/ max < size (blob_of (drop (j - 1) ls))).
Proof.
  induction i as [|i IH].
  - exists 0%nat. cbn. split_and!; auto.
  - rewrite seq_S, rev_app_distr. cbn [rev app map find_cut Nat.add]. rewrite size_drop.
    destruct (Z.ltb_spec max (size (blob_of (drop i ls)))) as [Hlt|Hle].
    + exists (S i). rewrite Nat.sub_succ, Nat.sub_0_r. split_and!; auto.
    + destruct IH as (j & Hj & -> & H1 & H2). exists j. split_and!; auto.
      destruct H1 as [->|H1]; auto.
Qed.

(** [TrimToTail] on a run of lines keeps a suffix of them: as many of the newest as
    fit, and always the last. *)
Lemma TrimToTail_blob ls max :
  Forall line_ok ls -> ls <> [] ->
  exists j, (j < List.length ls)%nat /\ TrimToTail (blob_of ls) max = blob_of (drop j ls) /\
    (j = (List.length ls - 1)%nat \/ size (blob_of (drop j ls)) <= max) /\
    (j = 0%nat \/ max < size (blob_of (drop (j - 1) ls))).
Proof.
  intros Hok Hne. unfold TrimToTail.
  assert (Hlen : (0 < List.length ls)%nat) by (destruct ls; cbn; [done|lia]).
  destruct (Z.leb_spec (size (blob_of ls)) max) as [Hle|Hlt].
  - exists 0%nat. rewrite drop_0. split_and!; auto.
  - rewrite starts_after_blob by done.
    assert (E : 0 :: map (fun i => 0 + size (blob_of (take i ls))) (seq 1 (List.length ls - 1)) =
                map (fun i => size (blob_of (take i ls))) (seq 0 (List.length ls - 1) ++ [(List.length ls - 1)%nat])).
    { rewrite <- seq_S. cbn [seq map]. reflexivity. }
    rewrite E, <- map_rev, rev_app_distr. cbn [map rev app].
    destruct (find_cut_spec ls max (List.length ls - 1)) as (j & Hj & -> & H1 & H2).
    exists j. rewrite drop_prefix. split_and!; [lia|done|done|done].
Qed.

(** ** Lemmas: joining lines *)

Fixpoint join_commas (lines : list string) : string :=
  match lines with
  | [] => EmptyString
  | [l] => l
  | l :: lines' => l +:+ "," +:+ join_commas lines'
  end.

Lemma join_commas_cons l ls :
  join_commas (l :: ls) = l +:+ (if decide (ls = []) then EmptyString else "," +:+ join_commas ls).
Proof. destruct ls; [by rewrite sapp_nil_r|done]. Qed.

Lemma is_empty_app a b : is_empty (a +:+ b) = is_empty a && is_empty b.
Proof. by destruct a. Qed.

Lemma is_empty_false s : s <> EmptyString -> is_empty s = false.
Proof. by destruct s. Qed.

Lemma join_lines_blob fuel ls result :
  Forall line_ok ls -> (List.length ls < fuel)%nat ->
  join_lines fuel (blob_of ls) result =
  result +:+ (if is_empty result || bool_decide (ls = []) then EmptyString else ",") +:+ join_commas ls.
Proof.
  intros H. revert fuel result. induction H as [|l ls [Hl Hne] Hls IH]; intros fuel result Hf.
  - destruct fuel; cbn; rewrite ?bool_decide_true, orb_true_r by done; by rewrite sapp_nil_r.
  - destruct fuel as [|fuel]; [lia|]. cbn [join_lines]. rewrite blob_nonempty, blob_cons, break_at_found by done.
    rewrite (is_empty_false l Hne). rewrite IH by (cbn in Hf; lia).
    rewrite join_commas_cons, (bool_decide_false (l :: ls = [])), orb_false_r by done.
    rewrite !is_empty_app, (is_empty_false l Hne), andb_false_r. cbn [orb].
    destruct (is_empty result) eqn:Er.
    + destruct result; [|done]. rewrite !sapp_nil_l. case_bool_decide; case_decide; try done; subst; by rewrite !sapp_nil_r.
    + rewrite !sapp_assoc. case_bool_decide; case_decide; try done; subst; by rewrite ?sapp_nil_r.
Qed.

Lemma blob_length ls : (List.length ls <= String.length (blob_of ls))%nat.
Proof.
  induction ls as [|l ls IH]; [done|]. rewrite blob_cons.
  pose proof (size_app l (String newline (blob_of ls))) as Hs. rewrite size_cons in Hs. unfold size in Hs.
  cbn [List.length]. lia.
Qed.

Lemma JoinLines_blob ls : Forall line_ok ls -> JoinLinesAsArrayElements (blob_of ls) = join_commas ls.
Proof.
  intros H. unfold JoinLinesAsArrayElements. rewrite join_lines_blob by (done || (pose proof (blob_length ls); lia)).
  done.
Qed.

Lemma join_commas_empty ls : Forall line_ok ls -> is_empty (join_commas ls) = bool_decide (ls = []).
Proof.
  intros [|l ls' [_ Hne] _]; [done|]. rewrite join_commas_cons, is_empty_app, is_empty_false by done. done.
Qed.

Lemma join_commas_app a b :
  join_commas (a ++ b) =
  join_commas a +:+ (if bool_decide (a = []) || bool_decide (b = []) then EmptyString else ",") +:+ join_commas b.
Proof.
  induction a as [|l a IH]; [done|]. rewrite <- app_comm_cons, !join_commas_cons.
  rewrite (bool_decide_false (l :: a = [])) by done. cbn [orb].
  destruct a as [|l' a].
  - cbn [app]. destruct b as [|c b].
    + rewrite decide_True, bool_decide_true by done. by rewrite !sapp_nil_r.
    + rewrite (decide_False (P := c :: b = [])), (decide_True (P := [] = [])), bool_decide_false by done.
      by rewrite sapp_nil_r.
  - rewrite IH, !decide_False by done. rewrite (bool_decide_false (l' :: a = [])) by done. cbn [orb].
    by rewrite !sapp_assoc.
Qed.

(** ** Lemmas: the writer *)

Section LoggerLemmas.
Context {S : Type} `{HL : KvLaws S} `{JsonCodec} (max : Z).

(** A dumped value is one line: nlohmann's compact [dump()] escapes control characters. *)
Definition dumps_one_line : Prop := forall j, line_ok (json_dump j).

Context (Hdump : dumps_one_line).

Lemma entry_lines_ok rs : Forall line_ok (map entry_line rs).
Proof using Hdump. apply Forall_forall. intros l Hl. apply list_elem_of_In, in_map_iff in Hl as (r & <- & _). apply Hdump. Qed.

(** A blob within the cap, or a single line. *)
Definition bounded (lines : list string) : Prop := size (blob_of lines) <= max \/ (List.length lines <= 1)%nat.

(** The store holds, of the lines written so far, two blocks in order, the second of
    which ends with the newest line. *)
Definition log_rep (lines : list string) (s : S) : Prop :=
  exists d1 r d2 c, lines = d1 ++ r ++ d2 ++ c /\
    stored_blob kRotatedKey s = blob_of r /\ stored_blob kCurrentKey s = blob_of c /\
    bounded r /\ bounded c /\ (lines <> [] -> c <> []).

Lemma write_or_report_ok key v report (s s' : S) :
  write_or_report key v report s = ([], s') ->
  stored_blob key s' = v /\ forall key', key' <> key -> stored_blob key' s' = stored_blob key' s.
Proof using HL.
  unfold write_or_report, bind, ret. destruct (WriteCache kCoreModuleId key kSchemaVersion v s) as [ok s1] eqn:E.
  destruct ok; intros Hw; simplify_eq.
  assert (Hv : INT_MIN <= kSchemaVersion <= INT_MAX) by (vm_compute; done).
  destruct (store_write_spec Cache kCoreModuleId key kSchemaVersion v s true s' Hv E) as [H1 H2].
  unfold stored_blob. split.
  - change (ReadCache (S := S)) with (store_read (S := S) Cache). by rewrite H1.
  - intros key' Hne. change (ReadCache (S := S)) with (store_read (S := S) Cache). rewrite H2; [done|congruence].
Qed.

Lemma WriteBatch_rep lines batch (s s' : S) :
  log_rep lines s -> batch <> [] -> WriteBatch max batch s = ([], s') ->
  log_rep (lines ++ map entry_line batch) s'.
Proof using HL Hdump.
  intros (d1 & r & d2 & c & -> & Hr & Hc & Br & Bc & _) Hb.
  assert (Hne : map entry_line batch <> []) by (by destruct batch).
  unfold WriteBatch, bind, ret, gets. rewrite Hc.
  assert (Eb : string_concat (map (fun r => entry_line r +:+ String newline EmptyString) batch)
               = blob_of (map entry_line batch)).
  { unfold blob_of. by rewrite map_map. }
  rewrite Eb, <- blob_app. set (b := map entry_line batch) in *.
  destruct (Z.ltb_spec max (size (blob_of (c ++ b)))) as [Hlt|Hle].
  - destruct (write_or_report kRotatedKey _ _ s) as [e1 s1] eqn:E1.
    destruct (write_or_report kCurrentKey _ _ s1) as [e2 s2] eqn:E2. intros Hw.
    injection Hw as He <-. apply app_eq_nil in He as [-> ->].
    apply write_or_report_ok in E1 as [R1 _], E2 as [C2 O2].
    destruct (TrimToTail_blob b max (entry_lines_ok batch) Hne) as (j & Hj & Ht & Hcase & _).
    exists (d1 ++ r ++ d2), c, (take j b), (drop j b).
    rewrite !app_assoc_reverse, take_drop, O2, R1, C2, Ht by done. split_and!; try done.
    + unfold bounded. rewrite length_drop. destruct Hcase as [->|Hcase]; [right|left]; [lia|done].
    + intros _ Hd. apply (f_equal List.length) in Hd. rewrite length_drop in Hd. cbn in Hd. lia.
  - intros Hw. apply write_or_report_ok in Hw as [C1 O1].
    exists d1, r, d2, (c ++ b). rewrite C1, O1, !app_assoc_reverse by done. split_and!; try done.
    + by left.
    + intros _ Hd. apply app_eq_nil in Hd as [_ Hd]. done.
Qed.

Lemma ReadAll_rep lines (s : S) :
  Forall line_ok lines -> log_rep lines s ->
  exists d1 r d2 c, lines = d1 ++ r ++ d2 ++ c /\ (lines <> [] -> c <> []) /\
    ReadAll s = "[" +:+ join_commas (r ++ c) +:+ "]".
Proof.
  intros Hok (d1 & r & d2 & c & -> & Hr & Hc & _ & _ & Hn). exists d1, r, d2, c. split_and!; [done|done|].
  rewrite !Forall_app in Hok. destruct Hok as (_ & Hrok & _ & Hcok).
  unfold ReadAll. rewrite Hr, Hc, !JoinLines_blob, !join_commas_empty, join_commas_app by done.
  destruct (bool_decide (r = [])), (bool_decide (c = [])); cbn [negb andb orb]; by rewrite ?sapp_assoc.
Qed.

(** ** Lemmas: the worker *)

Lemma consume_items items acc :
  foldl consume acc items = (acc.1 ++ omap record items, acc.2 ++ omap flush_signal items).
Proof.
  revert acc. induction items as [|i items IH]; intros [b f].
  - cbn. by rewrite !app_nil_r.
  - cbn [foldl]. rewrite IH. unfold consume. cbn.
    destruct (record i), (flush_signal i); cbn; by rewrite <- ?app_assoc.
Qed.

Definition item_of (op : LoggerOp) : option Item :=
  match op with
  | OpLog r => Some {| record := Some r; flush_signal := None |}
  | OpFlush sg => Some {| record := None; flush_signal := Some sg |}
  | _ => None
  end.

Definition logged (ops : list LoggerOp) : list LogRecord := omap record (omap item_of ops).

(** Of the items pushed, [done] were written, [hand] are in the worker's hands and the
    rest is queued. *)
Definition logger_inv (pushed : list Item) (w : LoggerWorld) : Prop :=
  exists written hand, pushed = written ++ hand ++ queue w /\
    match in_hand w with
    | None => hand = []
    | Some h => h = (omap record hand, omap flush_signal hand)
    end /\
    signalled w = omap flush_signal written /\
    (console w = [] -> log_rep (map entry_line (omap record written)) (store w)).

Lemma inv_step pushed op w :
  logger_inv pushed w -> logger_inv (pushed ++ omap item_of [op]) (logger_step max w op).
Proof using HL Hdump.
  intros (written & hand & -> & Hh & Hs & Hc). destruct op as [r|sg| |]; cbn [logger_step item_of].
  - exists written, hand. cbn. unfold Push. by rewrite !app_assoc.
  - exists written, hand. cbn. unfold Push. by rewrite !app_assoc.
  - cbn [omap list_omap item_of]. rewrite app_nil_r. unfold TakeBatch. destruct (in_hand w) as [h|] eqn:Eh.
    { exists written, hand. rewrite Eh. done. }
    subst hand. destruct (queue w) as [|first rest] eqn:Eq; cbn [Pop].
    { exists written, []. rewrite Eh, Eq. done. }
    rewrite drain_all by done. exists written, (first :: rest). cbn [queue in_hand signalled console store].
    rewrite consume_items, app_nil_r. done.
  - cbn [omap list_omap item_of]. rewrite app_nil_r. unfold FinishBatch. destruct (in_hand w) as [h|] eqn:Eh.
    2:{ exists written, hand. rewrite Eh. done. }
    subst h. destruct (omap record hand) as [|r0 rs] eqn:Er.
    + exists (written ++ hand), []. cbn. rewrite !omap_app, Er, Hs, !app_nil_r, app_assoc. done.
    + destruct (WriteBatch max (r0 :: rs) (store w)) as [printed s'] eqn:Ew.
      exists (written ++ hand), []. cbn [queue in_hand signalled console store].
      rewrite !omap_app, Er, Hs, app_assoc. split_and!; try done.
      intros E. apply app_eq_nil in E as [E1 ->]. rewrite map_app. eapply WriteBatch_rep; eauto.
Qed.

Lemma inv_run ops w pushed :
  logger_inv pushed w -> logger_inv (pushed ++ omap item_of ops) (logger_run max ops w).
Proof using HL Hdump.
  revert w pushed. induction ops as [|op ops IH]; intros w pushed Hw; [by rewrite app_nil_r|].
  change (op :: ops) with ([op] ++ ops). rewrite omap_app, app_assoc. apply IH. by apply inv_step.
Qed.

Lemma inv_start (s : S) :
  stored_blob kRotatedKey s = EmptyString -> stored_blob kCurrentKey s = EmptyString -> logger_inv [] (start s).
Proof.
  intros Hr Hc. exists [], []. split_and!; try done. intros _. exists [], [], [], [].
  split_and!; try done; right; cbn; lia.
Qed.
End LoggerLemmas.

(** The items before a signalled flush were all written. *)
Lemma signalled_after {A} (f : A -> option nat) (before after written rest : list A) (x : A) (sg : nat) :
  before ++ x :: after = written ++ rest -> sg ∈ omap f written -> sg ∉ omap f before ->
  exists more, written = before ++ more.
Proof.
  intros E Hin Hnot. apply app_eq_app in E as (l & [[-> _]|[-> _]]); [|by exists l].
  destruct Hnot. rewrite omap_app. apply elem_of_app. by left.
Qed.

(** ** Properties *)

(** What [TrimToTail] keeps of a run of log lines is a suffix of whole
    lines that always holds the newest one, fits the cap unless it is that one line,
    and is as long as fits. *)
Theorem trim_keeps_newest_lines (lines : list string) (max_bytes : Z) :
  Forall line_ok lines -> lines <> [] ->
  exists older kept, lines = older ++ kept /\ kept <> [] /\
    TrimToTail (blob_of lines) max_bytes = blob_of kept /\
    (size (blob_of kept) <= max_bytes \/ List.length kept = 1%nat) /\
    (forall older' l, older = older' ++ [l] -> max_bytes < size (blob_of (l :: kept))).
Proof.
  intros Hok Hne. destruct (TrimToTail_blob lines max_bytes Hok Hne) as (j & Hj & Ht & H1 & H2).
  exists (take j lines), (drop j lines). rewrite take_drop. split_and!; try done.
  - intros E. apply (f_equal List.length) in E. rewrite length_drop in E. cbn in E. lia.
  - rewrite length_drop. destruct H1 as [->|H1]; [right; lia|by left].
  - intros older' l E. destruct H2 as [->|H2]; [by destruct older'|].
    assert (Hlen : List.length older' = (j - 1)%nat).
    { apply (f_equal List.length) in E. rewrite length_app, length_take in E. cbn in E. lia. }
    assert (Hd : drop (j - 1) lines = l :: drop j lines); [|by rewrite <- Hd].
    rewrite <- (take_drop j lines) at 1. rewrite E, <- app_assoc. rewrite <- Hlen. by rewrite drop_app_length.
Qed.

Lemma trim_keeps_newest_lines_witness :
  TrimToTail (blob_of ["aaaa"; "bbb"; "cc"]) 7 = blob_of ["bbb"; "cc"] /\
  exists older kept, ["aaaa"; "bbb"; "cc"] = older ++ kept /\ kept <> [].
Proof.
  split; [reflexivity|].
  destruct (trim_keeps_newest_lines ["aaaa"; "bbb"; "cc"] 7) as (older & kept & E & Hn & _);
    [repeat constructor; done|done|]. by exists older, kept.
Defined.

(** A reader sees what was logged before it asked: whatever the
    interleaving of callers and worker, once the signal of a [ReadAll] is set, every
    record logged before it has been written, and what [ReadAll] returns is the JSON
    array of two blocks, oldest first, of the lines written, the second ending with the
    newest, provided the console shows no failed write. *)
Theorem read_all_sees_logged {S} `{KvLaws S} `{JsonCodec} (max : Z) (before after : list LoggerOp)
    (sg : nat) (s : S) :
  dumps_one_line -> stored_blob kRotatedKey s = EmptyString -> stored_blob kCurrentKey s = EmptyString ->
  let w := logger_run max (before ++ OpFlush sg :: after) (start s) in
  sg ∈ signalled w -> sg ∉ omap flush_signal (omap item_of before) -> console w = [] ->
  exists more d1 r d2 c, let lines := map entry_line (logged before ++ more) in
    lines = d1 ++ r ++ d2 ++ c /\ (lines <> [] -> c <> []) /\
    ReadAll (store w) = "[" +:+ join_commas (r ++ c) +:+ "]".
Proof.
  intros Hdump Hr Hc w Hsg Hnot Hcon.
  destruct (inv_run max Hdump (before ++ OpFlush sg :: after) (start s) [] (inv_start max s Hr Hc))
    as (written & hand & Hp & _ & Hs & Hrep). fold w in Hp, Hs, Hrep.
  rewrite app_nil_l, omap_app in Hp. change (OpFlush sg :: after) with ([OpFlush sg] ++ after) in Hp.
  rewrite omap_app in Hp. cbn in Hp. rewrite Hs in Hsg.
  destruct (signalled_after flush_signal _ _ _ _ _ sg Hp Hsg Hnot) as [m ->].
  specialize (Hrep Hcon). rewrite omap_app in Hrep.
  destruct (ReadAll_rep max _ _ (entry_lines_ok Hdump _) Hrep) as (d1 & r & d2 & c & E & Hn & HR).
  exists (omap record m), d1, r, d2, c. done.
Qed.

(** The log never outgrows its cap: on every reachable state with no
    failed write, each of the two stored files is at most the cap long, or is one
    single entry. *)
Theorem log_stays_bounded {S} `{KvLaws S} `{JsonCodec} (max : Z) (ops : list LoggerOp) (s : S) :
  dumps_one_line -> stored_blob kRotatedKey s = EmptyString -> stored_blob kCurrentKey s = EmptyString ->
  let w := logger_run max ops (start s) in
  console w = [] ->
  forall key, key = kRotatedKey \/ key = kCurrentKey ->
  exists lines, stored_blob key (store w) = blob_of lines /\ Forall line_ok lines /\
    (size (stored_blob key (store w)) <= max \/ (List.length lines <= 1)%nat).
Proof.
  intros Hdump Hr Hc w Hcon key Hkey.
  destruct (inv_run max Hdump ops (start s) [] (inv_start max s Hr Hc)) as (written & hand & _ & _ & _ & Hrep).
  fold w in Hrep. destruct (Hrep Hcon) as (d1 & r & d2 & c & E & Er & Ec & Br & Bc & _).
  pose proof (entry_lines_ok Hdump (omap record written)) as Hok. rewrite E, !Forall_app in Hok.
  destruct Hok as (_ & Hrok & _ & Hcok).
  destruct Hkey as [->| ->]; [exists r|exists c]; rewrite ?Er, ?Ec; done.
Qed.

(** A [ReadAll] does not wait forever: from any reachable state, once
    the worker has finished what it holds and gone round once more, the signal that was
    queued is set. *)
Theorem flush_completes {S} `{KvStore S} `{JsonCodec} (max : Z) (ops : list LoggerOp) (sg : nat) (s : S) :
  let w := logger_run max (ops ++ [OpFlush sg]) (start s) in
  sg ∈ signalled (logger_run max [OpWrite; OpTake; OpWrite] w).
Proof.
  intros w. unfold w, logger_run. rewrite foldl_app. generalize (foldl (logger_step max) (start s) ops). intros v.
  cbn [foldl logger_step]. set (v1 := FinishBatch max (push _ v)).
  assert (Hq : queue v1 = queue v ++ [{| record := None; flush_signal := Some sg |}] /\ in_hand v1 = None).
  { unfold v1, FinishBatch, push, Push. cbn. destruct (in_hand v) as [[b g]|]; [|done].
    destruct (match b with [] => _ | _ => _ end) as [printed s']. done. }
  destruct Hq as [Hq Hh]. unfold TakeBatch. rewrite Hq, Hh.
  destruct (queue v ++ [_]) as [|first rest] eqn:E; [by destruct (queue v)|]. cbn [Pop].
  rewrite drain_all by done. unfold FinishBatch. cbn [in_hand]. rewrite consume_items, !app_nil_l.
  assert (Hin : sg ∈ omap flush_signal (first :: rest)).
  { rewrite <- E, omap_app. cbn. apply elem_of_app. right. by left. }
  destruct (match omap record (first :: rest) with [] => _ | _ => _ end) as [printed s'].
  cbn [signalled]. apply elem_of_app. by right.
Qed.

(** ** Concrete inputs *)

Module LogSample.
#[export] Instance codec : JsonCodec := {| json_parse := fun _ => JDiscarded; json_dump := fun _ => "{}" |}.
#[export] Instance kv : KvStore FileTree := HostKvStore closes_ok ["root"].
#[export] Instance kv_laws : KvLaws FileTree := host_laws ["root"].
Definition empty_tree : FileTree := {| files := ∅; outcomes := [] |}.
Definition entry : LogRecord := {| timestamp := 1; level := kInfo; component := "ota"; message := "written" |}.
Definition before : list LoggerOp := [OpLog entry; OpTake; OpLog entry; OpWrite; OpLog entry].
Definition after : list LoggerOp := [OpTake; OpWrite].
End LogSample.

#[local] Existing Instance LogSample.codec.
#[local] Existing Instance LogSample.kv.
#[local] Existing Instance LogSample.kv_laws.

Lemma sample_dumps_one_line : dumps_one_line.
Proof. by intros j. Qed.

Lemma read_all_sees_logged_witness :
  let w := logger_run 7 (LogSample.before ++ OpFlush 0 :: LogSample.after) (start LogSample.empty_tree) in
  ReadAll (store w) = "[{},{},{}]" /\
  exists more, exists r c : list string, ReadAll (store w) = "[" +:+ join_commas (r ++ c) +:+ "]" /\
    Z.of_nat (List.length (r ++ c)) <= Z.of_nat (List.length (logged LogSample.before ++ more)).
Proof.
  intros w. split; [vm_compute; reflexivity|].
  destruct (read_all_sees_logged 7 LogSample.before LogSample.after 0 LogSample.empty_tree)
    as (more & d1 & r & d2 & c & E & _ & HR); [exact sample_dumps_one_line|reflexivity|reflexivity| | |reflexivity|].
  - vm_compute. by left.
  - vm_compute. by intros ?%not_elem_of_nil.
  - exists more, r, c. split; [exact HR|]. apply (f_equal List.length) in E.
    rewrite length_map, !length_app in E. rewrite !length_app. lia.
Defined.

Lemma log_stays_bounded_witness :
  let w := logger_run 7 LogSample.before (start LogSample.empty_tree) in
  console w = [] /\ exists lines, stored_blob kCurrentKey (store w) = blob_of lines.
Proof.
  intros w. split; [vm_compute; reflexivity|].
  destruct (log_stays_bounded 7 LogSample.before LogSample.empty_tree sample_dumps_one_line)
    with (key := kCurrentKey) as (lines & E & _); try (vm_compute; reflexivity); [by right|].
  by exists lines.
Defined.
