(* ===== verification/WebSocket.v ===== *)
(** WebSocket: the message assembler and the host's RFC 6455 client.

    Models [src/src/platform/websocket_message_assembler.h] and
    [src/src/platform/host/websocket_client.cpp]: URL splitting, Base64, SHA-1 and the
    accept key, the handshake, frame building and frame parsing. libcurl is not under
    [src/]: what its socket does during a call is a list of events ([RecvEvent],
    [SendEvent]) in the client's state, an exhausted list being a timeout, and
    [std::random_device] is a stream of values. Bytes are integers from 0 to 255. *)
From S2P Require Import Prelude.

Definition kMaxWebSocketMessageBytes : Z := 1024 * 1024.
Definition kMaxQueuedWebSocketMessages : Z := 20.

(** ** [WebSocketMessageAssembler] *)

Module Assembler.

Inductive Result := kPartial | kComplete | kOversized.

Record Assembler := { queue_ : list string; in_progress_ : string }.

Definition empty : Assembler := {| queue_ := []; in_progress_ := EmptyString |}.

(** [while (queue_.size() > kMaxQueuedWebSocketMessages) queue_.pop_front();] *)
Fixpoint drop_oldest (queue : list string) : list string :=
  match queue with
  | [] => []
  | _ :: rest => if kMaxQueuedWebSocketMessages <? Z.of_nat (List.length queue) then drop_oldest rest else queue
  end.

Definition Add (data : string) (fin frame_complete : bool) : M Assembler Result := fun a =>
  if kMaxWebSocketMessageBytes <? size (in_progress_ a) + size data then
    (kOversized, {| queue_ := queue_ a; in_progress_ := EmptyString |})
  else
    let text := in_progress_ a +:+ data in
    if negb fin || negb frame_complete then (kPartial, {| queue_ := queue_ a; in_progress_ := text |})
    else (kComplete, {| queue_ := drop_oldest (queue_ a ++ [text]); in_progress_ := EmptyString |}).

Definition Pop : M Assembler (option string) := fun a =>
  match queue_ a with
  | [] => (None, a)
  | message :: rest => (Some message, {| queue_ := rest; in_progress_ := in_progress_ a |})
  end.

Definition HasMessage (a : Assembler) : bool := match queue_ a with [] => false | _ => true end.

Definition Clear (a : Assembler) : Assembler := empty.

End Assembler.

(** ** URLs *)

(** The text before the first occurrence of [p], and the text after it. *)
Fixpoint break_on (p s : string) : string * option string :=
  if starts_with p s then (EmptyString, Some (drop_chars (String.length p) s))
  else match s with
       | EmptyString => (EmptyString, None)
       | String c s' => let '(l, r) := break_on p s' in (String c l, r)
       end.

Definition ToHttpScheme (ws_url : string) : string :=
  if starts_with "wss://" ws_url then "https://" +:+ drop_chars 6 ws_url
  else if starts_with "ws://" ws_url then "http://" +:+ drop_chars 5 ws_url
  else ws_url.

Record ParsedUrl := { host_header : string; request_target : string }.

Definition ParseWsUrl (url : string) : ParsedUrl :=
  let from_host := match break_on "://" url with (_, Some rest) => rest | (_, None) => url end in
  match break_at "/" from_host with
  | (host, None) => {| host_header := host; request_target := "/" |}
  | (host, Some path) => {| host_header := host; request_target := String "/" path |}
  end.

(** ** Base64 *)

Definition kTable : string := "ABCDEFGHIJKLMNOPQRSTUVWXYZabcdefghijklmnopqrstuvwxyz0123456789+/".

Definition table_char (i : Z) : ascii :=
  match String.get (Z.to_nat i) kTable with Some c => c | None => nul end.

(** [kTable[(n >> shift) & 0x3F]]. *)
Definition sextet (n shift : Z) : ascii := table_char (Z.land (Z.shiftr n shift) 63).

Fixpoint Base64Encode (data : list Z) : string :=
  match data with
  | [] => EmptyString
  | [a] =>
      let n := Z.shiftl a 16 in
      String (sextet n 18) (String (sextet n 12) "==")
  | [a; b] =>
      let n := Z.lor (Z.shiftl a 16) (Z.shiftl b 8) in
      String (sextet n 18) (String (sextet n 12) (String (sextet n 6) "="))
  | a :: b :: c :: rest =>
      let n := Z.lor (Z.lor (Z.shiftl a 16) (Z.shiftl b 8)) c in
      String (sextet n 18) (String (sextet n 12) (String (sextet n 6) (String (sextet n 0) (Base64Encode rest))))
  end.

(** ** SHA-1 on 32-bit words *)

Definition u32 (z : Z) : Z := wrap_u 32 z.

Definition left_rotate (value bits : Z) : Z := Z.lor (u32 (Z.shiftl value bits)) (Z.shiftr value (32 - bits)).

(** [msg.push_back(0)] until the size is 56 modulo 64. *)
Fixpoint pad_zeros (fuel : nat) (msg : list Z) : list Z :=
  match fuel with
  | O => msg
  | S fuel' => if Z.of_nat (List.length msg) mod 64 =? 56 then msg else pad_zeros fuel' (msg ++ [0])
  end.

Definition Sha1_pad (input : list Z) : list Z :=
  let bit_length := wrap_u 64 (Z.of_nat (List.length input) * 8) in
  pad_zeros 64 (input ++ [128]) ++
  map (fun i => Z.land (Z.shiftr bit_length (8 * i)) 255) [7; 6; 5; 4; 3; 2; 1; 0].

(** [w[i]]: 0 outside the array, where the code never reads. *)
Definition word (w : list Z) (i : nat) : Z := nth i w 0.

Definition be_word (bytes : list Z) (i : nat) : Z :=
  Z.lor (Z.lor (Z.lor (Z.shiftl (word bytes (i * 4)) 24) (Z.shiftl (word bytes (i * 4 + 1)) 16))
               (Z.shiftl (word bytes (i * 4 + 2)) 8)) (word bytes (i * 4 + 3)).

Fixpoint extend_words (n : nat) (w : list Z) : list Z :=
  match n with
  | O => w
  | S n' =>
      let i := List.length w in
      extend_words n' (w ++ [left_rotate
        (Z.lxor (Z.lxor (Z.lxor (word w (i - 3)) (word w (i - 8))) (word w (i - 14))) (word w (i - 16))) 1])
  end.

Definition Sha1State : Type := Z * Z * Z * Z * Z.

Definition Sha1_round (i : nat) (wi : Z) (s : Sha1State) : Sha1State :=
  let '(a, b, c, d, e) := s in
  let not_b := u32 (Z.lnot b) in
  let '(f, k) :=
    if (i <? 20)%nat then (Z.lor (Z.land b c) (Z.land not_b d), 0x5A827999)
    else if (i <? 40)%nat then (Z.lxor (Z.lxor b c) d, 0x6ED9EBA1)
    else if (i <? 60)%nat then (Z.lor (Z.lor (Z.land b c) (Z.land b d)) (Z.land c d), 0x8F1BBCDC)
    else (Z.lxor (Z.lxor b c) d, 0xCA62C1D6) in
  let temp := u32 (left_rotate a 5 + f + e + k + wi) in
  (temp, a, left_rotate b 30, c, d).

Definition Sha1_chunk (chunk : list Z) (h : Sha1State) : Sha1State :=
  let w := extend_words 64 (map (be_word chunk) (seq 0 16)) in
  let '(a, b, c, d, e) := foldl (fun s i => Sha1_round i (word w i) s) h (seq 0 80) in
  let '(h0, h1, h2, h3, h4) := h in
  (u32 (h0 + a), u32 (h1 + b), u32 (h2 + c), u32 (h3 + d), u32 (h4 + e)).

Fixpoint Sha1_chunks (fuel : nat) (msg : list Z) (h : Sha1State) : Sha1State :=
  match fuel, msg with
  | O, _ | _, [] => h
  | S fuel', _ => Sha1_chunks fuel' (drop 64 msg) (Sha1_chunk (take 64 msg) h)
  end.

Definition Sha1 (input : string) : list Z :=
  let msg := Sha1_pad (string_bytes input) in
  let '(h0, h1, h2, h3, h4) :=
    Sha1_chunks (List.length msg) msg (0x67452301, 0xEFCDAB89, 0x98BADCFE, 0x10325476, 0xC3D2E1F0) in
  flat_map (fun h => [Z.land (Z.shiftr h 24) 255; Z.land (Z.shiftr h 16) 255;
                      Z.land (Z.shiftr h 8) 255; Z.land h 255]) [h0; h1; h2; h3; h4].

Definition kWebSocketGuid : string := "258EAFA5-E914-47DA-95CA-C5AB0DC85B11".

Definition ComputeAcceptKey (client_key : string) : string :=
  Base64Encode (Sha1 (client_key +:+ kWebSocketGuid)).

(** ** Response headers *)

Definition crlf : string := String carriage_return (String newline EmptyString).

Fixpoint equal_ignore_case (a b : string) : bool :=
  match a, b with
  | EmptyString, _ => true
  | String x a', String y b' => Ascii.eqb (tolower x) (tolower y) && equal_ignore_case a' b'
  | String _ _, EmptyString => false
  end.

Fixpoint skip_spaces (s : string) : string :=
  match s with String c s' => if Ascii.eqb c " " then skip_spaces s' else s | EmptyString => s end.

(** One line, when it is the header [name]: its value. *)
Definition header_line (line name : string) : option string :=
  match break_at ":" line with
  | (field, Some value) =>
      if negb (size field =? size name) then None
      else if equal_ignore_case name field then Some (skip_spaces value) else None
  | (_, None) => None
  end.

(** The loop over the lines; each line is followed by the separator, so the fuel of one
    step per character is enough. *)
Fixpoint find_header (fuel : nat) (headers name : string) : option string :=
  match fuel with
  | O => None
  | S fuel' =>
      match break_on crlf headers with
      | (_, None) => None
      | (line, Some rest) =>
          match header_line line name with
          | Some value => Some value
          | None => find_header fuel' rest name
          end
      end
  end.

Definition FindHeaderValue (headers name : string) : option string :=
  find_header (String.length headers) headers name.

Definition HeaderValueContainsTokenIgnoreCase (value token : string) : bool :=
  contains_sub (string_map tolower token) (string_map tolower value).

(** ** The client *)

(** What [curl_easy_recv] delivers once [poll] says it may: some bytes (none is a
    close), a spurious wake-up, or an error. *)
Inductive RecvEvent := RecvBytes (bytes : list Z) | RecvAgain | RecvFail.

(** What [curl_easy_send] accepts: up to so many bytes, nothing yet, or an error. *)
Inductive SendEvent := SendAccept (n : nat) | SendAgain | SendFail.

(** [connected] is [curl_ != nullptr], [socket_ok] whether curl still has a socket,
    [wire] every byte sent, and [entropy] the values [std::random_device] will give. *)
Record Client := {
  connected : bool;
  closed_ : bool;
  socket_ok : bool;
  incoming : list RecvEvent;
  outgoing : list SendEvent;
  wire : list Z;
  entropy : nat -> Z;
  drawn : nat
}.

Definition with_incoming (evs : list RecvEvent) (c : Client) : Client :=
  {| connected := connected c; closed_ := closed_ c; socket_ok := socket_ok c; incoming := evs;
     outgoing := outgoing c; wire := wire c; entropy := entropy c; drawn := drawn c |}.

Definition with_sent (evs : list SendEvent) (bytes : list Z) (c : Client) : Client :=
  {| connected := connected c; closed_ := closed_ c; socket_ok := socket_ok c; incoming := incoming c;
     outgoing := evs; wire := wire c ++ bytes; entropy := entropy c; drawn := drawn c |}.

Definition with_drawn (n : nat) (c : Client) : Client :=
  {| connected := connected c; closed_ := closed_ c; socket_ok := socket_ok c; incoming := incoming c;
     outgoing := outgoing c; wire := wire c; entropy := entropy c; drawn := n |}.

Definition with_flags (conn cl : bool) (c : Client) : Client :=
  {| connected := conn; closed_ := cl; socket_ok := socket_ok c; incoming := incoming c;
     outgoing := outgoing c; wire := wire c; entropy := entropy c; drawn := drawn c |}.

(** The loop of [ReadExact]: [len] bytes are still missing. *)
Fixpoint read_exact (len : nat) (evs : list RecvEvent) : option (list Z) * list RecvEvent :=
  match len with
  | O => (Some [], evs)
  | S _ =>
      match evs with
      | [] => (None, [])
      | RecvAgain :: evs' => read_exact len evs'
      | RecvFail :: _ => (None, evs)
      | RecvBytes [] :: _ => (None, evs)
      | RecvBytes bytes :: evs' =>
          if (len <=? List.length bytes)%nat then
            (Some (take len bytes),
             match drop len bytes with [] => evs' | left_over => RecvBytes left_over :: evs' end)
          else
            let '(more, evs'') := read_exact (len - List.length bytes) evs' in
            (match more with Some more => Some (bytes ++ more) | None => None end, evs'')
      end
  end.

Definition ReadExact (len : nat) : M Client (option (list Z)) := fun c =>
  let '(bytes, evs) := read_exact len (incoming c) in (bytes, with_incoming evs c).

(** The loop of [WriteExact]: success, the events left, and the bytes that went out. *)
Fixpoint write_exact (bytes : list Z) (evs : list SendEvent) : bool * list SendEvent * list Z :=
  match bytes with
  | [] => (true, evs, [])
  | _ :: _ =>
      match evs with
      | [] => (false, [], [])
      | SendAgain :: evs' => write_exact bytes evs'
      | SendFail :: _ => (false, evs, [])
      | SendAccept O :: _ => (false, evs, [])
      | SendAccept n :: evs' =>
          let '(ok, evs'', out) := write_exact (drop n bytes) evs' in (ok, evs'', take n bytes ++ out)
      end
  end.

Definition WriteExact (bytes : list Z) : M Client bool := fun c =>
  let '(ok, evs, out) := write_exact bytes (outgoing c) in (ok, with_sent evs out c).

Definition FillRandomBytes (len : nat) : M Client (list Z) := fun c =>
  (map (fun i => wrap_u 8 (entropy c i)) (seq (drawn c) len), with_drawn (drawn c + len) c).

Definition GenerateWebSocketKey : M Client string :=
  let* bytes := FillRandomBytes 16 in ret (Base64Encode bytes).

(** Applies a four-byte mask, from its [i]-th byte on. *)
Fixpoint apply_mask (mask : list Z) (i : nat) (data : list Z) : list Z :=
  match data with
  | [] => []
  | b :: rest => Z.lxor b (nth (i mod 4) mask 0) :: apply_mask mask (S i) rest
  end.

Definition frame_length (len : Z) : list Z :=
  if len <? 126 then [Z.lor 128 len]
  else if len <=? 65535 then [Z.lor 128 126; Z.land (Z.shiftr len 8) 255; Z.land len 255]
  else Z.lor 128 127 :: map (fun i => Z.land (Z.shiftr len (8 * i)) 255) [7; 6; 5; 4; 3; 2; 1; 0].

Definition BuildMaskedFrame (opcode : Z) (payload : string) : M Client (list Z) :=
  let* mask := FillRandomBytes 4 in
  ret (Z.lor 128 opcode :: frame_length (size payload) ++ mask ++ apply_mask mask 0 (string_bytes payload)).

Definition Close : M Client unit := modify (fun c => with_flags false (closed_ c) c).

(** *** [Connect] *)

Definition kMaxHandshakeResponseBytes : Z := 8192.

Definition handshake_request (parsed : ParsedUrl) (key : string) : string :=
  "GET " +:+ request_target parsed +:+ " HTTP/1.1" +:+ crlf +:+ "Host: " +:+ host_header parsed +:+ crlf +:+
  "Connection: Upgrade" +:+ crlf +:+ "Upgrade: websocket" +:+ crlf +:+ "Sec-WebSocket-Version: 13" +:+ crlf +:+
  "Sec-WebSocket-Key: " +:+ key +:+ crlf +:+ crlf.

(** Reads byte by byte up to the blank line; the bound is also the fuel. *)
Fixpoint read_response (fuel : nat) (response : string) : M Client (option string) :=
  if contains_sub (crlf +:+ crlf) response then ret (Some response)
  else if kMaxHandshakeResponseBytes <=? size response then ret None
  else match fuel with
       | O => ret None
       | S fuel' =>
           let* byte := ReadExact 1 in
           match byte with
           | None => ret None
           | Some bytes => read_response fuel' (response +:+ bytes_string bytes)
           end
       end.

Definition status_is_101 (response : string) : bool :=
  let status_line := (break_on crlf response).1 in
  match break_at " " status_line with
  | (_, Some rest) => starts_with "101" rest
  | (_, None) => false
  end.

Definition header_has (response name token : string) : bool :=
  match FindHeaderValue response name with
  | Some value => HeaderValueContainsTokenIgnoreCase value token
  | None => false
  end.

Definition handshake_accepts (response key : string) : bool :=
  status_is_101 response &&
  header_has response "Upgrade" "websocket" &&
  header_has response "Connection" "upgrade" &&
  match FindHeaderValue response "Sec-WebSocket-Accept" with
  | Some accept => String.eqb accept (ComputeAcceptKey key)
  | None => false
  end.

(** [performs] is whether curl connects to the URL and gives a socket. *)
Definition Connect (performs : string -> bool) (url : string) : M Client bool :=
  Close ;;*
  modify (fun c => with_flags (connected c) false c) ;;*
  if negb (performs (ToHttpScheme url)) then ret false
  else
    let parsed := ParseWsUrl url in
    let* key := GenerateWebSocketKey in
    let* written := WriteExact (string_bytes (handshake_request parsed key)) in
    if negb written then ret false
    else
      let* response := read_response (Z.to_nat kMaxHandshakeResponseBytes) EmptyString in
      match response with
      | None => ret false
      | Some response =>
          if negb (handshake_accepts response key) then ret false
          else modify (fun c => with_flags true (closed_ c) c) ;;* ret true
      end.

(** *** [SendText], [ReceiveText], [IsOpen] *)

Definition SendText (text : string) : M Client bool :=
  let* c := get in
  if negb (connected c) || closed_ c then ret false
  else if negb (socket_ok c) then ret false
  else
    let* frame := BuildMaskedFrame 1 text in
    WriteExact frame.

(** How one turn of the receive loop ends. *)
Inductive Turn :=
  | TurnNothing                                (* no byte of a frame before the deadline *)
  | TurnFail                                   (* [return Fail()] *)
  | TurnControl                                (* a ping or a pong: go round again *)
  | TurnData (fin : bool) (payload : string).

(** [len = (len << 8) | b] over the bytes of an extended length. *)
Definition be_length (ext : list Z) : Z := foldl (fun len b => Z.lor (wrap_u 64 (Z.shiftl len 8)) b) 0 ext.

Definition read_length (short : Z) : M Client (option Z) :=
  if short =? 126 then
    let* ext := ReadExact 2 in ret (match ext with Some e => Some (be_length e) | None => None end)
  else if short =? 127 then
    let* ext := ReadExact 8 in ret (match ext with Some e => Some (be_length e) | None => None end)
  else ret (Some short).

Definition read_mask (masked : bool) : M Client (option (list Z)) :=
  if masked then ReadExact 4 else ret (Some [0; 0; 0; 0]).

Definition mark_closed : M Client unit := modify (fun c => with_flags (connected c) true c).

Definition known_opcode (opcode : Z) : bool :=
  (opcode =? 0) || (opcode =? 1) || (opcode =? 8) || (opcode =? 9) || (opcode =? 10).

(** The payload of a frame whose length was accepted, and what it is for. *)
Definition finish_frame (fin masked : bool) (opcode len : Z) (mask : list Z) : M Client Turn :=
  let* payload := ReadExact (Z.to_nat len) in
  match payload with
  | None => ret TurnFail
  | Some bytes =>
      let payload := bytes_string (if masked then apply_mask mask 0 bytes else bytes) in
      if opcode =? 9 then
        let* pong := BuildMaskedFrame 10 payload in
        WriteExact pong ;;* ret TurnControl
      else if opcode =? 10 then ret TurnControl
      else ret (TurnData fin payload)
  end.

Definition ReceiveFrame (accumulated : string) : M Client Turn :=
  let* first := ReadExact 1 in
  match first with
  | None => ret TurnNothing
  | Some h0 =>
      let* second := ReadExact 1 in
      match second with
      | None => ret TurnFail
      | Some h1 =>
          let h0 := hd 0 h0 in
          let h1 := hd 0 h1 in
          let fin := negb (Z.land h0 128 =? 0) in
          let opcode := Z.land h0 15 in
          if negb (known_opcode opcode) then ret TurnFail
          else
            let masked := negb (Z.land h1 128 =? 0) in
            let* len := read_length (Z.land h1 127) in
            match len with
            | None => ret TurnFail
            | Some len =>
                let* mask := read_mask masked in
                match mask with
                | None => ret TurnFail
                | Some mask =>
                    if opcode =? 8 then
                      mark_closed ;;*
                      let* close_frame := BuildMaskedFrame 8 EmptyString in
                      WriteExact close_frame ;;* ret TurnFail
                    else if (kMaxWebSocketMessageBytes <? len) ||
                            (kMaxWebSocketMessageBytes <? size accumulated + len) then ret TurnFail
                    else finish_frame fin masked opcode len mask
                end
            end
      end
  end.

(** The loop of [ReceiveText]; each turn that goes round again has read a byte. *)
Fixpoint receive_loop (fuel : nat) (accumulated : string) : M Client (option string) :=
  match fuel with
  | O => ret None
  | S fuel' =>
      let* turn := ReceiveFrame accumulated in
      match turn with
      | TurnNothing => if is_empty accumulated then ret None else mark_closed ;;* ret None
      | TurnFail => mark_closed ;;* ret None
      | TurnControl => receive_loop fuel' accumulated
      | TurnData fin payload =>
          let accumulated := accumulated +:+ payload in
          if fin : bool then ret (Some accumulated) else receive_loop fuel' accumulated
      end
  end.

Definition bytes_of (evs : list RecvEvent) : list Z :=
  flat_map (fun e => match e with RecvBytes b => b | _ => [] end) evs.

Definition receive_fuel (c : Client) : nat := S (List.length (bytes_of (incoming c))).

Definition ReceiveText : M Client (option string) := fun c =>
  if negb (connected c) then (None, c)
  else if negb (socket_ok c) then (None, c)
  else receive_loop (receive_fuel c) EmptyString c.

(** The non-blocking peek: a close or an error has arrived, or not. *)
Definition IsOpen (c : Client) : bool :=
  connected c && negb (closed_ c) && socket_ok c &&
  match incoming c with
  | RecvFail :: _ | RecvBytes [] :: _ => false
  | _ => true
  end.

Example accept_key_rfc6455 : ComputeAcceptKey "dGhlIHNhbXBsZSBub25jZQ==" = "s3pPLMBiTxaQ9kYGzzhZRbK+xOo=".
Proof. vm_compute. reflexivity. Qed.

(** ** Lemmas: reading *)

(** A successful read takes its bytes off the front of what arrives; a read of one byte
    that fails takes none. *)
Lemma read_exact_some len evs bytes evs' :
  read_exact len evs = (Some bytes, evs') ->
  bytes_of evs = bytes ++ bytes_of evs' /\ List.length bytes = len.
Proof.
  revert len bytes evs'. induction evs as [|e evs IH]; intros len bytes evs' E.
  - destruct len; cbn in E; by simplify_eq.
  - destruct len as [|len]; [by cbn in E; simplify_eq|].
    destruct e as [[|b bs]| |]; cbn [read_exact] in E; try done.
    + destruct (Nat.leb_spec (S len) (List.length (b :: bs))) as [Hle|Hlt].
      * injection E as <- <-. change (b :: take len bs) with (take (S len) (b :: bs)).
        change (drop len bs) with (drop (S len) (b :: bs)). rewrite length_take. split; [|lia].
        rewrite <- (take_drop (S len) (b :: bs)) at 1.
        destruct (drop (S len) (b :: bs)) eqn:Ed; cbn [bytes_of flat_map]; rewrite <- ?app_assoc; done.
      * destruct (read_exact _ evs) as [[more|] evs''] eqn:Er; simplify_eq.
        destruct (IH _ _ _ Er) as [H1 H2]. cbn [bytes_of flat_map]. fold (bytes_of evs).
        rewrite H1, length_app. split; [by rewrite app_assoc|lia].
    + by apply IH.
Qed.

Lemma read_exact_none_one evs evs' : read_exact 1 evs = (None, evs') -> bytes_of evs = bytes_of evs'.
Proof.
  revert evs'. induction evs as [|e evs IH]; intros evs' E; [by cbn in E; simplify_eq|].
  destruct e as [[|b bs]| |]; cbn [read_exact] in E; try by simplify_eq.
  by apply IH.
Qed.

Lemma read_exact_none_le len evs evs' :
  read_exact len evs = (None, evs') -> (List.length (bytes_of evs') <= List.length (bytes_of evs))%nat.
Proof.
  revert len evs'. induction evs as [|e evs IH]; intros len evs' E.
  - destruct len; cbn in E; by simplify_eq.
  - destruct len as [|len]; [by cbn in E; simplify_eq|].
    destruct e as [[|b bs]| |]; cbn [read_exact] in E; try by simplify_eq.
    + destruct (Nat.leb_spec (S len) (List.length (b :: bs))) as [Hle|Hlt]; [done|].
      destruct (read_exact _ evs) as [[more|] evs''] eqn:Er; simplify_eq.
      specialize (IH _ _ Er). cbn [bytes_of flat_map]. fold (bytes_of evs). rewrite length_app. lia.
    + specialize (IH _ _ E). exact IH.
Qed.

(** Only what arrives matters, not how it is cut: when no error or close comes first,
    the bytes that are there are the bytes that are read. *)
Definition steady (e : RecvEvent) : Prop :=
  match e with RecvBytes bs => bs <> [] | RecvAgain => True | RecvFail => False end.

Lemma read_exact_steady xs rest evs :
  Forall steady evs -> bytes_of evs = xs ++ rest ->
  exists evs', read_exact (List.length xs) evs = (Some xs, evs') /\ Forall steady evs' /\ bytes_of evs' = rest.
Proof.
  intros H. revert xs. induction H as [|e evs He Hevs IH]; intros xs E.
  - cbn in E. destruct xs; [|done]. cbn in E. subst. exists []. done.
  - destruct xs as [|x xs].
    { exists (e :: evs). split_and!; [done|by constructor|done]. }
    cbn [List.length]. destruct e as [[|b bs]| |]; [done| | |done].
    + cbn [read_exact]. change (bytes_of (RecvBytes (b :: bs) :: evs)) with ((b :: bs) ++ bytes_of evs) in E.
      destruct (Nat.leb_spec (S (List.length xs)) (List.length (b :: bs))) as [Hle|Hlt].
      * assert (Hx : take (S (List.length xs)) (b :: bs) = x :: xs).
        { transitivity (take (S (List.length xs)) ((b :: bs) ++ bytes_of evs)); [by rewrite take_app_le|].
          rewrite E. change (S (List.length xs)) with (List.length (x :: xs)). by rewrite take_app_length. }
        assert (Hr : drop (S (List.length xs)) (b :: bs) ++ bytes_of evs = rest).
        { transitivity (drop (S (List.length xs)) ((b :: bs) ++ bytes_of evs)); [by rewrite drop_app_le|].
          rewrite E. change (S (List.length xs)) with (List.length (x :: xs)). by rewrite drop_app_length. }
        rewrite Hx. destruct (drop (S (List.length xs)) (b :: bs)) as [|d ds] eqn:Ed.
        -- exists evs. done.
        -- exists (RecvBytes (d :: ds) :: evs). split_and!; [done|by constructor|done].
      * assert (Hx : (b :: bs) ++ drop (List.length (b :: bs)) (x :: xs) = x :: xs).
        { transitivity (take (List.length (b :: bs)) (x :: xs) ++ drop (List.length (b :: bs)) (x :: xs));
            [|by rewrite take_drop]. f_equal.
          transitivity (take (List.length (b :: bs)) ((b :: bs) ++ bytes_of evs)); [by rewrite take_app_length|].
          rewrite E, take_app_le by (cbn [List.length] in *; lia). done. }
        destruct (IH (drop (List.length (b :: bs)) (x :: xs))) as (evs' & H1 & H2 & H3).
        { transitivity (drop (List.length (b :: bs)) ((b :: bs) ++ bytes_of evs)); [by rewrite drop_app_length|].
          rewrite E, drop_app_le by (cbn [List.length] in *; lia). done. }
        rewrite length_drop in H1. change (List.length (x :: xs)) with (S (List.length xs)) in H1.
        rewrite H1. exists evs'. rewrite Hx. done.
    + cbn [read_exact]. destruct (IH (x :: xs) E) as (evs' & H1 & H2 & H3). by exists evs'.
Qed.

(** The parts of a client that reading and best-effort writing leave alone. *)
Definition same_link (c c' : Client) : Prop :=
  connected c' = connected c /\ closed_ c' = closed_ c /\ socket_ok c' = socket_ok c.

Definition ready (c : Client) (bs : list Z) : Prop := Forall steady (incoming c) /\ bytes_of (incoming c) = bs.

Lemma same_link_refl c : same_link c c.
Proof. done. Qed.

Lemma same_link_trans c1 c2 c3 : same_link c1 c2 -> same_link c2 c3 -> same_link c1 c3.
Proof. unfold same_link. intros (? & ? & ?) (? & ? & ?). split_and!; congruence. Qed.

Lemma ReadExact_ready xs rest n c :
  ready c (xs ++ rest) -> List.length xs = n ->
  exists c', ReadExact n c = (Some xs, c') /\ ready c' rest /\ same_link c c'.
Proof.
  intros [Hs Hb] <-. destruct (read_exact_steady xs rest (incoming c) Hs Hb) as (evs' & H1 & H2 & H3).
  exists (with_incoming evs' c). unfold ReadExact. rewrite H1. done.
Qed.

Lemma WriteExact_link bytes c :
  same_link c (exec (WriteExact bytes) c) /\ incoming (exec (WriteExact bytes) c) = incoming c.
Proof. unfold exec, WriteExact. by destruct (write_exact bytes (outgoing c)) as [[ok evs] out]. Qed.

Lemma BuildMaskedFrame_link opcode payload c :
  same_link c (exec (BuildMaskedFrame opcode payload) c) /\
  incoming (exec (BuildMaskedFrame opcode payload) c) = incoming c.
Proof. done. Qed.

(** ** Reference: the frames of RFC 6455 *)

Fixpoint be_digits (n : nat) (z : Z) : list Z :=
  match n with O => [] | S n' => be_digits n' (z / 256) ++ [z mod 256] end.

Definition is_masked (mask : option (list Z)) : bool := match mask with Some _ => true | None => false end.

Definition mask_bit (mask : option (list Z)) : Z := match mask with Some _ => 128 | None => 0 end.

Definition encode_length (mask : option (list Z)) (len : Z) : list Z :=
  if len <? 126 then [mask_bit mask + len]
  else if len <=? 65535 then (mask_bit mask + 126) :: be_digits 2 len
  else (mask_bit mask + 127) :: be_digits 8 len.

Definition mask_bytes (mask : option (list Z)) : list Z := match mask with Some m => m | None => [] end.

(** The masking key, written out often enough for [n] octets, and the payload combined
    with it octet by octet: masking and unmasking are the same operation. *)
Definition key_stream (key : list Z) (n : nat) : list Z := concat (replicate n key).

Definition mask_octets (mask : option (list Z)) (octets : list Z) : list Z :=
  match mask with Some key => zip_with Z.lxor octets (key_stream key (List.length octets)) | None => octets end.

Definition masked_payload (mask : option (list Z)) (payload : string) : list Z :=
  mask_octets mask (string_bytes payload).

Record Frame := { f_fin : bool; f_opcode : Z; f_mask : option (list Z); f_payload : string }.

Definition encode_frame (f : Frame) : list Z :=
  ((if f_fin f then 128 else 0) + f_opcode f) :: encode_length (f_mask f) (size (f_payload f)) ++
  mask_bytes (f_mask f) ++ masked_payload (f_mask f) (f_payload f).

(** What a peer makes of the bytes it has: the first frame, and the bytes after it; nothing
    while the frame is not there as a whole. *)
Definition value_of (digits : list Z) : Z := foldl (fun v d => v * 256 + d) 0 digits.

Definition decode_frame (bytes : list Z) : option (Frame * list Z) :=
  match bytes with
  | b0 :: b1 :: rest =>
      let short := b1 mod 128 in
      let extended := if short =? 126 then 2%nat else if short =? 127 then 8%nat else 0%nat in
      let key_length := if b1 / 128 =? 1 then 4%nat else 0%nat in
      let len := if short <? 126 then short else value_of (take extended rest) in
      let key := if b1 / 128 =? 1 then Some (take 4 (drop extended rest)) else None in
      let body := drop key_length (drop extended rest) in
      if (List.length rest <? extended + key_length)%nat || (Z.of_nat (List.length body) <? len) then None
      else Some ({| f_fin := b0 / 128 =? 1; f_opcode := b0 mod 16; f_mask := key;
                    f_payload := bytes_string (mask_octets key (take (Z.to_nat len) body)) |},
                 drop (Z.to_nat len) body)
  | _ => None
  end.

Definition mask_ok (mask : option (list Z)) : Prop :=
  match mask with Some m => List.length m = 4%nat /\ Forall byte_range m | None => True end.

(** ** Lemmas: lengths and masks *)

Lemma lor_shift a b k : 0 <= k -> 0 <= a -> 0 <= b < 2 ^ k -> Z.lor (Z.shiftl a k) b = a * 2 ^ k + b.
Proof.
  intros Hk Ha Hb. rewrite Z.shiftl_mul_pow2 by lia.
  assert (Hland : Z.land (a * 2 ^ k) b = 0).
  { apply Z.bits_inj'. intros n Hn. rewrite Z.land_spec, Z.bits_0.
    destruct (Z.lt_ge_cases n k) as [Hlt|Hge].
    - by rewrite Z.mul_pow2_bits_low by lia.
    - destruct (Z.eq_dec b 0) as [->|]; [rewrite Z.testbit_0_l; apply andb_false_r|].
      rewrite (Z.bits_above_log2 b n); [apply andb_false_r|lia|]. apply Z.log2_lt_pow2; [lia|].
      apply Z.lt_le_trans with (2 ^ k); [lia|]. apply Z.pow_le_mono_r; lia. }
  rewrite <- Z.lxor_lor by exact Hland. by rewrite <- Z.add_nocarry_lxor by exact Hland.
Qed.

Lemma shift_or_byte len b : 0 <= len < 2 ^ 56 -> byte_range b -> Z.lor (wrap_u 64 (Z.shiftl len 8)) b = len * 256 + b.
Proof.
  intros Hl Hb. unfold byte_range in Hb. rewrite wrap_u_id.
  - by rewrite lor_shift by (change (2 ^ 8) with 256; lia).
  - rewrite Z.shiftl_mul_pow2 by lia. change (2 ^ 64) with (2 ^ 56 * 2 ^ 8). nia.
Qed.

Lemma be_digits_range n z : Forall byte_range (be_digits n z).
Proof.
  revert z. induction n as [|n IH]; intros z; cbn; [constructor|]. apply Forall_app. split; [apply IH|].
  constructor; [|constructor]. apply Z.mod_pos_bound. lia.
Qed.

Lemma be_length_digits n z : (n <= 8)%nat -> 0 <= z < 256 ^ Z.of_nat n -> be_length (be_digits n z) = z.
Proof.
  revert z. induction n as [|n IH]; intros z Hn Hz; cbn [be_digits].
  - cbn in *. lia.
  - unfold be_length in *. rewrite foldl_app. cbn [foldl].
    rewrite Nat2Z.inj_succ, Z.pow_succ_r in Hz by lia.
    assert (Hq : 0 <= z / 256 < 256 ^ Z.of_nat n).
    { split; [apply Z.div_pos; lia|]. apply Z.div_lt_upper_bound; lia. }
    rewrite IH by (lia || done).
    assert (256 ^ Z.of_nat n <= 2 ^ 56).
    { change (2 ^ 56) with (256 ^ 7). apply Z.pow_le_mono_r; lia. }
    rewrite shift_or_byte; [|lia|apply Z.mod_pos_bound; lia].
    pose proof (Z.div_mod z 256 ltac:(lia)). lia.
Qed.

Lemma be_digits_shifts n z :
  be_digits n z = map (fun i => Z.land (Z.shiftr z (8 * Z.of_nat i)) 255) (rev (seq 0 n)).
Proof.
  revert z. induction n as [|n IH]; intros z; [done|]. cbn [be_digits seq rev].
  rewrite map_app, IH, <- seq_shift, <- map_rev, map_map. change 255 with (Z.ones 8). f_equal.
  - apply map_ext. intros i. change 256 with (2 ^ 8).
    rewrite <- Z.shiftr_div_pow2, Z.shiftr_shiftr by lia. do 2 f_equal. lia.
  - cbn [map]. by rewrite Z.land_ones, Z.shiftr_0_r by lia.
Qed.

Lemma length_be_digits n z : List.length (be_digits n z) = n.
Proof. revert z. induction n as [|n IH]; intros z; [done|]. cbn. rewrite length_app, IH. cbn. lia. Qed.

(** The two header bytes, as the receiver takes them apart. *)
Lemma header_bits (fin : bool) opcode :
  0 <= opcode < 16 ->
  let h0 := (if fin then 128 else 0) + opcode in
  negb (Z.land h0 128 =? 0) = fin /\ Z.land h0 15 = opcode.
Proof.
  intros Ho h0. unfold h0.
  assert (Hin : In opcode (map Z.of_nat (seq 0 16))).
  { apply in_map_iff. exists (Z.to_nat opcode). split; [lia|]. apply in_seq. lia. }
  cbn in Hin. destruct fin; repeat (destruct Hin as [<-|Hin]; [done|]); done.
Qed.

Lemma length_bits (masked : bool) short :
  0 <= short < 128 ->
  let h1 := (if masked then 128 else 0) + short in
  negb (Z.land h1 128 =? 0) = masked /\ Z.land h1 127 = short.
Proof.
  intros Hs h1.
  set (test := fun b => let h := (if masked then 128 else 0) + b in
    negb (b <? 128) || (Bool.eqb (negb (Z.land h 128 =? 0)) masked && (Z.land h 127 =? b))).
  assert (H : test short = true).
  { apply (by_bytes test); [|unfold byte_range; lia]. unfold test. destruct masked; vm_compute; reflexivity. }
  unfold test in H. replace (short <? 128) with true in H by lia. cbn [negb orb] in H.
  apply andb_true_iff in H as [H1 H2]. apply eqb_prop in H1. apply Z.eqb_eq in H2. done.
Qed.

Lemma apply_mask_twice m i data : apply_mask m i (apply_mask m i data) = data.
Proof.
  revert i. induction data as [|b data IH]; intros i; [done|]. cbn [apply_mask].
  rewrite IH, Z.lxor_assoc, Z.lxor_nilpotent, Z.lxor_0_r. done.
Qed.

Lemma length_apply_mask m i data : List.length (apply_mask m i data) = List.length data.
Proof. revert i. induction data as [|b data IH]; intros i; [done|]. cbn. by rewrite IH. Qed.

Lemma apply_mask_lookup m i data k :
  apply_mask m i data !! k = (fun b => Z.lxor b (nth ((i + k) mod 4) m 0)) <$> data !! k.
Proof.
  revert i k. induction data as [|b data IH]; intros i k; [done|].
  destruct k as [|k]; cbn [apply_mask lookup list_lookup fmap option_fmap option_map]; [by rewrite Nat.add_0_r|].
  rewrite IH. by replace (S i + k)%nat with (i + S k)%nat by lia.
Qed.

Lemma length_key_stream key n : List.length (key_stream key n) = (n * List.length key)%nat.
Proof. unfold key_stream. induction n as [|n IH]; [done|]. cbn. by rewrite length_app, IH. Qed.

Lemma key_stream_lookup key n k :
  List.length key = 4%nat -> (k < n)%nat -> key_stream key n !! k = Some (nth (k mod 4) key 0).
Proof.
  intros Hk. assert (Hin : forall j, (j < 4)%nat -> key !! j = Some (nth j key 0)).
  { intros j Hj. destruct key as [|? [|? [|? [|? [|? ?]]]]]; try (cbn in Hk; discriminate).
    by destruct j as [|[|[|[|j]]]]; try lia. }
  assert (H : forall k, (k < n * 4)%nat -> key_stream key n !! k = Some (nth (k mod 4) key 0)); [|intros ?; apply H; lia].
  unfold key_stream. induction n as [|n IH]; intros j Hj; [lia|]. cbn [replicate concat].
  destruct (Nat.lt_ge_cases j 4) as [Hlt|Hge].
  - rewrite lookup_app_l by lia. by rewrite Nat.mod_small, Hin by lia.
  - rewrite lookup_app_r, Hk, IH by lia. do 2 f_equal.
    replace j with (j - 4 + 1 * 4)%nat at 2 by lia. by rewrite Nat.Div0.mod_add.
Qed.

(** The loops of the code compute the reference masking. *)
Lemma apply_mask_octets key data :
  List.length key = 4%nat -> apply_mask key 0 data = mask_octets (Some key) data.
Proof.
  intros Hk. apply list_eq. intros k. rewrite apply_mask_lookup. cbn [mask_octets]. rewrite lookup_zip_with.
  destruct (data !! k) as [b|] eqn:E; [|done]. cbn.
  by rewrite key_stream_lookup by (done || by eapply lookup_lt_Some).
Qed.

Lemma mask_octets_twice mask data : mask_ok mask -> mask_octets mask (mask_octets mask data) = data.
Proof.
  destruct mask as [key|]; [|done]. intros [Hk _]. rewrite <- !apply_mask_octets by done. apply apply_mask_twice.
Qed.

Lemma length_mask_octets mask data : mask_ok mask -> List.length (mask_octets mask data) = List.length data.
Proof.
  destruct mask as [key|]; [|done]. intros [Hk _]. rewrite <- apply_mask_octets by done. apply length_apply_mask.
Qed.

Lemma length_masked_payload mask payload :
  mask_ok mask -> List.length (masked_payload mask payload) = Z.to_nat (size payload).
Proof. intros Hm. unfold masked_payload. rewrite length_mask_octets by done. rewrite <- length_string_bytes. lia. Qed.

Lemma value_of_digits n z : 0 <= z < 256 ^ Z.of_nat n -> value_of (be_digits n z) = z.
Proof.
  revert z. induction n as [|n IH]; intros z Hz; cbn [be_digits]; [cbn in *; lia|].
  unfold value_of in *. rewrite foldl_app. cbn [foldl]. rewrite Nat2Z.inj_succ, Z.pow_succ_r in Hz by lia.
  rewrite IH by (split; [apply Z.div_pos; lia|apply Z.div_lt_upper_bound; lia]).
  pose proof (Z.div_mod z 256 ltac:(lia)). lia.
Qed.

Lemma frame_length_encoded key len : 0 <= len < 2 ^ 63 -> frame_length len = encode_length (Some key) len.
Proof.
  intros H. unfold frame_length, encode_length. cbn [mask_bit].
  destruct (Z.ltb_spec len 126); [|destruct (Z.leb_spec len 65535)].
  - f_equal. exact (lor_shift 1 len 7 ltac:(lia) ltac:(lia) ltac:(cbn; lia)).
  - rewrite be_digits_shifts. cbn [rev seq app map]. by rewrite Z.shiftr_0_r.
  - rewrite be_digits_shifts. reflexivity.
Qed.

(** The length field of a frame, as a peer reads it. *)
Lemma encode_length_value mask len :
  0 <= len < 2 ^ 63 ->
  exists short ext, encode_length mask len = (mask_bit mask + short) :: ext /\ 0 <= short < 128 /\
    List.length ext = (if short =? 126 then 2%nat else if short =? 127 then 8%nat else 0%nat) /\
    len = if short <? 126 then short else value_of ext.
Proof.
  intros Hl. unfold encode_length. destruct (Z.ltb_spec len 126); [|destruct (Z.leb_spec len 65535)].
  - exists len, []. replace (len =? 126) with false by lia. replace (len =? 127) with false by lia.
    replace (len <? 126) with true by lia. split_and!; (done || lia).
  - exists 126, (be_digits 2 len). split_and!; [done|lia|lia|apply length_be_digits|].
    symmetry. apply value_of_digits. cbn. lia.
  - exists 127, (be_digits 8 len). split_and!; [done|lia|lia|apply length_be_digits|].
    symmetry. apply value_of_digits. split; [lia|]. apply Z.lt_trans with (2 ^ 63); [lia|done].
Qed.

Lemma high_bit (b : bool) low n : 0 <= low < n -> ((if b then n else 0) + low) / n = (if b then 1 else 0) /\
  ((if b then n else 0) + low) mod n = low.
Proof.
  intros H. destruct b; split.
  - symmetry. apply (Z.div_unique _ _ _ low); lia.
  - symmetry. apply (Z.mod_unique _ _ 1); lia.
  - apply Z.div_small. lia.
  - apply Z.mod_small. lia.
Qed.

Lemma decode_encoded f rest :
  mask_ok (f_mask f) -> 0 <= f_opcode f < 16 -> size (f_payload f) < 2 ^ 63 ->
  decode_frame (encode_frame f ++ rest) = Some (f, rest).
Proof.
  intros Hm Ho Hl. pose proof (size_nonneg (f_payload f)) as H0. destruct f as [fin op mask text].
  cbn [f_fin f_opcode f_mask f_payload] in *. unfold encode_frame. cbn [f_fin f_opcode f_mask f_payload].
  destruct (encode_length_value mask (size text) (conj H0 Hl)) as (short & ext & -> & Hs & He & Hlen).
  cbn [app]. unfold decode_frame.
  assert (Hb : mask_bit mask + short = (if is_masked mask then 128 else 0) + short) by (by destruct mask).
  rewrite Hb. destruct (high_bit (is_masked mask) short 128 Hs) as [-> ->]. rewrite <- He, <- !app_assoc.
  rewrite take_app_length, drop_app_length, <- Hlen.
  assert (Hd : ((if fin then 128 else 0) + op) / 128 = (if fin then 1 else 0) /\
               ((if fin then 128 else 0) + op) mod 16 = op).
  { split; [apply (high_bit fin op 128); lia|]. destruct fin.
    - symmetry. apply (Z.mod_unique _ _ 8); lia.
    - apply Z.mod_small. lia. }
  destruct Hd as [-> ->].
  assert (Hpay : List.length (masked_payload mask text) = Z.to_nat (size text)) by (by apply length_masked_payload).
  assert (Hbit : forall b : bool, ((if b then 1 else 0) =? 1) = b) by (by intros []). rewrite !Hbit.
  assert (Hkl : drop (if is_masked mask then 4 else 0)%nat
                  (mask_bytes mask ++ masked_payload mask text ++ rest) = masked_payload mask text ++ rest /\
                (if is_masked mask then Some (take 4 (mask_bytes mask ++ masked_payload mask text ++ rest)) else None)
                  = mask /\
                (if is_masked mask then 4 else 0)%nat = List.length (mask_bytes mask)).
  { destruct mask as [key|]; [|done]. destruct Hm as [Hk _]. cbn [is_masked mask_bytes].
    rewrite <- Hk, drop_app_length, take_app_length. done. }
  destruct Hkl as (-> & -> & ->).
  rewrite !length_app, Hpay.
  replace (_ <? _)%nat with false by (symmetry; apply Nat.ltb_ge; lia).
  replace (_ <? _) with false by (symmetry; apply Z.ltb_ge; lia). cbn [orb].
  rewrite <- Hpay, take_app_length, drop_app_length. unfold masked_payload.
  by rewrite mask_octets_twice, bytes_string_bytes by done.
Qed.

(** ** Lemmas: parsing an encoded frame *)

Lemma encode_length_hd mask len :
  0 <= len < 2 ^ 63 ->
  exists short ext, encode_length mask len = (mask_bit mask + short) :: ext /\ 0 <= short < 128 /\
    forall c rest, ready c (ext ++ rest) ->
      exists c', read_length short c = (Some len, c') /\ ready c' rest /\ same_link c c'.
Proof.
  intros Hl. unfold encode_length.
  destruct (Z.ltb_spec len 126); [|destruct (Z.leb_spec len 65535)].
  - exists len, []. split_and!; [done|lia|lia|]. intros c rest Hc. unfold read_length.
    replace (len =? 126) with false by lia. replace (len =? 127) with false by lia. by exists c.
  - exists 126, (be_digits 2 len). split_and!; [done|lia|lia|]. intros c rest Hc.
    unfold read_length, bind, ret. cbn [Z.eqb Pos.eqb].
    destruct (ReadExact_ready _ _ 2 c Hc (length_be_digits 2 len)) as (c' & -> & H2 & H3).
    exists c'. rewrite be_length_digits by (cbn; lia). done.
  - exists 127, (be_digits 8 len). split_and!; [done|lia|lia|]. intros c rest Hc.
    unfold read_length, bind, ret. cbn [Z.eqb Pos.eqb].
    destruct (ReadExact_ready _ _ 8 c Hc (length_be_digits 8 len)) as (c' & -> & H2 & H3).
    exists c'. rewrite be_length_digits by (lia || (split; [lia|]; apply Z.lt_trans with (2 ^ 63); [lia|done])). done.
Qed.

Lemma read_mask_encoded mask rest c :
  mask_ok mask -> ready c (mask_bytes mask ++ rest) ->
  exists m c', read_mask (is_masked mask) c = (Some m, c') /\ ready c' rest /\ same_link c c' /\
    (forall x, mask = Some x -> m = x).
Proof.
  intros Hm Hc. destruct mask as [m|]; cbn in *.
  - destruct (ReadExact_ready m rest 4 c Hc (proj1 Hm)) as (c' & H1 & H2 & H3).
    exists m, c'. split_and!; try done. by intros x [= ->].
  - exists [0; 0; 0; 0], c. done.
Qed.

Lemma finish_frame_encoded fin opcode mask m payload rest c :
  mask_ok mask -> ready c (masked_payload mask payload ++ rest) -> (forall x, mask = Some x -> m = x) ->
  opcode = 0 \/ opcode = 1 \/ opcode = 9 \/ opcode = 10 ->
  exists c', finish_frame fin (is_masked mask) opcode (size payload) m c =
    (if (opcode =? 9) || (opcode =? 10) then TurnControl else TurnData fin payload, c') /\
    ready c' rest /\ same_link c c'.
Proof.
  intros Hk Hc Hm Ho. unfold finish_frame, bind, ret.
  destruct (ReadExact_ready _ _ (Z.to_nat (size payload)) c Hc (length_masked_payload mask payload Hk))
    as (c1 & -> & H2 & H3).
  assert (Hp : bytes_string (if is_masked mask then apply_mask m 0 (masked_payload mask payload)
                             else masked_payload mask payload) = payload).
  { destruct mask as [x|]; cbn [is_masked]; [|apply bytes_string_bytes].
    rewrite (Hm x eq_refl), apply_mask_octets by apply Hk. unfold masked_payload.
    rewrite (mask_octets_twice (Some x)) by done. apply bytes_string_bytes. }
  rewrite Hp. destruct Ho as [->|[->|[->| ->]]]; cbn [Z.eqb Pos.eqb orb].
  - by exists c1.
  - by exists c1.
  - destruct (BuildMaskedFrame_link 10 payload c1) as [L1 I1].
    unfold exec in L1, I1. destruct (BuildMaskedFrame 10 payload c1) as [pong c2]. cbn in L1, I1.
    destruct (WriteExact_link pong c2) as [L2 I2]. unfold exec in L2, I2.
    destruct (WriteExact pong c2) as [ok c3]. cbn in L2, I2.
    exists c3. split_and!; [done| |]; [|by eapply same_link_trans; [|eapply same_link_trans]].
    unfold ready in *. by rewrite I2, I1.
  - by exists c1.
Qed.

Definition data_opcode (f : Frame) : Prop := f_opcode f = 0 \/ f_opcode f = 1.
Definition control_opcode (f : Frame) : Prop := f_opcode f = 9 \/ f_opcode f = 10.

Lemma ReceiveFrame_encoded f acc rest c :
  mask_ok (f_mask f) -> data_opcode f \/ control_opcode f ->
  size acc + size (f_payload f) <= kMaxWebSocketMessageBytes ->
  ready c (encode_frame f ++ rest) ->
  exists c', ReceiveFrame acc c =
    (if (f_opcode f =? 9) || (f_opcode f =? 10) then TurnControl else TurnData (f_fin f) (f_payload f), c') /\
    ready c' rest /\ same_link c c'.
Proof.
  intros Hmask Hop Hsize Hc. unfold data_opcode, control_opcode in Hop.
  assert (Ho : 0 <= f_opcode f < 16) by lia.
  assert (Hl : 0 <= size (f_payload f) < 2 ^ 63).
  { pose proof (size_nonneg (f_payload f)). pose proof (size_nonneg acc).
    unfold kMaxWebSocketMessageBytes in Hsize. lia. }
  unfold encode_frame in Hc.
  destruct (encode_length_hd (f_mask f) (size (f_payload f)) Hl) as (short & ext & El & Hs & Hread).
  rewrite El in Hc. cbn [app] in Hc. unfold ReceiveFrame, bind, ret.
  destruct (ReadExact_ready [_] _ 1 c Hc eq_refl) as (c1 & -> & Hc1 & L1).
  destruct (ReadExact_ready [_] _ 1 c1 Hc1 eq_refl) as (c2 & -> & Hc2 & L2).
  cbn [hd]. destruct (header_bits (f_fin f) (f_opcode f) Ho) as [-> ->].
  replace (known_opcode (f_opcode f)) with true
    by (unfold known_opcode; destruct Hop as [[->| ->]|[->| ->]]; done).
  cbn [negb].
  assert (Hb : mask_bit (f_mask f) + short = (if is_masked (f_mask f) then 128 else 0) + short)
    by (by destruct (f_mask f)).
  rewrite Hb. destruct (length_bits (is_masked (f_mask f)) short Hs) as [-> ->].
  rewrite <- !app_assoc in Hc2.
  destruct (Hread c2 _ Hc2) as (c3 & -> & Hc3 & L3).
  destruct (read_mask_encoded (f_mask f) _ c3 Hmask Hc3) as (m & c4 & -> & Hc4 & L4 & Hm).
  replace (f_opcode f =? 8) with false by lia.
  replace ((kMaxWebSocketMessageBytes <? size (f_payload f)) ||
           (kMaxWebSocketMessageBytes <? size acc + size (f_payload f))) with false
    by (pose proof (size_nonneg acc); lia).
  destruct (finish_frame_encoded (f_fin f) (f_opcode f) (f_mask f) m (f_payload f) rest c4 Hmask Hc4 Hm ltac:(tauto))
    as (c5 & -> & Hc5 & L5).
  exists c5. split_and!; try done; [..]; eauto using same_link_trans; try apply Hc5.
Qed.

(** A frame that does not fit is refused before its payload is read. *)
Lemma ReceiveFrame_too_long f acc rest c :
  mask_ok (f_mask f) -> data_opcode f \/ control_opcode f -> size (f_payload f) < 2 ^ 63 ->
  kMaxWebSocketMessageBytes < size acc + size (f_payload f) ->
  ready c (encode_frame f ++ rest) ->
  exists c', ReceiveFrame acc c = (TurnFail, c').
Proof.
  intros Hmask Hop Hl Hsize Hc. unfold data_opcode, control_opcode in Hop.
  assert (Ho : 0 <= f_opcode f < 16) by lia. pose proof (size_nonneg (f_payload f)) as H0.
  unfold encode_frame in Hc.
  destruct (encode_length_hd (f_mask f) (size (f_payload f)) (conj H0 Hl)) as (short & ext & El & Hs & Hread).
  rewrite El in Hc. cbn [app] in Hc. unfold ReceiveFrame, bind, ret.
  destruct (ReadExact_ready [_] _ 1 c Hc eq_refl) as (c1 & -> & Hc1 & L1).
  destruct (ReadExact_ready [_] _ 1 c1 Hc1 eq_refl) as (c2 & -> & Hc2 & L2).
  cbn [hd]. destruct (header_bits (f_fin f) (f_opcode f) Ho) as [-> ->].
  replace (known_opcode (f_opcode f)) with true
    by (unfold known_opcode; destruct Hop as [[->| ->]|[->| ->]]; done).
  cbn [negb].
  assert (Hb : mask_bit (f_mask f) + short = (if is_masked (f_mask f) then 128 else 0) + short)
    by (by destruct (f_mask f)).
  rewrite Hb. destruct (length_bits (is_masked (f_mask f)) short Hs) as [-> ->].
  rewrite <- !app_assoc in Hc2.
  destruct (Hread c2 _ Hc2) as (c3 & -> & Hc3 & L3).
  destruct (read_mask_encoded (f_mask f) _ c3 Hmask Hc3) as (m & c4 & -> & Hc4 & L4 & Hm).
  replace (f_opcode f =? 8) with false by lia.
  replace ((kMaxWebSocketMessageBytes <? size (f_payload f)) ||
           (kMaxWebSocketMessageBytes <? size acc + size (f_payload f))) with true by lia.
  by exists c4.
Qed.

(** ** Lemmas: one message *)

(** The frames of a message that is not complete yet, after [acc] of it: fragments, and
    pings and pongs between them. The code adds each payload to what it has collected, a
    ping's and a pong's too, before it compares with the bound. *)
Inductive fragments : string -> list Frame -> string -> Prop :=
  | no_more acc : fragments acc [] acc
  | more_text acc f fs acc' :
      mask_ok (f_mask f) -> data_opcode f -> f_fin f = false ->
      size acc + size (f_payload f) <= kMaxWebSocketMessageBytes ->
      fragments (acc +:+ f_payload f) fs acc' -> fragments acc (f :: fs) acc'
  | more_control acc f fs acc' :
      mask_ok (f_mask f) -> control_opcode f ->
      size acc + size (f_payload f) <= kMaxWebSocketMessageBytes ->
      fragments acc fs acc' -> fragments acc (f :: fs) acc'.

Lemma receive_loop_fragments acc fs acc' :
  fragments acc fs acc' ->
  forall fuel c rest, ready c (concat (map encode_frame fs) ++ rest) ->
  exists c', receive_loop (List.length fs + fuel) acc c = receive_loop fuel acc' c' /\
    ready c' rest /\ same_link c c'.
Proof.
  induction 1 as [acc|acc f fs acc' Hm Ho Hf Hs _ IH|acc f fs acc' Hm Ho Hs _ IH]; intros fuel c rest Hc.
  - exists c. split_and!; [done|exact Hc|apply same_link_refl].
  - cbn [map concat] in Hc. rewrite <- app_assoc in Hc. cbn [List.length Nat.add receive_loop]. unfold bind, ret.
    destruct (ReceiveFrame_encoded f acc _ c Hm (or_introl Ho) Hs Hc) as (c1 & -> & H1 & L1).
    replace ((f_opcode f =? 9) || (f_opcode f =? 10)) with false by (unfold data_opcode in Ho; lia).
    rewrite Hf. destruct (IH fuel c1 rest H1) as (c2 & E & H2 & L2).
    exists c2. eauto using same_link_trans.
  - cbn [map concat] in Hc. rewrite <- app_assoc in Hc. cbn [List.length Nat.add receive_loop]. unfold bind, ret.
    destruct (ReceiveFrame_encoded f acc _ c Hm (or_intror Ho) Hs Hc) as (c1 & -> & H1 & L1).
    replace ((f_opcode f =? 9) || (f_opcode f =? 10)) with true by (unfold control_opcode in Ho; lia).
    destruct (IH fuel c1 rest H1) as (c2 & E & H2 & L2).
    exists c2. eauto using same_link_trans.
Qed.

Lemma frames_shorter fs : (List.length fs <= List.length (concat (map encode_frame fs)))%nat.
Proof.
  induction fs as [|f fs IH]; [done|]. cbn [map concat List.length]. rewrite length_app.
  assert (1 <= List.length (encode_frame f))%nat by (unfold encode_frame; cbn [List.length]; lia). lia.
Qed.

(** ** Lemmas: arbitrary input *)

(** One turn on any input: how much it took, and when it leaves the link open. *)
Definition took (c c' : Client) (bs : list Z) : Prop := bytes_of (incoming c) = bs ++ bytes_of (incoming c').

(** The bytes of one frame, whatever its kind and however its length is written. *)
Inductive whole_frame : list Z -> Prop :=
  | whole h0 h1 ext mask data :
      List.length ext = (if Z.land h1 127 =? 126 then 2%nat else if Z.land h1 127 =? 127 then 8%nat else 0%nat) ->
      List.length mask = (if Z.land h1 128 =? 0 then 0%nat else 4%nat) ->
      List.length data = Z.to_nat (if (Z.land h1 127 =? 126) || (Z.land h1 127 =? 127) then be_length ext else Z.land h1 127) ->
      whole_frame (h0 :: h1 :: ext ++ mask ++ data).

Lemma ReadExact_some n c bs c' :
  ReadExact n c = (Some bs, c') -> took c c' bs /\ List.length bs = n /\ same_link c c'.
Proof.
  unfold ReadExact, took. destruct (read_exact n (incoming c)) as [r evs] eqn:E. intros [= -> <-].
  destruct (read_exact_some _ _ _ _ E) as [H1 H2]. done.
Qed.

Lemma ReadExact_one_none c c' : ReadExact 1 c = (None, c') -> took c c' [].
Proof.
  unfold ReadExact, took. destruct (read_exact 1 (incoming c)) as [r evs] eqn:E. intros [= -> <-].
  by apply read_exact_none_one in E.
Qed.

Lemma read_length_some short c len c' :
  read_length short c = (Some len, c') ->
  exists ext, took c c' ext /\ same_link c c' /\
    List.length ext = (if short =? 126 then 2%nat else if short =? 127 then 8%nat else 0%nat) /\
    len = if (short =? 126) || (short =? 127) then be_length ext else short.
Proof.
  unfold read_length, bind, ret. intros E.
  destruct (short =? 126); [|destruct (short =? 127)].
  - destruct (ReadExact 2 c) as [[e|] c1] eqn:Er; simplify_eq. apply ReadExact_some in Er as (H1 & H2 & H3).
    by exists e.
  - destruct (ReadExact 8 c) as [[e|] c1] eqn:Er; simplify_eq. apply ReadExact_some in Er as (H1 & H2 & H3).
    by exists e.
  - simplify_eq. by exists [].
Qed.

Lemma read_mask_some masked c m c' :
  read_mask masked c = (Some m, c') ->
  exists bs, took c c' bs /\ same_link c c' /\ List.length bs = (if masked then 4 else 0)%nat.
Proof.
  unfold read_mask, ret. destruct masked; intros E.
  - apply ReadExact_some in E as (H1 & H2 & H3). by exists m.
  - simplify_eq. by exists [].
Qed.

Lemma took_trans c1 c2 c3 a b : took c1 c2 a -> took c2 c3 b -> took c1 c3 (a ++ b).
Proof. unfold took. intros -> ->. by rewrite app_assoc. Qed.

Lemma finish_frame_any fin masked opcode len m c :
  let '(turn, c') := finish_frame fin masked opcode len m c in
  match turn with
  | TurnNothing => False
  | TurnFail => True
  | TurnControl => exists data, took c c' data /\ same_link c c' /\ List.length data = Z.to_nat len
  | TurnData _ payload =>
      size payload = Z.of_nat (Z.to_nat len) /\
      exists data, took c c' data /\ same_link c c' /\ List.length data = Z.to_nat len
  end.
Proof.
  unfold finish_frame, bind, ret. destruct (ReadExact (Z.to_nat len) c) as [[data|] c1] eqn:E; [|done].
  apply ReadExact_some in E as (H1 & H2 & H3).
  set (payload := bytes_string _). destruct (opcode =? 9).
  - destruct (BuildMaskedFrame_link 10 payload c1) as [L1 I1].
    unfold exec in L1, I1. destruct (BuildMaskedFrame 10 payload c1) as [pong c2]. cbn in L1, I1.
    destruct (WriteExact_link pong c2) as [L2 I2]. unfold exec in L2, I2.
    destruct (WriteExact pong c2) as [ok c3]. cbn in L2, I2.
    exists data. split_and!; [|eauto using same_link_trans|done]. unfold took in *. by rewrite I2, I1.
  - destruct (opcode =? 10); [by exists data|]. split; [|by exists data].
    unfold payload. rewrite size_bytes_string. destruct masked; rewrite ?length_apply_mask; by rewrite H2.
Qed.

Lemma ReceiveFrame_any acc c :
  size acc <= kMaxWebSocketMessageBytes ->
  let '(turn, c') := ReceiveFrame acc c in
  match turn with
  | TurnNothing => took c c' [] /\ same_link c c'
  | TurnFail => True
  | TurnControl => exists bs, whole_frame bs /\ took c c' bs /\ same_link c c'
  | TurnData _ payload =>
      size acc + size payload <= kMaxWebSocketMessageBytes /\
      exists bs, whole_frame bs /\ took c c' bs /\ same_link c c'
  end.
Proof.
  intros Hacc. unfold ReceiveFrame, bind, ret. destruct (ReadExact 1 c) as [[l0|] c1] eqn:E0.
  2:{ split; [by apply ReadExact_one_none|]. unfold ReadExact in E0.
      destruct (read_exact 1 (incoming c)) as [r evs]. by simplify_eq. }
  apply ReadExact_some in E0 as (T0 & L0 & S0). destruct l0 as [|h0 [|? ?]]; cbn in L0; try lia.
  destruct (ReadExact 1 c1) as [[l1|] c2] eqn:E1; [|done].
  apply ReadExact_some in E1 as (T1 & L1 & S1). destruct l1 as [|h1 [|? ?]]; cbn in L1; try lia.
  cbn [hd]. destruct (negb (known_opcode (Z.land h0 15))); [done|].
  destruct (read_length (Z.land h1 127) c2) as [[len|] c3] eqn:E2; [|done].
  apply read_length_some in E2 as (ext & T2 & S2 & L2 & ->).
  destruct (read_mask (negb (Z.land h1 128 =? 0)) c3) as [[m|] c4] eqn:E3; [|done].
  apply read_mask_some in E3 as (mb & T3 & S3 & L3).
  destruct (Z.land h0 15 =? 8).
  { unfold mark_closed, modify. cbn. by destruct (WriteExact _ _). }
  set (len := if _ || _ then be_length ext else _) in *.
  destruct ((kMaxWebSocketMessageBytes <? len) || (kMaxWebSocketMessageBytes <? size acc + len)) eqn:Eb; [done|].
  apply orb_false_iff in Eb as [B1 B2]. apply Z.ltb_ge in B1, B2.
  pose proof (finish_frame_any (negb (Z.land h0 128 =? 0)) (negb (Z.land h1 128 =? 0)) (Z.land h0 15) len m c4) as Hf.
  destruct (finish_frame _ _ _ _ _ c4) as [turn c5].
  assert (Hwhole : forall data, took c4 c5 data -> same_link c4 c5 -> List.length data = Z.to_nat len ->
            exists bs, whole_frame bs /\ took c c5 bs /\ same_link c c5).
  { intros data T4 S4 L4. exists (h0 :: h1 :: ext ++ mb ++ data). split_and!.
    - constructor; [done| |done]. rewrite L3. by destruct (Z.land h1 128 =? 0).
    - change (h0 :: h1 :: ext ++ mb ++ data) with ([h0] ++ [h1] ++ ext ++ mb ++ data).
      eauto using took_trans.
    - eauto 6 using same_link_trans. }
  destruct turn as [| | |fin payload]; [done|done| |].
  - destruct Hf as (data & ? & ? & ?). eauto.
  - destruct Hf as (Hp & data & ? & ? & ?). split; [|eauto]. rewrite Hp.
    destruct (Z.le_gt_cases 0 len) as [Hl|Hl]; [by rewrite Z2Nat.id|].
    replace (Z.to_nat len) with 0%nat by (rewrite Z2Nat.nonpos by lia; done). lia.
Qed.

Lemma whole_frame_length bs : whole_frame bs -> (2 <= List.length bs)%nat.
Proof. intros [h0 h1 ext mask data _ _ _]. cbn. lia. Qed.

Lemma took_shorter c c' bs :
  whole_frame bs -> took c c' bs ->
  (S (List.length (bytes_of (incoming c'))) < List.length (bytes_of (incoming c)))%nat.
Proof. unfold took. intros Hw ->. pose proof (whole_frame_length bs Hw). rewrite length_app. lia. Qed.

Lemma receive_loop_any fuel acc c :
  size acc <= kMaxWebSocketMessageBytes -> (List.length (bytes_of (incoming c)) < fuel)%nat ->
  (forall k, receive_loop (fuel + k) acc c = receive_loop fuel acc c) /\
  let '(r, c') := receive_loop fuel acc c in
  (forall m, r = Some m -> size m <= kMaxWebSocketMessageBytes) /\
  (r = None -> closed_ c' = false ->
     exists frames, Forall whole_frame frames /\ took c c' (concat frames)).
Proof.
  revert acc c. induction fuel as [|fuel IH]; intros acc c Hacc Hf; [lia|].
  pose proof (ReceiveFrame_any acc c Hacc) as Hturn.
  cbn [receive_loop Nat.add]. unfold bind, ret.
  destruct (ReceiveFrame acc c) as [turn c1]. destruct turn as [| | |fin payload].
  - split; [done|]. destruct (is_empty acc).
    + split; [done|]. intros _ _. exists []. split; [constructor|apply Hturn].
    + split; [done|]. unfold mark_closed, modify. done.
  - split; [done|]. split; [done|]. done.
  - destruct Hturn as (bs & Hw & Ht & Hs). pose proof (took_shorter _ _ _ Hw Ht).
    destruct (IH acc c1 Hacc ltac:(lia)) as [IH1 IH2]. split; [intros k; apply IH1|].
    destruct (receive_loop fuel acc c1) as [r c2]. destruct IH2 as [IH2 IH3]. split; [done|].
    intros Hr Hcl. destruct (IH3 Hr Hcl) as (frames & H1 & H2).
    exists (bs :: frames). split; [by constructor|]. cbn. by eapply took_trans.
  - destruct Hturn as (Hsz & bs & Hw & Ht & Hs). pose proof (took_shorter _ _ _ Hw Ht).
    destruct fin.
    + split; [done|]. split; [|done]. intros m [= <-]. by rewrite size_app.
    + destruct (IH (acc +:+ payload) c1 ltac:(by rewrite size_app) ltac:(lia)) as [IH1 IH2].
      split; [intros k; apply IH1|].
      destruct (receive_loop fuel (acc +:+ payload) c1) as [r c2]. destruct IH2 as [IH2 IH3]. split; [done|].
      intros Hr Hcl. destruct (IH3 Hr Hcl) as (frames & H1 & H2).
      exists (bs :: frames). split; [by constructor|]. cbn. by eapply took_trans.
Qed.

(** ** Lemmas: Base64 *)

(** The position of a character in the table. *)
Fixpoint index_of (c : ascii) (s : string) : Z :=
  match s with EmptyString => 0 | String a s' => if Ascii.eqb a c then 0 else 1 + index_of c s' end.

(** A decoder for reference: four characters give back three bytes, or fewer at the end. *)
Fixpoint Base64Decode (s : string) : list Z :=
  match s with
  | String a (String b (String c (String d rest))) =>
      let v x := index_of x kTable in
      let n := v a * 2 ^ 18 + v b * 2 ^ 12 in
      if Ascii.eqb c "=" then [n / 2 ^ 16]
      else
        let n := n + v c * 2 ^ 6 in
        if Ascii.eqb d "=" then [n / 2 ^ 16; n / 2 ^ 8 mod 256]
        else
          let n := n + v d in
          [n / 2 ^ 16; n / 2 ^ 8 mod 256; n mod 256] ++ Base64Decode rest
  | _ => []
  end.

Lemma sextet_index n shift :
  0 <= n -> 0 <= shift -> index_of (sextet n shift) kTable = n / 2 ^ shift mod 64 /\
  Ascii.eqb (sextet n shift) "=" = false.
Proof.
  intros Hn Hs. unfold sextet. change 63 with (Z.ones 6). rewrite Z.land_ones, Z.shiftr_div_pow2 by lia.
  change (2 ^ 6) with 64. set (i := n / 2 ^ shift mod 64).
  assert (Hi : 0 <= i < 64) by (apply Z.mod_pos_bound; lia).
  set (test := fun b => negb (b <? 64) || ((index_of (table_char b) kTable =? b) && negb (Ascii.eqb (table_char b) "="))).
  assert (Ht : test i = true) by (apply (by_bytes test); [vm_compute; reflexivity|unfold byte_range; lia]).
  unfold test in Ht. replace (i <? 64) with true in Ht by lia. cbn [negb orb] in Ht.
  apply andb_true_iff in Ht as [H1 H2]. apply Z.eqb_eq in H1. apply negb_true_iff in H2. done.
Qed.

Lemma group_value a b c :
  byte_range a -> byte_range b -> byte_range c ->
  Z.lor (Z.lor (Z.shiftl a 16) (Z.shiftl b 8)) c = a * 65536 + b * 256 + c.
Proof.
  unfold byte_range. intros Ha Hb Hc. rewrite <- Z.lor_assoc.
  rewrite (lor_shift b c 8) by lia. rewrite lor_shift; change (2 ^ 8) with 256; change (2 ^ 16) with 65536; lia.
Qed.

(** Four sextets of a 24-bit group add up to the group. *)
Lemma sextets_join n : 0 <= n < 2 ^ 24 ->
  (n / 2 ^ 18 mod 64) * 2 ^ 18 + (n / 2 ^ 12 mod 64) * 2 ^ 12 + (n / 2 ^ 6 mod 64) * 2 ^ 6 + n / 2 ^ 0 mod 64 = n.
Proof.
  intros Hn. change (2 ^ 24) with 16777216 in Hn. change (2 ^ 18) with 262144. change (2 ^ 12) with 4096.
  change (2 ^ 6) with 64. change (2 ^ 0) with 1. rewrite Z.div_1_r.
  replace (n / 4096) with (n / 64 / 64) by (rewrite Z.div_div; [done|lia|lia]).
  replace (n / 262144) with (n / 64 / 64 / 64) by (rewrite !Z.div_div; [done|lia..]).
  pose proof (Z.div_mod n 64 ltac:(lia)). pose proof (Z.div_mod (n / 64) 64 ltac:(lia)).
  pose proof (Z.div_mod (n / 64 / 64) 64 ltac:(lia)).
  rewrite (Z.mod_small (n / 64 / 64 / 64)); [lia|].
  split; [repeat apply Z.div_pos; lia|]. rewrite !Z.div_div by lia. apply Z.div_lt_upper_bound; lia.
Qed.

Lemma group_bytes a b c : byte_range a -> byte_range b -> byte_range c ->
  (a * 65536 + b * 256 + c) / 2 ^ 16 = a /\ (a * 65536 + b * 256 + c) / 2 ^ 8 mod 256 = b /\
  (a * 65536 + b * 256 + c) mod 256 = c.
Proof.
  unfold byte_range. intros Ha Hb Hc. change (2 ^ 16) with 65536. change (2 ^ 8) with 256. split_and!.
  - symmetry. apply (Z.div_unique _ _ a (b * 256 + c)); lia.
  - replace ((a * 65536 + b * 256 + c) / 256) with (a * 256 + b) by (apply (Z.div_unique _ _ _ c); lia).
    symmetry. apply (Z.mod_unique _ _ a); lia.
  - symmetry. apply (Z.mod_unique _ _ (a * 256 + b)); lia.
Qed.

(** The sextets of a group, and the ones that are zero when its last bytes are. *)
Lemma group_sextets a b c :
  byte_range a -> byte_range b -> byte_range c ->
  let n := a * 65536 + b * 256 + c in
  0 <= n /\ (n / 2 ^ 18 mod 64) * 2 ^ 18 + (n / 2 ^ 12 mod 64) * 2 ^ 12 + (n / 2 ^ 6 mod 64) * 2 ^ 6 + n / 2 ^ 0 mod 64 = n /\
  (c = 0 -> n / 2 ^ 0 mod 64 = 0) /\ (b = 0 -> c = 0 -> n / 2 ^ 6 mod 64 = 0).
Proof.
  intros Ha Hb Hc n. unfold byte_range in *. split_and!.
  - unfold n. lia.
  - apply sextets_join. unfold n. change (2 ^ 24) with 16777216. lia.
  - intros ->. change (2 ^ 0) with 1. rewrite Z.div_1_r. unfold n.
    replace (a * 65536 + b * 256 + 0) with ((a * 1024 + b * 4) * 64) by lia. by apply Z.mod_mul.
  - intros -> ->. change (2 ^ 6) with 64. unfold n.
    replace (a * 65536 + 0 * 256 + 0) with (a * 16 * 64 * 64) by lia. rewrite Z.div_mul by lia. by apply Z.mod_mul.
Qed.

(** ** Properties *)

(** C11: Whatever way the network cuts the bytes into reads: when the fragments of a message
    and the pings and pongs between them have come, [collected] is the text so far. If the
    final fragment keeps it within 1 MiB, the call returns exactly the text, leaves the
    bytes after it for the next call and the connection open. And a frame that would take
    what is collected above 1 MiB, which for the code is also a ping or a pong whose
    payload is no part of the message, fails the connection instead. *)
Theorem receive_reassembles (frames : list Frame) (collected : string) (f : Frame) (rest : list Z) (c : Client) :
  fragments EmptyString frames collected ->
  mask_ok (f_mask f) -> data_opcode f /\ f_fin f = true \/ control_opcode f -> size (f_payload f) < 2 ^ 63 ->
  connected c = true -> socket_ok c = true -> Forall steady (incoming c) ->
  bytes_of (incoming c) = concat (map encode_frame (frames ++ [f])) ++ rest ->
  exists result c', ReceiveText c = (result, c') /\
    (data_opcode f -> size collected + size (f_payload f) <= kMaxWebSocketMessageBytes ->
     result = Some (collected +:+ f_payload f) /\ bytes_of (incoming c') = rest /\ closed_ c' = closed_ c) /\
    (kMaxWebSocketMessageBytes < size collected + size (f_payload f) -> result = None /\ closed_ c' = true).
Proof.
  intros Hfs Hm Ho Hl Hcon Hsock Hs Hb. unfold ReceiveText. rewrite Hcon, Hsock. cbn [negb].
  rewrite map_app, concat_app in Hb. cbn [map concat] in Hb. rewrite app_nil_r, <- app_assoc in Hb.
  assert (Hfuel : exists fuel, receive_fuel c = (List.length frames + S fuel)%nat).
  { exists (receive_fuel c - S (List.length frames))%nat. unfold receive_fuel. rewrite Hb, length_app.
    pose proof (frames_shorter frames). lia. }
  destruct Hfuel as [fuel ->].
  destruct (receive_loop_fragments _ _ _ Hfs (S fuel) c (encode_frame f ++ rest)) as (c1 & E & H1 & L1); [done|].
  rewrite E. clear E. cbn [receive_loop]. unfold bind, ret.
  destruct (Z.le_gt_cases (size collected + size (f_payload f)) kMaxWebSocketMessageBytes) as [Hle|Hgt].
  - destruct (ReceiveFrame_encoded f collected rest c1 Hm ltac:(tauto) Hle H1) as (c2 & -> & [_ H2] & L2).
    destruct Ho as [[Ho Hf]|Ho].
    + replace ((f_opcode f =? 9) || (f_opcode f =? 10)) with false by (unfold data_opcode in Ho; lia).
      rewrite Hf. eexists _, _. split; [reflexivity|]. split; [|lia]. intros _ _.
      pose proof (same_link_trans _ _ _ L1 L2) as (_ & L3 & _). done.
    + eexists _, _. split; [apply surjective_pairing|]. split; [|lia].
      intros Hd. unfold data_opcode, control_opcode in *. lia.
  - destruct (ReceiveFrame_too_long f collected rest c1 Hm ltac:(tauto) Hl ltac:(lia) H1) as (c2 & ->).
    eexists _, _. split; [reflexivity|]. split; [lia|done].
Qed.

(** C36: On any input at all: the receive loop ends (more fuel changes
    nothing), never returns a message above 1 MiB, and, when it returns nothing and
    leaves the connection open, has consumed whole frames only, so that the next call
    starts at a frame boundary. *)
Theorem receive_any_input_safe (c : Client) :
  (forall k, receive_loop (receive_fuel c + k) EmptyString c = receive_loop (receive_fuel c) EmptyString c) /\
  (forall m, eval ReceiveText c = Some m -> size m <= kMaxWebSocketMessageBytes) /\
  (eval ReceiveText c = None -> closed_ (exec ReceiveText c) = false ->
   exists frames, Forall whole_frame frames /\
     bytes_of (incoming c) = concat frames ++ bytes_of (incoming (exec ReceiveText c))).
Proof.
  destruct (receive_loop_any (receive_fuel c) EmptyString c) as [H1 H2];
    [done|unfold receive_fuel; lia|].
  split; [exact H1|]. unfold eval, exec, ReceiveText.
  destruct (connected c); [|split; [done|]; intros _ _; exists []; by constructor].
  destruct (socket_ok c); [|split; [done|]; intros _ _; exists []; by constructor].
  cbn [negb]. by destruct (receive_loop (receive_fuel c) EmptyString c) as [r c'].
Qed.

(** C37: A frame the client builds is the RFC 6455 encoding of its text with the four octets
    [std::random_device] gives next as the masking key, for every text below 2^63 bytes;
    the four are used up; and a peer that takes it apart by the RFC reads back the final
    flag, the opcode, the key and the text, and starts the next frame right after it. *)
Theorem built_frame_is_rfc6455 (text : string) (opcode : Z) (c : Client) (rest : list Z) :
  size text < 2 ^ 63 -> opcode = 1 \/ opcode = 8 \/ opcode = 10 ->
  let key := map (fun i => wrap_u 8 (entropy c i)) (seq (drawn c) 4) in
  let frame := {| f_fin := true; f_opcode := opcode; f_mask := Some key; f_payload := text |} in
  BuildMaskedFrame opcode text c = (encode_frame frame, with_drawn (drawn c + 4) c) /\
  decode_frame (eval (BuildMaskedFrame opcode text) c ++ rest) = Some (frame, rest).
Proof.
  intros Hl Ho key frame.
  assert (Hk : mask_ok (Some key)).
  { split; [done|]. apply Forall_forall. intros b Hb. apply list_elem_of_In, in_map_iff in Hb as (i & <- & _).
    apply Z.mod_pos_bound. lia. }
  assert (E : BuildMaskedFrame opcode text c = (encode_frame frame, with_drawn (drawn c + 4) c)).
  { unfold BuildMaskedFrame, encode_frame, bind, ret. cbn [frame f_fin f_opcode f_mask f_payload FillRandomBytes fst].
    change (map _ _) with key. do 2 f_equal; [by destruct Ho as [->|[->| ->]]|]. rewrite (frame_length_encoded key) by (split; [apply size_nonneg|done]).
    cbn [mask_bytes]. do 2 f_equal. apply apply_mask_octets, Hk. }
  split; [exact E|]. unfold eval. rewrite E. apply decode_encoded; [done|cbn; lia|exact Hl].
Qed.

(** Base64 loses nothing: decoding what [Base64Encode] produced gives back
    the bytes, for every length. *)
Theorem base64_roundtrip (data : list Z) : Forall byte_range data -> Base64Decode (Base64Encode data) = data.
Proof.
  induction data as [data IH] using (induction_ltof1 _ (@List.length Z)). unfold ltof in IH. intros Hr.
  assert (H0 : byte_range 0) by (unfold byte_range; lia).
  destruct data as [|a [|b [|c rest]]]; [done| | |]; rewrite ?Forall_cons in Hr; cbn [Base64Encode Base64Decode].
  - destruct Hr as [Ha _]. rewrite <- (Z.lor_0_r (Z.shiftl a 16)), <- (Z.lor_0_r (Z.lor _ 0)).
    change (Z.lor (Z.lor (Z.shiftl a 16) 0) 0) with (Z.lor (Z.lor (Z.shiftl a 16) (Z.shiftl 0 8)) 0).
    rewrite group_value by done. destruct (group_sextets a 0 0 Ha H0 H0) as (Hn & Hj & H3 & H2).
    set (n := a * 65536 + 0 * 256 + 0) in *. rewrite H2, H3 in Hj by done.
    destruct (sextet_index n 18 Hn ltac:(lia)) as [-> _], (sextet_index n 12 Hn ltac:(lia)) as [-> _].
    rewrite Ascii.eqb_refl. f_equal. rewrite <- (proj1 (group_bytes a 0 0 Ha H0 H0)). fold n. f_equal. lia.
  - destruct Hr as (Ha & Hb & _). rewrite <- (Z.lor_0_r (Z.lor _ _)).
    rewrite group_value by done. destruct (group_sextets a b 0 Ha Hb H0) as (Hn & Hj & H3 & _).
    set (n := a * 65536 + b * 256 + 0) in *. rewrite H3 in Hj by done.
    destruct (sextet_index n 18 Hn ltac:(lia)) as [-> _], (sextet_index n 12 Hn ltac:(lia)) as [-> _],
      (sextet_index n 6 Hn ltac:(lia)) as [-> ->].
    rewrite Ascii.eqb_refl. destruct (group_bytes a b 0 Ha Hb H0) as (G1 & G2 & _). fold n in G1, G2.
    rewrite Z.add_0_r in Hj. by rewrite Hj, G1, G2.
  - destruct Hr as (Ha & Hb & Hc & Hrest). rewrite group_value by done.
    destruct (group_sextets a b c Ha Hb Hc) as (Hn & Hj & _ & _). set (n := a * 65536 + b * 256 + c) in *.
    destruct (sextet_index n 18 Hn ltac:(lia)) as [-> _], (sextet_index n 12 Hn ltac:(lia)) as [-> _],
      (sextet_index n 6 Hn ltac:(lia)) as [-> ->], (sextet_index n 0 Hn ltac:(lia)) as [-> ->].
    rewrite Hj, IH by (cbn; lia || done). destruct (group_bytes a b c Ha Hb Hc) as (G1 & G2 & G3). fold n in G1, G2, G3.
    by rewrite G1, G2, G3.
Qed.

(** *** The assembler *)

Definition last_n {A} (n : nat) (l : list A) : list A := drop (List.length l - n) l.

Lemma last_n_app {A} n (a b : list A) : last_n n (last_n n a ++ b) = last_n n (a ++ b).
Proof.
  unfold last_n. rewrite !length_app, length_drop.
  destruct (Nat.le_gt_cases (List.length a) n) as [Hle|Hgt].
  - replace (List.length a - n)%nat with 0%nat by lia. by rewrite Nat.sub_0_r, drop_0.
  - transitivity (drop (List.length a + List.length b - n)
      (take (List.length a - n) a ++ (drop (List.length a - n) a ++ b))); [|by rewrite app_assoc, take_drop].
    rewrite (drop_app_ge (take _ a)) by (rewrite length_take; lia).
    rewrite length_take. f_equal. lia.
Qed.

Lemma drop_oldest_last l : Assembler.drop_oldest l = last_n 20 l.
Proof.
  induction l as [|m l IH]; [done|]. cbn [Assembler.drop_oldest].
  unfold kMaxQueuedWebSocketMessages.
  destruct (Z.ltb_spec 20 (Z.of_nat (List.length (m :: l)))) as [Hlt|Hge].
  - rewrite IH. unfold last_n. cbn [List.length] in *.
    by replace (S (List.length l) - 20)%nat with (S (List.length l - 20)) by lia.
  - unfold last_n. cbn [List.length] in *. by replace (S (List.length l) - 20)%nat with 0%nat by lia.
Qed.

(** A chunk as the firmware's library delivers it. *)
Record Chunk := { c_data : string; c_fin : bool; c_frame_complete : bool }.

(** The messages a sequence of chunks completes, after [current] of the first. *)
Fixpoint completed (current : string) (chunks : list Chunk) : list string :=
  match chunks with
  | [] => []
  | c :: rest =>
      if kMaxWebSocketMessageBytes <? size current + size (c_data c) then completed EmptyString rest
      else if c_fin c && c_frame_complete c then (current +:+ c_data c) :: completed EmptyString rest
      else completed (current +:+ c_data c) rest
  end.

Definition add_chunks (chunks : list Chunk) (a : Assembler.Assembler) : Assembler.Assembler :=
  foldl (fun a c => exec (Assembler.Add (c_data c) (c_fin c) (c_frame_complete c)) a) a chunks.

(** The assembler's queue is the newest twenty of the messages its chunks
    complete, none above 1 MiB, in order; the message in progress never exceeds the
    bound either, and an oversized one is dropped without touching the queue. *)
Theorem assembler_keeps_newest_messages (chunks : list Chunk) (a : Assembler.Assembler) :
  (List.length (Assembler.queue_ a) <= 20)%nat ->
  size (Assembler.in_progress_ a) <= kMaxWebSocketMessageBytes ->
  let a' := add_chunks chunks a in
  let messages := completed (Assembler.in_progress_ a) chunks in
  Assembler.queue_ a' = last_n 20 (Assembler.queue_ a ++ messages) /\
  Forall (fun m => size m <= kMaxWebSocketMessageBytes) messages /\
  size (Assembler.in_progress_ a') <= kMaxWebSocketMessageBytes.
Proof.
  revert a. induction chunks as [|c chunks IH]; intros a Hq Hp.
  - cbn. rewrite app_nil_r. unfold last_n. replace (_ - 20)%nat with 0%nat by lia. done.
  - cbv zeta. cbn [completed].
    change (add_chunks (c :: chunks) a)
      with (add_chunks chunks (exec (Assembler.Add (c_data c) (c_fin c) (c_frame_complete c)) a)).
    unfold exec, Assembler.Add.
    destruct (Z.ltb_spec kMaxWebSocketMessageBytes (size (Assembler.in_progress_ a) + size (c_data c))) as [Hlt|Hle].
    + apply (IH {| Assembler.queue_ := Assembler.queue_ a; Assembler.in_progress_ := EmptyString |}); done.
    + destruct (c_fin c), (c_frame_complete c); cbn [negb orb andb snd].
      all: try (apply (IH {| Assembler.queue_ := Assembler.queue_ a;
               Assembler.in_progress_ := Assembler.in_progress_ a +:+ c_data c |}); [done|cbn; by rewrite size_app]).
      rewrite drop_oldest_last.
      destruct (IH {| Assembler.queue_ := last_n 20 (Assembler.queue_ a ++ [Assembler.in_progress_ a +:+ c_data c]);
                      Assembler.in_progress_ := EmptyString |}) as (H1 & H2 & H3);
        cbn [Assembler.queue_ Assembler.in_progress_] in *.
      { unfold last_n. rewrite length_drop. lia. }
      { done. }
      rewrite H1, last_n_app, <- app_assoc. split_and!; [done| |done]. constructor; [by rewrite size_app|done].
Qed.

(** ** Concrete inputs *)

Definition sample_client (evs : list RecvEvent) : Client :=
  {| connected := true; closed_ := false; socket_ok := true; incoming := evs; outgoing := [SendAccept 100];
     wire := []; entropy := fun i => Z.of_nat i; drawn := 0 |}.

(** A text in two fragments with a ping between them. *)
Definition sample_frames : list Frame :=
  [{| f_fin := false; f_opcode := 1; f_mask := None; f_payload := "hel" |};
   {| f_fin := true; f_opcode := 9; f_mask := Some [1; 2; 3; 4]; f_payload := "ping" |};
   {| f_fin := true; f_opcode := 0; f_mask := None; f_payload := "lo" |}].

Definition sample_events : list RecvEvent :=
  [RecvBytes [1; 3; 104]; RecvAgain; RecvBytes [101; 108; 137; 132; 1; 2; 3; 4];
   RecvBytes [113; 107; 109; 99; 128; 2; 108]; RecvBytes [111; 129]].

(** A ping that comes when all but one byte of the bound are collected. *)
Definition late_ping : Frame := {| f_fin := true; f_opcode := 9; f_mask := None; f_payload := "ab" |}.

Lemma receive_reassembles_witness :
  exists c', ReceiveText (sample_client sample_events) = (Some "hello", c') /\ bytes_of (incoming c') = [129].
Proof.
  destruct (receive_reassembles (take 2 sample_frames) "hel"
              {| f_fin := true; f_opcode := 0; f_mask := None; f_payload := "lo" |} [129] (sample_client sample_events))
    as (result & c' & E & H & _).
  - apply more_text; [done|by right|done|by vm_compute|].
    apply more_control; [split; [done|repeat constructor; unfold byte_range; lia]|by left|by vm_compute|].
    constructor.
  - done.
  - left. split; [by left|done].
  - by vm_compute.
  - reflexivity.
  - reflexivity.
  - repeat constructor; done.
  - vm_compute. reflexivity.
  - destruct H as (-> & H2 & _); [by left|by vm_compute|]. by exists c'.
Defined.

(** The ping is no part of the message, but it ends it. *)
Example late_ping_fails_connection :
  exists text, size text = kMaxWebSocketMessageBytes - 1 /\
    eval (ReceiveFrame text) (sample_client [RecvBytes (encode_frame late_ping)]) = TurnFail.
Proof.
  assert (H : forall n, size (string_of_list_ascii (replicate n "a"%char)) = Z.of_nat n).
  { intros n. unfold size. f_equal. by induction n as [|n IH]; [|cbn; rewrite IH]. }
  exists (string_of_list_ascii (replicate (Z.to_nat (kMaxWebSocketMessageBytes - 1)) "a"%char)).
  assert (E : size (string_of_list_ascii (replicate (Z.to_nat (kMaxWebSocketMessageBytes - 1)) "a"%char)) =
              kMaxWebSocketMessageBytes - 1) by (rewrite H; apply Z2Nat.id; by vm_compute).
  split; [exact E|]. revert E. generalize (string_of_list_ascii (replicate (Z.to_nat (kMaxWebSocketMessageBytes - 1)) "a"%char)).
  intros text E. destruct (ReceiveFrame_too_long late_ping text [] (sample_client [RecvBytes (encode_frame late_ping)]))
    as (c' & E'); [done|right; by left|by vm_compute|rewrite E; by vm_compute|by repeat constructor|].
  unfold eval. by rewrite E'.
Qed.

Lemma built_frame_is_rfc6455_witness :
  decode_frame (eval (BuildMaskedFrame 1 "hi") (sample_client []) ++ [129; 0]) =
    Some ({| f_fin := true; f_opcode := 1; f_mask := Some [0; 1; 2; 3]; f_payload := "hi" |}, [129; 0]).
Proof.
  exact (proj2 (built_frame_is_rfc6455 "hi" 1 (sample_client []) [129; 0] ltac:(by vm_compute) (or_introl eq_refl))).
Defined.

Lemma base64_roundtrip_witness : Base64Decode "aGVsbG8=" = [104; 101; 108; 108; 111].
Proof. apply (base64_roundtrip [104; 101; 108; 108; 111]). repeat constructor; unfold byte_range; lia. Defined.

Lemma assembler_keeps_newest_messages_witness :
  Assembler.queue_ (add_chunks [{| c_data := "he"; c_fin := true; c_frame_complete := false |};
                                {| c_data := "llo"; c_fin := true; c_frame_complete := true |}] Assembler.empty)
  = ["hello"].
Proof.
  destruct (assembler_keeps_newest_messages
    [{| c_data := "he"; c_fin := true; c_frame_complete := false |};
     {| c_data := "llo"; c_fin := true; c_frame_complete := true |}] Assembler.empty) as (H & _);
    [cbn; lia|by vm_compute|]. exact H.
Defined.
