(* ===== verification/Ui.v ===== *)
(** Ui: what every screen of the Touch UI shares.

    Models [src/src/ui/routes.h], [navigation.cpp], [ui_dispatch.cpp], the registrations of
    [AppCore]'s constructor and the [OnTap] of the two widgets that open a screen. An LVGL
    screen object is named by the screen that owns it; of LVGL, [lv_scr_load] is what it
    documents: the screen given becomes the active one, and is told so
    ([LV_EVENT_SCREEN_LOAD_START]). *)
From S2P Require Import Prelude Connectivity.

(** ** Routes and screens *)

Definition kDashboard : string := "dashboard".
Definition kWifiSetup : string := "wifi-setup".
Definition kHarmonyActivities : string := "harmony-activities".
Definition kHarmonyDevices : string := "harmony-devices".
Definition kKodiNowPlaying : string := "kodi-now-playing".
Definition kKodiRemote : string := "kodi-remote".
Definition kKodiMovies : string := "kodi-movies".
Definition kKodiTvShows : string := "kodi-tv-shows".
Definition kKodiMusic : string := "kodi-music".
Definition kKodiFiles : string := "kodi-files".
Definition kKodiLiveTv : string := "kodi-live-tv".

(** The roots of the screens [AppCore] owns. *)
Inductive ScreenRoot :=
  | dashboard_ | wifi_setup_screen_ | activities_screen_ | devices_screen_ | now_playing_screen_ | kodi_remote_screen_
  | kodi_movies_screen_ | kodi_tv_shows_screen_ | kodi_music_screen_ | kodi_files_screen_ | kodi_live_tv_screen_.

#[export] Instance screen_root_eq_dec : EqDecision ScreenRoot.
Proof. solve_decision. Defined.

(** ** [Navigation] *)

Module Nav.

(** [lv_screen_active] is LVGL's; [loads] are the screens it was told to load, in order. *)
Record Navigation := {
  home_route_ : string; screens_ : gmap string ScreenRoot; lv_screen_active : ScreenRoot; loads : list ScreenRoot
}.

Definition lv_scr_load (s : ScreenRoot) (n : Navigation) : Navigation :=
  {| home_route_ := home_route_ n; screens_ := screens_ n; lv_screen_active := s; loads := loads n ++ [s] |}.

Definition Register (route : string) (s : ScreenRoot) (n : Navigation) : Navigation :=
  {| home_route_ := home_route_ n; screens_ := <[route := s]> (screens_ n); lv_screen_active := lv_screen_active n;
     loads := loads n |}.

(** LVGL starts on a screen of its own, which the constructor replaces; [home_screen]
    stands for it until then. *)
Definition NewNavigation (home_route : string) (home_screen : ScreenRoot) : Navigation :=
  lv_scr_load home_screen
    (Register home_route home_screen
       {| home_route_ := home_route; screens_ := ∅; lv_screen_active := home_screen; loads := [] |}).

Definition GoTo (route : string) (n : Navigation) : Navigation :=
  match screens_ n !! route with
  | None => n
  | Some s => if bool_decide (s = lv_screen_active n) then n else lv_scr_load s n
  end.

Definition GoHome (n : Navigation) : Navigation := GoTo (home_route_ n) n.

(** [AppCore]'s: the dashboard is home, and each screen has its route. *)
Definition registrations : list (string * ScreenRoot) :=
  [(kWifiSetup, wifi_setup_screen_); (kHarmonyActivities, activities_screen_); (kHarmonyDevices, devices_screen_);
   (kKodiNowPlaying, now_playing_screen_); (kKodiRemote, kodi_remote_screen_); (kKodiMovies, kodi_movies_screen_);
   (kKodiTvShows, kodi_tv_shows_screen_); (kKodiMusic, kodi_music_screen_); (kKodiFiles, kodi_files_screen_);
   (kKodiLiveTv, kodi_live_tv_screen_)].

Definition app_navigation : Navigation :=
  foldl (fun n '(route, s) => Register route s n) (NewNavigation kDashboard dashboard_) registrations.

(** The taps that navigate from the dashboard: [HarmonyWidget::OnTap], [KodiWidget::OnTap]. *)
Definition harmony_widget_tap : Navigation -> Navigation := GoTo kHarmonyActivities.
Definition kodi_widget_tap : Navigation -> Navigation := GoTo kKodiNowPlaying.

Inductive NavOp := OpGoTo (route : string) | OpGoHome.

Definition nav_step (n : Navigation) (op : NavOp) : Navigation :=
  match op with OpGoTo route => GoTo route n | OpGoHome => GoHome n end.

(** What a sequence of requests should show: the last one whose route is known. *)
Definition wanted (screens : gmap string ScreenRoot) (home : string) (op : NavOp) : option ScreenRoot :=
  screens !! match op with OpGoTo route => route | OpGoHome => home end.

(** The route of each screen. *)
Definition route_of (s : ScreenRoot) : string :=
  match s with
  | dashboard_ => kDashboard | wifi_setup_screen_ => kWifiSetup | activities_screen_ => kHarmonyActivities
  | devices_screen_ => kHarmonyDevices | now_playing_screen_ => kKodiNowPlaying | kodi_remote_screen_ => kKodiRemote
  | kodi_movies_screen_ => kKodiMovies | kodi_tv_shows_screen_ => kKodiTvShows | kodi_music_screen_ => kKodiMusic
  | kodi_files_screen_ => kKodiFiles | kodi_live_tv_screen_ => kKodiLiveTv
  end.

(** No two neighbours are equal. *)
Fixpoint no_repeat (l : list ScreenRoot) : Prop :=
  match l with
  | a :: (b :: _) as rest => a <> b /\ no_repeat rest
  | _ => True
  end.

Lemma no_repeat_snoc l a b : no_repeat (l ++ [a]) -> a <> b -> no_repeat ((l ++ [a]) ++ [b]).
Proof.
  induction l as [|c l IH]; [done|]. intros H Hne. cbn [app]. destruct l as [|d l]; cbn in *; [naive_solver|].
  destruct H as [Hc H]. split; [done|]. by apply IH.
Qed.

(** The last load is the active screen, and no load was a reload. *)
Record nav_ok (n : Navigation) : Prop := {
  last_load : exists l, loads n = l ++ [lv_screen_active n];
  never_reloads : no_repeat (loads n)
}.

Lemma GoTo_ok route n : nav_ok n -> nav_ok (GoTo route n).
Proof.
  intros [[l Hl] Hn]. unfold GoTo. destruct (screens_ n !! route) as [s|]; [|by split; [exists l|]].
  case_bool_decide as Hs; [by split; [exists l|]|]. split; cbn; [by exists (loads n)|].
  rewrite Hl in *. by apply no_repeat_snoc.
Qed.

Lemma GoTo_same route n : home_route_ (GoTo route n) = home_route_ n /\ screens_ (GoTo route n) = screens_ n.
Proof. unfold GoTo. destruct (screens_ n !! route); [by case_bool_decide|done]. Qed.

Lemma GoTo_active route n : lv_screen_active (GoTo route n) = default (lv_screen_active n) (screens_ n !! route).
Proof. unfold GoTo. destruct (screens_ n !! route); [|done]. by case_bool_decide. Qed.

Lemma nav_step_goto n op : nav_step n op = GoTo match op with OpGoTo route => route | OpGoHome => home_route_ n end n.
Proof. by destruct op. Qed.

Lemma last_cons {A} (l : list A) a d : List.last (a :: l) d = List.last l a.
Proof. revert a d. induction l as [|b l IH]; intros a d; [done|]. change (List.last (b :: l) d = List.last (b :: l) a). by rewrite !IH. Qed.

Lemma nav_run ops : forall n, nav_ok n ->
  let n' := foldl nav_step n ops in
  nav_ok n' /\ lv_screen_active n' = List.last (omap (wanted (screens_ n) (home_route_ n)) ops) (lv_screen_active n).
Proof.
  induction ops as [|op ops IH]; intros n Hn; [done|]. cbn [foldl omap list_omap]. rewrite nav_step_goto.
  set (route := match op with OpGoTo route => route | OpGoHome => home_route_ n end).
  destruct (IH (GoTo route n) (GoTo_ok route n Hn)) as [H1 H2]. destruct (GoTo_same route n) as [E1 E2].
  split; [done|]. rewrite H2, E1, E2, GoTo_active. fold (wanted (screens_ n) (home_route_ n)).
  replace (wanted (screens_ n) (home_route_ n) op) with (screens_ n !! route) by (by destruct op).
  destruct (screens_ n !! route) as [s|]; [|done]. symmetry. apply last_cons.
Qed.

Lemma app_navigation_ok : nav_ok app_navigation.
Proof. split; [by exists []|done]. Qed.

(** Navigation in [AppCore] shows what was last asked for: after any requests, whatever the
    routes named, the active screen is the one registered under the last known route, home
    counting as the dashboard's; it is the screen LVGL loaded last, LVGL was never made to
    redraw a screen it already showed, and every route of the program has a screen of its
    own. *)
Theorem navigation_shows_last_request (ops : list NavOp) :
  let n := foldl nav_step app_navigation ops in
  lv_screen_active n = List.last (omap (wanted (screens_ app_navigation) kDashboard) ops) dashboard_ /\
  (exists l, loads n = l ++ [lv_screen_active n]) /\ no_repeat (loads n) /\
  (forall route s, screens_ app_navigation !! route = Some s <-> route = route_of s).
Proof.
  destruct (nav_run ops app_navigation app_navigation_ok) as [[H1 H2] H3]. split_and!; try done.
  intros route s. unfold app_navigation, registrations. cbn [foldl NewNavigation Register lv_scr_load screens_].
  rewrite !lookup_insert_Some, lookup_empty. destruct s; cbn [route_of]; naive_solver.
Qed.
End Nav.
