(* ===== verification/Wifi.v ===== *)
(** Wifi: how the device gets on the network, and how it never loses its way back.

    Models [firmware/main/wifi_setup.cpp]: the set-up and the recovery access point, their
    form, the reconnect policy driven by the events of ESP-IDF, and the two timers; the
    callbacks [firmware/main/homedeck.cpp] gives it; and the request shown on the screen
    by [src/src/ui/screens/wifi_setup_screen.cpp]. The code runs on the event-loop task,
    the timers' task, HTTP workers and the UI task, and releases its mutex before every
    call that blocks, so each function is a program of atomic sections ([Threads]), and
    the theorems hold for every interleaving. The Wi-Fi driver is a parameter: whether
    each call succeeds, and when it posts which event. *)
From S2P Require Import Prelude Text Http HttpServer Connectivity Threads Ui.

Definition kMaxSetupReconnectAttempts : Z := 5.
Definition kNormalModeRecoveryAttempts : Z := 40.
Definition kReconnectBackoffMs : Z := 500.
Definition kRecoveryApReconnectBackoffMs : Z := 30000.
Definition kApGatewayIp : string := "192.168.4.1".
Definition kSetupHttpPort : Z := 80.
Definition kRecoveryHttpPort : Z := 8080.
Definition kMaxBodyBytes : Z := 320.

(** ** The state *)

Record NetworkState := { connected : bool; net_ssid : string; ip_address : string }.

(** [g_state]. A server is its port; the callbacks are there or not, all together. *)
Record WifiSetupState := {
  setup_server : option Z; reconnect_policy : WifiReconnectPolicy; ap_client_count : Z; initial_provisioning : bool;
  pending_credentials : PendingWifiCredentials; ui_callbacks : bool; network_status : NetworkState; pending_ssid : string
}.

(** Posted to the event loop by the driver. *)
Inductive WifiEvent := StaStart | StaDisconnected | ApStaConnected | ApStaDisconnected | StaGotIp (ip : string).

(** Posted to the UI task by the callbacks of [BlockUntilWifiConnected]. *)
Inductive UiTask :=
| OnSetupNeeded (ap_ssid ap_ip : string) (port : Z) | OnConnected
| OnCredentialsPending (ssid : string) (request_id : Z) | OnConnectFailed.

(** [WifiSetupScreen]: the request box and the labels; and the navigation. *)
Record Screen := {
  has_pending_request_ : bool; pending_request_id_ : Z; request_text : string; error_text : string;
  ap_info : option (string * string * Z); nav : Nav.Navigation
}.

(** The station of the driver: not started, started, or with an attempt or a connection
    under way. *)
Inductive Station := Stopped | Idle | Linked.

(** What went wrong and only a log line says so. *)
Inductive Warning :=
| ConnectOnStartFailed | ConnectOnSubmitFailed | RetryNotScheduled | RetryNotResumed | RetryNotRescheduled
| RecoveryNotScheduled | RecoveryNotStarted | BootAborted.

(** What happened, for the statements: a connection attempt began; a request of the
    recovery form was taken down, shown, allowed by a tap on what was shown; credentials
    were typed on the screen; credentials were given to the driver. *)
Inductive Happening :=
| Connecting | Warned (what : Warning) | Requested (id : Z) (c : WifiCredentials) | Showed (id : Z) (text : string)
| Allowed (id : Z) (text : string) | Typed (c : WifiCredentials) | Applied (ssid password : string).

(** [esp_wifi_*], [httpd_*] and [esp_timer_start_once]: does the call succeed. *)
Class WifiDriver (E : Type) := {
  esp_wifi_connect : M E bool; esp_wifi_set_config : string -> string -> M E bool;
  esp_wifi_set_ap_config : string -> M E bool; esp_wifi_set_mode_apsta : bool -> M E bool;
  esp_wifi_start : M E bool; esp_wifi_stop : M E bool;
  esp_wifi_get_mac : M E (option (Z * Z * Z)); esp_wifi_get_config : M E string;
  httpd_start : Z -> M E bool; httpd_stop : Z -> M E bool; timer_start : M E bool
}.

Section Wifi.
Context {E : Type} `{WifiDriver E}.

(** The device: the driver, [g_state], the delay the reconnect timer runs with, whether the
    recovery timer runs, the event queue, and the station. *)
Record World := {
  env : E; g_state : WifiSetupState; g_reconnect_timer : option Z; g_recovery_timer : bool;
  events : list WifiEvent; link : Station; connected_bit : bool; ui_queue : list UiTask; screen : Screen;
  happened : list Happening
}.

Definition with_env (v : E) (w : World) : World :=
  {| env := v; g_state := g_state w; g_reconnect_timer := g_reconnect_timer w; g_recovery_timer := g_recovery_timer w;
     events := events w; link := link w; connected_bit := connected_bit w; ui_queue := ui_queue w; screen := screen w;
     happened := happened w |}.
Definition with_state (v : WifiSetupState) (w : World) : World :=
  {| env := env w; g_state := v; g_reconnect_timer := g_reconnect_timer w; g_recovery_timer := g_recovery_timer w;
     events := events w; link := link w; connected_bit := connected_bit w; ui_queue := ui_queue w; screen := screen w;
     happened := happened w |}.
Definition with_reconnect (v : option Z) (w : World) : World :=
  {| env := env w; g_state := g_state w; g_reconnect_timer := v; g_recovery_timer := g_recovery_timer w;
     events := events w; link := link w; connected_bit := connected_bit w; ui_queue := ui_queue w; screen := screen w;
     happened := happened w |}.
Definition with_recovery (v : bool) (w : World) : World :=
  {| env := env w; g_state := g_state w; g_reconnect_timer := g_reconnect_timer w; g_recovery_timer := v;
     events := events w; link := link w; connected_bit := connected_bit w; ui_queue := ui_queue w; screen := screen w;
     happened := happened w |}.
Definition with_events (v : list WifiEvent) (w : World) : World :=
  {| env := env w; g_state := g_state w; g_reconnect_timer := g_reconnect_timer w; g_recovery_timer := g_recovery_timer w;
     events := v; link := link w; connected_bit := connected_bit w; ui_queue := ui_queue w; screen := screen w;
     happened := happened w |}.
Definition with_link (v : Station) (w : World) : World :=
  {| env := env w; g_state := g_state w; g_reconnect_timer := g_reconnect_timer w; g_recovery_timer := g_recovery_timer w;
     events := events w; link := v; connected_bit := connected_bit w; ui_queue := ui_queue w; screen := screen w;
     happened := happened w |}.
Definition with_bit (v : bool) (w : World) : World :=
  {| env := env w; g_state := g_state w; g_reconnect_timer := g_reconnect_timer w; g_recovery_timer := g_recovery_timer w;
     events := events w; link := link w; connected_bit := v; ui_queue := ui_queue w; screen := screen w;
     happened := happened w |}.
Definition with_ui_queue (v : list UiTask) (w : World) : World :=
  {| env := env w; g_state := g_state w; g_reconnect_timer := g_reconnect_timer w; g_recovery_timer := g_recovery_timer w;
     events := events w; link := link w; connected_bit := connected_bit w; ui_queue := v; screen := screen w;
     happened := happened w |}.
Definition with_screen (v : Screen) (w : World) : World :=
  {| env := env w; g_state := g_state w; g_reconnect_timer := g_reconnect_timer w; g_recovery_timer := g_recovery_timer w;
     events := events w; link := link w; connected_bit := connected_bit w; ui_queue := ui_queue w; screen := v;
     happened := happened w |}.
Definition with_happened (v : list Happening) (w : World) : World :=
  {| env := env w; g_state := g_state w; g_reconnect_timer := g_reconnect_timer w; g_recovery_timer := g_recovery_timer w;
     events := events w; link := link w; connected_bit := connected_bit w; ui_queue := ui_queue w; screen := screen w;
     happened := v |}.

(** The fields of [g_state]. *)
Definition set_server (v : option Z) (s : WifiSetupState) : WifiSetupState :=
  {| setup_server := v; reconnect_policy := reconnect_policy s; ap_client_count := ap_client_count s;
     initial_provisioning := initial_provisioning s; pending_credentials := pending_credentials s;
     ui_callbacks := ui_callbacks s; network_status := network_status s; pending_ssid := pending_ssid s |}.
Definition set_policy (v : WifiReconnectPolicy) (s : WifiSetupState) : WifiSetupState :=
  {| setup_server := setup_server s; reconnect_policy := v; ap_client_count := ap_client_count s;
     initial_provisioning := initial_provisioning s; pending_credentials := pending_credentials s;
     ui_callbacks := ui_callbacks s; network_status := network_status s; pending_ssid := pending_ssid s |}.
Definition set_clients (v : Z) (s : WifiSetupState) : WifiSetupState :=
  {| setup_server := setup_server s; reconnect_policy := reconnect_policy s; ap_client_count := v;
     initial_provisioning := initial_provisioning s; pending_credentials := pending_credentials s;
     ui_callbacks := ui_callbacks s; network_status := network_status s; pending_ssid := pending_ssid s |}.
Definition set_provisioning (v : bool) (s : WifiSetupState) : WifiSetupState :=
  {| setup_server := setup_server s; reconnect_policy := reconnect_policy s; ap_client_count := ap_client_count s;
     initial_provisioning := v; pending_credentials := pending_credentials s;
     ui_callbacks := ui_callbacks s; network_status := network_status s; pending_ssid := pending_ssid s |}.
Definition set_pending (v : PendingWifiCredentials) (s : WifiSetupState) : WifiSetupState :=
  {| setup_server := setup_server s; reconnect_policy := reconnect_policy s; ap_client_count := ap_client_count s;
     initial_provisioning := initial_provisioning s; pending_credentials := v;
     ui_callbacks := ui_callbacks s; network_status := network_status s; pending_ssid := pending_ssid s |}.
Definition set_callbacks (v : bool) (s : WifiSetupState) : WifiSetupState :=
  {| setup_server := setup_server s; reconnect_policy := reconnect_policy s; ap_client_count := ap_client_count s;
     initial_provisioning := initial_provisioning s; pending_credentials := pending_credentials s;
     ui_callbacks := v; network_status := network_status s; pending_ssid := pending_ssid s |}.
Definition set_network (v : NetworkState) (s : WifiSetupState) : WifiSetupState :=
  {| setup_server := setup_server s; reconnect_policy := reconnect_policy s; ap_client_count := ap_client_count s;
     initial_provisioning := initial_provisioning s; pending_credentials := pending_credentials s;
     ui_callbacks := ui_callbacks s; network_status := v; pending_ssid := pending_ssid s |}.
Definition set_ssid (v : string) (s : WifiSetupState) : WifiSetupState :=
  {| setup_server := setup_server s; reconnect_policy := reconnect_policy s; ap_client_count := ap_client_count s;
     initial_provisioning := initial_provisioning s; pending_credentials := pending_credentials s;
     ui_callbacks := ui_callbacks s; network_status := network_status s; pending_ssid := v |}.

(** ** The sections *)

(** A call of the driver. *)
Definition drive {A} (m : M E A) : M World A := fun w => let '(a, e) := m (env w) in (a, with_env e w).

(** A few reads and writes under [g_state_mutex]. *)
Definition locked {A} (m : M WifiSetupState A) : M World A := fun w =>
  let '(a, s) := m (g_state w) in (a, with_state s w).

Definition happen (h : Happening) : M World unit := modify (fun w => with_happened (happened w ++ [h]) w).

Definition warn (what : Warning) : M World unit := happen (Warned what).

(** A call that can fail, and what follows from its success. *)
Definition drive_then (call : M E bool) (done : World -> World) : M World bool :=
  let* success := drive call in
  if success : bool then modify done ;;* ret true else ret false.

Definition esp_connect : M World bool :=
  drive_then esp_wifi_connect (fun w => with_happened (happened w ++ [Connecting]) (with_link Linked w)).

Definition esp_set_config (ssid password : string) : M World bool :=
  drive_then (esp_wifi_set_config (c_str ssid) (c_str password))
    (fun w => with_happened (happened w ++ [Applied (c_str ssid) (c_str password)]) w).

(** A station that has been started is announced by [WIFI_EVENT_STA_START]. *)
Definition esp_start : M World bool :=
  drive_then esp_wifi_start (fun w =>
    with_events (events w ++ [StaStart]) (with_link (match link w with Stopped => Idle | l => l end) w)).

(** A stop ends an attempt, and no event need tell. *)
Definition esp_stop : M World bool := drive_then esp_wifi_stop (with_link Stopped).

(** [CancelReconnectTimer]; an error of [esp_timer_stop] is only logged. *)
Definition CancelReconnectTimer : M World unit := modify (with_reconnect None).

(** [esp_timer_start_once(g_reconnect_timer, ...)]: an error when the timer runs. *)
Definition start_reconnect (delay : Z) : M World bool := fun w =>
  match g_reconnect_timer w with
  | Some _ => (false, w)
  | None => drive_then timer_start (with_reconnect (Some delay)) w
  end.

Definition start_recovery : M World bool := fun w =>
  if g_recovery_timer w then (false, w) else drive_then timer_start (with_recovery true) w.

(** Runs a callback of [g_state.ui_callbacks]: it posts to the UI task. *)
Definition call_ui (hooked : bool) (task : UiTask) : M World unit :=
  if hooked then modify (fun w => with_ui_queue (ui_queue w ++ [task]) w) else ret tt.

Definition prog := prog World.

Definition unless_ok (success : bool) (what : Warning) : prog unit :=
  if success then Done tt else atomic (warn what).

(** ** The timers *)

Definition ReconnectTimerCallback : prog unit :=
  let! connecting := atomic esp_connect in
  if connecting : bool then Done tt
  else
    atomic CancelReconnectTimer ;;!
    let! started := atomic (start_reconnect kReconnectBackoffMs) in
    unless_ok started RetryNotRescheduled.

(** [GetApSsid]: the last three bytes of the MAC, zero when it cannot be read. *)
Definition hex_byte (b : Z) : string :=
  String (upper_hex_digit (Z.shiftr b 4)) (String (upper_hex_digit (Z.land b 15)) EmptyString).

Definition GetApSsid : M World string :=
  let* mac := drive esp_wifi_get_mac in
  let '(a, b, c) := match mac with Some m => m | None => (0, 0, 0) end in
  ret ("HomeDeck-" +:+ hex_byte a +:+ hex_byte b +:+ hex_byte c).

(** [StartSetupHttpServer]: started first, published under the mutex once it runs. *)
Definition StartSetupHttpServer (port : Z) : prog bool :=
  let! started := atomic (drive (httpd_start port)) in
  if started : bool then atomic (locked (modify (set_server (Some port)))) ;;! Done true else Done false.

Definition offer_setup (ap_ssid : string) (port : Z) : prog unit :=
  let! hooked := atomic (locked (gets ui_callbacks)) in
  atomic (call_ui hooked (OnSetupNeeded ap_ssid kApGatewayIp port)).

(** [ESP_ERROR_CHECK]: a failure restarts the device. *)
Definition checked (success : bool) (k : prog unit) : prog unit :=
  if success then k else atomic (warn BootAborted).

Definition StartSetupAccessPoint : prog unit :=
  let! ap_ssid := atomic GetApSsid in
  let! mode := atomic (drive (esp_wifi_set_mode_apsta true)) in
  checked mode (
    let! config := atomic (drive (esp_wifi_set_ap_config ap_ssid)) in
    checked config (
      let! started := atomic esp_start in
      checked started (
        let! serving := StartSetupHttpServer kSetupHttpPort in
        checked serving (offer_setup ap_ssid kSetupHttpPort)))).

Definition StartRecoveryAccessPoint : prog unit :=
  let! ap_ssid := atomic GetApSsid in
  let! stopped := atomic esp_stop in
  if negb stopped then Done tt
  else
    let! mode := atomic (drive (esp_wifi_set_mode_apsta true)) in
    let! config := if mode : bool then atomic (drive (esp_wifi_set_ap_config ap_ssid)) else Done false in
    let! started := if config : bool then atomic esp_start else Done false in
    if negb started then atomic (warn RecoveryNotStarted)
    else
      let! serving := StartSetupHttpServer kRecoveryHttpPort in
      if negb serving then atomic (drive (esp_wifi_set_mode_apsta false)) ;;! Done tt
      else offer_setup ap_ssid kRecoveryHttpPort.

(** ** The event loop *)

Definition recovery_up (s : WifiSetupState) : bool :=
  negb (initial_provisioning s) && match setup_server s with Some _ => true | None => false end.

Definition RecoveryRetriesAreSlowed : M World bool := locked (gets recovery_up).

(** What [WIFI_EVENT_STA_DISCONNECTED] decides under the mutex. *)
Definition on_disconnected : M WifiSetupState (bool * bool * option Z * bool) :=
  modify (set_network {| connected := false; net_ssid := EmptyString; ip_address := EmptyString |}) ;;*
  let* s := get in
  let '(decision, policy) := OnDisconnected (initial_provisioning s) (reconnect_policy s) in
  modify (set_policy policy) ;;*
  let abandon := match decision with kGiveUp => true | kRetry => false end in
  let offer_recovery := negb abandon && match setup_server s with None => ShouldOfferRecovery (initial_provisioning s) policy | Some _ => false end in
  ret (abandon, offer_recovery, RetryDelayMs (recovery_up s) (ap_client_count s) policy, ui_callbacks s).

Definition on_sta_disconnected : prog unit :=
  let! (abandon, offer_recovery, retry_delay_ms, hooked) := atomic (locked on_disconnected) in
  if abandon : bool then atomic (call_ui hooked OnConnectFailed)
  else
    (if offer_recovery : bool
     then let! started := atomic start_recovery in unless_ok started RecoveryNotScheduled
     else Done tt) ;;!
    atomic CancelReconnectTimer ;;!
    match retry_delay_ms with
    | None => Done tt
    | Some delay => let! started := atomic (start_reconnect delay) in unless_ok started RetryNotScheduled
    end.

Definition on_ap_sta_connected : prog unit :=
  atomic (locked (modify (fun s => set_clients (ap_client_count s + 1) s))) ;;!
  let! slowed := atomic RecoveryRetriesAreSlowed in
  if slowed : bool then atomic CancelReconnectTimer else Done tt.

(** The delay is only there when the last client left. *)
Definition client_left : M WifiSetupState (option Z) :=
  modify (fun s => set_clients (Z.max 0 (ap_client_count s - 1)) s) ;;*
  let* s := get in
  ret (if ap_client_count s =? 0 then RetryDelayMs (recovery_up s) 0 (reconnect_policy s) else None).

Definition on_ap_sta_disconnected : prog unit :=
  let! retry_delay_ms := atomic (locked client_left) in
  match retry_delay_ms with
  | None => Done tt
  | Some delay =>
      let! slowed := atomic RecoveryRetriesAreSlowed in
      if slowed : bool
      then
        atomic CancelReconnectTimer ;;!
        let! started := atomic (start_reconnect delay) in
        unless_ok started RetryNotResumed
      else Done tt
  end.

(** What [IP_EVENT_STA_GOT_IP] resets under the mutex. *)
Definition got_ip (ip : string) : M WifiSetupState (option Z * bool) := fun s =>
  ((setup_server s, ui_callbacks s),
   set_policy (ResetAttempts (reconnect_policy s)) (set_provisioning false (set_clients 0 (set_server None
     (set_network {| connected := true; net_ssid := pending_ssid s; ip_address := ip |} s))))).

Definition on_got_ip (ip : string) : prog unit :=
  atomic CancelReconnectTimer ;;!
  let! (server_to_stop, hooked) := atomic (locked (got_ip ip)) in
  match server_to_stop with
  | Some port => atomic (drive (httpd_stop port)) ;;! atomic (drive (esp_wifi_set_mode_apsta false)) ;;! Done tt
  | None => Done tt
  end ;;!
  atomic (locked (modify (fun s => set_pending (Clear (pending_credentials s)) s))) ;;!
  atomic (call_ui hooked OnConnected) ;;!
  atomic (modify (with_bit true)).

Definition OnEvent (event : WifiEvent) : prog unit :=
  match event with
  | StaStart => let! connecting := atomic esp_connect in unless_ok connecting ConnectOnStartFailed
  | StaDisconnected => on_sta_disconnected
  | ApStaConnected => on_ap_sta_connected
  | ApStaDisconnected => on_ap_sta_disconnected
  | StaGotIp ip => on_got_ip ip
  end.

(** ** Credentials *)

Definition ApplyWifiCredentials (ssid password : string) : prog bool :=
  if negb (IsValidWifiCredentials ssid password) then Done false
  else
    let! config := atomic (esp_set_config ssid password) in
    if negb config then Done false
    else
      atomic (locked (modify (fun s => set_policy (ResetAttempts (reconnect_policy s)) (set_ssid ssid s)))) ;;!
      atomic CancelReconnectTimer ;;!
      let! connecting := atomic esp_connect in
      unless_ok connecting ConnectOnSubmitFailed ;;!
      Done true.

Inductive RecoveryApproval := kApplied | kNoLongerPending | kApplyFailed.

(** A method of [pending_credentials], under its own mutex. *)
Definition on_pending {A} (m : M PendingWifiCredentials A) : M World A :=
  locked (fun s => let '(a, p) := m (pending_credentials s) in (a, set_pending p s)).

Definition ApproveRecoveryCredentials (request_id : Z) : prog RecoveryApproval :=
  let! credentials := atomic (on_pending (Take request_id)) in
  match credentials with
  | None => Done kNoLongerPending
  | Some c => let! ok := ApplyWifiCredentials (Connectivity.ssid c) (password c) in Done (if ok : bool then kApplied else kApplyFailed)
  end.

Definition RejectRecoveryCredentials : M World unit :=
  on_pending (modify Clear).

(** The submission and the log entry of this development. *)
Definition submit_request (ssid password : string) : M World (option Z) :=
  let* request_id := on_pending (Submit ssid password) in
  match request_id with
  | Some id => happen (Requested id {| Connectivity.ssid := ssid; password := password |}) ;;* ret (Some id)
  | None => ret None
  end.

Inductive FormReply := FormConnecting | FormWaiting | FormBadRequest | FormServerError.

Definition HandleRecoveryRequest (ssid password : string) : prog FormReply :=
  let! request_id := atomic (submit_request ssid password) in
  match request_id with
  | None => Done FormBadRequest
  | Some id =>
      let! hooked := atomic (locked (gets ui_callbacks)) in
      atomic (call_ui hooked (OnCredentialsPending ssid id)) ;;!
      Done FormWaiting
  end.

(** [HandlePostConnect]: [conn] is the connection the body is read from, with the same loop
    and the same limits as [FirmwareHttpServer]'s. *)
Definition HandlePostConnect {C} (recv : Z -> M C Recv) (content_len : Z) (conn : C) : prog FormReply :=
  if (content_len <=? 0) || (kMaxBodyBytes <? content_len) then Done FormBadRequest
  else
    match eval (firmware_read recv (read_fuel content_len) content_len EmptyString 0 0) conn with
    | BodyRefused | OutOfFuel => Done FormServerError
    | BodyRead bytes =>
        let body := c_str bytes in
        let ssid := match ParseFormField body "ssid" with Some s => s | None => EmptyString end in
        let password := match ParseFormField body "password" with Some s => s | None => EmptyString end in
        let! first_run_form := atomic (locked (gets initial_provisioning)) in
        if negb first_run_form then HandleRecoveryRequest ssid password
        else
          let! ok := ApplyWifiCredentials ssid password in
          Done (if ok : bool then FormConnecting else FormBadRequest)
    end.

(** ** The UI task *)

Definition kApplyFailedMessage : string :=
  "Could not apply the Wi-Fi settings: the network name (SSID) is required, both fields must be within Wi-Fi's length limits, and the Wi-Fi co-processor must respond.".

Definition on_screen (f : Screen -> Screen) : M World unit := modify (fun w => with_screen (f (screen w)) w).

Definition SetApInfo (ap_ssid ap_ip : string) (port : Z) (s : Screen) : Screen :=
  {| has_pending_request_ := has_pending_request_ s; pending_request_id_ := pending_request_id_ s;
     request_text := request_text s; error_text := error_text s; ap_info := Some (ap_ssid, ap_ip, port); nav := nav s |}.

(** [lv_label_set_text_fmt] prints the SSID up to its first NUL. *)
Definition ShowPendingRequest (ssid : string) (request_id : Z) (s : Screen) : Screen :=
  {| has_pending_request_ := true; pending_request_id_ := request_id; request_text := c_str ssid;
     error_text := error_text s; ap_info := ap_info s; nav := nav s |}.

Definition ClearPendingRequest (s : Screen) : Screen :=
  {| has_pending_request_ := false; pending_request_id_ := pending_request_id_ s; request_text := request_text s;
     error_text := error_text s; ap_info := ap_info s; nav := nav s |}.

Definition SetConnectError (message : string) (s : Screen) : Screen :=
  {| has_pending_request_ := has_pending_request_ s; pending_request_id_ := pending_request_id_ s;
     request_text := request_text s; error_text := message; ap_info := ap_info s; nav := nav s |}.

(** [GetNavigation().GoTo(r)]. *)
Definition GoTo (r : string) (s : Screen) : Screen :=
  {| has_pending_request_ := has_pending_request_ s; pending_request_id_ := pending_request_id_ s;
     request_text := request_text s; error_text := error_text s; ap_info := ap_info s; nav := Nav.GoTo r (nav s) |}.

(** [GetNavigation().GoHome()]. *)
Definition GoHome (s : Screen) : Screen := GoTo (Nav.home_route_ (nav s)) s.

(** The functions [BlockUntilWifiConnected] posts. *)
Definition run_ui_task (task : UiTask) : prog unit :=
  match task with
  | OnSetupNeeded ap_ssid ap_ip port => atomic (on_screen (fun s => GoTo kWifiSetup (SetApInfo ap_ssid ap_ip port s)))
  | OnConnected => atomic (on_screen (fun s => GoHome (ClearPendingRequest s)))
  | OnCredentialsPending ssid request_id =>
      atomic (on_screen (fun s => GoTo kWifiSetup (ShowPendingRequest ssid request_id s)) ;;* happen (Showed request_id (c_str ssid)))
  | OnConnectFailed => atomic (on_screen (SetConnectError "Couldn't connect - check the password and try again."))
  end.

(** [wifi_pending_decision] of [app_main]: only a failed apply is reported back. *)
Definition wifi_pending_decision (request_id : Z) (allow : bool) : prog bool :=
  if negb allow then atomic RejectRecoveryCredentials ;;! Done true
  else
    let! approval := ApproveRecoveryCredentials request_id in
    Done (match approval with kApplyFailed => false | _ => true end).

(** [Decide] reads and hides the request before it asks for the decision. *)
Definition take_decision (allow : bool) : M World (option Z) :=
  let* s := gets screen in
  if negb (has_pending_request_ s) then ret None
  else
    on_screen ClearPendingRequest ;;*
    (if allow then happen (Allowed (pending_request_id_ s) (request_text s)) else ret tt) ;;*
    ret (Some (pending_request_id_ s)).

Definition Decide (allow : bool) : prog unit :=
  let! request_id := atomic (take_decision allow) in
  match request_id with
  | None => Done tt
  | Some id =>
      let! applied := wifi_pending_decision id allow in
      if applied : bool then Done tt else atomic (on_screen (SetConnectError kApplyFailedMessage))
  end.

Definition OnConnectClicked (ssid password : string) : prog unit :=
  atomic (on_screen (SetConnectError EmptyString) ;;* happen (Typed {| Connectivity.ssid := ssid; password := password |})) ;;!
  let! accepted := ApplyWifiCredentials ssid password in
  if accepted : bool then Done tt else atomic (on_screen (SetConnectError kApplyFailedMessage)).

Inductive Tap := TapConnect (ssid password : string) | TapAllow | TapDeny.

Definition on_tap (tap : Tap) : prog unit :=
  match tap with
  | TapConnect ssid password => OnConnectClicked ssid password
  | TapAllow => Decide true
  | TapDeny => Decide false
  end.

(** ** Boot *)

Record WifiCredentialsCheck := { has_stored_credentials : bool; check_ap_ssid : string; check_ap_ip : string }.

(** The end of [InitWifiAndCheckStoredCredentials], once the driver is up. *)
Definition InitWifiAndCheckStoredCredentials : M World WifiCredentialsCheck :=
  let* stored := drive esp_wifi_get_config in
  locked (modify (set_ssid stored)) ;;*
  let* ap_ssid := GetApSsid in
  ret {| has_stored_credentials := negb (is_empty stored); check_ap_ssid := ap_ssid; check_ap_ip := kApGatewayIp |}.

(** [ConnectToWifi] until it waits for the connection. *)
Definition connect_stored : prog unit :=
  let! mode := atomic (drive (esp_wifi_set_mode_apsta false)) in
  checked mode (let! started := atomic esp_start in checked started (Done tt)).

Definition begin_connect : M World bool :=
  let* stored := drive esp_wifi_get_config in
  locked (modify (fun s => set_ssid stored (set_callbacks true s))) ;;*
  ret (negb (is_empty stored)).

Definition ConnectToWifi : prog unit :=
  let! stored := atomic begin_connect in
  if stored : bool then connect_stored
  else atomic (locked (modify (set_provisioning true))) ;;! StartSetupAccessPoint.

Definition initial_policy : WifiReconnectPolicy :=
  {| max_setup_attempts_ := kMaxSetupReconnectAttempts; normal_mode_recovery_attempts_ := kNormalModeRecoveryAttempts;
     retry_delay_ms_ := kReconnectBackoffMs; recovery_ap_retry_delay_ms_ := kRecoveryApReconnectBackoffMs; attempts_ := 0 |}.

Definition initial_state : WifiSetupState :=
  {| setup_server := None; reconnect_policy := initial_policy; ap_client_count := 0; initial_provisioning := false;
     pending_credentials := no_pending; ui_callbacks := false;
     network_status := {| connected := false; net_ssid := EmptyString; ip_address := EmptyString |}; pending_ssid := EmptyString |}.

Definition initial_world (e : E) : World :=
  {| env := e; g_state := initial_state; g_reconnect_timer := None; g_recovery_timer := false; events := []; link := Stopped;
     connected_bit := false; ui_queue := [];
     screen := {| has_pending_request_ := false; pending_request_id_ := 0; request_text := EmptyString;
                  error_text := EmptyString; ap_info := None; nav := Nav.app_navigation |};
     happened := [] |}.

(** ** The tasks together *)

(** The event loop and the UI task run one program at a time, in the order of their
    queues; [others] are the timers' task, the HTTP workers and the main task. *)
Record System := { world : World; event_task : prog unit; ui_task : prog unit; others : list (prog unit) }.

Context {C : Type} (recv : Z -> M C Recv).

(** One step: a task runs its next section (or takes up its next item), the driver posts an
    event, a timer fires, a form is submitted, the screen is tapped. *)
Inductive Step :=
| EventStep | UiStep | OtherStep (i : nat) | Post (event : WifiEvent) | FireReconnect | FireRecovery
| SubmitForm (content_len : Z) (conn : C) | TapScreen (tap : Tap).

(** What the driver may post: it announces a start itself ([esp_start]); an address needs a
    connection; a disconnect ends the attempt or the connection. *)
Definition post (event : WifiEvent) (w : World) : World :=
  match event with
  | StaStart => w
  | StaGotIp _ => match link w with Linked => with_events (events w ++ [event]) w | _ => w end
  | StaDisconnected =>
      with_events (events w ++ [event]) (with_link (match link w with Stopped => Stopped | _ => Idle end) w)
  | ApStaConnected | ApStaDisconnected => with_events (events w ++ [event]) w
  end.

Definition spawn (p : prog unit) (s : System) : System :=
  {| world := world s; event_task := event_task s; ui_task := ui_task s; others := others s ++ [p] |}.

Definition in_world (f : World -> World) (s : System) : System :=
  {| world := f (world s); event_task := event_task s; ui_task := ui_task s; others := others s |}.

Definition sys_step (s : System) (step : Step) : System :=
  match step with
  | EventStep =>
      match event_task s, events (world s) with
      | Done _, [] => s
      | Done _, e :: es =>
          {| world := with_events es (world s); event_task := OnEvent e; ui_task := ui_task s; others := others s |}
      | p, _ => {| world := exec (step_prog p) (world s); event_task := eval (step_prog p) (world s);
                   ui_task := ui_task s; others := others s |}
      end
  | UiStep =>
      match ui_task s, ui_queue (world s) with
      | Done _, [] => s
      | Done _, t :: ts =>
          {| world := with_ui_queue ts (world s); event_task := event_task s; ui_task := run_ui_task t; others := others s |}
      | p, _ => {| world := exec (step_prog p) (world s); event_task := event_task s;
                   ui_task := eval (step_prog p) (world s); others := others s |}
      end
  | OtherStep i =>
      {| world := exec (step_nth i (others s)) (world s); event_task := event_task s; ui_task := ui_task s;
         others := eval (step_nth i (others s)) (world s) |}
  | Post event => in_world (post event) s
  | FireReconnect =>
      match g_reconnect_timer (world s) with
      | Some _ => spawn ReconnectTimerCallback (in_world (with_reconnect None) s)
      | None => s
      end
  | FireRecovery =>
      if g_recovery_timer (world s) then spawn StartRecoveryAccessPoint (in_world (with_recovery false) s) else s
  | SubmitForm content_len conn => spawn (HandlePostConnect recv content_len conn ;;! Done tt) s
  | TapScreen tap =>
      match ui_task s with
      | Done _ => {| world := world s; event_task := event_task s; ui_task := on_tap tap; others := others s |}
      | _ => s
      end
  end.

Definition run (steps : list Step) (s : System) : System := foldl sys_step s steps.

(** The device once [ConnectToWifi] has read what is stored: the rest of it goes on while
    everything else may happen. *)
Definition boots_stored (e : E) : bool := eval begin_connect (initial_world e).

Definition boot (e : E) : System :=
  let w := exec begin_connect (initial_world e) in
  if boots_stored e
  then {| world := w; event_task := Done tt; ui_task := Done tt; others := [connect_stored] |}
  else {| world := exec (locked (modify (set_provisioning true))) w; event_task := Done tt; ui_task := Done tt;
          others := [StartSetupAccessPoint] |}.
End Wifi.

Module Reliable.

(** A driver whose calls succeed; the network named is stored. *)
#[export] Instance driver : WifiDriver unit := {|
  esp_wifi_connect := ret true; esp_wifi_set_config := fun _ _ => ret true; esp_wifi_set_ap_config := fun _ => ret true;
  esp_wifi_set_mode_apsta := fun _ => ret true; esp_wifi_start := ret true; esp_wifi_stop := ret true;
  esp_wifi_get_mac := ret (Some (1, 171, 255)); esp_wifi_get_config := ret "Home";
  httpd_start := fun _ => ret true; httpd_stop := fun _ => ret true; timer_start := ret true |}.
End Reliable.
