(* ===== verification/WifiRetry.v ===== *)
(** WifiRetry: a device that is off the network always has a way back.

    The invariant of [Wifi]'s tasks behind [retry_never_lost]: in every interleaving, an
    attempt is under way, or its end is still to be handled, or the reconnect timer runs,
    or the retries are held for a client of the recovery network, or the first-run form
    waits for another try, or the failure of a call has been logged since the last attempt. *)
From S2P Require Import Prelude Text Http HttpServer Connectivity Threads Ui Wifi.

Section Retry.
Context {E : Type} `{WifiDriver E} {C : Type} (recv : Z -> M C Recv).
Implicit Types w : World (E := E).

(** ** What covers the device *)

(** A call failed after which nothing retries, and no attempt began since. *)
Definition stalls (b : bool) (h : Happening) : bool :=
  match h with
  | Connecting => false
  | Warned RecoveryNotScheduled => b
  | Warned _ => true
  | _ => b
  end.

Definition stalled (l : list Happening) : bool := foldl stalls false l.

(** The events whose handler connects again. *)
Definition reconnects (e : WifiEvent) : bool :=
  match e with StaStart | StaDisconnected => true | _ => false end.

Definition held (s : WifiSetupState) : Prop := recovery_up s = true /\ 0 < ap_client_count s.

Definition gave_up (s : WifiSetupState) : Prop :=
  initial_provisioning s = true /\ max_setup_attempts_ (reconnect_policy s) <= attempts_ (reconnect_policy s).

(** The station was stopped, and nothing has failed since. *)
Definition bare w : Prop := link w = Stopped /\ stalled (happened w) = false.

Definition solid (l : list WifiEvent) w : Prop :=
  link w <> Idle \/ existsb reconnects l = true \/ stalled (happened w) = true.

Definition covered w : Prop :=
  solid (events w) w \/ g_reconnect_timer w <> None \/ held (g_state w) \/ gave_up (g_state w).

(** An address that is still to be handled is that of a link, or of one whose end follows. *)
Definition backed w : Prop := forall l1 ip l2, events w = l1 ++ StaGotIp ip :: l2 -> solid l2 w.

Definition wf w : Prop := backed w /\ 0 <= ap_client_count (g_state w).

(** ** What the tasks rely on *)

(** Only the event loop counts clients, ends provisioning and drops the server. *)
Record calm w w1 : Prop := {
  calm_clients : ap_client_count (g_state w1) = ap_client_count (g_state w);
  calm_provisioning : initial_provisioning (g_state w1) = initial_provisioning (g_state w);
  calm_server : is_Some (setup_server (g_state w)) -> is_Some (setup_server (g_state w1));
  calm_solid : solid (events w) w -> solid (events w1) w1
}.

#[export] Instance calm_preorder : PreOrder calm.
Proof.
  split; [by intros w; split|]. intros w1 w2 w3 [A1 A2 A3 A4] [B1 B2 B3 B4].
  split; [congruence|congruence|auto|auto].
Qed.

Definition anything w w1 : Prop := True.

#[export] Instance anything_preorder : PreOrder anything.
Proof. by split. Qed.

(** What a program owes the others: nothing, a way back, or to start the station it stopped. *)
Inductive Debt := Nothing | Retry | Restart.

(** A step leaves the device covered, or keeps it covered, or is followed by one that must;
    and the same for a station that was stopped. *)
Definition pays_cover (d d' : Debt) w1 w2 : Prop :=
  d' <> Nothing \/ covered w2 \/ (d = Nothing /\ (covered w1 -> covered w2)).

Definition pays_start (d d' : Debt) w1 w2 : Prop := d' = Restart \/ ~ bare w2 \/ (d <> Restart /\ (bare w2 -> bare w1)).

Definition pays (d d' : Debt) w1 w2 : Prop := pays_cover d d' w1 w2 /\ pays_start d d' w1 w2.

Definition other_step (d d' : Debt) w1 w2 : Prop := pays d d' w1 w2 /\ calm w1 w2 /\ (wf w1 -> wf w2).

Definition event_step (d d' : Debt) w1 w2 : Prop := pays d d' w1 w2 /\ (wf w1 -> wf w2).

Abbreviation ok_other := (ok anything other_step).
Abbreviation ok_event := (ok calm event_step).

(** ** Kinds of section *)

Lemma stalled_app l h : stalled (l ++ [h]) = stalls (stalled l) h.
Proof. unfold stalled. by rewrite foldl_app. Qed.

(** Whatever else a section does, it stops nothing. *)
Definition gentle w w1 : Prop := calm w w1 /\ (wf w -> wf w1) /\ (bare w1 -> bare w).

#[export] Instance gentle_preorder : PreOrder gentle.
Proof.
  split; [by intros w; split_and!; [reflexivity| |]|]. intros w1 w2 w3 (A1 & A2 & A3) (B1 & B2 & B3).
  split_and!; [by etrans|auto|auto].
Qed.

(** Nothing covered is uncovered. *)
Definition neutral {A} (m : M (World (E := E)) A) : Prop :=
  forall w, gentle w (exec m w) /\ (covered w -> covered (exec m w)).

(** Only the timer, or the attempts, may be lost. *)
Definition breaking {A} (m : M (World (E := E)) A) : Prop := forall w, gentle w (exec m w).

(** Two states that differ in nothing that matters here. *)
Definition same w w1 : Prop :=
  ap_client_count (g_state w1) = ap_client_count (g_state w) /\
  initial_provisioning (g_state w1) = initial_provisioning (g_state w) /\
  setup_server (g_state w1) = setup_server (g_state w) /\
  reconnect_policy (g_state w1) = reconnect_policy (g_state w) /\
  events w1 = events w /\ link w1 = link w /\ g_reconnect_timer w1 = g_reconnect_timer w /\
  stalled (happened w1) = stalled (happened w).

Lemma same_neutral {A} (m : M World A) : (forall w, same w (exec m w)) -> neutral m.
Proof.
  intros Hs w. destruct (Hs w) as (S1 & S2 & S3 & S4 & S5 & S6 & S7 & S8).
  assert (Hsol : forall l, solid l w -> solid l (exec m w)) by (intros l; unfold solid; by rewrite S6, S8).
  split; [split_and!|].
  - split; [done|done|by rewrite S3|]. rewrite S5. apply Hsol.
  - unfold wf, backed. rewrite S1, S5. intros [Hb Hc]. split; [|done]. intros l1 ip l2 He. apply Hsol. by apply (Hb l1 ip).
  - unfold bare. by rewrite S6, S8.
  - unfold covered, held, gave_up, recovery_up. rewrite S1, S2, S3, S4, S5, S7. intros [Hc|Hc]; [left; by apply Hsol|by right].
Qed.

Lemma drive_neutral {A} (m : M E A) : neutral (drive m).
Proof. apply same_neutral. intros w. unfold exec, drive. by destruct (m (env w)). Qed.

Lemma locked_gets_neutral {A} (f : WifiSetupState -> A) : neutral (locked (gets f)).
Proof. apply same_neutral. intros w. done. Qed.

Lemma on_screen_neutral f : neutral (on_screen (E := E) f).
Proof. by apply same_neutral. Qed.

Lemma call_ui_neutral hooked task : neutral (call_ui (E := E) hooked task).
Proof. apply same_neutral. intros w. by destruct hooked. Qed.

Lemma bind_neutral {A B} (m : M World A) (k : A -> M World B) :
  neutral m -> (forall a, neutral (k a)) -> neutral (bind m k).
Proof.
  intros Hm Hk w. unfold exec. rewrite run_bind. destruct (Hm w) as (A1 & A2), (Hk (m w).1 (exec m w)) as (B1 & B2).
  split; [by etrans|auto].
Qed.

Lemma ret_neutral {A} (a : A) : neutral (ret (S := World (E := E)) a).
Proof. by apply same_neutral. Qed.

(** ** Sections that are not neutral *)

(** Pays when it succeeds, neutral when it fails. *)
Definition pays_on_success (m : M (World (E := E)) bool) : Prop :=
  forall w, gentle w (exec m w) /\ (if eval m w then covered (exec m w) else covered w -> covered (exec m w)).

(** Pays, and the station runs. *)
Definition starts_on_success (m : M (World (E := E)) bool) : Prop :=
  pays_on_success m /\ forall w, eval m w = true -> ~ bare (exec m w).

Lemma drive_then_spec (call : M E bool) done :
  (forall w, gentle w (done w) /\ covered (done w)) -> pays_on_success (drive_then call done).
Proof.
  intros Hd w. unfold exec, eval, drive_then. rewrite run_bind.
  pose proof (drive_neutral call w) as (N1 & N2). unfold exec in *.
  destruct (drive call w).1; cbn [fst snd modify ret]; [|done].
  destruct (Hd (drive call w).2) as (D1 & D2). split; [by etrans|done].
Qed.

Lemma drive_then_starts (call : M E bool) done :
  (forall w, gentle w (done w) /\ covered (done w)) -> (forall w, ~ bare (done w)) -> starts_on_success (drive_then call done).
Proof.
  intros Hd Hb. split; [by apply drive_then_spec|]. intros w. unfold exec, eval, drive_then. rewrite run_bind.
  destruct (drive call w).1; cbn [fst snd modify ret]; [|done]. intros _. apply Hb.
Qed.

Lemma pays_on_success_neutral m : pays_on_success m -> neutral m.
Proof. intros Hm w. destruct (Hm w) as (H1 & H2). split; [done|]. destruct (eval m w); auto. Qed.

(** The rest of the world as it was, and the device solid whatever waits. *)
Lemma solid_gentle w w1 :
  g_state w1 = g_state w -> (forall l, solid l w1) -> ~ bare w1 -> gentle w w1.
Proof.
  intros Hg Hs Hb. split_and!; [split; [by rewrite Hg|by rewrite Hg|by rewrite Hg|intros _; apply Hs]| |done].
  intros [_ Hc]. split; [|by rewrite Hg]. intros l1 ip l2 _. apply Hs.
Qed.

Lemma solid_link l w : solid l (with_happened (happened w ++ [Connecting]) (with_link Linked w)).
Proof. by left. Qed.

Lemma esp_connect_starts : starts_on_success (esp_connect (E := E)).
Proof.
  apply drive_then_starts; intros w; [|by intros []]. split; [|left; apply solid_link].
  apply solid_gentle; [done|intros l; apply solid_link|by intros []].
Qed.

Lemma solid_app l e w : solid l w -> solid (l ++ [e]) w.
Proof. unfold solid. rewrite existsb_app. intros [?|[->|?]]; cbn; auto. Qed.

(** An event at the end of the queue. *)
Lemma push_wf e w w1 :
  events w1 = events w ++ [e] -> g_state w1 = g_state w ->
  (forall l, solid (l ++ [e]) w1) -> wf w -> wf w1.
Proof.
  intros He Hg Hs [Hb Hc]. split; [|by rewrite Hg]. intros l1 ip l2 El. rewrite He in El.
  destruct l2 as [|e2 l2 _] using rev_ind.
  - apply app_inj_tail in El as [_ ->]. specialize (Hs []). unfold solid in *. cbn in Hs. destruct Hs as [?|[?|?]]; [by left|done|by right; right].
  - rewrite app_comm_cons, app_assoc in El. apply app_inj_tail in El as [_ ->]. apply Hs.
Qed.

(** An event that connects again, at the end of the queue. *)
Lemma push_gentle e w w1 :
  reconnects e = true -> events w1 = events w ++ [e] -> g_state w1 = g_state w -> (bare w1 -> bare w) ->
  gentle w w1 /\ covered w1.
Proof.
  intros Hr He Hg Hb.
  assert (Hs : forall l, solid (l ++ [e]) w1).
  { intros l. right. left. rewrite existsb_app. cbn. by rewrite Hr, orb_true_r. }
  split; [split_and!|left; rewrite He; apply Hs]; [|by apply (push_wf e)|done].
  split; [by rewrite Hg|by rewrite Hg|by rewrite Hg|intros _; rewrite He; apply Hs].
Qed.

Lemma esp_start_starts : starts_on_success (esp_start (E := E)).
Proof.
  assert (Hb : forall w, ~ bare (with_events (events w ++ [StaStart]) (with_link (match link w with Stopped => Idle | l => l end) w))).
  { intros w [Hl _]. cbn in Hl. by destruct (link w). }
  apply drive_then_starts; [|done]. intros w. by apply (push_gentle StaStart); [| | |intros Hw; destruct (Hb w)].
Qed.

Lemma start_reconnect_pays delay : pays_on_success (start_reconnect (E := E) delay).
Proof.
  intros w. unfold exec, eval, start_reconnect. destruct (g_reconnect_timer w) eqn:Et.
  - cbn. by split.
  - apply (drive_then_spec timer_start (with_reconnect (Some delay))). clear w Et. intros w.
    split; [by split_and!; [split| |]|by right; left].
Qed.

Lemma start_recovery_neutral : neutral (start_recovery (E := E)).
Proof.
  intros w. unfold exec, start_recovery. destruct (g_recovery_timer w); [done|].
  apply same_neutral. clear w. intros w. unfold exec, drive_then. rewrite run_bind. unfold drive.
  destruct (timer_start (env w)) as [[] e]; done.
Qed.

Lemma GetApSsid_neutral : neutral (GetApSsid (E := E)).
Proof.
  unfold GetApSsid. apply bind_neutral; [apply drive_neutral|]. intros mac.
  destruct (match mac with Some m => m | None => (0, 0, 0) end) as [[? ?] ?]. apply ret_neutral.
Qed.

Lemma set_config_neutral s p : neutral (esp_set_config (E := E) s p).
Proof.
  apply same_neutral. intros w. unfold exec, esp_set_config, drive_then. rewrite run_bind. unfold drive.
  destruct (esp_wifi_set_config _ _ (env w)) as [[] e]; [|done]. unfold same. cbn. rewrite stalled_app. done.
Qed.

Lemma happen_neutral h : (forall b, stalls b h = b) -> neutral (happen (E := E) h).
Proof. intros Hh. apply same_neutral. intros w. unfold same. cbn. by rewrite stalled_app, Hh. Qed.

(** A logged failure after which nothing retries. *)
Lemma warn_pays what w :
  stalls false (Warned what) = true -> gentle w (exec (warn what) w) /\ covered (exec (warn what) w) /\ ~ bare (exec (warn what) w).
Proof.
  intros Hst. assert (Hl : stalled (happened (exec (warn what) w)) = true) by (cbn; rewrite stalled_app; by destruct what).
  assert (Hb : ~ bare (exec (warn what) w)) by (intros [_ Hn]; congruence).
  split_and!; [|left; by right; right|done]. apply solid_gentle; [done| |done]. intros l. by right; right.
Qed.

(** A stop ends what is under way; only its own program knows. *)
Lemma esp_stop_spec w :
  calm w (exec (esp_stop (E := E)) w) /\ (wf w -> wf (exec esp_stop w)) /\
  (if eval esp_stop w then covered (exec esp_stop w) else (covered w -> covered (exec esp_stop w)) /\ (bare (exec esp_stop w) -> bare w)).
Proof.
  unfold exec, eval, esp_stop, drive_then. rewrite run_bind. pose proof (drive_neutral esp_wifi_stop w) as ((N1 & N2 & N3) & N4).
  unfold exec in *. destruct (drive esp_wifi_stop w) as [[] w1]; cbn [fst snd modify ret bind] in *; [|done].
  assert (Hs : forall l, solid l (with_link Stopped w1)) by (intros l; by left).
  split_and!; [etrans; [exact N1|]; split; [done|done|done|intros _; apply Hs]| |left; apply Hs].
  intros Hw. destruct (N2 Hw) as [_ Hc]. split; [|done]. intros l1 ip l2 _. apply Hs.
Qed.

Lemma cancel_breaking : breaking (CancelReconnectTimer (E := E)).
Proof. intros w. by split_and!; [split| |]. Qed.

Lemma reset_breaking s : breaking (locked (E := E) (modify (fun st => set_policy (ResetAttempts (reconnect_policy st)) (set_ssid s st)))).
Proof. intros w. by split_and!; [split| |]. Qed.

Lemma publish_neutral port : neutral (locked (E := E) (modify (set_server (Some port)))).
Proof.
  intros w. split; [by split_and!; [split| |]|]. unfold covered, held, gave_up, recovery_up. cbn.
  destruct (initial_provisioning (g_state w)); cbn; [done|]. intros [?|[?|[[? ?]|[? ?]]]]; auto; done.
Qed.

Lemma set_pending_neutral {A} (m : M PendingWifiCredentials A) : neutral (on_pending (E := E) m).
Proof. apply same_neutral. intros w. unfold exec, on_pending, locked. by destruct (m (pending_credentials (g_state w))). Qed.

Lemma clear_pending_neutral : neutral (locked (E := E) (modify (fun s => set_pending (Clear (pending_credentials s)) s))).
Proof. by apply same_neutral. Qed.

Lemma bit_neutral : neutral (modify (with_bit true)).
Proof. by apply same_neutral. Qed.

(** ** Programs of the other tasks *)

(** Fine whatever the state they start in, with the debt [d]. *)
Definition safe {A} (Q : A -> Debt -> Prop) (p : prog A) (d : Debt) : Prop :=
  forall w, ok_other (fun a d' _ => Q a d') p d w.

(** Nothing is owed at the end. *)
Definition clear {A} (_ : A) (d : Debt) : Prop := d = Nothing.

Lemma safe_done {A} (Q : A -> Debt -> Prop) a d : Q a d -> safe Q (Done a) d.
Proof. by intros Hq w w1 _. Qed.

Lemma safe_bind {A B} (Q : B -> Debt -> Prop) (p : prog A) (k : A -> prog B) d :
  safe (fun a d' => safe Q (k a) d') p d -> safe Q (pbind p k) d.
Proof.
  intros Hp w. apply ok_bind; [exact _|]. specialize (Hp w). revert Hp. generalize d w. clear d w.
  induction p as [a|X m k' IH]; cbn; intros d w Hp w1 H1.
  - by apply (Hp w1).
  - destruct (Hp w1 H1) as (d' & Hs & Hk). exists d'. split; [done|]. by apply IH.
Qed.

(** A section, and what it leaves owing. *)
Lemma safe_section {A B} (Q : B -> Debt -> Prop) (m : M World A) k d (d' : A -> Debt) :
  (forall w, calm w (exec m w) /\ (wf w -> wf (exec m w)) /\ pays d (d' (eval m w)) w (exec m w)) ->
  (forall a, safe Q (k a) (d' a)) -> safe Q (Atomic m k) d.
Proof.
  intros Hm Hk w w1 _. destruct (Hm w1) as (H1 & H2 & H3). exists (d' (eval m w1)). split; [by split_and!|apply Hk].
Qed.

Lemma pays_same d w1 w2 : (covered w1 -> covered w2) -> (bare w2 -> bare w1) -> pays d d w1 w2.
Proof. intros Hc Hb. split; destruct d; [right; right|by left|by left|right; right|right; right|by left]; done. Qed.

Lemma safe_neutral {A B} (Q : B -> Debt -> Prop) (m : M World A) k d :
  neutral m -> (forall a, safe Q (k a) d) -> safe Q (Atomic m k) d.
Proof.
  intros Hm Hk. apply (safe_section _ _ _ _ (fun _ => d)); [|done]. intros w. destruct (Hm w) as ((H1 & H2 & H3) & H4).
  split_and!; [done..|]. by apply pays_same.
Qed.

Lemma safe_breaking {A B} (Q : B -> Debt -> Prop) (m : M World A) k d :
  breaking m -> d <> Restart -> (forall a, safe Q (k a) Retry) -> safe Q (Atomic m k) d.
Proof.
  intros Hm Hd Hk. apply (safe_section _ _ _ _ (fun _ => Retry)); [|done]. intros w. destruct (Hm w) as (H1 & H2 & H3).
  split_and!; [done..|]. split; [by left|right; right; done].
Qed.

Lemma safe_pays {B} (Q : B -> Debt -> Prop) m k d :
  pays_on_success m -> d <> Restart -> safe Q (k true) Nothing -> safe Q (k false) d -> safe Q (Atomic m k) d.
Proof.
  intros Hm Hd Ht Hf. apply (safe_section _ _ _ _ (fun b : bool => if b then Nothing else d)); [|by intros []].
  intros w. destruct (Hm w) as ((H1 & H2 & H3) & H4). split_and!; [done..|]. destruct (eval m w); [|by apply pays_same].
  split; [by right; left|right; right; done].
Qed.

Lemma safe_starts {B} (Q : B -> Debt -> Prop) m k d :
  starts_on_success m -> safe Q (k true) Nothing -> safe Q (k false) d -> safe Q (Atomic m k) d.
Proof.
  intros [Hm Hn] Ht Hf. apply (safe_section _ _ _ _ (fun b : bool => if b then Nothing else d)); [|by intros []].
  intros w. destruct (Hm w) as ((H1 & H2 & H3) & H4). specialize (Hn w). split_and!; [done..|].
  destruct (eval m w); [|by apply pays_same]. split; [by right; left|right; left; auto].
Qed.

Lemma safe_stop {B} (Q : B -> Debt -> Prop) k d :
  safe Q (k true) Restart -> safe Q (k false) d -> safe Q (Atomic (esp_stop (E := E)) k) d.
Proof.
  intros Ht Hf. apply (safe_section _ _ _ _ (fun b : bool => if b then Restart else d)); [|by intros []].
  intros w. destruct (esp_stop_spec w) as (H1 & H2 & H3). split_and!; [done..|].
  destruct (eval esp_stop w); [split; by left|]. destruct H3 as [H3 H4]. by apply pays_same.
Qed.

Lemma safe_warn {B} (Q : B -> Debt -> Prop) what k d :
  stalls false (Warned what) = true -> safe Q (k tt) Nothing -> safe Q (Atomic (warn what) k) d.
Proof.
  intros Hw Hk. apply (safe_section _ _ _ _ (fun _ => Nothing)); [|by intros []]. intros w.
  destruct (warn_pays what w Hw) as ((H1 & H2 & _) & H3 & H4). split_and!; [done..|]. split; [by right; left|by right; left].
Qed.

Lemma safe_weaken {A} (Q Q' : A -> Debt -> Prop) (p : prog A) d :
  (forall a d', Q a d' -> Q' a d') -> safe Q p d -> safe Q' p d.
Proof.
  intros Hq Hp w. specialize (Hp w). revert d w Hp. induction p as [a|X m k IH]; cbn; intros d w Hp w1 H1.
  - by apply Hq, (Hp w1).
  - destruct (Hp w1 H1) as (d' & Hs & Hk). exists d'. split; [done|]. by apply IH.
Qed.

(** A program that settles its debt, and what follows it. *)
Lemma safe_then {A B} (Q : B -> Debt -> Prop) (p : prog A) (k : A -> prog B) d :
  safe clear p d -> (forall a, safe Q (k a) Nothing) -> safe Q (pbind p k) d.
Proof. intros Hp Hk. apply safe_bind. apply safe_weaken with (Q := clear); [|done]. intros a d' ->. apply Hk. Qed.
End Retry.

Create HintDb wifi.
#[export] Hint Resolve drive_neutral locked_gets_neutral on_screen_neutral call_ui_neutral GetApSsid_neutral
  publish_neutral set_pending_neutral set_config_neutral start_recovery_neutral
  ret_neutral clear_pending_neutral bit_neutral : wifi.
#[export] Hint Extern 1 (neutral (warn _)) => apply happen_neutral; intros []; reflexivity : wifi.
#[export] Hint Extern 1 (neutral (happen _)) => apply happen_neutral; intros []; reflexivity : wifi.
#[export] Hint Resolve cancel_breaking reset_breaking : wifi.
#[export] Hint Resolve esp_connect_starts esp_start_starts start_reconnect_pays : wifi.

(** Steps through the sections of a program; what is left are the choices on a value read. *)
Ltac sections :=
  repeat first
    [ apply safe_done; reflexivity
    | progress unfold atomic
    | progress cbn [pbind atomic unless_ok checked negb]
    | match goal with
      | |- safe _ (Atomic (warn _) _) _ => apply safe_warn; [reflexivity|]
      | |- safe _ (if negb ?b then _ else _) _ => destruct b
      | |- safe _ (if ?b then _ else _) _ => destruct b
      | |- safe _ (pbind (if negb ?b then _ else _) _) _ => destruct b
      | |- safe _ (pbind (if ?b then _ else _) _) _ => destruct b
      | |- safe _ (checked ?b _) _ => destruct b
      | |- safe _ (unless_ok ?b _) _ => destruct b
      | |- safe _ (pbind (unless_ok ?b _) _) _ => destruct b
      end
    | apply safe_starts; [solve [auto with wifi]| |]
    | apply safe_pays; [solve [auto with wifi]|discriminate| |]
    | apply safe_stop
    | apply safe_neutral; [solve [auto with wifi]|intros ?]
    | apply safe_breaking; [solve [auto with wifi]|discriminate|intros ?] ].

Section Programs.
Context {E : Type} `{WifiDriver E} {C : Type} (recv : Z -> M C Recv).

Lemma timer_callback_safe : safe clear (ReconnectTimerCallback (E := E)) Retry.
Proof. unfold ReconnectTimerCallback. sections. Qed.

Lemma connect_stored_safe : safe clear (connect_stored (E := E)) Restart.
Proof. unfold connect_stored. sections. Qed.

Lemma setup_access_point_safe : safe clear (StartSetupAccessPoint (E := E)) Restart.
Proof. unfold StartSetupAccessPoint, StartSetupHttpServer, offer_setup. sections. Qed.

Lemma recovery_access_point_safe : safe clear (StartRecoveryAccessPoint (E := E)) Nothing.
Proof. unfold StartRecoveryAccessPoint, StartSetupHttpServer, offer_setup. sections. Qed.

Lemma apply_safe s p : safe clear (ApplyWifiCredentials (E := E) s p) Nothing.
Proof. unfold ApplyWifiCredentials. sections. Qed.

Lemma submit_neutral s p : neutral (submit_request (E := E) s p).
Proof.
  unfold submit_request. apply bind_neutral; [auto with wifi|]. intros [id|]; [|auto with wifi].
  apply bind_neutral; auto with wifi.
Qed.

Lemma recovery_request_safe s p : safe clear (HandleRecoveryRequest (E := E) s p) Nothing.
Proof.
  unfold HandleRecoveryRequest. cbn [pbind atomic]. apply safe_neutral; [apply submit_neutral|]. intros [id|]; sections.
Qed.

Lemma form_safe len conn : safe clear (HandlePostConnect (E := E) recv len conn) Nothing.
Proof.
  unfold HandlePostConnect. destruct (_ || _); [by apply safe_done|]. destruct (eval _ conn); [|by apply safe_done..].
  sections.
  - apply safe_then; [apply apply_safe|]. intros ok. sections.
  - apply recovery_request_safe.
Qed.

Lemma take_decision_neutral allow : neutral (take_decision (E := E) allow).
Proof.
  unfold take_decision. apply bind_neutral; [by apply same_neutral|]. intros s.
  destruct (negb _); [auto with wifi|].
  repeat (apply bind_neutral; [|intros ?]); [auto with wifi| |auto with wifi]. destruct allow; auto with wifi.
Qed.

Lemma decide_safe allow : safe clear (Decide (E := E) allow) Nothing.
Proof.
  unfold Decide. cbn [pbind atomic]. apply safe_neutral; [apply take_decision_neutral|]. intros [id|]; [|by apply safe_done].
  apply safe_then; [|intros []; sections].
  unfold wifi_pending_decision. destruct allow; cbn [negb].
  - apply safe_then; [|by intros; apply safe_done]. unfold ApproveRecoveryCredentials. sections.
    destruct a; [|by apply safe_done]. apply safe_then; [apply apply_safe|]. intros; by apply safe_done.
  - unfold RejectRecoveryCredentials. sections.
Qed.

Lemma tap_safe tap : safe clear (on_tap (E := E) tap) Nothing.
Proof.
  destruct tap as [s p| |]; [|apply decide_safe..]. cbn [on_tap]. unfold OnConnectClicked, atomic. cbn [pbind].
  apply safe_neutral; [apply bind_neutral; auto with wifi|]. intros _.
  apply safe_then; [apply apply_safe|]. intros ok. sections.
Qed.

Lemma ui_task_safe task : safe clear (run_ui_task (E := E) task) Nothing.
Proof. destruct task; cbn [run_ui_task]; sections. apply safe_neutral; [apply bind_neutral; auto with wifi|]. by intros; apply safe_done. Qed.
End Programs.

(** ** Programs of the event loop *)

Section Events.
Context {E : Type} `{WifiDriver E}.
Implicit Types w : World (E := E).

Abbreviation fine_event := (fine calm event_step Nothing).

Lemma safe_event (p : prog unit) d w : safe clear p d -> fine_event p d w.
Proof.
  intros Hp. specialize (Hp w). unfold fine. revert d w Hp.
  induction p as [a|X m k IH]; cbn; intros d w Hp w1 H1.
  - by apply (Hp w1).
  - destruct (Hp w1 I) as (d' & (Hs & _ & Hw) & Hk). exists d'. split; [done|]. by apply IH.
Qed.

(** One section of the event loop, from a state the others may have reached. *)
Lemma event_atomic {A} (m : M World A) (k : A -> prog unit) d w :
  (forall w1, calm w w1 -> exists d', event_step d d' w1 (exec m w1) /\ fine_event (k (eval m w1)) d' (exec m w1)) ->
  fine_event (Atomic m k) d w.
Proof. done. Qed.

Lemma event_done w : fine_event (Done tt) Nothing w.
Proof. by intros w1 _. Qed.

(** Nothing is stopped here, and nothing is forgotten. *)
Lemma event_pays d d' w1 w2 :
  d <> Restart -> (bare w2 -> bare w1) -> d' <> Nothing \/ covered w2 \/ (d = Nothing /\ (covered w1 -> covered w2)) ->
  (wf w1 -> wf w2) -> event_step d d' w1 w2.
Proof. intros Hd Hb Hc Hw. split; [split; [done|right; by right]|done]. Qed.

Lemma held_stable w w1 : calm w w1 -> held (g_state w) -> held (g_state w1).
Proof.
  intros [C1 C2 C3 _] [Hr Hc]. unfold held, recovery_up in *. rewrite C1, C2. split; [|done].
  apply andb_true_iff in Hr as [-> Hs]. cbn. destruct (setup_server (g_state w)); [|done].
  destruct C3 as [x ->]; [by eexists|done].
Qed.

(** While a client holds the retries, dropping the timer leaves the device covered. *)
Lemma cancel_held w : held (g_state w) -> fine_event (Atomic CancelReconnectTimer (fun _ => Done tt)) Nothing w.
Proof.
  intros Hh. apply event_atomic. intros w1 Hc. exists Nothing. split; [|apply event_done].
  apply event_pays; [done|done| |by apply cancel_breaking]. right. left. right. right. left. exact (held_stable w w1 Hc Hh).
Qed.

Lemma disconnected_section w :
  let w2 := exec (locked on_disconnected) w in
  let '(abandon, offer, delay, _) := eval (locked on_disconnected) w in
  (wf w -> wf w2) /\ (abandon = true -> gave_up (g_state w2)) /\
  (abandon = false -> delay = None -> offer = false /\ held (g_state w2)).
Proof.
  unfold eval, exec, locked, on_disconnected. rewrite !run_bind. cbn [modify get fst snd].
  destruct (OnDisconnected _ _) as [dec pol] eqn:Ed. cbn.
  unfold OnDisconnected in Ed. cbn in Ed.
  destruct (initial_provisioning (g_state w) && _) eqn:Eg; injection Ed as <- <-; cbn.
  - split_and!; [done| |done]. intros _. apply andb_true_iff in Eg as [Hi Ha]. unfold gave_up. cbn. split; [done|lia].
  - split_and!; [done|done|]. intros _ Hd. unfold RetryDelayMs, recovery_up in Hd. cbn in Hd.
    unfold held, recovery_up. cbn.
    destruct (initial_provisioning (g_state w)), (setup_server (g_state w)); cbn in *; try done.
    destruct (_ <=? _); [done|]. destruct (Z.ltb_spec 0 (ap_client_count (g_state w))); [done|done].
Qed.

Lemma locked_bare {A} (m : M WifiSetupState A) w : bare (exec (locked m) w) -> bare w.
Proof. unfold exec, locked. by destruct (m (g_state w)). Qed.

(** What an event's handler owes. *)
Definition owed (e : WifiEvent) : Debt := if reconnects e then Retry else Nothing.

Lemma sta_disconnected_fine w : fine_event (OnEvent StaDisconnected) Retry w.
Proof.
  cbn [OnEvent]. unfold on_sta_disconnected. cbn [pbind atomic]. apply event_atomic. intros w1 _.
  pose proof (disconnected_section w1) as Hd. cbv zeta in Hd.
  destruct (eval (locked on_disconnected) w1) as [[[abandon offer] delay] hooked]. destruct Hd as (Hw & Hg & Hh).
  destruct abandon; [|destruct delay as [delay|]].
  - exists Nothing. split; [apply event_pays; [done|apply locked_bare|right; left; right; right; right; auto|done]|]. apply safe_event. sections.
  - exists Retry. split; [apply event_pays; [done|apply locked_bare|by left|done]|]. apply safe_event. destruct offer; sections.
  - destruct Hh as [-> Hh]; [done..|]. exists Nothing. cbn [pbind].
    split; [apply event_pays; [done|apply locked_bare|right; left; right; right; by left|done]|]. by apply cancel_held.
Qed.

Lemma ap_sta_connected_fine w : wf w -> fine_event (OnEvent ApStaConnected) Nothing w.
Proof.
  intros [_ Hc]. cbn [OnEvent]. unfold on_ap_sta_connected. cbn [pbind atomic]. apply event_atomic. intros w1 C1.
  pose proof (calm_clients _ _ C1) as N1.
  set (w2 := exec _ w1). assert (N2 : ap_client_count (g_state w2) = ap_client_count (g_state w1) + 1) by done.
  exists Nothing. split.
  - apply event_pays; [done|done|right; right; split; [done|]|].
    + unfold covered, held, gave_up, recovery_up, solid. cbn. intros [?|[?|[[? ?]|?]]]; auto. right. right. left. split; [done|lia].
    + intros [Hb Hn]. split; [done|]. lia.
  - apply event_atomic. intros w3 C3. exists Nothing. split; [apply event_pays; [done|done|right; right; done|done]|]. cbn [exec locked gets snd].
    unfold RecoveryRetriesAreSlowed, eval, exec, locked, gets. cbn [fst snd]. unfold with_state. cbn.
    destruct (recovery_up (g_state w3)) eqn:Er; [|apply event_done]. apply cancel_held. split; [done|].
    cbn. rewrite (calm_clients _ _ C3). lia.
Qed.

Lemma client_left_spec w :
  let w2 := exec (locked client_left) w in
  (wf w -> wf w2) /\ g_state w2 = set_clients (Z.max 0 (ap_client_count (g_state w) - 1)) (g_state w) /\
  (eval (locked client_left) w = None -> 0 < ap_client_count (g_state w2)) /\
  (recovery_up (g_state w) = false \/ 0 < ap_client_count (g_state w2) -> covered w -> covered w2).
Proof.
  cbv zeta. split_and!; [|done| |].
  - intros [Hb _]. split; [done|]. cbn. lia.
  - unfold eval, locked, client_left, modify, bind, get, ret. cbn. unfold RetryDelayMs. cbn.
    destruct (Z.eqb_spec (Z.max 0 (ap_client_count (g_state w) - 1)) 0) as [->|]; [|intros _; lia].
    by destruct (negb _ || _).
  - unfold covered, held, gave_up, recovery_up, solid. cbn. intros Hor [Hs|[Ht|[[Hr Hc]|Hg]]]; [by left|by right; left| |by right; right; right].
    right. right. left. destruct Hor as [Hf|Hp]; [congruence|done].
Qed.

Lemma recovery_up_stable w w1 : calm w w1 -> recovery_up (g_state w) = true -> recovery_up (g_state w1) = true.
Proof.
  intros [_ C2 C3 _]. unfold recovery_up. rewrite C2. intros Hr. apply andb_true_iff in Hr as [-> Hs]. cbn.
  destruct (setup_server (g_state w)); [|done]. destruct C3 as [x ->]; [by eexists|done].
Qed.

Lemma ap_sta_disconnected_fine w : fine_event (OnEvent ApStaDisconnected) Nothing w.
Proof.
  cbn [OnEvent]. unfold on_ap_sta_disconnected. cbn [pbind atomic]. apply event_atomic. intros w1 _.
  destruct (client_left_spec w1) as (Hw & Hg & Hn & Hc).
  destruct (eval (locked client_left) w1) as [delay|].
  2:{ exists Nothing. split; [|apply event_done]. apply event_pays; [done|done| |done]. right. right. split; [done|]. apply Hc. right. by apply Hn. }
  destruct (recovery_up (g_state w1)) eqn:Er.
  - exists Retry. split; [apply event_pays; [done|done|by left|done]|]. apply event_atomic. intros w3 C3.
    assert (Hup : recovery_up (g_state w3) = true) by (apply (recovery_up_stable _ _ C3); by rewrite Hg).
    exists Retry. split; [apply event_pays; [done|done|by left|done]|]. unfold RecoveryRetriesAreSlowed, eval, locked, gets. cbn [fst snd]. rewrite Hup.
    apply safe_event. sections.
  - exists Nothing. split; [apply event_pays; [done|done|right; right; split; [done|]; apply Hc; by left|done]|]. apply safe_event.
    cbn [pbind]. unfold RecoveryRetriesAreSlowed. sections.
Qed.

Lemma got_ip_fine ip w : solid (events w) w -> fine_event (OnEvent (StaGotIp ip)) Nothing w.
Proof.
  intros Hs. cbn [OnEvent]. unfold on_got_ip. cbn [pbind atomic]. apply event_atomic. intros w1 C1.
  pose proof (calm_solid _ _ C1 Hs) as Hs1. exists Nothing. split; [apply event_pays; [done|done|right; left; by left|by apply cancel_breaking]|].
  apply event_atomic. intros w2 C2. assert (Hs2 : solid (events w2) w2).
  { apply (calm_solid _ _ C2). exact Hs1. }
  exists Nothing. split; [apply event_pays; [done|done|right; left; by left|]|].
  - intros [Hb _]. split; [exact Hb|]. cbn. lia.
  - apply safe_event. cbn. destruct (setup_server (g_state w2)); sections.
Qed.

Lemma on_event_fine e w :
  wf w -> match e with StaStart | StaDisconnected => True | StaGotIp _ => solid (events w) w | _ => True end ->
  fine_event (OnEvent e) (owed e) w.
Proof.
  intros Hw He. destruct e; cbn [owed reconnects].
  - apply safe_event. cbn [OnEvent]. sections.
  - apply sta_disconnected_fine.
  - by apply ap_sta_connected_fine.
  - apply ap_sta_disconnected_fine.
  - by apply got_ip_fine.
Qed.
End Events.

(** ** The tasks together *)

Section System.
Context {E : Type} `{WifiDriver E} {C : Type} (recv : Z -> M C Recv).
Implicit Types (w : World (E := E)) (s : System (E := E)).

Abbreviation fine_event := (fine calm event_step Nothing).
Abbreviation fine_other := (fine anything other_step Nothing).

Lemma fine_other_any p d w w1 : fine_other p d w -> fine_other p d w1.
Proof. by apply ok_stable. Qed.

(** Every task is fine, and the device is covered or some task owes it; a station that was
    stopped is owed too. *)
Definition accounted w (ds : list Debt) : Prop :=
  (covered w \/ Exists (fun d => d <> Nothing) ds) /\ (bare w -> Restart ∈ ds).

Lemma accounted_world w w1 ds :
  (covered w -> covered w1) -> (bare w1 -> bare w) -> accounted w ds -> accounted w1 ds.
Proof. intros Hc Hb [[?|?] Ha]; split; auto. Qed.

Lemma accounted_more d w ds : accounted w ds -> accounted w (ds ++ [d]).
Proof. intros [[?|?] Ha]; split; auto; [|right; apply Exists_app; by left|]; intros Hb; apply elem_of_app; auto. Qed.

(** A task runs a section. *)
Lemma accounted_step i d d' w w1 ds :
  ds !! i = Some d -> pays d d' w w1 -> accounted w ds -> accounted w1 (<[i := d']> ds).
Proof.
  intros Hi [Hc Hb] [Ha Hs].
  assert (Hlt : (i < List.length ds)%nat) by (by eapply lookup_lt_Some).
  assert (Hin : d' ∈ <[i := d']> ds) by (apply list_elem_of_lookup; exists i; by apply list_lookup_insert_eq).
  assert (Hother : forall x, x ∈ ds -> x <> d -> x ∈ <[i := d']> ds).
  { intros x Hx Hne. apply list_elem_of_lookup in Hx as [j Hj]. apply list_elem_of_lookup. exists j.
    rewrite list_lookup_insert_ne; [done|]. intros ->. congruence. }
  split.
  - rewrite Exists_exists in Ha |- *. destruct Hc as [?|[?|[-> Hcc]]]; [right; by exists d'|by left|].
    destruct Ha as [?|(x & Hx & Hn)]; [left; auto|right; exists x; auto].
  - intros Hb1. destruct Hb as [->|[?|[Hd Hbb]]]; [done|done|]. apply Hother; auto.
Qed.

Record inv s : Prop := {
  inv_wf : wf (world s);
  inv_tasks : exists de du ds, fine_event (event_task s) de (world s) /\ fine_other (ui_task s) du (world s) /\
                Forall2 (fun p d => fine_other p d (world s)) (others s) ds /\ accounted (world s) (de :: du :: ds)
}.

Lemma others_any ps ds w w1 : Forall2 (fun p d => fine_other p d w) ps ds -> Forall2 (fun p d => fine_other p d w1) ps ds.
Proof. intros Hf. eapply Forall2_impl; [exact Hf|]. intros p d. apply fine_other_any. Qed.

(** The world moves outside the tasks. *)
Lemma inv_world (f : World -> World) s :
  (forall w, wf w -> gentle w (f w) /\ (covered w -> covered (f w))) -> inv s -> inv (in_world f s).
Proof.
  intros Hf [Hw (de & du & ds & He & Hu & Ho & Ha)]. destruct (Hf _ Hw) as ((F1 & F2 & F3) & F4). split; [by apply F2|].
  exists de, du, ds. split_and!.
  - cbn. apply (ok_stable _ _ _ _ _ _ _ F1). exact He.
  - by apply (fine_other_any _ _ (world s)).
  - by apply (others_any _ _ (world s)).
  - by apply (accounted_world (world s)).
Qed.

Lemma push_plain e w :
  (forall ip, e <> StaGotIp ip) -> wf w ->
  let w1 := with_events (events w ++ [e]) w in gentle w w1 /\ (covered w -> covered w1).
Proof.
  intros He [Hb Hc] w1. assert (Hs : forall l, solid l w -> solid (l ++ [e]) w1) by exact (fun l => solid_app l e w).
  split; [split_and!; [split; [done|done|done|apply Hs]| |done]|].
  - intros _. split; [|done]. intros l1 ip l2 El. cbn in El.
    destruct l2 as [|e2 l2 _] using rev_ind; [apply app_inj_tail in El as [_ El]; by destruct (He ip)|].
    rewrite app_comm_cons, app_assoc in El. apply app_inj_tail in El as [El <-]. apply Hs. exact (Hb _ _ _ El).
  - intros [Hsol|Hr]; [left; by apply Hs|by right].
Qed.

Lemma post_kept e w : wf w -> gentle w (post e w) /\ (covered w -> covered (post e w)).
Proof.
  intros Hw. destruct e as [| | | |ip]; cbn [post]; [done| |by apply push_plain|by apply push_plain|].
  - edestruct (push_gentle StaDisconnected w) as [Hg Hc]; [| | | |split; [exact Hg|intros _; exact Hc]]; try done.
    intros [Hl ?]. split; [|done]. cbn in Hl. by destruct (link w).
  - destruct (link w) eqn:El; [done..|]. set (w1 := with_events _ _).
    assert (Hs : forall l, solid l w1) by (intros l; left; cbn; by rewrite El).
    split; [|intros _; left; apply Hs]. apply solid_gentle; [done|done|]. intros [Hl _]. cbn in Hl. congruence.
Qed.

Lemma retry_inv_spawn p d s : (forall w, fine_other p d w) -> inv s -> inv (spawn p s).
Proof.
  intros Hp [Hw (de & du & ds & He & Hu & Ho & Ha)]. split; [done|]. exists de, du, (ds ++ [d]).
  split_and!; [done|done|apply Forall2_app; [done|by constructor]|]. by apply (accounted_more d) in Ha.
Qed.

Lemma inv_event s : inv s -> inv (sys_step recv s EventStep).
Proof.
  intros [Hw (de & du & ds & He & Hu & Ho & Ha)]. cbn [sys_step].
  destruct (event_task s) as [[]|B m k] eqn:Et.
  - assert (Hde : de = Nothing) by (apply (He (world s)); reflexivity). subst de.
    destruct (events (world s)) as [|e es] eqn:Ee.
    { split; [done|]. exists Nothing, du, ds. rewrite Et. done. }
    assert (Hw' : wf (with_events es (world s))).
    { destruct Hw as [Hb Hc]. split; [|done]. intros l1 ip l2 El. cbn in El. apply (Hb (e :: l1) ip l2). by rewrite Ee, El. }
    split; [done|]. exists (owed e), du, ds. cbn [world event_task ui_task others]. split_and!.
    + apply on_event_fine; [done|]. destruct e; try done. apply (proj1 Hw [] ip es). by rewrite Ee.
    + by apply (fine_other_any _ _ (world s)).
    + by apply (others_any _ _ (world s)).
    + apply (accounted_step 0 Nothing (owed e) (world s) _ (Nothing :: du :: ds)); [done| |done].
      split; [|right; by right]. unfold pays_cover, owed. destruct (reconnects e) eqn:Er; [by left|].
      right. right. split; [done|]. intros [Hs|Hc]; [left|by right].
      unfold solid in *. rewrite Ee in Hs. cbn in Hs. by rewrite Er in Hs.
  - destruct (He (world s)) as (d' & [Hp Hwf] & Hk); [reflexivity|]. split; [by apply Hwf|].
    exists d', du, ds. cbn [world event_task ui_task others]. split_and!.
    + exact Hk.
    + by apply (fine_other_any _ _ (world s)).
    + by apply (others_any _ _ (world s)).
    + exact (accounted_step 0 _ _ _ _ (de :: du :: ds) eq_refl Hp Ha).
Qed.

Lemma inv_ui s : inv s -> inv (sys_step recv s UiStep).
Proof.
  intros Hi. pose proof Hi as [Hw (de & du & ds & He & Hu & Ho & Ha)]. cbn [sys_step].
  destruct (ui_task s) as [[]|B m k] eqn:Et.
  - assert (Hdu : du = Nothing) by (apply (Hu (world s)); done). subst du.
    destruct (ui_queue (world s)) as [|t ts]; [done|].
    split; [done|]. exists de, Nothing, ds. cbn [world event_task ui_task others]. split_and!; try done.
    + apply (ok_stable calm event_step) with (world s); [by split|done].
    + apply ui_task_safe.
    + by apply (others_any _ _ (world s)).
  - destruct (Hu (world s)) as (d' & (Hp & Hc & Hwf) & Hk); [done|]. split; [by apply Hwf|].
    exists de, d', ds. cbn [world event_task ui_task others]. split_and!.
    + by apply (ok_stable calm event_step) with (world s).
    + exact Hk.
    + by apply (others_any _ _ (world s)).
    + exact (accounted_step 1 _ _ _ _ (de :: du :: ds) eq_refl Hp Ha).
Qed.

Lemma inv_other i s : inv s -> inv (sys_step recv s (OtherStep i)).
Proof.
  destruct s as [w ev ui ps]. intros Hi. pose proof Hi as [Hw (de & du & ds & He & Hu & Ho & Ha)].
  cbn [sys_step world event_task ui_task others] in *.
  unfold exec, eval. destruct (ps !! i) as [p|] eqn:Ep; [|by rewrite (step_nth_none _ _ _ Ep)].
  rewrite (step_nth_some _ _ _ _ Ep). cbn [fst snd].
  destruct (Forall2_lookup_l _ _ _ _ _ Ho Ep) as (d & Ed & Hd).
  destruct p as [[]|B m k]; cbn [step_prog].
  - cbn [fst snd]. by rewrite list_insert_id by done.
  - destruct (Hd w) as (d' & (Hp & Hc & Hwf) & Hk); [done|]. split; [by apply Hwf|].
    exists de, du, (<[i := d']> ds). cbn [world event_task ui_task others]. split_and!.
    + by apply (ok_stable calm event_step) with w.
    + by apply (fine_other_any _ _ w).
    + apply Forall2_insert; [by apply (others_any _ _ w)|exact Hk].
    + exact (accounted_step (S (S i)) _ _ _ _ (de :: du :: ds) Ed Hp Ha).
Qed.

Lemma retry_inv_step s step : inv s -> inv (sys_step recv s step).
Proof.
  intros Hi. destruct step as [| |i|e| | |len conn|tap].
  - by apply inv_event.
  - by apply inv_ui.
  - by apply inv_other.
  - apply inv_world; [apply post_kept|done].
  - cbn [sys_step]. destruct (g_reconnect_timer (world s)) eqn:Et; [|done].
    destruct Hi as [Hw (de & du & ds & He & Hu & Ho & Ha)]. split; [done|]. exists de, du, (ds ++ [Retry]).
    cbn [spawn in_world world event_task ui_task others]. split_and!.
    + apply (ok_stable calm event_step) with (world s); [by split|done].
    + by apply (fine_other_any _ _ (world s)).
    + apply Forall2_app; [by apply (others_any _ _ (world s))|]. constructor; [apply timer_callback_safe|constructor].
    + apply (accounted_more Retry) in Ha as [_ Hs]. split; [right|done]. rewrite Exists_exists. exists Retry. split; [set_solver|done].
  - cbn [sys_step]. destruct (g_recovery_timer (world s)); [|done].
    apply (retry_inv_spawn _ Nothing); [apply recovery_access_point_safe|]. apply inv_world; [|done].
    intros w Hw. by split; [split_and!; [split| |]|].
  - cbn [sys_step]. apply (retry_inv_spawn _ Nothing); [|done].
    apply (safe_then (fun (_ : unit) d => d = Nothing)); [apply form_safe|]. intros. by apply safe_done.
  - cbn [sys_step]. destruct (ui_task s) as [[]|B m k] eqn:Et; [|done].
    destruct Hi as [Hw (de & du & ds & He & Hu & Ho & Ha)].
    assert (Hdu : du = Nothing) by (rewrite Et in Hu; apply (Hu (world s)); done). subst du.
    split; [done|]. exists de, Nothing, ds. split_and!; try done. apply tap_safe.
Qed.

Lemma retry_inv_boot e : inv (boot e).
Proof.
  unfold boot. set (w := exec begin_connect (initial_world e)).
  assert (Hev : events w = [] /\ ap_client_count (g_state w) = 0).
  { unfold w, exec, begin_connect. rewrite run_bind. unfold drive. by destruct (esp_wifi_get_config _). }
  destruct Hev as [Hev Hcl].
  assert (Hw : forall w', events w' = [] -> ap_client_count (g_state w') = 0 -> wf w').
  { intros w' Hn H0. split; [|lia]. intros l1 ip l2 El. rewrite Hn in El. by destruct l1. }
  assert (Ha : forall w', accounted w' [Nothing; Nothing; Restart]).
  { intros w'. split; [right; do 2 right; by left|intros _; set_solver]. }
  destruct (boots_stored e).
  - split; [by apply Hw|]. exists Nothing, Nothing, [Restart]. split_and!; [by intros ? ?..| |done].
    constructor; [apply connect_stored_safe|constructor].
  - split; [by apply Hw|]. exists Nothing, Nothing, [Restart]. split_and!; [by intros ? ?..| |done].
    constructor; [apply setup_access_point_safe|constructor].
Qed.

Lemma retry_inv_run steps s : inv s -> inv (run recv steps s).
Proof. revert s. induction steps as [|step steps IH]; intros s Hi; [done|]. by apply IH, retry_inv_step. Qed.

(** No task is in the middle of something and no event waits. *)
Definition quiet s : Prop :=
  is_done (event_task s) = true /\ is_done (ui_task s) = true /\ Forall (fun p => is_done p = true) (others s) /\
  events (world s) = [].

(** What brings the device back on the network: an attempt or a connection under way, a
    retry in a while, a client of the recovery network (who may submit other credentials,
    and whose leaving resumes the retries), the first-run form; or the log tells why not. *)
Definition way_back w : Prop :=
  link w = Linked \/ g_reconnect_timer w <> None \/
  (recovery_up (g_state w) = true /\ 0 < ap_client_count (g_state w)) \/
  (initial_provisioning (g_state w) = true /\
   max_setup_attempts_ (reconnect_policy (g_state w)) <= attempts_ (reconnect_policy (g_state w))) \/
  stalled (happened w) = true.

(** C4: A device off the network always has a way back. However the event loop, the timers'
    task, the HTTP workers and the UI interleave from boot on, and whichever calls of the
    driver fail, when all are at rest an attempt or a connection is under way, or the
    reconnect timer runs, or the retries are held while a client is joined to the recovery
    network, or the first-run form waits for another submission after five failures, or
    a call that starts an attempt, a timer or the radio has failed, with a line in the log,
    since the last attempt began. The recovery network stops the radio, which may end an
    attempt without an event: then either the radio runs again and connects, or the log
    tells that it could not be started. *)
Theorem retry_never_lost (e : E) (steps : list (Step (C := C))) :
  let s := run recv steps (boot e) in let w := world s in
  quiet s -> way_back w.
Proof.
  cbv zeta. intros (Qe & Qu & Qo & Qv).
  destruct (retry_inv_run steps _ (retry_inv_boot e)) as [Hw (de & du & ds & He & Hu & Ho & Ha)].
  set (s := run recv steps (boot e)) in *.
  assert (Hd : forall (R : World -> World -> Prop) St p d w,
    Reflexive R -> is_done p = true -> fine R St Nothing p d w -> d = Nothing).
  { intros R St p d w Hr Hp Hf. destruct p as [[]|]; [|done]. apply (Hf w). reflexivity. }
  apply (Hd calm) in He; [subst de|typeclasses eauto|done]. apply (Hd anything) in Hu; [subst du|typeclasses eauto|done].
  assert (Hds : forall d, d ∈ [Nothing; Nothing] ++ ds -> d = Nothing).
  { intros d [Hin|Hin]%elem_of_app; [set_solver|].
    apply list_elem_of_lookup in Hin as [i Hi]. destruct (Forall2_lookup_r _ _ _ _ _ Ho Hi) as (p & Hp & Hf).
    apply (Hd anything) in Hf; [done|typeclasses eauto|]. rewrite Forall_lookup in Qo. by apply (Qo i). }
  destruct Ha as [Ha Hb]. rewrite Exists_exists in Ha.
  assert (Hn : ~ bare (world s)) by (intros Hw'; by specialize (Hds _ (Hb Hw'))).
  destruct Ha as [Ha|(d & Hin & Hne)]; [|by destruct Hne; apply Hds].
  unfold covered, solid, held, gave_up in Ha. rewrite Qv in Ha. cbn in Ha. unfold way_back, bare in *.
  destruct (link (world s)), (stalled (happened (world s))) eqn:Est; destruct Ha as [[?|[?|?]]|[?|[?|?]]]; try done; auto.
  all: by destruct Hn.
Qed.
End System.

(** ** Witness *)

Module Sample.

Definition no_client (n : Z) : M unit Recv := ret RecvFailed.

(** The device boots and connects; the network goes away; the timer's attempt is
    interrupted by the event loop. *)
Definition outage : list (Step (C := unit)) :=
  [OtherStep 0; OtherStep 0; EventStep; EventStep; Post (StaGotIp "10.0.0.7")] ++ repeat EventStep 7 ++
  [Post StaDisconnected] ++ repeat EventStep 4 ++ [FireReconnect; OtherStep 1; Post StaDisconnected] ++
  [EventStep; EventStep; OtherStep 1; EventStep; EventStep; UiStep; UiStep].

(** A radio that cannot add an access point. *)
Definition station_only : WifiDriver unit := {|
  esp_wifi_connect := ret true; esp_wifi_set_config := fun _ _ => ret true; esp_wifi_set_ap_config := fun _ => ret true;
  esp_wifi_set_mode_apsta := fun apsta => ret (negb apsta); esp_wifi_start := ret true; esp_wifi_stop := ret true;
  esp_wifi_get_mac := ret (Some (1, 171, 255)); esp_wifi_get_config := ret "Home";
  httpd_start := fun _ => ret true; httpd_stop := fun _ => ret true; timer_start := ret true |}.

(** The network is away for [n] attempts; then the recovery timer fires during one. *)
Fixpoint attempts (i n : nat) : list (Step (C := unit)) :=
  match n with
  | O => [FireRecovery] ++ repeat (OtherStep i) 4
  | S m => [Post StaDisconnected] ++ repeat EventStep 5 ++ [FireReconnect; OtherStep i] ++ attempts (S i) m
  end.

Definition long_outage : list (Step (C := unit)) :=
  [OtherStep 0; OtherStep 0; EventStep; EventStep] ++ attempts 1 (Z.to_nat kNormalModeRecoveryAttempts).

(** Bringing up the recovery network ended the attempt, and nothing retries: the last
    disjunct of [way_back] is all there is. *)
Example recovery_ends_retries :
  let w := world (run (H := station_only) no_client long_outage (boot (H := station_only) tt)) in
  (link w, g_reconnect_timer w, g_recovery_timer w, events w, last (happened w)) =
  (Stopped, None, false, [], Some (Warned RecoveryNotStarted)).
Proof. vm_compute. reflexivity. Qed.
End Sample.

Lemma retry_never_lost_witness :
  way_back (world (run (H := Reliable.driver) Sample.no_client Sample.outage (boot (H := Reliable.driver) tt))).
Proof.
  apply (retry_never_lost (H := Reliable.driver) Sample.no_client tt Sample.outage).
  repeat split; try (vm_compute; reflexivity). apply (bool_decide_unpack _). vm_compute. exact I.
Defined.
