(* ===== verification/WifiApproval.v ===== *)
(** WifiApproval: nobody in radio range can change a provisioned device's network.

    The recovery network is open and its form asks for no password, so what it receives is
    only applied after a tap on the device. [nothing_applied_unseen] shows that of [Wifi]'s
    tasks in every interleaving: what reaches the driver was typed on the screen, or was
    allowed by a tap while the screen showed exactly the network that is then applied. *)
From S2P Require Import Prelude Text Http HttpServer Connectivity Threads Ui Wifi.

Section Approval.
Context {E : Type} `{WifiDriver E} {C : Type} (recv : Z -> M C Recv).
Implicit Types w : World (E := E).

Definition is_request (h : Happening) : bool := match h with Requested _ _ => true | _ => false end.

Definition request_count (l : list Happening) : Z := Z.of_nat (List.length (List.filter is_request l)).

(** Request ids have not wrapped around. *)
Definition few (l : list Happening) : Prop := request_count l < 2 ^ 32.

(** Where credentials given to the driver came from. *)
Definition justified (l : list Happening) (s p : string) : Prop :=
  exists c, s = c_str (Connectivity.ssid c) /\ p = c_str (password c) /\
            (Typed c ∈ l \/ exists id, Requested id c ∈ l /\ Allowed id s ∈ l).

(** The request with an id is shown, or was when a tap allowed it, by its network's name. *)
Definition names (l : list Happening) (id : Z) (text : string) : Prop :=
  exists c, Requested id c ∈ l /\ text = c_str (Connectivity.ssid c).

Record sound w : Prop := {
  sound_last : last_id_ (pending_credentials (g_state w)) = request_count (happened w);
  sound_ids : forall id c, Requested id c ∈ happened w -> 1 <= id <= request_count (happened w);
  sound_unique : forall id c c', Requested id c ∈ happened w -> Requested id c' ∈ happened w -> c = c';
  sound_pending : forall c, pending_ (pending_credentials (g_state w)) = Some c ->
    Requested (last_id_ (pending_credentials (g_state w))) c ∈ happened w;
  sound_screen : has_pending_request_ (screen w) = true ->
    names (happened w) (pending_request_id_ (screen w)) (request_text (screen w));
  sound_queue : forall ssid id, OnCredentialsPending ssid id ∈ ui_queue w -> names (happened w) id (c_str ssid);
  sound_allowed : forall id text, Allowed id text ∈ happened w -> names (happened w) id text;
  sound_applied : forall s p, Applied s p ∈ happened w -> justified (happened w) s p
}.

Definition secure w : Prop := initial_provisioning (g_state w) = false /\ (few (happened w) -> sound w).

(** ** What every section guarantees, and every task relies on *)

Definition guarded w w1 : Prop := happened w `prefix_of` happened w1 /\ (secure w -> secure w1).

#[export] Instance guarded_preorder : PreOrder guarded.
Proof. split; [by intros w; split|]. intros w1 w2 w3 [A1 A2] [B1 B2]. split; [by etrans|auto]. Qed.

Definition section_ok (d d' : bool) w1 w2 : Prop := d' = false /\ guarded w1 w2.

(** A program that is right from any secure state whose log satisfies [F]. *)
Definition right {A} (F : list Happening -> Prop) (Q : A -> list Happening -> Prop) (p : prog A) : Prop :=
  forall w, secure w -> F (happened w) -> ok guarded section_ok (fun a d w1 => d = false /\ Q a (happened w1)) p false w.

(** A fact that the log can only confirm. *)
Definition lasting (F : list Happening -> Prop) : Prop := forall l l', l `prefix_of` l' -> F l -> F l'.

Definition any (_ : list Happening) : Prop := True.
Definition nothing {A} (_ : A) (_ : list Happening) : Prop := True.

Lemma lasting_any : lasting any.
Proof. done. Qed.

Lemma few_prefix l l' : l `prefix_of` l' -> few l' -> few l.
Proof. intros [k ->]. unfold few, request_count. rewrite List.filter_app, List.length_app. lia. Qed.

Lemma in_prefix (h : Happening) l l' : l `prefix_of` l' -> h ∈ l -> h ∈ l'.
Proof. intros [k ->]. set_solver. Qed.

Lemma names_prefix l l' id text : l `prefix_of` l' -> names l id text -> names l' id text.
Proof. intros Hp (c & Hc & ->). exists c. split; [by apply (in_prefix _ l)|done]. Qed.

Lemma justified_prefix l l' s p : l `prefix_of` l' -> justified l s p -> justified l' s p.
Proof.
  intros Hp (c & -> & -> & Hc). exists c. split_and!; [done..|].
  destruct Hc as [Ht|(id & H1 & H2)]; [left; by apply (in_prefix _ l)|right; exists id; split; by apply (in_prefix _ l)].
Qed.

Lemma right_section {A B} F F' Q (m : M World A) (k : A -> prog B) :
  lasting F ->
  (forall w, secure w -> F (happened w) -> guarded w (exec m w) /\ F' (eval m w) (happened (exec m w))) ->
  (forall a, right (F' a) Q (k a)) -> right F Q (Atomic m k).
Proof.
  intros Hl Hm Hk w Hw HF w1 [Hp Hs]. specialize (Hs Hw). destruct (Hm w1 Hs (Hl _ _ Hp HF)) as [[G1 G2] HF'].
  exists false. split; [done|]. apply Hk; [by apply G2|done].
Qed.

Lemma right_done {A} F (Q : A -> list Happening -> Prop) a : lasting F -> (forall l, F l -> Q a l) -> right F Q (Done a).
Proof. intros Hl HQ w Hw HF w1 [Hp _]. split; [done|]. apply HQ. by apply (Hl (happened w)). Qed.

Lemma right_bind {A B} F (Q : A -> list Happening -> Prop) (R : B -> list Happening -> Prop) p (k : A -> prog B) :
  right F Q p -> (forall a, right (Q a) R (k a)) -> right F R (pbind p k).
Proof.
  intros Hp Hk w Hw HF. specialize (Hp w Hw HF). apply ok_bind; [exact _|]. clear HF.
  set (ended := fun (a : A) (d : bool) w1 => d = false /\ Q a (happened w1)) in Hp.
  set (next := fun (a : A) (d : bool) w1 => ok _ _ _ _ _ _).
  assert (Hnext : forall a d w, secure w -> ended a d w -> next a d w).
  { intros a d w1 Hw1 [-> HQ]. by apply Hk. }
  clearbody ended next. revert w Hw Hp. generalize false as d.
  induction p as [a|X m k' IH]; cbn; intros d w Hw Hp w1 H1.
  - apply Hnext; [by apply H1|by apply Hp].
  - destruct (Hp w1 H1) as (d' & [-> Hg] & Ho). exists false. split; [done|]. apply IH; [|done]. by apply Hg, H1.
Qed.

(** ** Sections *)

Lemma requests_app l hs : Forall (fun h => is_request h = false) hs -> request_count (l ++ hs) = request_count l.
Proof.
  intros Hh. unfold request_count. rewrite List.filter_app, List.length_app.
  replace (List.filter is_request hs) with (@nil Happening); [by rewrite Nat.add_0_r|].
  induction Hh as [|h hs Er Hh IH]; [done|]. cbn. by rewrite Er.
Qed.

(** The log grows by something else than requests; what is shown, queued or pending now
    must still be named by the log. *)
Lemma sound_grow w w1 hs :
  happened w1 = happened w ++ hs -> Forall (fun h => is_request h = false) hs ->
  last_id_ (pending_credentials (g_state w1)) = last_id_ (pending_credentials (g_state w)) ->
  (forall c, pending_ (pending_credentials (g_state w1)) = Some c -> pending_ (pending_credentials (g_state w)) = Some c) ->
  (has_pending_request_ (screen w1) = true -> names (happened w1) (pending_request_id_ (screen w1)) (request_text (screen w1))) ->
  (forall ssid id, OnCredentialsPending ssid id ∈ ui_queue w1 -> names (happened w1) id (c_str ssid)) ->
  (forall id text, Allowed id text ∈ hs -> names (happened w1) id text) ->
  (forall s p, Applied s p ∈ hs -> justified (happened w1) s p) ->
  sound w -> sound w1.
Proof.
  intros Hh Hr Hid Hp Hs Hq Hal Hap [S1 S2 S3 S4 S5 S6 S7 S8].
  assert (Hpre : happened w `prefix_of` happened w1) by (rewrite Hh; by apply prefix_app_r).
  assert (Hreq : forall id c, Requested id c ∈ happened w1 -> Requested id c ∈ happened w).
  { intros id c Hin. rewrite Hh, elem_of_app in Hin. destruct Hin as [?|Hin]; [done|].
    rewrite Forall_forall in Hr. by specialize (Hr _ Hin). }
  split; try done.
  - by rewrite Hid, Hh, requests_app.
  - intros id c Hin. rewrite Hh, requests_app by done. by apply (S2 id c), Hreq.
  - intros id c c' H1 H2. by apply (S3 id); apply Hreq.
  - intros c Hc. rewrite Hid. apply (in_prefix _ _ _ Hpre). by apply S4, Hp.
  - intros id text Hin. rewrite Hh, elem_of_app in Hin. destruct Hin as [Hin|Hin]; [|by apply Hal].
    by apply (names_prefix _ _ _ _ Hpre), S7.
  - intros s p Hin. rewrite Hh, elem_of_app in Hin. destruct Hin as [Hin|Hin]; [|by apply Hap].
    by apply (justified_prefix _ _ _ _ Hpre), S8.
Qed.

(** Neither names, nor requests, nor credentials. *)
Definition plain (h : Happening) : bool :=
  match h with Requested _ _ | Allowed _ _ | Applied _ _ => false | _ => true end.

Lemma plain_frame w w1 hs :
  happened w1 = happened w ++ hs -> Forall (fun h => plain h = true) hs ->
  (initial_provisioning (g_state w) = false -> initial_provisioning (g_state w1) = false) ->
  pending_credentials (g_state w1) = pending_credentials (g_state w) ->
  (has_pending_request_ (screen w1) = true ->
     names (happened w1) (pending_request_id_ (screen w1)) (request_text (screen w1)) \/ screen w1 = screen w) ->
  (forall ssid id, OnCredentialsPending ssid id ∈ ui_queue w1 ->
     names (happened w1) id (c_str ssid) \/ OnCredentialsPending ssid id ∈ ui_queue w) ->
  guarded w w1.
Proof.
  intros Hh Hp Hi Hpc Hs Hq.
  assert (Hpre : happened w `prefix_of` happened w1) by (rewrite Hh; by apply prefix_app_r).
  split; [done|]. intros [Hinit Hsound]. split; [by apply Hi|].
  intros Hf. specialize (Hsound (few_prefix _ _ Hpre Hf)). pose proof Hsound as [S1 S2 S3 S4 S5 S6 S7 S8].
  rewrite Forall_forall in Hp. apply (sound_grow w w1 hs); try done.
  - apply Forall_forall. intros h Hin. specialize (Hp h Hin). by destruct h.
  - by rewrite Hpc.
  - by rewrite Hpc.
  - intros Hh1. destruct (Hs Hh1) as [?|Es]; [done|]. rewrite Es in *. by apply (names_prefix _ _ _ _ Hpre), S5.
  - intros ssid id Hin. destruct (Hq _ _ Hin) as [?|Hin']; [done|]. by apply (names_prefix _ _ _ _ Hpre), S6.
  - intros id text Hin. by specialize (Hp _ Hin).
  - intros s p Hin. by specialize (Hp _ Hin).
Qed.

(** Nothing of what is spoken of here changes. *)
Definition inert {A} (m : M (World (E := E)) A) : Prop :=
  forall w, exists hs, happened (exec m w) = happened w ++ hs /\ Forall (fun h => plain h = true) hs /\
    (initial_provisioning (g_state w) = false -> initial_provisioning (g_state (exec m w)) = false) /\
    pending_credentials (g_state (exec m w)) = pending_credentials (g_state w) /\
    screen (exec m w) = screen w /\
    (forall ssid id, OnCredentialsPending ssid id ∈ ui_queue (exec m w) -> OnCredentialsPending ssid id ∈ ui_queue w).

Lemma inert_guarded {A} (m : M World A) w : inert m -> guarded w (exec m w).
Proof. intros Hm. destruct (Hm w) as (hs & H1 & H2 & H3 & H4 & H5 & H6). apply (plain_frame w _ hs); auto. Qed.

Lemma right_inert {A B} F Q (m : M World A) (k : A -> prog B) :
  lasting F -> inert m -> (forall a, right F Q (k a)) -> right F Q (Atomic m k).
Proof.
  intros Hl Hm Hk. apply right_section with (F' := fun _ => F); [done| |done].
  intros w Hw HF. pose proof (inert_guarded m w Hm) as Hg. split; [done|]. apply (Hl (happened w)); [by apply Hg|done].
Qed.

Lemma inert_same {A} (m : M World A) :
  (forall w, happened (exec m w) = happened w /\ initial_provisioning (g_state (exec m w)) = initial_provisioning (g_state w) /\
     pending_credentials (g_state (exec m w)) = pending_credentials (g_state w) /\ screen (exec m w) = screen w /\
     ui_queue (exec m w) = ui_queue w) -> inert m.
Proof.
  intros Hm w. destruct (Hm w) as (H1 & H2 & H3 & H4 & H5). exists []. rewrite H1, H2, H3, H4, H5, app_nil_r. by split_and!.
Qed.

Lemma drive_inert {A} (m : M E A) : inert (drive m).
Proof. apply inert_same. intros w. unfold exec, drive. by destruct (m (env w)). Qed.

Lemma happen_inert h : plain h = true -> inert (happen (E := E) h).
Proof. intros Hp w. exists [h]. cbn. split_and!; auto. Qed.

Lemma drive_then_inert (call : M E bool) f hs :
  (forall w, happened (f w) = happened w ++ hs /\ initial_provisioning (g_state (f w)) = initial_provisioning (g_state w) /\
     pending_credentials (g_state (f w)) = pending_credentials (g_state w) /\ screen (f w) = screen w /\ ui_queue (f w) = ui_queue w) ->
  Forall (fun h => plain h = true) hs -> inert (drive_then call f).
Proof.
  intros Hf Hh w. unfold exec, drive_then. rewrite run_bind. unfold drive. destruct (call (env w)) as [[] e]; cbn [fst snd modify ret bind].
  - destruct (Hf (with_env e w)) as (H1 & H2 & H3 & H4 & H5). exists hs. rewrite H1, H2, H3, H4, H5. by split_and!.
  - exists []. rewrite app_nil_r. by split_and!.
Qed.

Lemma connect_inert : inert (esp_connect (E := E)).
Proof. apply drive_then_inert with (hs := [Connecting]); [|by constructor]. intros w. by split_and!. Qed.

Lemma stop_inert : inert (esp_stop (E := E)).
Proof. apply drive_then_inert with (hs := []); [|constructor]. intros w. rewrite app_nil_r. by split_and!. Qed.

Lemma start_inert : inert (esp_start (E := E)).
Proof. apply drive_then_inert with (hs := []); [|constructor]. intros w. rewrite app_nil_r. by split_and!. Qed.

Lemma start_reconnect_inert delay : inert (start_reconnect (E := E) delay).
Proof.
  intros w. unfold exec, start_reconnect. destruct (g_reconnect_timer w).
  - exists []. rewrite app_nil_r. by split_and!.
  - apply (drive_then_inert timer_start (with_reconnect (Some delay)) []); [|constructor]. clear w. intros w. rewrite app_nil_r. by split_and!.
Qed.

Lemma start_recovery_inert : inert (start_recovery (E := E)).
Proof.
  intros w. unfold exec, start_recovery. destruct (g_recovery_timer w).
  - exists []. rewrite app_nil_r. by split_and!.
  - apply (drive_then_inert timer_start (with_recovery true) []); [|constructor]. clear w. intros w. rewrite app_nil_r. by split_and!.
Qed.

Lemma locked_inert {A} (m : M WifiSetupState A) :
  (forall s, pending_credentials (m s).2 = pending_credentials s /\
     (initial_provisioning s = false -> initial_provisioning (m s).2 = false)) -> inert (locked m).
Proof.
  intros Hm w. exists []. unfold exec, locked. destruct (Hm (g_state w)) as [H1 H2]. destruct (m (g_state w)) as [a s].
  rewrite app_nil_r. by split_and!.
Qed.

Lemma call_ui_inert hooked task : (forall s id, task <> OnCredentialsPending s id) -> inert (call_ui (E := E) hooked task).
Proof.
  intros Ht w. exists []. rewrite app_nil_r. destruct hooked; cbn; split_and!; try done.
  intros s id Hin. rewrite elem_of_app, list_elem_of_singleton in Hin. destruct Hin as [?|<-]; [done|]. by destruct (Ht s id).
Qed.

Lemma GetApSsid_inert : inert (GetApSsid (E := E)).
Proof.
  intros w. unfold GetApSsid, exec. rewrite run_bind. destruct (match _ with Some m => m | None => _ end) as [[? ?] ?].
  exact (drive_inert esp_wifi_get_mac w).
Qed.
End Approval.

Create HintDb inert.
#[export] Hint Resolve drive_inert connect_inert start_inert stop_inert start_reconnect_inert start_recovery_inert GetApSsid_inert : inert.
#[export] Hint Extern 1 (inert (warn _)) => apply happen_inert; reflexivity : inert.
#[export] Hint Extern 1 (inert (call_ui _ _)) => apply call_ui_inert; discriminate : inert.
#[export] Hint Extern 1 (inert (locked _)) => apply locked_inert; intros ?; cbn; by split : inert.
#[export] Hint Extern 1 (inert CancelReconnectTimer) => apply inert_same; by intros ? : inert.
#[export] Hint Extern 1 (inert RecoveryRetriesAreSlowed) => apply locked_inert; intros ?; cbn; by split : inert.
#[export] Hint Extern 1 (inert (modify (with_bit _))) => apply inert_same; by intros ? : inert.

(** Steps through inert sections, whatever is read. *)
Ltac steps :=
  repeat first
    [ apply right_done; [first [assumption|apply lasting_any]|done]
    | progress unfold atomic
    | progress cbn [pbind unless_ok checked negb]
    | match goal with
      | |- right _ _ (unless_ok ?b _) => destruct b
      | |- right _ _ (pbind (unless_ok ?b _) _) => destruct b
      | |- right _ _ (checked ?b _) => destruct b
      | |- right _ _ (if negb ?b then _ else _) => destruct b
      | |- right _ _ (if ?b then _ else _) => destruct b
      | |- right _ _ (pbind (if negb ?b then _ else _) _) => destruct b
      | |- right _ _ (pbind (if ?b then _ else _) _) => destruct b
      | |- right _ _ (match ?o with Some _ => _ | None => _ end) => destruct o
      | |- right _ _ (pbind (match ?o with Some _ => _ | None => _ end) _) => destruct o
      | |- right _ _ (let (_, _) := ?x in _) => destruct x
      end
    | apply right_inert; [first [assumption|apply lasting_any]|solve [auto with inert]|intros ?] ].

Section Programs.
Context {E : Type} `{WifiDriver E} {C : Type} (recv : Z -> M C Recv).
Implicit Types w : World (E := E).

Lemma lasting_few (P : list Happening -> Prop) :
  (forall l l', l `prefix_of` l' -> P l -> P l') -> lasting (fun l => few l -> P l).
Proof. intros HP l l' Hp Hl Hf. apply (HP l); [done|]. apply Hl. by apply (few_prefix _ l'). Qed.

(** A section that only makes the log longer by [hs], or the request box or the queue
    speak of requests in it. *)
Lemma guarded_grow w w1 hs :
  happened w1 = happened w ++ hs -> Forall (fun h => is_request h = false) hs ->
  initial_provisioning (g_state w1) = initial_provisioning (g_state w) ->
  last_id_ (pending_credentials (g_state w1)) = last_id_ (pending_credentials (g_state w)) ->
  (forall c, pending_ (pending_credentials (g_state w1)) = Some c -> pending_ (pending_credentials (g_state w)) = Some c) ->
  screen w1 = screen w -> ui_queue w1 = ui_queue w ->
  (forall id text, Allowed id text ∈ hs -> few (happened w) -> names (happened w1) id text) ->
  (forall s p, Applied s p ∈ hs -> few (happened w) -> justified (happened w1) s p) ->
  guarded w w1.
Proof.
  intros Hh Hr Hi Hid Hp Hs Hq Hal Hap.
  assert (Hpre : happened w `prefix_of` happened w1) by (rewrite Hh; by apply prefix_app_r).
  split; [done|]. intros [Hinit Hsound]. split; [by rewrite Hi|]. intros Hf. pose proof (few_prefix _ _ Hpre Hf) as Hf0.
  specialize (Hsound Hf0). apply (sound_grow w w1 hs); auto.
  - rewrite Hs. intros Hh1. apply (names_prefix _ _ _ _ Hpre). by apply (sound_screen w Hsound).
  - rewrite Hq. intros ssid id Hin. apply (names_prefix _ _ _ _ Hpre). by apply (sound_queue w Hsound).
Qed.

Lemma apply_right s p : right (fun l => few l -> justified l (c_str s) (c_str p)) nothing (ApplyWifiCredentials (E := E) s p).
Proof.
  assert (Hl : lasting (fun l => few l -> justified l (c_str s) (c_str p))).
  { apply lasting_few. intros l l' Hp. by apply justified_prefix. }
  unfold ApplyWifiCredentials. destruct (negb _); [by apply right_done|]. unfold atomic. cbn [pbind].
  apply right_section with (F' := fun _ => any); [done| |].
  - intros w Hw HF. split; [|done]. unfold exec, esp_set_config, drive_then. rewrite run_bind. unfold drive.
    destruct (esp_wifi_set_config _ _ (env w)) as [[] e]; cbn [fst snd modify ret bind].
    + apply (guarded_grow w _ [Applied (c_str s) (c_str p)]); try done; [by constructor| |].
      * intros id text Hin. by apply list_elem_of_singleton in Hin.
      * intros s' p' Hin Hf. apply list_elem_of_singleton in Hin as [= -> ->]. cbn.
        apply (justified_prefix (happened w)); [by apply prefix_app_r|auto].
    + apply (guarded_grow w _ []); try done; cbn; [by rewrite app_nil_r|by intros ? ? ?%not_elem_of_nil..].
  - intros ok. steps.
Qed.

Lemma submit_section s p w :
  secure w -> guarded w (exec (submit_request s p) w) /\
  (forall id, eval (submit_request s p) w = Some id -> few (happened (exec (submit_request s p) w)) ->
              names (happened (exec (submit_request s p) w)) id (c_str s)).
Proof.
  intros Hw. unfold exec, eval, submit_request. rewrite run_bind. unfold on_pending, locked, Submit.
  destruct (IsValidWifiCredentials s p); cbn [fst snd happen modify ret bind].
  2:{ split; [|done]. apply (guarded_grow w _ []); try done; cbn; [by rewrite app_nil_r|by intros ? ? ?%not_elem_of_nil..]. }
  set (c := {| Connectivity.ssid := s; password := p |}). set (id := wrap_u 32 _).
  set (w1 := with_happened _ _).
  assert (Hh : happened w1 = happened w ++ [Requested id c]) by done.
  assert (Hpre : happened w `prefix_of` happened w1) by (rewrite Hh; by apply prefix_app_r).
  assert (Hn : request_count (happened w1) = request_count (happened w) + 1).
  { rewrite Hh. unfold request_count. rewrite List.filter_app, List.length_app. cbn. lia. }
  assert (Hin : Requested id c ∈ happened w1) by (rewrite Hh; set_solver).
  split.
  - split; [done|]. intros _. destruct Hw as [Hi Hs]. split; [done|]. intros Hf.
    destruct (Hs (few_prefix _ _ Hpre Hf)) as [S1 S2 S3 S4 S5 S6 S7 S8].
    assert (Hid : id = request_count (happened w) + 1).
    { unfold id. rewrite S1. unfold few in Hf. rewrite Hn in Hf. apply wrap_u_id. unfold request_count in *. lia. }
    assert (Hsplit : forall i x, Requested i x ∈ happened w1 -> Requested i x ∈ happened w \/ (i = id /\ x = c)).
    { intros i x Hx. rewrite Hh, elem_of_app, list_elem_of_singleton in Hx. destruct Hx as [?|[= -> ->]]; auto. }
    split.
    + rewrite Hn. exact Hid.
    + intros i x Hx. rewrite Hn. destruct (Hsplit _ _ Hx) as [Hx'|[-> ->]]; [specialize (S2 _ _ Hx'); lia|]. unfold request_count in *. lia.
    + intros i x x' Hx Hx'. destruct (Hsplit _ _ Hx) as [H1|[-> ->]], (Hsplit _ _ Hx') as [H2|[E2 ->]]; try done.
      * by apply (S3 i).
      * subst i. specialize (S2 _ _ H1). lia.
      * specialize (S2 _ _ H2). lia.
    + intros x [= <-]. exact Hin.
    + intros Hb. apply (names_prefix _ _ _ _ Hpre). by apply S5.
    + intros s' i Hq. apply (names_prefix _ _ _ _ Hpre). by apply S6.
    + intros i text Ha. apply (names_prefix _ _ _ _ Hpre), S7. rewrite Hh, elem_of_app, list_elem_of_singleton in Ha. by destruct Ha.
    + intros s' p' Ha. apply (justified_prefix _ _ _ _ Hpre), S8. rewrite Hh, elem_of_app, list_elem_of_singleton in Ha. by destruct Ha.
  - intros i [= <-] _. by exists c.
Qed.

(** The screen and its queue may come to name what the log names. *)
Lemma named_screen f hs w :
  secure w -> Forall (fun h => plain h = true) hs ->
  (has_pending_request_ (f (screen w)) = true -> few (happened w) ->
     names (happened w) (pending_request_id_ (f (screen w))) (request_text (f (screen w)))) ->
  guarded w (with_happened (happened w ++ hs) (with_screen (f (screen w)) w)).
Proof.
  intros Hw Hp Hn. assert (Hpre : happened w `prefix_of` happened w ++ hs) by (by apply prefix_app_r).
  split; [done|]. intros _. destruct Hw as [Hi Hs]. split; [done|]. intros Hf. cbn in Hf.
  pose proof (few_prefix _ _ Hpre Hf) as Hf0. specialize (Hs Hf0). rewrite Forall_forall in Hp.
  apply (sound_grow w _ hs); try done.
  - apply Forall_forall. intros h Hin. specialize (Hp h Hin). by destruct h.
  - intros Hh. apply (names_prefix _ _ _ _ Hpre). by apply Hn.
  - intros ssid id Hin. apply (names_prefix _ _ _ _ Hpre). by apply (sound_queue w Hs).
  - intros id text Hin. by specialize (Hp _ Hin).
  - intros s p Hin. by specialize (Hp _ Hin).
Qed.

(** A change of the screen that leaves the request box, or hides it. *)
Lemma screen_section f w :
  secure w ->
  (forall s, has_pending_request_ (f s) = true -> has_pending_request_ s = true /\
     pending_request_id_ (f s) = pending_request_id_ s /\ request_text (f s) = request_text s) ->
  guarded w (exec (on_screen f) w).
Proof.
  intros Hw Hf. pose proof (named_screen f [] w Hw (Forall_nil_2 _)) as Hg. rewrite app_nil_r in Hg.
  apply Hg. intros Hh Hfew. destruct (Hf _ Hh) as (H1 & -> & ->). by apply (sound_screen w); [apply Hw|].
Qed.

Lemma ui_task_right task :
  right (fun l => match task with OnCredentialsPending s id => few l -> names l id (c_str s) | _ => True end) nothing
        (run_ui_task (E := E) task).
Proof.
  destruct task as [a b port| |s id|]; cbn [run_ui_task]; unfold atomic.
  - apply right_section with (F' := fun _ => any); [done| |by intros; apply right_done].
    intros w Hw _. split; [|done]. by apply screen_section.
  - apply right_section with (F' := fun _ => any); [done| |by intros; apply right_done].
    intros w Hw _. split; [|done]. by apply screen_section.
  - apply right_section with (F' := fun _ => any); [| |by intros; apply right_done].
    { apply lasting_few. intros l l' Hp. by apply names_prefix. }
    intros w Hw HF. split; [|done].
    refine (named_screen (fun st => GoTo kWifiSetup (ShowPendingRequest s id st)) [Showed id (c_str s)] w Hw _ (fun _ => HF)).
    by constructor.
  - apply right_section with (F' := fun _ => any); [done| |by intros; apply right_done].
    intros w Hw _. split; [|done]. by apply screen_section.
Qed.

(** What the answer to a tap on Allow rests on. *)
Definition allowed (id : Z) (l : list Happening) : Prop :=
  exists c, Requested id c ∈ l /\ Allowed id (c_str (Connectivity.ssid c)) ∈ l.

Lemma allowed_prefix id l l' : l `prefix_of` l' -> allowed id l -> allowed id l'.
Proof. intros Hp (c & H1 & H2). exists c. split; by apply (in_prefix _ l). Qed.

Lemma lasting_allowed id : lasting (fun l => few l -> allowed id l).
Proof. apply lasting_few. intros l l'. by apply allowed_prefix. Qed.

Lemma error_right message : right any nothing (atomic (on_screen (E := E) (SetConnectError message))).
Proof.
  apply right_section with (F' := fun _ => any); [done| |by intros; apply right_done].
  intros w Hw _. split; [|done]. by apply screen_section.
Qed.

Lemma take_pending_guarded id w : secure w -> guarded w (exec (on_pending (Take id)) w).
Proof.
  intros Hw. unfold exec, on_pending, locked, Take. destruct (pending_ _) as [c|] eqn:Ec; [destruct (id =? _)|];
    apply (guarded_grow w _ []); try done; cbn; try (by rewrite app_nil_r); try (by intros ? ? ?%not_elem_of_nil);
    rewrite ?Ec; done.
Qed.

Lemma approve_right id : right (fun l => few l -> allowed id l) nothing (ApproveRecoveryCredentials (E := E) id).
Proof.
  unfold ApproveRecoveryCredentials, atomic. cbn [pbind].
  apply right_section with
    (F' := fun c l => match c with Some c => few l -> justified l (c_str (Connectivity.ssid c)) (c_str (password c)) | None => True end);
    [apply lasting_allowed| |].
  - intros w Hw HF. split; [by apply take_pending_guarded|].
    unfold exec, eval, on_pending, locked, Take. destruct (pending_ (pending_credentials (g_state w))) as [c|] eqn:Ec; [|done].
    destruct (Z.eqb_spec id (last_id_ (pending_credentials (g_state w)))) as [->|]; [|done]. cbn. intros Hf.
    destruct (HF Hf) as (c' & Hr & Ha). destruct Hw as [_ Hs]. specialize (Hs Hf).
    pose proof (sound_pending w Hs c Ec) as Hr'. rewrite (sound_unique w Hs _ _ _ Hr Hr') in Ha.
    exists c. split_and!; [done..|]. right. by eexists.
  - intros [c|]; [|by apply right_done]. apply right_bind with (Q := nothing); [apply apply_right|].
    intros ok. by apply right_done.
Qed.

Lemma take_decision_section allow w :
  secure w -> guarded w (exec (take_decision allow) w) /\
  (forall id, allow = true -> eval (take_decision allow) w = Some id -> few (happened (exec (take_decision allow) w)) ->
              allowed id (happened (exec (take_decision allow) w))).
Proof.
  intros Hw. unfold take_decision, exec, eval. rewrite run_bind. cbn [gets fst snd].
  destruct (has_pending_request_ (screen w)) eqn:Eh; cbn [negb]; [|split; [reflexivity|done]].
  destruct allow; cbn; [|split; [by apply (screen_section ClearPendingRequest)|done]].
  set (w1 := with_happened _ _).
  assert (Hh : happened w1 = happened w ++ [Allowed (pending_request_id_ (screen w)) (request_text (screen w))]) by done.
  assert (Hpre : happened w `prefix_of` happened w1) by (rewrite Hh; by apply prefix_app_r). split.
  - split; [done|]. intros _. destruct Hw as [Hi Hs]. split; [done|]. intros Hf. specialize (Hs (few_prefix _ _ Hpre Hf)).
    apply (sound_grow w w1 [Allowed (pending_request_id_ (screen w)) (request_text (screen w))]); try done.
    + by constructor.
    + intros ssid id Hin. apply (names_prefix _ _ _ _ Hpre). by apply (sound_queue w Hs).
    + intros id text Hin. apply list_elem_of_singleton in Hin as [= -> ->]. apply (names_prefix _ _ _ _ Hpre). by apply (sound_screen w Hs).
    + intros s p Hin. by apply list_elem_of_singleton in Hin.
  - intros id _ [= <-] Hf. destruct Hw as [_ Hs]. destruct (sound_screen w (Hs (few_prefix _ _ Hpre Hf)) Eh) as (c & Hc & Ht).
    exists c. rewrite <- Ht. split; [by apply (in_prefix _ _ _ Hpre)|]. apply elem_of_app. right. by apply list_elem_of_singleton.
Qed.

Lemma decide_right allow : right any nothing (Decide (E := E) allow).
Proof.
  unfold Decide, atomic. cbn [pbind].
  apply right_section with (F' := fun r l => match r with Some id => allow = true -> few l -> allowed id l | None => True end); [done| |].
  - intros w Hw _. destruct (take_decision_section allow w Hw) as [H1 H2]. split; [done|].
    destruct (eval (take_decision allow) w) as [id|]; [|done]. intros Ha. by apply H2.
  - intros [id|]; [|by apply right_done].
    apply right_bind with (Q := nothing); [|intros ok; destruct ok; [by apply right_done|apply error_right]].
    unfold wifi_pending_decision. destruct allow; cbn [negb].
    + intros w Hw HF. refine (right_bind _ _ _ _ _ (approve_right id) _ w Hw (HF eq_refl)).
      intros a. by apply right_done.
    + unfold atomic. cbn [pbind]. apply right_section with (F' := fun _ => any); [| |by intros; apply right_done].
      * intros l l' Hp. by intros.
      * intros w Hw _. split; [|done]. apply (guarded_grow w _ []); try done; cbn; [by rewrite app_nil_r|by intros ? ? ?%not_elem_of_nil..].
Qed.

Lemma tap_right tap : right any nothing (on_tap (E := E) tap).
Proof.
  destruct tap as [s p| |]; [|apply decide_right..]. cbn [on_tap]. unfold OnConnectClicked, atomic. cbn [pbind].
  set (c := {| Connectivity.ssid := s; password := p |}).
  apply right_section with (F' := fun _ l => few l -> justified l (c_str s) (c_str p)); [done| |].
  - intros w Hw _. split.
    + refine (named_screen (SetConnectError EmptyString) [Typed c] w Hw _ _); [by constructor|].
      intros Hh Hf. by apply (sound_screen w); [apply Hw|].
    + intros _. exists c. split_and!; [done..|]. left. cbn. apply elem_of_app. right. by apply list_elem_of_singleton.
  - intros _. apply right_bind with (Q := nothing); [apply apply_right|]. intros ok. destruct ok; [by apply right_done|apply error_right].
Qed.

Lemma named_queue hooked s id w :
  secure w -> (few (happened w) -> names (happened w) id (c_str s)) ->
  guarded w (exec (call_ui hooked (OnCredentialsPending s id)) w).
Proof.
  intros Hw Hn. destruct hooked; [|reflexivity]. cbn. split; [done|]. intros _. destruct Hw as [Hi Hs]. split; [done|].
  intros Hf. specialize (Hs Hf). apply (sound_grow w _ []); try done; cbn; try (by rewrite app_nil_r).
  - intros Hh. by apply (sound_screen w Hs).
  - intros s' id' Hin. rewrite elem_of_app, list_elem_of_singleton in Hin.
    destruct Hin as [Hin|[= -> ->]]; [by apply (sound_queue w Hs)|by apply Hn].
  - by intros ? ? ?%not_elem_of_nil.
  - by intros ? ? ?%not_elem_of_nil.
Qed.

Lemma recovery_request_right s p : right any nothing (HandleRecoveryRequest (E := E) s p).
Proof.
  unfold HandleRecoveryRequest, atomic. cbn [pbind].
  apply right_section with (F' := fun r l => match r with Some id => few l -> names l id (c_str s) | None => True end); [done| |].
  - intros w Hw _. destruct (submit_section s p w Hw) as [H1 H2]. split; [done|].
    destruct (eval (submit_request s p) w) as [id|]; [|done]. by apply H2.
  - intros [id|]; [|by apply right_done].
    assert (Hl : lasting (fun l => few l -> names l id (c_str s))).
    { apply lasting_few. intros l l'. by apply names_prefix. }
    apply right_inert; [done|auto with inert|]. intros hooked. apply right_section with (F' := fun _ => any); [done| |by intros; apply right_done].
    intros w Hw HF. split; [|done]. by apply named_queue.
Qed.

Lemma form_right len conn : right any nothing (HandlePostConnect (E := E) recv len conn ;;! Done tt).
Proof.
  unfold HandlePostConnect. destruct (_ || _); [by apply right_done|]. destruct (eval _ conn) as [body| |]; [|by apply right_done..].
  apply right_bind with (Q := nothing); [|by intros; apply right_done].
  unfold atomic. cbn [pbind].
  apply right_section with (F' := fun (first_run_form : bool) _ => first_run_form = false); [done| |].
  - intros w Hw _. split; [apply inert_guarded; auto with inert|]. apply Hw.
  - intros first. intros w Hw ->. cbn [negb]. by apply recovery_request_right.
Qed.

Lemma clear_pending_guarded w :
  secure w -> guarded w (exec (locked (modify (fun s => set_pending (Clear (pending_credentials s)) s))) w).
Proof. intros Hw. apply (guarded_grow w _ []); try done; cbn; [by rewrite app_nil_r|by intros ? ? ?%not_elem_of_nil..]. Qed.

Lemma on_event_right e : right any nothing (OnEvent (E := E) e).
Proof.
  destruct e as [| | | |ip]; cbn [OnEvent].
  - steps.
  - unfold on_sta_disconnected, atomic. cbn [pbind]. apply right_inert; [done| |intros [[[[] []] [delay|]] hooked]; steps].
    apply locked_inert. intros s. unfold on_disconnected, bind, modify, get. cbn.
    destruct (OnDisconnected _ _). by split.
  - unfold on_ap_sta_connected. steps.
  - unfold on_ap_sta_disconnected. steps.
  - unfold on_got_ip, atomic. cbn [pbind]. apply right_inert; [done|auto with inert|]. intros _.
    apply right_inert; [done|auto with inert|]. intros [server hooked].
    apply right_bind with (Q := fun _ => any); [destruct server; steps|]. intros _.
    apply right_section with (F' := fun _ => any); [done| |intros; steps].
    intros w Hw _. split; [|done]. by apply clear_pending_guarded.
Qed.

Lemma connect_stored_right : right any nothing (connect_stored (E := E)).
Proof. unfold connect_stored. steps. Qed.

Lemma timer_callback_right : right any nothing (ReconnectTimerCallback (E := E)).
Proof. unfold ReconnectTimerCallback. steps. Qed.

Lemma recovery_right : right any nothing (StartRecoveryAccessPoint (E := E)).
Proof. unfold StartRecoveryAccessPoint, StartSetupHttpServer, offer_setup. steps. Qed.

(** ** The tasks together *)

Definition task_ok (p : prog unit) w : Prop :=
  ok guarded section_ok (fun a d w1 => d = false /\ nothing a (happened w1)) p false w.

Record inv (s : System (E := E)) : Prop := {
  inv_secure : secure (world s);
  inv_event : task_ok (event_task s) (world s);
  inv_ui : task_ok (ui_task s) (world s);
  inv_others : Forall (fun p => task_ok p (world s)) (others s)
}.

Lemma task_stable p w w1 : guarded w w1 -> task_ok p w -> task_ok p w1.
Proof. apply ok_stable; exact _. Qed.

Lemma tasks_stable ps w w1 : guarded w w1 -> Forall (fun p => task_ok p w) ps -> Forall (fun p => task_ok p w1) ps.
Proof. intros Hg Hf. eapply Forall_impl; [exact Hf|]. intros p. by apply task_stable. Qed.

Lemma task_done w : task_ok (Done tt) w.
Proof. by intros w1 _. Qed.

Lemma task_section {B} (m : M World B) k w :
  task_ok (Atomic m k) w -> guarded w (exec m w) /\ task_ok (k (eval m w)) (exec m w).
Proof. intros Ht. destruct (Ht w) as (d' & [-> Hg] & Hk); [reflexivity|]. done. Qed.

(** The world moves without the log, the requests and the screen. *)
Lemma moved_guarded w w1 :
  happened w1 = happened w -> g_state w1 = g_state w -> screen w1 = screen w ->
  (forall t, t ∈ ui_queue w1 -> t ∈ ui_queue w) -> guarded w w1.
Proof.
  intros H1 H2 H3 H4. apply (plain_frame w w1 []); rewrite ?H1, ?H2, ?H3; auto; by rewrite app_nil_r.
Qed.

Lemma inv_moved f s : guarded (world s) (f (world s)) -> inv s -> inv (in_world f s).
Proof.
  intros Hg [I1 I2 I3 I4]. split; cbn; [by apply Hg|by apply (task_stable _ _ _ Hg)|by apply (task_stable _ _ _ Hg)|by apply (tasks_stable _ _ _ Hg)].
Qed.

Lemma right_task p w : secure w -> right any nothing p -> task_ok p w.
Proof. intros Hw Hp. by apply Hp. Qed.

Lemma approval_inv_spawn p s : right any nothing p -> inv s -> inv (spawn p s).
Proof.
  intros Hp [I1 I2 I3 I4]. split; try done. cbn. apply Forall_app_2; [done|]. constructor; [by apply right_task|constructor].
Qed.

Lemma approval_inv_step s step : inv s -> inv (sys_step recv s step).
Proof.
  destruct s as [w ev ui ps]. intros Hi. pose proof Hi as [I1 I2 I3 I4].
  destruct step as [| |i|e| | |len conn|tap]; cbn [sys_step world event_task ui_task others] in *.
  - destruct ev as [[]|B m k].
    + destruct (events w) as [|e es] eqn:Ee; [done|].
      assert (Hg : guarded w (with_events es w)) by (by apply moved_guarded).
      apply (inv_moved (with_events es)) in Hi as [J1 J2 J3 J4]; [|done]. split; cbn in *; try done.
      apply right_task; [done|apply on_event_right].
    + destruct (task_section m k w I2) as [Hg Hk].
      split; cbn; [by apply Hg|exact Hk|by apply (task_stable _ _ _ Hg)|by apply (tasks_stable _ _ _ Hg)].
  - destruct ui as [[]|B m k].
    + destruct (ui_queue w) as [|t ts] eqn:Eq; [done|].
      assert (Hg : guarded w (with_ui_queue ts w)).
      { apply moved_guarded; try done. intros t' Hin. rewrite Eq. by right. }
      apply (inv_moved (with_ui_queue ts)) in Hi as [J1 J2 J3 J4]; [|done]. split; cbn in *; try done.
      apply (ui_task_right t); [done|]. destruct t as [| |s id|]; try done. intros Hf. apply (sound_queue w); [by apply I1|].
      rewrite Eq. by left.
    + destruct (task_section m k w I3) as [Hg Hk].
      split; cbn; [by apply Hg|by apply (task_stable _ _ _ Hg)|exact Hk|by apply (tasks_stable _ _ _ Hg)].
  - unfold exec, eval. destruct (ps !! i) as [p|] eqn:Ep; [|by rewrite (step_nth_none _ _ _ Ep)].
    rewrite (step_nth_some _ _ _ _ Ep). cbn [fst snd]. pose proof (Forall_lookup_1 _ _ _ _ I4 Ep) as Hp.
    destruct p as [[]|B m k]; cbn [step_prog]; [cbn [fst snd]; by rewrite list_insert_id|].
    destruct (task_section m k w Hp) as [Hg Hk].
    split; cbn; [by apply Hg|by apply (task_stable _ _ _ Hg)|by apply (task_stable _ _ _ Hg)|].
    apply Forall_insert; [by apply (tasks_stable _ _ _ Hg)|exact Hk].
  - apply (inv_moved (post e)); [|done]. apply moved_guarded; destruct e; cbn; try done; by destruct (link w).
  - destruct (g_reconnect_timer w); [|done]. apply approval_inv_spawn; [apply timer_callback_right|].
    apply inv_moved; [by apply moved_guarded|done].
  - destruct (g_recovery_timer w); [|done]. apply approval_inv_spawn; [apply recovery_right|].
    apply inv_moved; [by apply moved_guarded|done].
  - apply approval_inv_spawn; [apply form_right|done].
  - destruct ui as [[]|B m k]; [|done]. split; try done. apply right_task; [done|apply tap_right].
Qed.

Lemma approval_inv_run steps s : inv s -> inv (run recv steps s).
Proof. revert s. induction steps as [|step steps IH]; intros s Hi; [done|]. by apply IH, approval_inv_step. Qed.

Lemma approval_inv_boot e : boots_stored e = true -> inv (boot e).
Proof.
  intros Hb. unfold boot. rewrite Hb. set (w := exec begin_connect (initial_world e)).
  assert (Hw : secure w).
  { unfold w, exec, begin_connect. rewrite run_bind. unfold drive. destruct (esp_wifi_get_config _) as [stored e'].
    split; [done|]. intros _. split; cbn; try done; intros; exfalso; eapply not_elem_of_nil; eassumption. }
  split; try done; cbn; try apply task_done. constructor; [apply right_task; [done|apply connect_stored_right]|constructor].
Qed.

(** C5: Nobody in radio range can change the network of a device that is set up. However its
    tasks interleave from a boot with stored credentials on, whatever forms are submitted
    to the recovery network and whatever is tapped (while fewer than 2^32 requests are
    made): all credentials the driver was given were typed on the device's own screen, or
    are those of a request that was allowed by a tap while the screen showed the very
    network name that was then applied, and no other request has that request's id. *)
Theorem nothing_applied_unseen (e : E) (steps : list (Step (C := C))) :
  boots_stored e = true ->
  let l := happened (world (run recv steps (boot e))) in
  few l ->
  forall s p, Applied s p ∈ l ->
    exists c, s = c_str (Connectivity.ssid c) /\ p = c_str (password c) /\
      (Typed c ∈ l \/
       exists id, Requested id c ∈ l /\ Allowed id s ∈ l /\ forall c', Requested id c' ∈ l -> c' = c).
Proof.
  intros Hb l Hf s p Hin. destruct (approval_inv_run steps _ (approval_inv_boot e Hb)) as [[_ Hs] _ _ _]. specialize (Hs Hf).
  destruct (sound_applied _ Hs s p Hin) as (c & -> & -> & Hc). exists c. split_and!; [done..|].
  destruct Hc as [?|(id & Hr & Ha)]; [by left|]. right. exists id. split_and!; [done..|].
  intros c' Hr'. exact (sound_unique _ Hs _ _ _ Hr' Hr).
Qed.
End Programs.

(** ** Witness *)

Module Sample.

Definition form_text : string := "ssid=New+home&password=secret12".

(** The form is submitted to the recovery network, shown, and allowed. *)
Definition allowed_request : list (Step (C := list Recv)) :=
  [SubmitForm (size form_text) [RecvTimeout; RecvBytes form_text]] ++ repeat (OtherStep 1) 5 ++
  [UiStep; UiStep; TapScreen TapAllow] ++ repeat UiStep 7.
End Sample.

Lemma nothing_applied_unseen_witness :
  let l := happened (world (run (H := Reliable.driver) script_recv Sample.allowed_request (boot (H := Reliable.driver) tt))) in
  Applied "New home" "secret12" ∈ l /\
  exists c, "New home" = c_str (Connectivity.ssid c) /\ "secret12" = c_str (password c) /\
    (Typed c ∈ l \/ exists id, Requested id c ∈ l /\ Allowed id "New home" ∈ l /\ forall c', Requested id c' ∈ l -> c' = c).
Proof.
  intros l. assert (Hin : Applied "New home" "secret12" ∈ l) by (apply list_elem_of_In; vm_compute; tauto).
  split; [exact Hin|].
  apply (nothing_applied_unseen (H := Reliable.driver) script_recv tt Sample.allowed_request); [reflexivity| |exact Hin].
  vm_compute. reflexivity.
Defined.
