(* ===== verification/Weather.v ===== *)
(** Weather: the weather provider and its two routes.

    Models [src/src/core/weather_provider.cpp] and [src/src/core/weather_routes.cpp]. The
    C library's [strtod] and the HTTP client are parameters; the settings and the cache are
    [Storage.v]'s over any [KvStore]. The provider's thread is a step relation with the
    threads that call [TriggerPoll] and with the stop. *)
From Stdlib Require Import SpecFloat.
From S2P Require Import Prelude Text Json Double Storage Http Auth.

(** ** Data *)

Record WeatherState := {
  configured : bool; has_reading : bool; live : bool; temperature_c : spec_float; weather_code : Z;
  display_name : string
}.

(** [WeatherState{c, false, false, 0.0, 0, name}]. *)
Definition without_reading (c : bool) (name : string) : WeatherState :=
  {| configured := c; has_reading := false; live := false; temperature_c := double_of_Z 0; weather_code := 0;
     display_name := name |}.

Definition reading (is_live : bool) (temperature : spec_float) (code : Z) (name : string) : WeatherState :=
  {| configured := true; has_reading := true; live := is_live; temperature_c := temperature; weather_code := code;
     display_name := name |}.

Definition kWeatherModuleId : string := "weather".
Definition kLatitudeKey : string := "latitude".
Definition kLongitudeKey : string := "longitude".
Definition kDisplayNameKey : string := "display_name".
Definition kCacheKey : string := "last_reading".
Definition kCacheSchemaVersion : Z := 1.

Definition ClampWeatherCode (c : spec_float) : Z := double_trunc (double_clamp c (double_of_Z 0) (double_of_Z 99)).

Definition current_url (latitude longitude : string) : string :=
  "https://api.open-meteo.com/v1/forecast?latitude=" +:+ latitude +:+ "&longitude=" +:+ longitude +:+
  "&current=temperature_2m,weather_code".

(** The two numbers of an object, when both are there ([is_number]). *)
Definition reading_fields (temperature_key : string) (o : json) : option (spec_float * Z) :=
  match find temperature_key o, find "weather_code" o with
  | Some t, Some c =>
      match json_double t, json_double c with
      | Some t, Some c => Some (t, ClampWeatherCode c)
      | _, _ => None
      end
  | _, _ => None
  end.

Section Coordinates.
(** [strtod]: the value, and how many characters it took ([end - text.c_str()]). *)
Context (strtod : string -> spec_float * Z).

Definition ParseNumber (text : string) : option spec_float :=
  if is_empty text then None
  else let '(value, taken) := strtod text in if taken =? size text then Some value else None.

Definition ParsesAsNumber (text : string) : bool := match ParseNumber text with Some _ => true | None => false end.

Definition within (bound : Z) (value : spec_float) : bool :=
  SFleb (SFopp (double_of_Z bound)) value && SFleb value (double_of_Z bound).

Definition IsValidWeatherCoordinate (key value : string) : bool :=
  let check bound :=
    if is_empty value then true
    else match ParseNumber value with Some parsed => within bound parsed | None => false end in
  if String.eqb key kLatitudeKey then check 90
  else if String.eqb key kLongitudeKey then check 180
  else true.
End Coordinates.

(** ** The poll *)

Section Provider.
Context {S N : Type} `{KvStore S} `{JsonCodec}.
Context (strtod : string -> spec_float * Z) (http_get : string -> M N HttpClientResponse) (has_logger : bool).

(** [updates] is the state each [WeatherUpdatedEvent] announced, oldest first. *)
Record Provider := { state_ : WeatherState; updates : list WeatherState; warnings : list string }.

Record World := { store : S; net : N; provider : Provider }.

Definition new_provider : Provider :=
  {| state_ := without_reading false EmptyString; updates := []; warnings := [] |}.

(** [state_] under the mutex, and then the event. *)
Definition publish (s : WeatherState) : M World unit :=
  modify (fun w => {| store := store w; net := net w;
                      provider := {| state_ := s; updates := updates (provider w) ++ [s];
                                     warnings := warnings (provider w) |} |}).

Definition on_store {A} (m : M S A) : M World A := fun w =>
  let '(a, s) := m (store w) in (a, {| store := s; net := net w; provider := provider w |}).

Definition Get (url : string) : M World HttpClientResponse := fun w =>
  let '(r, n) := http_get url (net w) in (r, {| store := store w; net := n; provider := provider w |}).

Definition warn (message : string) : M World unit :=
  if has_logger
  then modify (fun w => {| store := store w; net := net w;
                           provider := {| state_ := state_ (provider w); updates := updates (provider w);
                                          warnings := warnings (provider w) ++ [message] |} |})
  else ret tt.

Definition setting (key : string) : M World (option string) :=
  gets (fun w => option_map vv_value (GetSetting kWeatherModuleId key (store w))).

(** The reading of a response; [None] for a failed fetch or a body of another shape. *)
Definition fetched (r : HttpClientResponse) : option (spec_float * Z) :=
  if success r && (http_status r =? 200) then
    match TryParseJsonObject (http_body r) with
    | Some parsed =>
        match find "current" parsed with
        | Some (JObject m) => reading_fields "temperature_2m" (JObject m)
        | _ => None
        end
    | None => None
    end
  else None.

Definition cache_json (temperature : spec_float) (code : Z) (name : string) : json :=
  JObject [("temperature_c", JFloat temperature); ("weather_code", JInt code); ("display_name", JString name)].

Definition cached_reading (cached : option VersionedValue) : option (spec_float * Z) :=
  match cached with
  | Some v => match TryParseJsonObject (vv_value v) with Some parsed => reading_fields "temperature_c" parsed | None => None end
  | None => None
  end.

Definition PollOnce : M World unit :=
  let* latitude := setting kLatitudeKey in
  let* longitude := setting kLongitudeKey in
  let* name_setting := setting kDisplayNameKey in
  match latitude, longitude with
  | Some lat, Some lon =>
      if ParsesAsNumber strtod lat && ParsesAsNumber strtod lon then
        let* response := Get (current_url lat lon) in
        let name := default EmptyString name_setting in
        match fetched response with
        | Some (t, c) =>
            let* ok := on_store (WriteCache kWeatherModuleId kCacheKey kCacheSchemaVersion (json_dump (cache_json t c name))) in
            (if ok : bool then ret tt else warn "Failed to persist the weather cache") ;;*
            publish (reading true t c name)
        | None =>
            let* cached := gets (fun w => cached_reading (ReadCache kWeatherModuleId kCacheKey (store w))) in
            match cached with
            | Some (t, c) => publish (reading false t c name)
            | None => publish (without_reading true name)
            end
        end
      else publish (without_reading false EmptyString)
  | _, _ => publish (without_reading false EmptyString)
  end.

(** *** The thread

    [PollLoop] looks at the stop, polls, and waits until woken, timed out or stopped. *)
Inductive Phase := Polling | Waiting | Ended.

#[export] Instance phase_eq_dec : EqDecision Phase.
Proof. solve_decision. Defined.

Record Thread := { phase : Phase; wake_requested_ : bool; stop_ : bool; world : World; polls : nat }.

Definition TriggerPoll (t : Thread) : Thread :=
  {| phase := phase t; wake_requested_ := true; stop_ := stop_ t; world := world t; polls := polls t |}.

Definition request_stop (t : Thread) : Thread :=
  {| phase := phase t; wake_requested_ := wake_requested_ t; stop_ := true; world := world t; polls := polls t |}.

(** What the thread does next; [timed_out] says whether the interval has elapsed. *)
Definition thread_step (timed_out : bool) (t : Thread) : Thread :=
  match phase t with
  | Polling =>
      if stop_ t then {| phase := Ended; wake_requested_ := wake_requested_ t; stop_ := true; world := world t; polls := polls t |}
      else {| phase := Waiting; wake_requested_ := wake_requested_ t; stop_ := stop_ t; world := exec PollOnce (world t);
         polls := Datatypes.S (polls t) |}
  | Waiting =>
      if timed_out || wake_requested_ t || stop_ t then
        {| phase := Polling; wake_requested_ := false; stop_ := stop_ t; world := world t;
           polls := polls t |}
      else t
  | Ended => t
  end.

Inductive WeatherOp := OpTrigger | OpStop | OpStep (timed_out : bool).

Definition weather_step (t : Thread) (op : WeatherOp) : Thread :=
  match op with OpTrigger => TriggerPoll t | OpStop => request_stop t | OpStep timed_out => thread_step timed_out t end.

Definition start_thread (w : World) : Thread :=
  {| phase := Polling; wake_requested_ := false; stop_ := false; world := w; polls := 0 |}.
End Provider.

(** ** The routes *)

Definition kMaxGeocodeQueryLength : Z := 100.

Definition geocode_url (query : string) : string :=
  "https://geocoding-api.open-meteo.com/v1/search?name=" +:+ UrlEncode query +:+ "&count=10".

Definition optional_string (entry : json) (key : string) : string := default EmptyString (find_string key entry).

(** One upstream result, when its name and coordinates have the right types. *)
Definition geocode_entry (entry : json) : option json :=
  if negb (is_object entry) then None
  else match find_string "name" entry, find "latitude" entry, find "longitude" entry with
       | Some n, Some lat, Some lon =>
           match json_double lat, json_double lon with
           | Some lat, Some lon =>
               Some (JObject [("name", JString n); ("admin1", JString (optional_string entry "admin1"));
                              ("country", JString (optional_string entry "country"));
                              ("latitude", JFloat lat); ("longitude", JFloat lon)])
           | _, _ => None
           end
       | _, _, _ => None
       end.

Section Routes.
Context {N W : Type} `{JsonCodec} `{Part W N} (http_get : string -> M N HttpClientResponse).

Definition geocode_results (parsed : json) : list json :=
  match find "results" parsed with Some (JArray l) => omap geocode_entry l | _ => [] end.

Definition get_geocode : Handler W := fun request =>
  match ParseFormField (req_query request) "query" with
  | None => ret (missing_field "query")
  | Some query =>
      if is_empty query then ret (missing_field "query")
      else if kMaxGeocodeQueryLength <? size query then ret (error_response 400 "query_too_long")
      else
        let* response := on (http_get (geocode_url query)) in
        if negb (success response) || negb (http_status response =? 200) then ret (error_response 502 "upstream_failed")
        else match TryParseJsonObject (http_body response) with
             | None => ret (error_response 502 "upstream_invalid_response")
             | Some parsed =>
                 ret (json_response 200 (json_dump (JObject [("results", JArray (geocode_results parsed))])))
             end
  end.

Definition post_refresh (trigger : M W unit) : Handler W := fun _ => trigger ;;* ret status_ok.
End Routes.

Definition RegisterWeatherRoutes {S R N W : Type} `{KvStore S} `{!Part W (Svc (S := S) (R := R))} `{JsonCodec} `{!Part W N}
    (http_get : string -> M N HttpClientResponse) (trigger : M W unit) (now : Z) : list (HttpMethod * string * Handler W) :=
  [(kGet, "/api/weather/geocode", RequireAuth now (get_geocode http_get));
   (kPost, "/api/weather/refresh", RequireAuth now (post_refresh trigger))].

(** ** Lemmas *)

Lemma ClampWeatherCode_range c : fits c -> 0 <= ClampWeatherCode c <= 99.
Proof.
  intros Hc. unfold ClampWeatherCode. change (double_of_Z 0) with (S754_zero false).
  change (double_of_Z 99) with (S754_finite false 6966505673588736 (- 46)).
  change 99 with (Z.pos 6966505673588736 / 2 ^ 46).
  apply (below_trunc 6966505673588736 46); [apply double_clamp_below; [done|lia]|lia|by vm_compute].
Qed.

(** The code of a WMO reading comes back from the cache as it was written. *)
Lemma ClampWeatherCode_exact c : 0 <= c <= 99 -> ClampWeatherCode (double_of_Z c) = c.
Proof.
  intros Hc. assert (Hall : forallb (fun n => ClampWeatherCode (double_of_Z (Z.of_nat n)) =? Z.of_nat n) (seq 0 100) = true)
    by by vm_compute.
  rewrite forallb_forall in Hall. specialize (Hall (Z.to_nat c)). rewrite Z2Nat.id in Hall by lia.
  apply Z.eqb_eq, Hall, in_seq. lia.
Qed.

Lemma json_double_fits j d : json_numbers_ok j -> json_double j = Some d -> fits d.
Proof. destruct j; cbn; try done; intros Hj [= <-]; [apply double_of_Z_fits|by apply is_double_fits]. Qed.

Lemma reading_fields_ok key o t c :
  json_numbers_ok o -> reading_fields key o = Some (t, c) -> fits t /\ 0 <= c <= 99.
Proof.
  intros Ho. unfold reading_fields. destruct (find key o) as [jt|] eqn:Et; [|done].
  destruct (find "weather_code" o) as [jc|] eqn:Ec; [|done].
  destruct (json_double jt) as [dt|] eqn:Edt; [|done]. destruct (json_double jc) as [dc|] eqn:Edc; [|done].
  intros [= <- <-]. apply json_numbers_find in Et, Ec; try done.
  split; [by apply (json_double_fits jt)|]. apply ClampWeatherCode_range. by apply (json_double_fits jc).
Qed.

(** What a shown state can be. *)
Definition state_ok (s : WeatherState) : Prop :=
  (live s = true -> has_reading s = true) /\ (has_reading s = true -> configured s = true) /\
  (has_reading s = false -> temperature_c s = double_of_Z 0 /\ weather_code s = 0) /\
  (configured s = false -> display_name s = EmptyString) /\
  fits (temperature_c s) /\ 0 <= weather_code s <= 99.

Lemma without_reading_ok c name : (c = false -> name = EmptyString) -> state_ok (without_reading c name).
Proof. intros Hc. unfold state_ok. cbn. split_and!; first [done|lia|by intros]. Qed.

Lemma reading_ok is_live t c name : fits t /\ 0 <= c <= 99 -> state_ok (reading is_live t c name).
Proof. intros [Ht Hc]. unfold state_ok. cbn. split_and!; first [done|lia|by intros]. Qed.

Section ProviderLemmas.
Context {S N : Type} `{KvStore S} `{JsonCodec} (Hparse : forall text, json_numbers_ok (json_parse text)).
Context (strtod : string -> spec_float * Z) (http_get : string -> M N HttpClientResponse) (has_logger : bool).

Abbreviation Poll := (PollOnce strtod http_get has_logger).
Abbreviation run := (foldl (weather_step strtod http_get has_logger)).

Lemma object_ok text o : TryParseJsonObject text = Some o -> json_numbers_ok o.
Proof.
  unfold TryParseJsonObject, ParseBoundedJson. destruct (ExceedsJsonNestingDepth _ _); [done|].
  destruct (is_discarded _ || _); [done|]. intros [= <-]. apply Hparse.
Qed.

Lemma fetched_ok r t c : fetched r = Some (t, c) -> fits t /\ 0 <= c <= 99.
Proof.
  unfold fetched. destruct (success r && _); [|done]. destruct (TryParseJsonObject _) as [o|] eqn:E; [|done].
  apply object_ok in E. destruct (find "current" o) as [j|] eqn:Ej; [|done]. apply (json_numbers_find _ _ _ E) in Ej.
  destruct j; try done. by apply reading_fields_ok.
Qed.

Lemma cached_reading_ok v t c : cached_reading v = Some (t, c) -> fits t /\ 0 <= c <= 99.
Proof.
  unfold cached_reading. destruct v as [v|]; [|done]. destruct (TryParseJsonObject _) as [o|] eqn:E; [|done].
  apply object_ok in E. by apply reading_fields_ok.
Qed.

Definition provider_ok (w : World (S := S) (N := N)) : Prop :=
  state_ok (state_ (provider w)) /\ Forall state_ok (updates (provider w)) /\
  List.last (updates (provider w)) (without_reading false EmptyString) = state_ (provider w).

Lemma publish_ok s : state_ok s -> related (keeps provider_ok) (publish s).
Proof.
  intros Hs w (H1 & H2 & H3). unfold provider_ok, exec. cbn. split_and!; [done| |apply List.last_last].
  apply Forall_app. by split; [|constructor].
Qed.

Lemma PollOnce_ok : related (keeps provider_ok) Poll.
Proof.
  assert (Hstore : forall A (m : M S A), related (keeps provider_ok) (on_store (N := N) m)).
  { intros A m w Hw. unfold exec, on_store. destruct (m (store w)). exact Hw. }
  assert (Hget : forall url, related (keeps provider_ok) (Get http_get url)).
  { intros url w Hw. unfold exec, Get. destruct (http_get url (net w)). exact Hw. }
  assert (Hwarn : forall m, related (keeps provider_ok) (warn (S := S) (N := N) has_logger m)).
  { intros m w Hw. unfold warn. by destruct has_logger. }
  assert (Hnone : related (keeps provider_ok) (publish (S := S) (N := N) (without_reading false EmptyString))).
  { apply publish_ok. by apply without_reading_ok. }
  unfold PollOnce, setting. do 3 (apply related_bind; [exact _|apply related_gets; exact _|intros ?]).
  repeat case_match; try exact Hnone.
  apply related_bind; [exact _|apply Hget|intros r]. cbv zeta. destruct (fetched r) as [[t c]|] eqn:Ef.
  - apply related_bind; [exact _|apply Hstore|intros ok]. apply related_bind; [exact _|..].
    + destruct ok; [apply related_ret; exact _|apply Hwarn].
    + intros _. apply publish_ok, reading_ok. by apply (fetched_ok r).
  - intros w Hw. unfold exec. rewrite run_bind. cbn [gets fst snd].
    destruct (cached_reading _) as [[t c]|] eqn:Ec; apply publish_ok; [|done|by apply without_reading_ok|done].
    apply reading_ok. by eapply cached_reading_ok.
Qed.

Lemma weather_step_ok t op : provider_ok (world t) -> provider_ok (world (weather_step strtod http_get has_logger t op)).
Proof.
  intros Hw. destruct op as [| |timed_out]; try done. cbn. unfold thread_step.
  destruct (phase t); [|by destruct (_ || _)|done]. destruct (stop_ t); [done|]. by apply PollOnce_ok.
Qed.

Lemma Get_result url (w w' : World (S := S) (N := N)) r :
  Get http_get url w = (r, w') -> r = (http_get url (net w)).1 /\ store w' = store w /\ provider w' = provider w.
Proof. unfold Get. destruct (http_get url (net w)). by intros [= <- <-]. Qed.

Lemma on_store_result {A} (m : M S A) (w w' : World (S := S) (N := N)) a :
  on_store m w = (a, w') -> a = eval m (store w) /\ store w' = exec m (store w).
Proof. unfold on_store, eval, exec. destruct (m (store w)). by intros [= <- <-]. Qed.

(** A poll that fetches a reading and caches it. *)
Lemma PollOnce_live (w : World (S := S) (N := N)) lat lon t c :
  GetSetting kWeatherModuleId kLatitudeKey (store w) = Some lat ->
  GetSetting kWeatherModuleId kLongitudeKey (store w) = Some lon ->
  ParsesAsNumber strtod (vv_value lat) = true -> ParsesAsNumber strtod (vv_value lon) = true ->
  let name := default EmptyString (option_map vv_value (GetSetting kWeatherModuleId kDisplayNameKey (store w))) in
  let r := (http_get (current_url (vv_value lat) (vv_value lon)) (net w)).1 in
  fetched r = Some (t, c) ->
  let w' := exec Poll w in
  state_ (provider w') = reading true t c name /\
  store w' = exec (WriteCache kWeatherModuleId kCacheKey kCacheSchemaVersion (json_dump (cache_json t c name))) (store w).
Proof.
  intros Hlat Hlon Plat Plon. cbv zeta. intros Hf. unfold exec, PollOnce, setting. rewrite !run_bind. cbn [gets fst snd].
  rewrite Hlat, Hlon. cbn [option_map]. rewrite Plat, Plon. cbn [andb]. rewrite !run_bind.
  destruct (Get http_get _ w) as [r w2] eqn:EG. apply Get_result in EG as (Er & Es & _). cbn [fst snd].
  rewrite <- Er in Hf. rewrite Hf, !run_bind.
  destruct (on_store _ w2) as [ok w3] eqn:ES. apply on_store_result in ES as (_ & Es3). cbn [fst snd].
  rewrite Es in Es3. destruct ok; cbn [ret snd]; [done|]. unfold warn. by destruct has_logger.
Qed.

(** A poll that fetches nothing shows what the cache has. *)
Lemma PollOnce_failed (w : World (S := S) (N := N)) lat lon :
  GetSetting kWeatherModuleId kLatitudeKey (store w) = Some lat ->
  GetSetting kWeatherModuleId kLongitudeKey (store w) = Some lon ->
  ParsesAsNumber strtod (vv_value lat) = true -> ParsesAsNumber strtod (vv_value lon) = true ->
  let name := default EmptyString (option_map vv_value (GetSetting kWeatherModuleId kDisplayNameKey (store w))) in
  fetched (http_get (current_url (vv_value lat) (vv_value lon)) (net w)).1 = None ->
  let w' := exec Poll w in
  state_ (provider w') = match cached_reading (ReadCache kWeatherModuleId kCacheKey (store w)) with
                         | Some (t, c) => reading false t c name
                         | None => without_reading true name
                         end /\
  store w' = store w.
Proof.
  intros Hlat Hlon Plat Plon. cbv zeta. intros Hf. unfold exec, PollOnce, setting. rewrite !run_bind. cbn [gets fst snd].
  rewrite Hlat, Hlon. cbn [option_map]. rewrite Plat, Plon. cbn [andb]. rewrite !run_bind.
  destruct (Get http_get _ w) as [r w2] eqn:EG. apply Get_result in EG as (Er & Es & _). cbn [fst snd].
  rewrite <- Er in Hf. rewrite Hf, !run_bind. cbn [gets fst snd]. rewrite Es. by destruct (cached_reading _) as [[t c]|].
Qed.
End ProviderLemmas.

(** *** The thread *)

Section ThreadLemmas.
Context {S N : Type} `{KvStore S} `{JsonCodec}.
Context (strtod : string -> spec_float * Z) (http_get : string -> M N HttpClientResponse) (has_logger : bool).

Abbreviation step := (weather_step strtod http_get has_logger).

Definition is_step (op : WeatherOp) : bool := match op with OpStep _ => true | _ => false end.
Definition is_stop (op : WeatherOp) : bool := match op with OpStop => true | _ => false end.
Definition steps (ops : list WeatherOp) : nat := List.length (List.filter is_step ops).

(** How many of its own steps a running thread still needs for [n] polls more than [base],
    when nothing but a wake-up may end its waits: a pending wake-up carries it through the
    next wait. *)
Definition due (t : Thread (S := S) (N := N)) (base : nat) (left : nat) : Prop :=
  stop_ t = false /\
  match phase t with
  | Polling => (base <= polls t + 1)%nat \/ (wake_requested_ t = true /\ (base <= polls t + 2)%nat /\ (3 <= left)%nat)
  | Waiting => (base <= polls t)%nat \/ (wake_requested_ t = true /\ (base <= polls t + 1)%nat /\ (2 <= left)%nat)
  | Ended => False
  end.

Lemma due_run base ops (t : Thread (S := S) (N := N)) :
  existsb is_stop ops = false -> due t base (steps ops) -> (1 <= steps ops)%nat \/ (base <= polls t)%nat ->
  (base <= polls (foldl step t ops))%nat.
Proof.
  revert t. induction ops as [|op ops IH]; intros t Hs Hd Hl.
  { destruct Hl as [Hl|Hl]; [cbn in Hl; lia|done]. }
  cbn [existsb] in Hs. apply orb_false_iff in Hs as [Hop Hs]. cbn [foldl].
  destruct Hd as [Hst Hd]. destruct op as [| |timed_out]; [|done|].
  - apply IH; [done| |done]. split; [done|]. cbn. change (steps (OpTrigger :: ops)) with (steps ops) in Hd.
    destruct (phase t); [| |done]; destruct Hd as [Hd|(_ & Hd & Hn)]; auto.
  - change (steps (OpStep timed_out :: ops)) with (Datatypes.S (steps ops)) in *.
    cbn [weather_step]. unfold thread_step. destruct (phase t) eqn:Ep; [| |done].
    + rewrite Hst. apply IH; [done| |].
      * split; [done|]. cbn. destruct Hd as [Hd|(Hw & Hd & Hn)]; [left; lia|right; split_and!; [done|lia|lia]].
      * cbn. destruct Hd as [Hd|(Hw & Hd & Hn)]; [right; lia|left; lia].
    + destruct (timed_out || _ || _) eqn:Ew.
      * apply IH; [done| |].
        -- split; [done|]. cbn. left. destruct Hd as [Hd|(_ & Hd & _)]; lia.
        -- destruct Hd as [Hd|(_ & Hd & Hn)]; [right; cbn; lia|left; lia].
      * destruct Hd as [Hd|(Hw & _)]; [|rewrite Hw in Ew; by destruct timed_out].
        apply IH; [done| |right; done]. split; [done|]. rewrite Ep. by left.
Qed.
End ThreadLemmas.

(** ** Properties *)

Section Properties.
Context {S N : Type} `{KvStore S} `{JsonCodec}.
Context (strtod : string -> spec_float * Z) (http_get : string -> M N HttpClientResponse) (has_logger : bool).

Abbreviation Poll := (PollOnce strtod http_get has_logger).
Abbreviation run := (foldl (weather_step strtod http_get has_logger)).

(** Whatever the weather service answers and whatever the cache and the settings hold, every
    state the provider shows or announces makes sense: a live one has a reading, one with a
    reading is configured, the weather code is a WMO code between 0 and 99 (so its
    conversion from a double is never out of range), one without a reading carries neither
    number, and the state shown is the one last announced. *)
Theorem weather_state_typed (ops : list WeatherOp) (w : World (S := S) (N := N)) :
  (forall text, json_numbers_ok (json_parse text)) -> provider w = new_provider ->
  let p := provider (world (run (start_thread w) ops)) in
  state_ok (state_ p) /\ Forall state_ok (updates p) /\
  List.last (updates p) (without_reading false EmptyString) = state_ p.
Proof.
  intros Hparse Hw. cbv zeta.
  assert (H1 : provider_ok (world (start_thread w))).
  { unfold provider_ok. cbn. rewrite Hw. cbn. split_and!; [by apply without_reading_ok|done|done]. }
  revert H1. generalize (start_thread w). induction ops as [|op ops IH]; intros t Ht; [exact Ht|].
  cbn [foldl]. by apply IH, weather_step_ok.
Qed.

(** C34: The last reading survives an outage and a restart: once a poll has shown a live reading
    and cached it, a poll of any later provider over the same cache, for any configured
    place, that gets no usable answer shows that reading's temperature and code, marked as
    not live, and leaves the store alone. *)
Theorem outage_keeps_last_reading `{!KvLaws S} (w w1 : World (S := S) (N := N)) lat lon lat1 lon1 (t : spec_float) (c : Z) :
  let name w := default EmptyString (option_map vv_value (GetSetting kWeatherModuleId kDisplayNameKey (store w))) in
  let configured_at w lat lon :=
    GetSetting kWeatherModuleId kLatitudeKey (store w) = Some lat /\
    GetSetting kWeatherModuleId kLongitudeKey (store w) = Some lon /\
    ParsesAsNumber strtod (vv_value lat) = true /\ ParsesAsNumber strtod (vv_value lon) = true in
  let response w lat lon := (http_get (current_url (vv_value lat) (vv_value lon)) (net w)).1 in
  let cache := cache_json t c (name w) in
  configured_at w lat lon -> fetched (response w lat lon) = Some (t, c) ->
  (forall text, json_numbers_ok (json_parse text)) -> TryParseJsonObject (json_dump cache) = Some cache ->
  eval (WriteCache kWeatherModuleId kCacheKey kCacheSchemaVersion (json_dump cache)) (store w) = true ->
  ReadCache kWeatherModuleId kCacheKey (store w1) = ReadCache kWeatherModuleId kCacheKey (store (exec Poll w)) ->
  configured_at w1 lat1 lon1 -> fetched (response w1 lat1 lon1) = None ->
  state_ (provider (exec Poll w)) = reading true t c (name w) /\
  state_ (provider (exec Poll w1)) = reading false t c (name w1) /\ store (exec Poll w1) = store w1.
Proof.
  cbv zeta. intros (L1 & L2 & L3 & L4) Hf Hparse Hround Hok Hsame (L5 & L6 & L7 & L8) Hn.
  destruct (PollOnce_live strtod http_get has_logger w lat lon t c L1 L2 L3 L4 Hf) as [Hlive Hstore].
  destruct (PollOnce_failed strtod http_get has_logger w1 lat1 lon1 L5 L6 L7 L8 Hn) as [Hdead Hkept].
  split_and!; [exact Hlive| |exact Hkept]. rewrite Hdead, Hsame, Hstore.
  unfold eval, exec, ReadCache, WriteCache in *. destruct (kv_set Cache _ _ _ _) as [ok s'] eqn:Es. cbn in Hok |- *. subst ok.
  rewrite (kv_get_set _ _ _ _ _ _ Es). cbn [DecodeIfPresent]. rewrite Decode_Encode by done.
  unfold cached_reading. cbn [vv_value]. rewrite Hround. cbn.
  destruct (fetched_ok Hparse _ _ _ Hf) as [_ Hc]. by rewrite ClampWeatherCode_exact.
Qed.

(** A refresh is never lost: after [TriggerPoll], at whatever moment of the thread's life it
    comes, three of the thread's own steps later, however other threads' calls interleave
    and though no interval elapses, another poll has run; and when a poll was due or under
    way, it and one more have, so that settings saved before the trigger are always read. *)
Theorem refresh_reaches_provider (t : Thread (S := S) (N := N)) (ops : list WeatherOp) :
  stop_ t = false -> phase t <> Ended -> existsb is_stop ops = false -> (3 <= steps ops)%nat ->
  (polls t + (if decide (phase t = Polling) then 2 else 1) <= polls (run (TriggerPoll t) ops))%nat.
Proof.
  intros Hs Hp Hops Hn. apply due_run; [done| |left; lia]. split; [done|]. cbn.
  destruct (phase t); [| |done]; cbn; right; split_and!; done || lia.
Qed.
End Properties.

(** ** Witnesses *)

Module Sample.

Definition kv : KvStore FileTree := HostKvStore closes_ok ["data"].

(** An integer in decimal. *)
Definition strtod (text : string) : spec_float * Z :=
  match from_chars INT_MIN INT_MAX text with
  | Some (z, rest) => (double_of_Z z, size text - size rest)
  | None => (double_of_Z 0, 0)
  end.

(** The service, which answers or is out of reach. *)
Definition http_get (url : string) : M bool HttpClientResponse := fun online =>
  ({| success := online; http_status := 200; http_body := "answer" |}, online).

Definition answer : json := JObject [("current", JObject [("temperature_2m", JInt 21); ("weather_code", JInt 140)])].

#[export] Instance codec : JsonCodec := {|
  json_dump := fun _ => "cached";
  json_parse := fun text =>
    if String.eqb text "answer" then answer
    else if String.eqb text "cached" then cache_json (double_of_Z 21) 99 "Berlin"
    else JDiscarded |}.

Lemma weather_codec_ok text : json_numbers_ok (json_parse text).
Proof. cbn. repeat case_match; by vm_compute. Qed.

Definition settings : FileTree :=
  let put k v := exec (SetSetting (H := kv) kWeatherModuleId k 1 v) in
  put kDisplayNameKey "Berlin" (put kLongitudeKey "13" (put kLatitudeKey "52" {| files := ∅; outcomes := [] |})).

Definition online : World (S := FileTree) (N := bool) := {| store := settings; net := true; provider := new_provider |}.

Abbreviation Poll := (PollOnce (H := kv) (H0 := codec) strtod http_get true).

(** After the first poll, the device restarts without a network. *)
Definition offline : World (S := FileTree) (N := bool) :=
  {| store := store (exec Poll online); net := false; provider := new_provider |}.
End Sample.

Lemma weather_state_typed_witness :
  let t := foldl (weather_step (H := Sample.kv) (H0 := Sample.codec) Sample.strtod Sample.http_get true) (start_thread Sample.online) [OpStep false] in
  state_ok (state_ (provider (world t))) /\ state_ (provider (world t)) = reading true (double_of_Z 21) 99 "Berlin".
Proof.
  split.
  - exact (proj1 (weather_state_typed (H := Sample.kv) (H0 := Sample.codec) Sample.strtod Sample.http_get true [OpStep false] Sample.online
                    Sample.weather_codec_ok eq_refl)).
  - vm_compute. reflexivity.
Defined.

Lemma outage_keeps_last_reading_witness :
  state_ (provider (exec Sample.Poll Sample.offline)) = reading false (double_of_Z 21) 99 "Berlin".
Proof.
  destruct (outage_keeps_last_reading (H := Sample.kv) (H0 := Sample.codec) (KvLaws0 := host_laws ["data"]) Sample.strtod Sample.http_get true
    Sample.online Sample.offline {| schema_version := 1; vv_value := "52" |} {| schema_version := 1; vv_value := "13" |}
    {| schema_version := 1; vv_value := "52" |} {| schema_version := 1; vv_value := "13" |} (double_of_Z 21) 99) as (_ & H & _).
  - split_and!; vm_compute; reflexivity.
  - vm_compute. reflexivity.
  - exact Sample.weather_codec_ok.
  - vm_compute. reflexivity.
  - vm_compute. reflexivity.
  - vm_compute. reflexivity.
  - split_and!; vm_compute; reflexivity.
  - vm_compute. reflexivity.
  - exact H.
Defined.

Lemma refresh_reaches_provider_witness :
  (2 <= polls (foldl (weather_step (H := Sample.kv) (H0 := Sample.codec) Sample.strtod Sample.http_get true) (TriggerPoll (start_thread Sample.online))
                 [OpStep false; OpTrigger; OpStep false; OpStep false]))%nat.
Proof.
  apply (refresh_reaches_provider (H := Sample.kv) (H0 := Sample.codec) Sample.strtod Sample.http_get true (start_thread Sample.online)
           [OpStep false; OpTrigger; OpStep false; OpStep false]).
  - reflexivity.
  - discriminate.
  - reflexivity.
  - vm_compute. lia.
Defined.
