(* ===== verification/Harmony.v ===== *)
(** Harmony: the Harmony Hub connection.

    Models [src/src/core/harmony_connection.cpp]: the parsers of the hub's replies, the
    command queue, the connect sequence, the liveness probe and the connection loop.
    The network, the clock, the stop token and the settings are the environment, an
    interface ([HarmonyEnv]) over a state [E]. The loop runs on its own thread: every
    call into the environment is a point at which other threads may have queued
    commands or asked for a reconnect ([interfere]), so the shared queue and trigger
    change under the loop as they do in the program. *)
From S2P Require Import Prelude Text Json Storage Power Connectivity Http WebSocket.

(** ** Data *)

Record HarmonyCommand := { cmd_name : string; cmd_label : string; cmd_action : string }.

Record HarmonyControlGroup := { group_name : string; commands : list HarmonyCommand }.

Record HarmonyDevice := { device_id : string; device_label : string; control_groups : list HarmonyControlGroup }.

Record HarmonyActivity := { activity_id : string; activity_label : string }.

Record HarmonySnapshot := {
  state : HarmonyState; has_config : bool; devices : list HarmonyDevice;
  activities : list HarmonyActivity; current_activity_id : string
}.

Inductive HarmonyEvent :=
  | HarmonyConnectionStateChangedEvent (s : HarmonyState)
  | HarmonyConfigUpdatedEvent
  | HarmonyCurrentActivityChangedEvent (id : string)
  | HarmonyCommandDroppedEvent.

#[export] Instance harmony_state_eq_dec : EqDecision HarmonyState.
Proof. solve_decision. Defined.

Record DeviceCommandRequest := { action : string; status : string }.

Record PendingCommand := {
  pc_activity_id : option string; pc_device_command : option DeviceCommandRequest; enqueued_at : Z
}.

(** ** Constants and URLs *)

Definition kProvisionInfoRequestBody : string :=
  "{" +:+ String dquote ("id" +:+ String dquote (":1," +:+ String dquote ("cmd" +:+ String dquote (":" +:+
  String dquote ("setup.account?getProvisionInfo" +:+ String dquote ("," +:+ String dquote ("timeout" +:+
  String dquote ":90000}"))))))).

Definition kHandshakeOrigin : string := "http://sl.dhg.myharmony.com".
Definition kConfigFetchTimeoutMs : Z := 10000.
Definition kLivenessProbeTimeoutMs : Z := 10000.
Definition kUnconfiguredRecheckInterval : Z := 5000.
Definition kMaxDrainIterations : nat := 20.
Definition kMaxPendingCommands : nat := 20.

Definition HandshakeUrl (hub_host : string) : string := "http://" +:+ hub_host +:+ ":8088/".

Definition WebSocketUrl (hub_host hub_id : string) : string :=
  "ws://" +:+ hub_host +:+ ":8088/?domain=svcs.myharmony.com&hubId=" +:+ hub_id.

(** ** Parsers *)

Definition NumberOrStringToString (value : json) : string :=
  match value with
  | JString s => s
  | JInt z => to_string (to_i64 z)
  | _ => EmptyString
  end.

(** The checks both arrays' items go through: a usable id and a text label. *)
Definition id_and_label (item : json) : option (string * string) :=
  match find "id" item, find "label" item with
  | Some id, Some (JString label) =>
      let id := NumberOrStringToString id in if is_empty id then None else Some (id, label)
  | _, _ => None
  end.

Definition ParseIdLabelArray (array : json) : list HarmonyActivity :=
  match array with
  | JArray items =>
      omap (fun item => if negb (is_object item) then None
                        else match id_and_label item with
                             | Some (id, label) => Some {| activity_id := id; activity_label := label |}
                             | None => None
                             end) items
  | _ => []
  end.

Definition parse_function (item : json) : option HarmonyCommand :=
  if negb (is_object item) then None
  else match find_string "name" item, find_string "label" item, find_string "action" item with
       | Some n, Some l, Some a => Some {| cmd_name := n; cmd_label := l; cmd_action := a |}
       | _, _, _ => None
       end.

Definition parse_group (item : json) : option HarmonyControlGroup :=
  if negb (is_object item) then None
  else match find_string "name" item with
       | None => None
       | Some n =>
           Some {| group_name := n;
                   commands := match find_array "function" item with
                               | Some functions => omap parse_function functions
                               | None => []
                               end |}
       end.

Definition ParseControlGroups (array : json) : list HarmonyControlGroup :=
  match array with JArray items => omap parse_group items | _ => [] end.

(** [item.value(key, nlohmann::json::array())]. *)
Definition value_or_array (key : string) (item : json) : json :=
  match find key item with Some v => v | None => JArray [] end.

Definition ParseDevices (array : json) : list HarmonyDevice :=
  match array with
  | JArray items =>
      omap (fun item => if negb (is_object item) then None
                        else match id_and_label item with
                             | Some (id, label) =>
                                 Some {| device_id := id; device_label := label;
                                         control_groups := ParseControlGroups (value_or_array "controlGroup" item) |}
                             | None => None
                             end) items
  | _ => []
  end.

(** ** Requests *)

Definition hbus_request (hub_id cmd : string) (params : json) : json :=
  JObject [("hubId", JString hub_id); ("timeout", JInt 30);
           ("hbus", JObject [("cmd", JString ("vnd.logitech.harmony/vnd.logitech.harmony.engine?" +:+ cmd));
                             ("id", JString "0"); ("params", params)])].

Definition config_request (hub_id : string) : json := hbus_request hub_id "config" (JObject []).

Definition current_activity_request (hub_id : string) : json :=
  hbus_request hub_id "getCurrentActivity" (JObject [("verb", JString "get")]).

Definition start_activity_request (hub_id activity : string) : json :=
  hbus_request hub_id "startactivity"
    (JObject [("async", JString "true"); ("timestamp", JInt 0);
              ("args", JObject [("rule", JString "start")]); ("activityId", JString activity)]).

Definition hold_action_request (hub_id : string) (c : DeviceCommandRequest) : json :=
  hbus_request hub_id "holdAction"
    (JObject [("status", JString (status c)); ("timestamp", JString "0");
              ("verb", JString "render"); ("action", JString (action c))]).

(** ** The environment *)

(** What another thread may do to the connection at any moment. *)
Inductive ExternalOp := ExtEnqueue (c : PendingCommand) | ExtTrigger.

Class HarmonyEnv (E : Type) := {
  http_post : string -> string -> list (string * string) -> M E HttpClientResponse;
  ws_connect : string -> M E bool;
  ws_send : string -> M E bool;
  ws_receive : Z -> M E (option string);
  ws_close : M E unit;
  stop_requested : M E bool;
  steady_now : M E Z;
  read_hub_host : M E (option VersionedValue);   (* [storage_.GetSetting("harmony", "hub_host")] *)
  interfere : M E (list ExternalOp);             (* what other threads did meanwhile *)
  wait : Z -> M E (bool * list ExternalOp)       (* during a sleep: whether a stop came, and what *)
}.

Section Connection.
Context {E : Type} `{HarmonyEnv E} `{JsonCodec}.

(** [ws] is [ws_client_ != nullptr]; [published] every event, oldest first; [sent] every
    [SendText] and whether it succeeded. *)
Record World := {
  env : E;
  snapshot : HarmonySnapshot;
  ws : bool;
  hub_id : string;
  last_hub_host : string;
  pending : list PendingCommand;
  requested : bool;
  backoff : RetryBackoff;
  published : list HarmonyEvent;
  sent : list (string * bool)
}.

Definition with_env (e : E) (w : World) : World :=
  {| env := e; snapshot := snapshot w; ws := ws w; hub_id := hub_id w; last_hub_host := last_hub_host w;
     pending := pending w; requested := requested w; backoff := backoff w; published := published w; sent := sent w |}.
Definition with_snapshot (s : HarmonySnapshot) (w : World) : World :=
  {| env := env w; snapshot := s; ws := ws w; hub_id := hub_id w; last_hub_host := last_hub_host w;
     pending := pending w; requested := requested w; backoff := backoff w; published := published w; sent := sent w |}.
Definition with_ws (b : bool) (w : World) : World :=
  {| env := env w; snapshot := snapshot w; ws := b; hub_id := hub_id w; last_hub_host := last_hub_host w;
     pending := pending w; requested := requested w; backoff := backoff w; published := published w; sent := sent w |}.
Definition with_hub_id (i : string) (w : World) : World :=
  {| env := env w; snapshot := snapshot w; ws := ws w; hub_id := i; last_hub_host := last_hub_host w;
     pending := pending w; requested := requested w; backoff := backoff w; published := published w; sent := sent w |}.
Definition with_last_hub_host (h : string) (w : World) : World :=
  {| env := env w; snapshot := snapshot w; ws := ws w; hub_id := hub_id w; last_hub_host := h;
     pending := pending w; requested := requested w; backoff := backoff w; published := published w; sent := sent w |}.
Definition with_shared (q : list PendingCommand) (r : bool) (w : World) : World :=
  {| env := env w; snapshot := snapshot w; ws := ws w; hub_id := hub_id w; last_hub_host := last_hub_host w;
     pending := q; requested := r; backoff := backoff w; published := published w; sent := sent w |}.
Definition with_backoff (b : RetryBackoff) (w : World) : World :=
  {| env := env w; snapshot := snapshot w; ws := ws w; hub_id := hub_id w; last_hub_host := last_hub_host w;
     pending := pending w; requested := requested w; backoff := b; published := published w; sent := sent w |}.
Definition with_published (evs : list HarmonyEvent) (w : World) : World :=
  {| env := env w; snapshot := snapshot w; ws := ws w; hub_id := hub_id w; last_hub_host := last_hub_host w;
     pending := pending w; requested := requested w; backoff := backoff w; published := evs; sent := sent w |}.
Definition with_sent (l : list (string * bool)) (w : World) : World :=
  {| env := env w; snapshot := snapshot w; ws := ws w; hub_id := hub_id w; last_hub_host := last_hub_host w;
     pending := pending w; requested := requested w; backoff := backoff w; published := published w; sent := l |}.

(** [EnqueueCommand]: the oldest are dropped above the bound. *)
Fixpoint drop_front (queue : list PendingCommand) : list PendingCommand :=
  match queue with
  | [] => []
  | _ :: rest => if (kMaxPendingCommands <? List.length queue)%nat then drop_front rest else queue
  end.

Definition EnqueueCommand (c : PendingCommand) (w : World) : World :=
  with_shared (drop_front (pending w ++ [c])) (requested w) w.

Definition StartActivity (activity : string) (now : Z) : World -> World :=
  EnqueueCommand {| pc_activity_id := Some activity; pc_device_command := None; enqueued_at := now |}.

Definition EnqueueDeviceCommand (act st : string) (now : Z) : World -> World :=
  EnqueueCommand {| pc_activity_id := None; pc_device_command := Some {| action := act; status := st |};
                    enqueued_at := now |}.

Definition PressDeviceCommand (act : string) : Z -> World -> World := EnqueueDeviceCommand act "press".
Definition HoldDeviceCommand (act : string) : Z -> World -> World := EnqueueDeviceCommand act "hold".
Definition ReleaseDeviceCommand (act : string) : Z -> World -> World := EnqueueDeviceCommand act "release".

Definition TriggerReconnect (w : World) : World := with_shared (pending w) (Trigger (requested w)) w.

Definition apply_external (w : World) (op : ExternalOp) : World :=
  match op with ExtEnqueue c => EnqueueCommand c w | ExtTrigger => TriggerReconnect w end.

(** A call into the environment, with what other threads did meanwhile. *)
Definition call {A} (op : M E A) : M World A := fun w =>
  let '(a, e) := op (env w) in
  let '(ops, e') := interfere e in
  (a, foldl apply_external (with_env e' w) ops).

(** A call made with the wake mutex held: nothing reaches the queue meanwhile. *)
Definition locked_call {A} (op : M E A) : M World A := fun w =>
  let '(a, e) := op (env w) in (a, with_env e w).

Definition Publish (ev : HarmonyEvent) : M World unit := modify (fun w => with_published (published w ++ [ev]) w).

Definition SendText (text : string) : M World bool :=
  let* ok := call (ws_send text) in
  modify (fun w => with_sent (sent w ++ [(text, ok)]) w) ;;* ret ok.

(** [ws_client_->Close(); ws_client_.reset();] *)
Definition CloseAndReset : M World unit := call ws_close ;;* modify (with_ws false).

Definition SetState (s : HarmonyState) : M World unit := fun w =>
  if decide (state (snapshot w) = s) then (tt, w)
  else Publish (HarmonyConnectionStateChangedEvent s)
         (with_snapshot {| state := s; has_config := has_config (snapshot w); devices := devices (snapshot w);
                           activities := activities (snapshot w);
                           current_activity_id := current_activity_id (snapshot w) |} w).

Definition ClearConfigIfPresent (force_publish : bool) : M World unit := fun w =>
  let had_config := has_config (snapshot w) in
  let w' := if had_config
            then with_snapshot {| state := state (snapshot w); has_config := false; devices := []; activities := [];
                                  current_activity_id := EmptyString |} w
            else w in
  if had_config || force_publish then Publish HarmonyConfigUpdatedEvent w' else (tt, w').

Definition ClearPendingCommandsIfAny : M World unit := fun w =>
  match pending w with
  | [] => (tt, w)
  | _ => Publish HarmonyCommandDroppedEvent (with_shared [] (requested w) w)
  end.

(** [Sleep]: the other threads' actions during the wait reach the queue; the wake-up
    reason and the trigger are [ConnectionWake::Wait]'s. *)
Definition wake_event_of (op : ExternalOp) : wake_event :=
  match op with ExtEnqueue _ => WakeWork | ExtTrigger => WakeTrigger end.

Definition Sleep (delay : Z) (watch_commands : bool) : M World Reason := fun w =>
  let '((stopped, ops), e) := wait delay (env w) in
  let w' := foldl apply_external (with_env e w) ops in
  let '(reason, left_requested, rest) :=
    Wait watch_commands (negb (bool_decide (pending w = []))) stopped (map wake_event_of ops) (requested w) in
  let triggered_later := existsb (fun ev => match ev with WakeTrigger => true | _ => false end) rest in
  (reason, with_shared (pending w') (left_requested || triggered_later) w').

Fixpoint drain_stale (n : nat) : M World unit :=
  match n with
  | O => ret tt
  | S n' =>
      let* message := call (ws_receive 0) in
      match message with Some _ => drain_stale n' | None => ret tt end
  end.

Definition DrainStaleMessages : M World unit := fun w =>
  if ws w then drain_stale kMaxDrainIterations w else (tt, w).

Inductive ActivityFetchResult := kOk | kTransportFailed | kParseFailed.

Definition set_current_activity (id : string) : M World unit := fun w =>
  if decide (current_activity_id (snapshot w) = id) then (tt, w)
  else Publish (HarmonyCurrentActivityChangedEvent id)
         (with_snapshot {| state := state (snapshot w); has_config := has_config (snapshot w);
                           devices := devices (snapshot w); activities := activities (snapshot w);
                           current_activity_id := id |} w).

Definition FetchCurrentActivity : M World ActivityFetchResult :=
  let* open := gets ws in
  if negb open then ret kTransportFailed
  else
    DrainStaleMessages ;;*
    let* id := gets hub_id in
    let* ok := SendText (json_dump (current_activity_request id)) in
    if negb ok then ret kTransportFailed
    else
      let* stopped := call stop_requested in
      if stopped : bool then ret kTransportFailed
      else
        let* response_text := call (ws_receive kLivenessProbeTimeoutMs) in
        match response_text with
        | None => ret kTransportFailed
        | Some text =>
            let response := ParseBoundedJson text in
            if is_discarded response || negb (is_object response) then ret kParseFailed
            else match find_object "data" response with
                 | None => ret kParseFailed
                 | Some data =>
                     match find "result" data with
                     | Some result =>
                         if is_string result || is_number_integer result then
                           set_current_activity (NumberOrStringToString result) ;;* ret kOk
                         else ret kParseFailed
                     | None => ret kParseFailed
                     end
                 end
        end.

(** The end of a connect attempt that failed after the socket was opened. *)
Definition close_and_fail : M World bool := CloseAndReset ;;* ret false.

Definition store_config (ds : list HarmonyDevice) (acts : list HarmonyActivity) : M World unit :=
  modify (fun w => with_snapshot {| state := state (snapshot w); has_config := true; devices := ds;
                                    activities := acts;
                                    current_activity_id := current_activity_id (snapshot w) |} w).

Definition fetch_config : M World bool :=
  DrainStaleMessages ;;*
  let* id := gets hub_id in
  let* ok := SendText (json_dump (config_request id)) in
  if negb ok then close_and_fail
  else
    let* stopped := call stop_requested in
    if stopped : bool then close_and_fail
    else
      let* response_text := call (ws_receive kConfigFetchTimeoutMs) in
      match response_text with
      | None => close_and_fail
      | Some text =>
          let response := ParseBoundedJson text in
          if is_discarded response || negb (is_object response) then close_and_fail
          else match find_object "data" response with
               | None => close_and_fail
               | Some data =>
                   store_config (ParseDevices (value_or_array "device" data))
                                (ParseIdLabelArray (value_or_array "activity" data)) ;;*
                   let* result := FetchCurrentActivity in
                   match result with
                   | kTransportFailed => close_and_fail
                   | _ => ret true
                   end
               end
      end.

(** The [activeRemoteId] of a handshake response. *)
Definition remote_id (body : string) : option string :=
  let parsed := ParseBoundedJson body in
  if is_discarded parsed || negb (is_object parsed) then None
  else match find_object "data" parsed with
       | None => None
       | Some data =>
           match find "activeRemoteId" data with
           | None => None
           | Some v => Some (NumberOrStringToString v)
           end
       end.

Definition ConnectAndFetchConfig (hub_host : string) : M World bool :=
  let* handshake := call (http_post (HandshakeUrl hub_host) kProvisionInfoRequestBody [("Origin", kHandshakeOrigin)]) in
  if negb (success handshake) || negb (http_status handshake =? 200) then ret false
  else
    let* stopped := call stop_requested in
    if stopped : bool then ret false
    else match remote_id (http_body handshake) with
         | None => ret false
         | Some id =>
             if negb (IsValidHubId id) then modify (with_hub_id EmptyString) ;;* ret false
             else
               modify (with_hub_id id) ;;*
               modify (with_ws true) ;;*
               let* connected := call (ws_connect (WebSocketUrl hub_host id)) in
               if negb connected then modify (with_ws false) ;;* ret false
               else
                 let* stopped := call stop_requested in
                 if stopped : bool then close_and_fail else fetch_config
         end.

(** *** Sending the queued commands *)

Context (max_pending_command_age liveness_interval : Z).

Definition is_release (c : PendingCommand) : bool :=
  match pc_device_command c with Some d => String.eqb (status d) "release" | None => false end.

Definition is_stale (now : Z) (c : PendingCommand) : bool :=
  negb (is_release c) && (max_pending_command_age <? now - enqueued_at c).

Definition command_text (id : string) (c : PendingCommand) : option string :=
  match pc_activity_id c, pc_device_command c with
  | Some activity, _ => Some (json_dump (start_activity_request id activity))
  | None, Some d => Some (json_dump (hold_action_request id d))
  | None, None => None
  end.

(** The batch loop's local flags. *)
Record Batch := { started_activity : bool; dropped_stale : bool; transport_failed : bool }.

(** [None] is the early return of a stop. *)
Fixpoint send_batch (now : Z) (cmds : list PendingCommand) (b : Batch) : M World (option Batch) :=
  match cmds with
  | [] => ret (Some b)
  | c :: rest =>
      let* stopped := call stop_requested in
      if stopped : bool then Publish HarmonyCommandDroppedEvent ;;* ret None
      else if is_stale now c then
        send_batch now rest {| started_activity := started_activity b; dropped_stale := true;
                               transport_failed := transport_failed b |}
      else if transport_failed b && negb (is_release c) then send_batch now rest b
      else
        let* id := gets hub_id in
        match command_text id c with
        | None => send_batch now rest b
        | Some text =>
            let* ok := SendText text in
            send_batch now rest
              {| started_activity := started_activity b || (ok && match pc_activity_id c with Some _ => true | None => false end);
                 dropped_stale := dropped_stale b; transport_failed := transport_failed b || negb ok |}
        end
  end.

Definition take_pending : M World (list PendingCommand) := fun w => (pending w, with_shared [] (requested w) w).

Definition SendPendingCommands : M World bool :=
  let* cmds := take_pending in
  let* open := gets ws in
  if negb open then
    match cmds with [] => ret tt | _ => Publish HarmonyCommandDroppedEvent end ;;* ret false
  else
    let* now := call steady_now in
    let* result := send_batch now cmds {| started_activity := false; dropped_stale := false; transport_failed := false |} in
    match result with
    | None => ret false
    | Some b =>
        (if started_activity b then
           let* stopped := call stop_requested in
           if negb stopped then FetchCurrentActivity ;;* ret tt else ret tt
         else ret tt) ;;*
        (if dropped_stale b || transport_failed b then Publish HarmonyCommandDroppedEvent else ret tt) ;;*
        ret (negb (transport_failed b))
    end.

(** *** The loop *)

(** [false] when the fuel ran out before the loop was left. *)
Fixpoint connected_loop (fuel : nat) : M World bool :=
  match fuel with
  | O => ret false
  | S fuel' =>
      let* stopped := call stop_requested in
      if stopped : bool then ret true
      else
        let* reason := Sleep liveness_interval true in
        match reason with
        | kStopRequested => ret true
        | _ =>
            let* ok := SendPendingCommands in
            if negb ok then ret true
            else match reason with
                 | kTriggered => ret true
                 | kCommandPending => connected_loop fuel'
                 | _ =>
                     let* result := FetchCurrentActivity in
                     match result with kOk => connected_loop fuel' | _ => ret true end
                 end
        end
  end.

(** Only a trigger the new connection already answers is discarded. *)
Definition discard_answered_trigger (connected_to : string) : M World unit :=
  let* setting := locked_call read_hub_host in
  match setting with
  | Some v => if String.eqb (vv_value v) connected_to
              then modify (fun w => with_shared (pending w) (ClearTriggerLocked (requested w)) w) else ret tt
  | None => ret tt
  end.

Definition drop_for_previous_hub : M World unit :=
  let* last := gets last_hub_host in
  if is_empty last then ret tt else ClearPendingCommandsIfAny.

(** One iteration; [false] when the fuel ran out inside the connected loop. *)
Definition loop_iteration (fuel : nat) : M World bool :=
  let* setting := call read_hub_host in
  let host := match setting with Some v => vv_value v | None => EmptyString end in
  if is_empty host then
    ClearConfigIfPresent false ;;*
    drop_for_previous_hub ;;*
    SetState kDisconnected ;;*
    Sleep kUnconfiguredRecheckInterval false ;;* ret true
  else
    let* last := gets last_hub_host in
    (if negb (String.eqb host last) then ClearConfigIfPresent true ;;* drop_for_previous_hub else ret tt) ;;*
    modify (with_last_hub_host host) ;;*
    SetState kConnecting ;;*
    let* ok := ConnectAndFetchConfig host in
    if negb ok then
      SetState kConnError ;;*
      let* b := gets backoff in
      let '(delay, b') := NextDelay b in
      modify (with_backoff b') ;;*
      Sleep delay false ;;* ret true
    else
      modify (fun w => with_backoff (ResetBackoff (backoff w)) w) ;;*
      SetState kConnected ;;*
      Publish HarmonyConfigUpdatedEvent ;;*
      discard_answered_trigger host ;;*
      let* left_loop := connected_loop fuel in
      if negb left_loop then ret false
      else
        let* open := gets ws in
        (if open : bool then CloseAndReset else ret tt) ;;* ret true.

Definition shutdown : M World unit := ClearPendingCommandsIfAny ;;* SetState kDisconnected.

(** [true] when the stop was seen within the fuel. *)
Fixpoint ConnectionLoop (fuel : nat) : M World bool :=
  match fuel with
  | O => ret false
  | S fuel' =>
      let* stopped := call stop_requested in
      if stopped : bool then shutdown ;;* ret true
      else
        let* completed := loop_iteration fuel' in
        if negb completed then ret false else ConnectionLoop fuel'
  end.

Definition start (e : E) (b : RetryBackoff) : World :=
  {| env := e;
     snapshot := {| state := kDisconnected; has_config := false; devices := []; activities := [];
                    current_activity_id := EmptyString |};
     ws := false; hub_id := EmptyString; last_hub_host := EmptyString; pending := []; requested := false;
     backoff := b; published := []; sent := [] |}.
End Connection.

(** ** Lemmas: what an operation leaves alone *)

(** The state changes announced so far, and whether each announces a change. *)
Definition transitions (evs : list HarmonyEvent) : list HarmonyState :=
  omap (fun ev => match ev with HarmonyConnectionStateChangedEvent s => Some s | _ => None end) evs.

Fixpoint follow (s : HarmonyState) (l : list HarmonyState) : option HarmonyState :=
  match l with
  | [] => Some s
  | s' :: l' => if decide (s' = s) then None else follow s' l'
  end.

Lemma follow_app s l l' : follow s (l ++ l') = match follow s l with Some s1 => follow s1 l' | None => None end.
Proof. revert s. induction l as [|x l IH]; intros s; [done|]. cbn. case_decide; [done|]. apply IH. Qed.

Section Frames.
Context {E : Type} `{HarmonyEnv E} `{JsonCodec} (max_age liveness : Z).

(** Nothing the snapshot shows changed, no state change was announced, and the queue is
    within its bound if it was. *)
Definition frame (w w' : World (E := E)) : Prop :=
  snapshot w' = snapshot w /\ transitions (published w') = transitions (published w) /\
  ((List.length (pending w) <= kMaxPendingCommands)%nat -> (List.length (pending w') <= kMaxPendingCommands)%nat).


Definition preserves {A} (P : World (E := E) -> Prop) (m : M (World (E := E)) A) : Prop :=
  forall w, P w -> P (exec m w).

#[global] Instance frame_preorder : PreOrder frame.
Proof.
  split; [done|]. intros w1 w2 w3 (A1 & A2 & A3) (B1 & B2 & B3). split_and!; [congruence|congruence|auto].
Qed.

Lemma preserves_bind {A B} P (m : M (World (E := E)) A) (k : A -> M (World (E := E)) B) :
  preserves P m -> (forall a, preserves P (k a)) -> preserves P (bind m k).
Proof.
  intros Hm Hk w Hw. unfold exec, bind. specialize (Hm w Hw). unfold exec in Hm. destruct (m w) as [a w1].
  by apply (Hk a).
Qed.

Lemma drop_front_bound q : (List.length (drop_front q) <= kMaxPendingCommands)%nat.
Proof.
  induction q as [|c q IH]; [cbn; unfold kMaxPendingCommands; lia|]. cbn [drop_front].
  destruct (Nat.ltb_spec kMaxPendingCommands (List.length (c :: q))); [done|lia].
Qed.

Lemma external_frame ops w : frame w (foldl apply_external w ops).
Proof.
  revert w. induction ops as [|op ops IH]; intros w; [reflexivity|]. cbn [foldl].
  etrans; [|apply IH]. destruct op; unfold frame; cbn; split_and!; try done.
  intros _. apply drop_front_bound.
Qed.

Lemma frames_call {A} (op : M E A) : related frame (call op).
Proof.
  intros w. unfold exec, call. destruct (op (env w)) as [a e]. destruct (interfere e) as [ops e'].
  etrans; [|apply external_frame]. done.
Qed.

Lemma frames_locked_call {A} (op : M E A) : related frame (locked_call op).
Proof. intros w. unfold exec, locked_call. by destruct (op (env w)) as [a e]. Qed.

(** An update outside the snapshot, the queue and the announcements. *)
Definition quiet (f : World (E := E) -> World (E := E)) : Prop :=
  forall w, snapshot (f w) = snapshot w /\ published (f w) = published w /\ pending (f w) = pending w.

Lemma frames_modify f : quiet f -> related frame (modify f).
Proof. intros Hf w. destruct (Hf w) as (H1 & H2 & H3). unfold frame, exec, modify. cbn. by rewrite H1, H2, H3. Qed.

Definition not_a_transition (ev : HarmonyEvent) : Prop :=
  match ev with HarmonyConnectionStateChangedEvent _ => False | _ => True end.

Lemma frames_Publish ev : not_a_transition ev -> related frame (Publish ev).
Proof.
  intros Hev w. unfold frame, exec, Publish, modify. cbn. split_and!; [done| |done].
  unfold transitions. rewrite omap_app. destruct ev; cbn; try done; by rewrite app_nil_r.
Qed.

Lemma frames_ClearPending : related frame ClearPendingCommandsIfAny.
Proof.
  intros w. unfold exec, ClearPendingCommandsIfAny. destruct (pending w) eqn:Ep; [reflexivity|].
  change (frame w (exec (Publish HarmonyCommandDroppedEvent) (with_shared [] (requested w) w))).
  etrans; [|by apply frames_Publish].
  unfold frame. cbn. split_and!; try done. intros _. unfold kMaxPendingCommands. lia.
Qed.

Lemma frames_take_pending : related frame take_pending.
Proof. intros w. unfold frame, exec, take_pending. cbn. split_and!; try done. intros _. unfold kMaxPendingCommands. lia. Qed.

Lemma frames_Sleep delay watch : related frame (Sleep delay watch).
Proof.
  intros w. unfold exec, Sleep. destruct (wait delay (env w)) as [[stopped ops] e].
  destruct (Wait _ _ _ _ _) as [[reason left_requested] rest].
  etrans; [apply (external_frame ops (with_env e w))|]. done.
Qed.

Lemma preserves_if {A} P (b : bool) (m1 m2 : M (World (E := E)) A) :
  preserves P m1 -> preserves P m2 -> preserves P (if b then m1 else m2).
Proof. by destruct b. Qed.
End Frames.

Create HintDb frames discriminated.
#[export] Hint Constants Opaque : frames.
#[export] Hint Resolve frames_call frames_locked_call frames_ClearPending frames_take_pending frames_Sleep
  frames_Publish : frames.

Ltac frames_leaf := idtac;
  match goal with
  | |- related frame (modify _) => apply frames_modify; by intros ?
  | |- related frame _ => solve [eauto 2 with frames | apply frames_Publish; exact I]
  end.
Ltac solve_frames := related_steps frames_leaf.

Section LoopLemmas.
Context {E : Type} `{HarmonyEnv E} `{JsonCodec} (max_age liveness : Z).

Lemma frames_SendText text : related frame (SendText text).
Proof. unfold SendText. solve_frames. Qed.

Lemma frames_CloseAndReset : related frame CloseAndReset.
Proof. unfold CloseAndReset. solve_frames. Qed.

Lemma frames_drain : related frame DrainStaleMessages.
Proof.
  assert (Hd : forall n, related frame (drain_stale n)).
  { induction n as [|n IH]; cbn [drain_stale];
    related_steps (apply IH || frames_leaf). }
  intros w. unfold exec, DrainStaleMessages. destruct (ws w); [apply Hd|reflexivity].
Qed.

Lemma frames_send_batch now cmds b : related frame (send_batch max_age now cmds b).
Proof.
  revert b. induction cmds as [|c cmds IH]; intros b; cbn [send_batch];
  related_steps (apply IH || apply frames_SendText || frames_leaf).
Qed.

Lemma frames_discard host : related frame (discard_answered_trigger host).
Proof. unfold discard_answered_trigger. solve_frames. Qed.

Lemma frames_drop_for_previous_hub : related (frame (E := E)) drop_for_previous_hub.
Proof. unfold drop_for_previous_hub. solve_frames. Qed.

(** ** The invariant *)

Definition harmony_ok (w : World (E := E)) : Prop :=
  (has_config (snapshot w) = false ->
     devices (snapshot w) = [] /\ activities (snapshot w) = [] /\ current_activity_id (snapshot w) = EmptyString) /\
  follow kDisconnected (transitions (published w)) = Some (state (snapshot w)) /\
  (List.length (pending w) <= kMaxPendingCommands)%nat /\
  Forall (fun d => device_id d <> EmptyString) (devices (snapshot w)) /\
  Forall (fun a => activity_id a <> EmptyString) (activities (snapshot w)).

(** ... with a configuration present, as it is while connected. *)
Definition configured (w : World (E := E)) : Prop := harmony_ok w /\ has_config (snapshot w) = true.

Lemma frame_ok w w' : frame w w' -> harmony_ok w -> harmony_ok w'.
Proof.
  intros (Hs & Ht & Hp) (H1 & H2 & H3 & H4 & H5). unfold harmony_ok. rewrite Hs, Ht. auto.
Qed.

Lemma frame_configured w w' : frame w w' -> configured w -> configured w'.
Proof. intros Hf [H1 H2]. split; [by eapply frame_ok|]. destruct Hf as (-> & _). done. Qed.

Lemma frames_preserve_ok {A} (m : M (World (E := E)) A) : related frame m -> preserves harmony_ok m.
Proof. intros Hm w. apply frame_ok, Hm. Qed.

Lemma frames_preserve_configured {A} (m : M (World (E := E)) A) : related frame m -> preserves configured m.
Proof. intros Hm w. apply frame_configured, Hm. Qed.

Lemma SetState_ok s : preserves harmony_ok (SetState s).
Proof.
  intros w (H1 & H2 & H3 & H4 & H5). unfold exec, SetState. case_decide as Hd; [done|].
  unfold harmony_ok, Publish, modify. cbn. split_and!; try done.
  unfold transitions. rewrite omap_app. fold (transitions (published w)). rewrite follow_app, H2. cbn.
  case_decide; [congruence|done].
Qed.

Lemma ClearConfig_ok force : preserves harmony_ok (ClearConfigIfPresent force).
Proof.
  intros w Hw. unfold exec, ClearConfigIfPresent.
  set (w' := if has_config (snapshot w) then _ else w).
  assert (Hw' : harmony_ok w').
  { unfold w'. destruct (has_config (snapshot w)); [|done]. destruct Hw as (H1 & H2 & H3 & H4 & H5).
    unfold harmony_ok. cbn. split_and!; try done; constructor. }
  destruct (has_config (snapshot w) || force); [|done].
  apply (frames_preserve_ok _ (frames_Publish HarmonyConfigUpdatedEvent I)). done.
Qed.

Lemma set_current_activity_configured id : preserves configured (set_current_activity id).
Proof.
  intros w [(H1 & H2 & H3 & H4 & H5) Hc]. unfold exec, set_current_activity. case_decide; [done|].
  unfold configured, harmony_ok, Publish, modify. cbn. split; [|done]. split_and!; try done.
  - intros Hn. congruence.
  - unfold transitions. rewrite omap_app. cbn. by rewrite app_nil_r.
Qed.

Lemma id_and_label_id item id label : id_and_label item = Some (id, label) -> id <> EmptyString.
Proof.
  unfold id_and_label. destruct (find "id" item) as [v|]; [|done].
  destruct (find "label" item) as [[]|]; try done.
  destruct (NumberOrStringToString v); cbn; [done|]. intros E1. by simplify_eq.
Qed.

Lemma ParseDevices_ids array : Forall (fun d => device_id d <> EmptyString) (ParseDevices array).
Proof.
  destruct array; try constructor. apply Forall_forall. intros d Hd. apply list_elem_of_omap in Hd as (item & _ & E1).
  destruct (negb (is_object item)); [done|]. destruct (id_and_label item) as [[id lbl]|] eqn:Ei; simplify_eq.
  by apply id_and_label_id in Ei.
Qed.

Lemma ParseIdLabelArray_ids array : Forall (fun a => activity_id a <> EmptyString) (ParseIdLabelArray array).
Proof.
  destruct array; try constructor. apply Forall_forall. intros d Hd. apply list_elem_of_omap in Hd as (item & _ & E1).
  destruct (negb (is_object item)); [done|]. destruct (id_and_label item) as [[id lbl]|] eqn:Ei; simplify_eq.
  by apply id_and_label_id in Ei.
Qed.

Lemma store_config_configured ds acts w :
  Forall (fun d => device_id d <> EmptyString) ds -> Forall (fun a => activity_id a <> EmptyString) acts ->
  harmony_ok w -> configured (exec (store_config ds acts) w).
Proof.
  intros Hd Ha (H1 & H2 & H3 & H4 & H5). unfold exec, store_config, modify, configured, harmony_ok. cbn.
  split_and!; done.
Qed.

Lemma FetchCurrentActivity_configured : preserves configured (FetchCurrentActivity (E := E)).
Proof.
  unfold FetchCurrentActivity.
  repeat first
    [ apply set_current_activity_configured
    | apply frames_preserve_configured; solve [solve_frames | apply frames_drain | apply frames_SendText]
    | apply preserves_bind; [|intros ?] | apply preserves_if
    | match goal with |- preserves _ (match ?x with _ => _ end) => destruct x end ].
Qed.

Lemma preserves_yields {A} P (m : M (World (E := E)) A) : preserves P m -> yields P m (fun _ => P).
Proof. done. Qed.

Lemma yields_preserves {A} P (m : M (World (E := E)) A) : yields P m (fun _ => P) -> preserves P m.
Proof. done. Qed.

Lemma configured_ok w : configured w -> harmony_ok w.
Proof. by intros []. Qed.

Lemma SetState_configured s : preserves configured (SetState s).
Proof.
  intros w [Hok Hc]. split; [by apply SetState_ok|]. unfold exec, SetState. by case_decide.
Qed.

(** What a connect attempt ends with: a configuration when it succeeds. *)
Definition connect_post (ok : bool) (w : World (E := E)) : Prop := harmony_ok w /\ (ok = true -> configured w).

Lemma yields_fail P : (forall w, P w -> harmony_ok w) -> yields P (ret false) connect_post.
Proof. intros HP. apply yields_ret. intros w Hw. split; [auto|done]. Qed.

Lemma yields_close_and_fail P : (forall w, P w -> harmony_ok w) -> yields P close_and_fail connect_post.
Proof.
  intros HP. unfold close_and_fail. apply yields_bind with (R := fun _ => harmony_ok); [|intros ?; by apply (yields_fail harmony_ok)].
  intros w Hw. apply (frames_preserve_ok _ frames_CloseAndReset). auto.
Qed.

Lemma yields_frames {A} P (m : M (World (E := E)) A) :
  (forall w w', frame w w' -> P w -> P w') -> related frame m -> yields P m (fun _ => P).
Proof. intros HP Hm w. apply HP, Hm. Qed.
End LoopLemmas.

(** The steps of a connect attempt: a framed call, an early failure, or a case split. *)
Ltac connect_step :=
  match goal with
  | |- yields _ (ret false) connect_post => apply yields_fail; solve [done | apply configured_ok]
  | |- yields _ close_and_fail connect_post => apply yields_close_and_fail; solve [done | apply configured_ok]
  | |- yields harmony_ok (bind _ _) _ =>
      eapply yields_bind; [apply (yields_frames harmony_ok); [apply frame_ok|solve [apply frames_drain | apply frames_SendText | solve_frames]]|intros ?; cbn beta]
  | |- yields _ (if ?b then _ else _) _ => destruct b
  | |- yields _ (match ?x with _ => _ end) _ => destruct x
  end.

Section LoopInvariant.
Context {E : Type} `{HarmonyEnv E} `{JsonCodec} (max_age liveness : Z).

Lemma fetch_config_post : yields harmony_ok (fetch_config (E := E)) connect_post.
Proof.
  unfold fetch_config. repeat connect_step.
  apply yields_bind with (R := fun _ => configured).
  { intros w Hw. apply (store_config_configured (E := E)); [apply ParseDevices_ids|apply ParseIdLabelArray_ids|exact Hw]. }
  intros ?. eapply yields_bind; [apply preserves_yields, FetchCurrentActivity_configured|].
  intros []; cbn beta; try connect_step; apply yields_ret; intros w Hw; by split; [apply configured_ok|].
Qed.

Lemma ConnectAndFetchConfig_post host : yields harmony_ok (ConnectAndFetchConfig (E := E) host) connect_post.
Proof. unfold ConnectAndFetchConfig. repeat connect_step. all: apply fetch_config_post. Qed.

Lemma SendPendingCommands_configured : preserves configured (SendPendingCommands (E := E) max_age).
Proof.
  unfold SendPendingCommands.
  repeat first
    [ apply FetchCurrentActivity_configured
    | apply frames_preserve_configured; solve [apply frames_send_batch | solve_frames]
    | apply preserves_bind; [|intros ?] | apply preserves_if
    | match goal with |- preserves _ (match ?x with _ => _ end) => destruct x end ].
Qed.

Lemma connected_loop_configured fuel : preserves configured (connected_loop (E := E) max_age liveness fuel).
Proof.
  induction fuel as [|fuel IH]; cbn [connected_loop]; [by intros w|].
  repeat first
    [ apply IH | apply FetchCurrentActivity_configured | apply SendPendingCommands_configured
    | apply frames_preserve_configured; solve [solve_frames]
    | apply preserves_bind; [|intros ?] | apply preserves_if
    | match goal with |- preserves _ (match ?x with _ => _ end) => destruct x end ].
Qed.

Lemma connected_tail_ok host fuel :
  yields configured
    (SetState kConnected ;;* Publish HarmonyConfigUpdatedEvent ;;* discard_answered_trigger host ;;*
     let* left_loop := connected_loop max_age liveness fuel in
     if negb left_loop then ret false
     else let* open := gets ws in (if open : bool then CloseAndReset else ret tt) ;;* ret true)
    (fun _ => harmony_ok (E := E)).
Proof.
  eapply yields_weaken; [apply preserves_yields|intros ??; apply configured_ok].
  repeat first
    [ apply SetState_configured | apply connected_loop_configured
    | apply frames_preserve_configured; solve [solve_frames | apply frames_discard | apply frames_CloseAndReset]
    | apply preserves_bind; [|intros ?] | apply preserves_if ].
Qed.

Lemma loop_iteration_ok fuel : preserves harmony_ok (loop_iteration (E := E) max_age liveness fuel).
Proof.
  unfold loop_iteration.
  apply preserves_bind; [apply frames_preserve_ok; solve_frames|intros setting]. apply preserves_if.
  - repeat first
      [ apply ClearConfig_ok | apply SetState_ok
      | apply frames_preserve_ok; solve [apply frames_drop_for_previous_hub | solve_frames]
      | apply preserves_bind; [|intros ?] ].
  - set (host := match setting with Some v => vv_value v | None => EmptyString end).
    do 4 (apply preserves_bind;
      [repeat first [ apply ClearConfig_ok | apply SetState_ok | apply preserves_if
                    | apply frames_preserve_ok; solve [apply frames_drop_for_previous_hub | solve_frames]
                    | apply preserves_bind; [|intros ?] ]|intros ?]).
    apply yields_preserves. eapply yields_bind; [apply ConnectAndFetchConfig_post|]. intros ok.
    destruct ok; cbn [negb].
    + apply yields_bind with (R := fun _ => configured);
        [intros w [_ Hc]; exact (frame_configured w _ (frames_modify _ (fun _ => conj eq_refl (conj eq_refl eq_refl)) w) (Hc eq_refl))|intros ?].
      apply connected_tail_ok.
    + intros w [Hw _]. revert w Hw. change (preserves harmony_ok
        (SetState (E := E) kConnError ;;* (let* b := gets backoff in
          let '(delay, b') := NextDelay b in modify (with_backoff b') ;;* Sleep delay false ;;* ret true))).
      apply preserves_bind; [apply SetState_ok|intros _]. apply frames_preserve_ok. solve_frames.
Qed.

Lemma shutdown_ok : preserves harmony_ok (shutdown (E := E)).
Proof.
  unfold shutdown. apply preserves_bind; [apply frames_preserve_ok; solve_frames|intros _; apply SetState_ok].
Qed.

Lemma ConnectionLoop_ok fuel : preserves harmony_ok (ConnectionLoop (E := E) max_age liveness fuel).
Proof.
  induction fuel as [|fuel IH]; cbn [ConnectionLoop]; [by intros w|].
  repeat first [ apply IH | apply loop_iteration_ok | apply shutdown_ok | apply frames_preserve_ok; solve [solve_frames]
               | apply preserves_bind; [|intros ?] | apply preserves_if ].
Qed.
End LoopInvariant.

(** ** Lemmas: what a batch writes *)

Section Batches.
Context {E : Type} `{HarmonyEnv E} `{JsonCodec} (max_age liveness : Z).

(** The logs, the hub and the socket are as they were. *)
Definition same_log (w w' : World (E := E)) : Prop :=
  sent w' = sent w /\ published w' = published w /\ hub_id w' = hub_id w /\ ws w' = ws w.

(** The logs only grew. *)
Definition grows (w w' : World (E := E)) : Prop :=
  sent w `prefix_of` sent w' /\ published w `prefix_of` published w'.

#[global] Instance grows_preorder : PreOrder grows.
Proof. split; [done|]. intros w1 w2 w3 [A1 A2] [B1 B2]. split; by etrans. Qed.

Lemma external_same ops w : same_log w (foldl apply_external w ops).
Proof.
  revert w. induction ops as [|op ops IH]; intros w; [done|]. cbn [foldl]. unfold same_log.
  destruct (IH (apply_external w op)) as (-> & -> & -> & ->). by destruct op.
Qed.

Lemma call_same {A} (op : M E A) w : same_log w (snd (call op w)).
Proof.
  unfold call. destruct (op (env w)) as [a e]. destruct (interfere e) as [ops e']. apply (external_same ops (with_env e' w)).
Qed.

Lemma SendText_spec text w :
  sent (snd (SendText text w)) = sent w ++ [(text, fst (SendText text w))] /\
  published (snd (SendText text w)) = published w /\
  hub_id (snd (SendText text w)) = hub_id w /\ ws (snd (SendText text w)) = ws w.
Proof.
  unfold SendText, bind. pose proof (call_same (ws_send text) w) as Hc.
  destruct (call (ws_send text) w) as [ok w1]. destruct Hc as (H1 & H2 & H3 & H4). cbn in *. by rewrite H1, H2, H3, H4.
Qed.

(** The message a release puts on the wire. *)
Definition release_text (id : string) (c : PendingCommand) : option string :=
  if is_release c then command_text id c else None.

(** What one batch leaves: with [None] the dropped event, otherwise every release was
    put on the wire, and unless a flag says so every command was, successfully. *)
Definition batch_post (cmds : list PendingCommand) (b : Batch) (w : World (E := E)) (r : option Batch)
    (w' : World (E := E)) : Prop :=
  exists l, sent w' = sent w ++ l /\ hub_id w' = hub_id w /\
  match r with
  | None => published w' = published w ++ [HarmonyCommandDroppedEvent]
  | Some b' =>
      published w' = published w /\
      sublist (omap (release_text (hub_id w)) cmds) (map fst l) /\
      (dropped_stale b' || transport_failed b' = false ->
         dropped_stale b || transport_failed b = false /\
         l = map (fun t => (t, true)) (omap (command_text (hub_id w)) cmds))
  end.

(** The batch is unchanged in what it tells about the commands already handled. *)
Lemma batch_skip c cmds b b1 w w1 r w' :
  same_log w w1 -> release_text (hub_id w) c = None ->
  (dropped_stale b1 || transport_failed b1 = false ->
     dropped_stale b || transport_failed b = false /\ command_text (hub_id w) c = None) ->
  batch_post cmds b1 w1 r w' -> batch_post (c :: cmds) b w r w'.
Proof.
  intros (S1 & S2 & S3 & S4) Hrel Hfl (l & L1 & L2 & L3). exists l. rewrite S1 in L1. rewrite S3 in *.
  split_and!; [done|done|]. destruct r as [b'|]; [|by rewrite <- S2].
  destruct L3 as (P1 & P2 & P3). cbn [omap list_omap]. rewrite Hrel. split_and!; [congruence|done|].
  intros Hb'. destruct (P3 Hb') as [P4 P5]. destruct (Hfl P4) as [P6 P7]. by rewrite P7.
Qed.

Lemma batch_sent c cmds b b1 w w1 r w' text ok :
  command_text (hub_id w) c = Some text ->
  sent w1 = sent w ++ [(text, ok)] -> published w1 = published w -> hub_id w1 = hub_id w ->
  (dropped_stale b1 || transport_failed b1 = false -> dropped_stale b || transport_failed b = false /\ ok = true) ->
  batch_post cmds b1 w1 r w' -> batch_post (c :: cmds) b w r w'.
Proof.
  intros Ht S1 S2 S3 Hfl (l & L1 & L2 & L3). exists ((text, ok) :: l). rewrite S1, <- app_assoc in L1. rewrite S3 in *.
  split_and!; [done|done|]. destruct r as [b'|]; [|by rewrite <- S2].
  destruct L3 as (P1 & P2 & P3). cbn [omap list_omap map fst]. rewrite Ht. split_and!; [congruence| |].
  - unfold release_text at 1. rewrite Ht. destruct (is_release c); by constructor.
  - intros Hb'. destruct (P3 Hb') as [P4 P5]. destruct (Hfl P4) as [P6 ->]. split; [done|]. cbn. by rewrite P5.
Qed.

Lemma send_batch_post now cmds b w :
  batch_post cmds b w (fst (send_batch max_age now cmds b w)) (snd (send_batch max_age now cmds b w)).
Proof.
  revert b w. induction cmds as [|c cmds IH]; intros b w; cbn [send_batch].
  { exists []. cbn. rewrite app_nil_r. split_and!; done. }
  rewrite run_bind. pose proof (call_same stop_requested w) as Hc.
  destruct (call stop_requested w) as [stopped w1]. cbn [fst snd] in *.
  destruct stopped.
  { exists []. destruct Hc as (S1 & S2 & S3 & S4). cbn. rewrite app_nil_r, S1, S2, S3. done. }
  destruct (is_stale max_age now c) eqn:Hst.
  { eapply batch_skip; [exact Hc| | |apply IH].
    - unfold release_text. unfold is_stale in Hst. by destruct (is_release c).
    - cbn. done. }
  destruct (transport_failed b && negb (is_release c)) eqn:Hf.
  { apply andb_true_iff in Hf as [Hf1 Hf2]. eapply batch_skip; [exact Hc| | |apply IH].
    - unfold release_text. by destruct (is_release c).
    - rewrite Hf1, orb_true_r. done. }
  rewrite run_bind. cbn [gets fst snd]. destruct Hc as (S1 & S2 & S3 & S4). rewrite S3.
  destruct (command_text (hub_id w) c) as [text|] eqn:Ht.
  - rewrite run_bind. destruct (SendText_spec text w1) as (T1 & T2 & T3 & T4).
    destruct (SendText text w1) as [ok w2]. cbn [fst snd] in *.
    eapply batch_sent; [exact Ht|by rewrite T1, S1|congruence|congruence| |apply IH].
    cbn. destruct (dropped_stale b), (transport_failed b), ok; done.
  - apply (batch_skip c cmds b b w w1); [done| | |apply IH]; [unfold release_text; by destruct (is_release c)|done].
Qed.

Lemma growing_call {A} (op : M E A) : related grows (call op).
Proof. intros w. destruct (call_same op w) as (S1 & S2 & S3 & S4). unfold grows, exec. by rewrite S1, S2. Qed.

Lemma growing_Publish ev : related grows (Publish ev).
Proof. intros w. split; [done|]. by apply prefix_app_r. Qed.

Lemma growing_SendText text : related grows (SendText text).
Proof.
  intros w. destruct (SendText_spec text w) as (S1 & S2 & _). unfold grows, exec. rewrite S1, S2. split; [|done].
  by apply prefix_app_r.
Qed.

Lemma growing_drain : related grows DrainStaleMessages.
Proof.
  assert (Hd : forall n, related grows (drain_stale n)).
  { induction n as [|n IH]; cbn [drain_stale]; related_steps (apply IH || apply growing_call). }
  intros w. unfold exec, DrainStaleMessages. by destruct (ws w); [apply Hd|].
Qed.

Lemma growing_set_activity id : related grows (set_current_activity id).
Proof.
  intros w. unfold exec, set_current_activity. case_decide; [done|]. apply (growing_Publish _ (with_snapshot _ w)).
Qed.

Lemma growing_FetchCurrentActivity : related grows FetchCurrentActivity.
Proof.
  unfold FetchCurrentActivity.
  related_steps (first [ apply growing_call | apply growing_SendText | apply growing_drain | apply growing_set_activity ]).
Qed.

Lemma refresh_grows w :
  grows w ((let* stopped := call stop_requested in
            if negb stopped then FetchCurrentActivity ;;* ret tt else ret tt) w).2.
Proof.
  match goal with |- grows _ (snd (?m _)) => assert (Hm : related grows m); [|apply Hm] end.
  related_steps (apply growing_call || apply growing_FetchCurrentActivity).
Qed.

(** Without a stop the batch is worked through. *)
Lemma send_batch_completes now (Hstop : forall e : E, eval stop_requested e = false) cmds b w :
  exists b', (send_batch max_age now cmds b w).1 = Some b'.
Proof.
  revert b w. induction cmds as [|c cmds IH]; intros b w; cbn [send_batch]; [by eexists|].
  rewrite run_bind. replace (call stop_requested w).1 with false.
  2: { unfold call. specialize (Hstop (env w)). unfold eval in Hstop. destruct (stop_requested (env w)) as [st e].
       by destruct (interfere e). }
  destruct (is_stale _ _ _); [apply IH|]. destruct (_ && _); [apply IH|]. rewrite run_bind. cbn [gets fst snd].
  destruct (command_text _ c); [rewrite run_bind|]; apply IH.
Qed.

(** The batch runs on the commands taken from the queue. *)
Lemma SendPendingCommands_run w :
  let w1 := with_shared [] (requested w) w in
  SendPendingCommands max_age w =
  if ws w then
    let '(now, w2) := call steady_now w1 in
    let '(r, w3) := send_batch max_age now (pending w)
                      {| started_activity := false; dropped_stale := false; transport_failed := false |} w2 in
    match r with
    | None => (false, w3)
    | Some b =>
        let w4 := if started_activity b
                  then snd ((let* stopped := call stop_requested in
                             if negb stopped then FetchCurrentActivity ;;* ret tt else ret tt) w3)
                  else w3 in
        (negb (transport_failed b),
         if dropped_stale b || transport_failed b
         then exec (Publish HarmonyCommandDroppedEvent) w4 else w4)
    end
  else (false, match pending w with [] => w1 | _ => exec (Publish HarmonyCommandDroppedEvent) w1 end).
Proof.
  unfold SendPendingCommands. rewrite !run_bind. cbn [take_pending gets fst snd ws with_shared].
  destruct (ws w); cbn [negb].
  - rewrite run_bind. destruct (call steady_now _) as [now w2]. cbn [fst snd]. rewrite run_bind.
    destruct (send_batch _ _ _ _ w2) as [r w3]. cbn [fst snd]. destruct r as [b|]; [|done].
    rewrite run_bind. destruct (started_activity b); cbn [ret fst snd].
    + destruct ((bind _ _) w3) as [u w4]. cbn [fst snd]. rewrite run_bind. by destruct (dropped_stale b || transport_failed b).
    + rewrite run_bind. by destruct (dropped_stale b || transport_failed b).
  - by destruct (pending w).
Qed.
End Batches.

(** ** Lemmas: how the loop ends *)

(** [remaining e] bounds the waits left before a stop is requested: nothing raises it,
    a wait lowers it, and the stop token reports the stop exactly when none is left. *)
Record StopLaws {E} `{HarmonyEnv E} (remaining : E -> nat) : Prop := {
  calm_post : forall url body headers e, (remaining (exec (http_post url body headers) e) <= remaining e)%nat;
  calm_connect : forall url e, (remaining (exec (ws_connect url) e) <= remaining e)%nat;
  calm_send : forall text e, (remaining (exec (ws_send text) e) <= remaining e)%nat;
  calm_receive : forall timeout e, (remaining (exec (ws_receive timeout) e) <= remaining e)%nat;
  calm_close : forall e, (remaining (exec ws_close e) <= remaining e)%nat;
  calm_stop : forall e, (remaining (exec stop_requested e) <= remaining e)%nat;
  calm_now : forall e, (remaining (exec steady_now e) <= remaining e)%nat;
  calm_read : forall e, (remaining (exec read_hub_host e) <= remaining e)%nat;
  calm_interfere : forall e, (remaining (exec interfere e) <= remaining e)%nat;
  wait_lowers : forall delay e, (remaining (exec (wait delay) e) <= Nat.pred (remaining e))%nat;
  stop_exact : forall e, eval stop_requested e = (remaining e =? 0)%nat
}.

Section Ending.
Context {E : Type} `{HarmonyEnv E} `{JsonCodec} (max_age liveness : Z) (remaining : E -> nat) (L : StopLaws remaining).

Definition left_of (w : World (E := E)) : nat := remaining (env w).

Lemma external_env ops (w : World (E := E)) : env (foldl apply_external w ops) = env w.
Proof. revert w. induction ops as [|op ops IH]; intros w; [done|]. cbn [foldl]. rewrite IH. by destruct op. Qed.

Lemma calm_call {A} (op : M E A) : (forall e, (remaining (exec op e) <= remaining e)%nat) -> related (calmer left_of) (call op).
Proof.
  intros Hop w. unfold calmer, exec, call, left_of. specialize (Hop (env w)). unfold exec in Hop.
  destruct (op (env w)) as [a e]. pose proof (calm_interfere _ L e) as Hi. unfold exec in Hi.
  destruct (interfere e) as [ops e']. cbn. rewrite external_env. cbn in *. lia.
Qed.

Lemma calm_locked {A} (op : M E A) : (forall e, (remaining (exec op e) <= remaining e)%nat) -> related (calmer left_of) (locked_call op).
Proof.
  intros Hop w. unfold calmer, exec, locked_call, left_of. specialize (Hop (env w)). unfold exec in Hop.
  by destruct (op (env w)) as [a e].
Qed.

Lemma Sleep_drops delay watch : drops left_of (Sleep (E := E) delay watch).
Proof.
  intros w. unfold exec, Sleep, left_of. pose proof (wait_lowers _ L delay (env w)) as Hw. unfold exec in Hw.
  destruct (wait delay (env w)) as [[stopped ops] e]. destruct (Wait _ _ _ _ _) as [[r q] rest].
  cbn. by rewrite external_env.
Qed.

Lemma stop_call_true w : eval (call stop_requested) w = (left_of w =? 0)%nat.
Proof.
  unfold eval, call, left_of. pose proof (stop_exact _ L (env w)) as Hs. unfold eval in Hs.
  destruct (stop_requested (env w)) as [b e]. destruct (interfere e). cbn in *. done.
Qed.

(** Everything the loop calls but a wait and a connected phase. *)
Ltac calm_leaf := idtac;
  match goal with
  | |- related (calmer left_of) (Sleep _ _) => apply drops_is_calm, Sleep_drops
  | |- related (calmer left_of) (call _) => apply calm_call; solve [apply L]
  | |- related (calmer left_of) (locked_call _) => apply calm_locked; solve [apply L]
  | |- related (calmer left_of) (modify _) => by apply calm_idle
  | |- related (calmer left_of) (Publish _) => by apply calm_idle
  | |- related (calmer left_of) take_pending => by apply calm_idle
  | |- related (calmer left_of) ClearPendingCommandsIfAny =>
      apply calm_idle; intros w; unfold exec, ClearPendingCommandsIfAny; by destruct (pending w)
  | |- related (calmer left_of) (SetState _) => apply calm_idle; intros w; unfold exec, SetState; by case_decide
  | |- related (calmer left_of) (ClearConfigIfPresent _) =>
      apply calm_idle; intros w; unfold exec, ClearConfigIfPresent; by destruct (has_config (snapshot w)), _
  | |- related (calmer left_of) (set_current_activity _) =>
      apply calm_idle; intros w; unfold exec, set_current_activity; by case_decide
  end.

Lemma calm_drain : related (calmer left_of) (DrainStaleMessages (E := E)).
Proof.
  assert (Hd : forall n, related (calmer left_of) (drain_stale (E := E) n)).
  { induction n as [|n IH]; cbn [drain_stale]; related_steps (apply IH || calm_leaf). }
  intros w. unfold exec, DrainStaleMessages. destruct (ws w); [apply Hd|reflexivity].
Qed.

Lemma calm_FetchCurrentActivity : related (calmer left_of) (FetchCurrentActivity (E := E)).
Proof. unfold FetchCurrentActivity, SendText. related_steps (apply calm_drain || calm_leaf). Qed.

Lemma calm_Connect host : related (calmer left_of) (ConnectAndFetchConfig (E := E) host).
Proof.
  unfold ConnectAndFetchConfig, fetch_config, close_and_fail, CloseAndReset, SendText, store_config.
  related_steps (apply calm_drain || apply calm_FetchCurrentActivity || calm_leaf).
Qed.

Lemma calm_send_batch now cmds b : related (calmer left_of) (send_batch (E := E) max_age now cmds b).
Proof.
  revert b. induction cmds as [|c cmds IH]; intros b; cbn [send_batch]; unfold SendText; related_steps (apply IH || calm_leaf).
Qed.

Lemma calm_SendPending : related (calmer left_of) (SendPendingCommands (E := E) max_age).
Proof.
  unfold SendPendingCommands. related_steps (apply calm_send_batch || apply calm_FetchCurrentActivity || calm_leaf).
Qed.

(** A check of the stop token: it is not passed when no wait is left. *)
Lemma ends_stop_check n k :
  (0 < n -> ends left_of n (k false))%nat -> ends left_of n (k true) -> ends left_of n (let* stopped := call stop_requested in k stopped).
Proof.
  intros H1 H2 w Hw. unfold eval. rewrite run_bind. pose proof (stop_call_true w) as Hs. unfold eval in Hs. rewrite Hs.
  assert (Hc : (left_of (call stop_requested w).2 <= n)%nat).
  { pose proof (calm_call stop_requested (calm_stop _ L) w) as Hc. unfold calmer, exec in Hc. lia. }
  destruct (Nat.eqb_spec (left_of w) 0); [by apply H2|apply H1; [lia|done]].
Qed.

Lemma connected_loop_ends fuel n : (n < fuel)%nat -> ends left_of n (connected_loop (E := E) max_age liveness fuel).
Proof.
  revert n. induction fuel as [|fuel IH]; intros n Hn; [lia|]. cbn [connected_loop].
  apply (ends_stop_check n (fun stopped => if stopped : bool then _ else _)); [|apply ends_ret]. intros Hpos.
  apply ends_drops; [apply Sleep_drops|]. intros reason.
  assert (Hrec : ends left_of (Nat.pred n) (connected_loop (E := E) max_age liveness fuel)) by (apply IH; lia).
  assert (Hrest : forall m : M (World (E := E)) bool, ends left_of (Nat.pred n) m ->
    ends left_of (Nat.pred n) (let* ok := SendPendingCommands max_age in if negb ok then ret true else m)).
  { intros m Hm. apply ends_calm; [apply calm_SendPending|]. intros []; [done|apply ends_ret]. }
  destruct reason; try apply ends_ret; apply Hrest; try apply ends_ret; try apply Hrec;
    (apply ends_calm; [apply calm_FetchCurrentActivity|]; intros []; try apply ends_ret; apply Hrec).
Qed.

Lemma connected_loop_drops fuel : (0 < fuel)%nat -> drops left_of (connected_loop (E := E) max_age liveness fuel).
Proof.
  intros Hf. destruct fuel as [|fuel]; [lia|]. cbn [connected_loop]. intros w. unfold exec. rewrite run_bind.
  pose proof (stop_call_true w) as Hs. unfold eval in Hs. rewrite Hs.
  pose proof (calm_call stop_requested (calm_stop _ L) w) as Hc. unfold calmer, exec in Hc.
  destruct (Nat.eqb_spec (left_of w) 0) as [Hz|Hz]; [cbn; lia|].
  assert (Hcalm : forall f, related (calmer left_of) (connected_loop (E := E) max_age liveness f)).
  { induction f as [|f IH]; cbn [connected_loop];
      related_steps (apply IH || apply calm_SendPending || apply calm_FetchCurrentActivity || calm_leaf). }
  etrans; [|apply Nat.pred_le_mono, Hc]. revert w Hs Hc Hz. generalize (call stop_requested).
  intros m w _ _ _. generalize (m w).2.
  match goal with |- forall w', (left_of (?p w').2 <= _)%nat => change (drops left_of p) end.
  apply drops_calm; [apply Sleep_drops|]. intros reason.
  related_steps (apply Hcalm || apply calm_SendPending || apply calm_FetchCurrentActivity || calm_leaf).
Qed.

Lemma loop_iteration_ends fuel n : (n < fuel)%nat -> ends left_of n (loop_iteration (E := E) max_age liveness fuel).
Proof.
  intros Hf. unfold loop_iteration, drop_for_previous_hub, discard_answered_trigger.
  repeat first
    [ apply ends_ret
    | apply ends_calm; [solve [related_steps (apply calm_Connect || calm_leaf)]|intros ?]
    | match goal with
      | |- ends left_of _ (let* _ := connected_loop _ _ _ in _) => fail 1
      | |- ends left_of _ (if ?b then _ else _) => destruct b
      | |- ends left_of _ (match ?x with _ => _ end) => destruct x
      end ].
  intros w Hw. unfold eval. rewrite run_bind. rewrite (connected_loop_ends fuel n Hf w Hw : (_ w).1 = true).
  cbn [negb]. by rewrite !run_bind.
Qed.

Lemma loop_iteration_drops fuel : (0 < fuel)%nat -> drops left_of (loop_iteration (E := E) max_age liveness fuel).
Proof.
  intros Hf. unfold loop_iteration, drop_for_previous_hub, discard_answered_trigger, CloseAndReset.
  repeat first
    [ apply drops_calm; [apply Sleep_drops || by apply connected_loop_drops|intros ?; related_steps calm_leaf]
    | apply calm_drops; [solve [related_steps (apply calm_Connect || calm_leaf)]|intros ?]
    | match goal with
      | |- drops _ (if ?b then _ else _) => destruct b
      | |- drops _ (match ?x with _ => _ end) => destruct x
      end ].
Qed.

Lemma ConnectionLoop_ends fuel n : (S n < fuel)%nat -> ends left_of n (ConnectionLoop (E := E) max_age liveness fuel).
Proof.
  revert n. induction fuel as [|fuel IH]; intros n Hn; [lia|]. cbn [ConnectionLoop].
  apply (ends_stop_check n (fun stopped => if stopped : bool then _ else _)).
  - intros Hpos w Hw. unfold eval. rewrite run_bind.
    pose proof (loop_iteration_ends fuel n ltac:(lia) w Hw) as He. unfold eval in He. rewrite He. cbn [negb].
    apply (IH (Nat.pred n)); [lia|]. pose proof (loop_iteration_drops fuel ltac:(lia) w) as Hd. unfold exec in Hd. lia.
  - intros w _. unfold eval. by rewrite run_bind.
Qed.
End Ending.

(** ** Lemmas: the socket *)

Section Sockets.
Context {E : Type} `{HarmonyEnv E} `{JsonCodec} (max_age liveness : Z).

Definition same_socket (w w' : World (E := E)) : Prop := ws w' = ws w.

#[global] Instance same_socket_preorder : PreOrder same_socket.
Proof. unfold same_socket. split; [done|]. intros w1 w2 w3 A B. congruence. Qed.

Lemma socket_call {A} (op : M E A) : related same_socket (call op).
Proof. intros w. by destruct (call_same op w) as (_ & _ & _ & ?). Qed.

Lemma socket_SendText text : related same_socket (SendText text).
Proof. intros w. by destruct (SendText_spec text w) as (_ & _ & _ & ?). Qed.

Lemma socket_Sleep delay watch : related same_socket (Sleep (E := E) delay watch).
Proof.
  intros w. unfold exec, Sleep, same_socket. destruct (wait delay (env w)) as [[stopped ops] e].
  destruct (Wait _ _ _ _ _) as [[r q] rest]. by destruct (external_same ops (with_env e w)) as (_ & _ & _ & ?).
Qed.

Ltac socket_leaf := idtac;
  match goal with
  | |- related same_socket (call _) => apply socket_call
  | |- related same_socket (SendText _) => apply socket_SendText
  | |- related same_socket (Sleep _ _) => apply socket_Sleep
  | |- related same_socket (locked_call ?op) =>
      intros ?w; unfold exec, locked_call, same_socket; by destruct (op (env w))
  | |- related same_socket (modify _) => by intros w
  | |- related same_socket (Publish _) => by intros w
  | |- related same_socket take_pending => by intros w
  | |- related same_socket ClearPendingCommandsIfAny =>
      intros w; unfold same_socket, exec, ClearPendingCommandsIfAny; by destruct (pending w)
  | |- related same_socket (SetState _) => intros w; unfold same_socket, exec, SetState; by case_decide
  | |- related same_socket (ClearConfigIfPresent _) =>
      intros w; unfold same_socket, exec, ClearConfigIfPresent; by destruct (has_config (snapshot w)), _
  | |- related same_socket (set_current_activity _) =>
      intros w; unfold same_socket, exec, set_current_activity; by case_decide
  end.

Lemma socket_drain : related same_socket (DrainStaleMessages (E := E)).
Proof.
  assert (Hd : forall n, related same_socket (drain_stale (E := E) n)).
  { induction n as [|n IH]; cbn [drain_stale]; related_steps (apply IH || socket_leaf). }
  intros w. unfold exec, DrainStaleMessages. destruct (ws w) eqn:Ew; [apply Hd|reflexivity].
Qed.

Lemma socket_FetchCurrentActivity : related same_socket (FetchCurrentActivity (E := E)).
Proof. unfold FetchCurrentActivity. related_steps (apply socket_drain || socket_leaf). Qed.

Definition closed (w : World (E := E)) : Prop := ws w = false.
Definition closed_unless (ok : bool) (w : World (E := E)) : Prop := ok = false -> ws w = false.

Lemma close_yields P : yields P close_and_fail closed_unless.
Proof.
  intros w _. unfold close_and_fail, CloseAndReset, closed_unless. by rewrite !run_bind.
Qed.

Lemma yields_true P : yields P (ret true) closed_unless.
Proof. by intros w. Qed.

Lemma fetch_config_closed P : yields P (fetch_config (E := E)) closed_unless.
Proof.
  unfold fetch_config.
  repeat first
    [ apply close_yields | apply yields_true | apply yields_any; intros ?
    | match goal with
      | |- yields _ (if ?b then _ else _) _ => destruct b
      | |- yields _ (match ?x with _ => _ end) _ => destruct x
      end ].
Qed.

(** A step that leaves the socket closed, and a connect attempt, which leaves it open
    only when it succeeds. *)
Lemma yields_closed {A B} (m : M (World (E := E)) A) (k : A -> M (World (E := E)) B) Q :
  related same_socket m -> (forall a, yields closed (k a) Q) -> yields closed (bind m k) Q.
Proof. intros Hm Hk w Hw. rewrite run_bind. apply Hk. pose proof (Hm w) as Hs. unfold same_socket, exec, closed in *. congruence. Qed.

Lemma Connect_closed host : yields closed (ConnectAndFetchConfig (E := E) host) closed_unless.
Proof.
  unfold ConnectAndFetchConfig.
  repeat first
    [ intros w Hw _; exact Hw | apply close_yields | apply fetch_config_closed
    | apply yields_closed; [solve [related_steps socket_leaf]|intros ?]
    | match goal with
      | |- yields _ (if ?b then _ else _) _ => destruct b
      | |- yields _ (match ?x with _ => _ end) _ => destruct x
      end ].
  all: do 2 (apply yields_any; intros ?).
  all: match goal with |- yields _ (if ?b then _ else _) _ => destruct b end; cbn [negb].
  all: try (intros w _; by rewrite run_bind).
  all: apply yields_any; intros []; [apply close_yields|apply fetch_config_closed].
Qed.

Lemma loop_iteration_closed fuel :
  yields closed (loop_iteration (E := E) max_age liveness fuel) (fun completed w => completed = true -> ws w = false).
Proof.
  unfold loop_iteration, drop_for_previous_hub.
  repeat first
    [ intros w Hw _; exact Hw
    | apply yields_closed; [solve [related_steps socket_leaf]|intros ?]
    | match goal with
      | |- yields _ (let* _ := ConnectAndFetchConfig _ in _) _ => fail 1
      | |- yields _ (if ?b then _ else _) _ => destruct b
      end ].
  eapply yields_bind; [apply Connect_closed|]. intros [|]; cbn [negb].
  - do 5 (apply yields_any; intros ?).
    match goal with |- yields _ (if negb ?b then _ else _) _ => destruct b end; cbn [negb]; [|by intros w].
    intros w _. rewrite run_bind. cbn [gets fst snd]. destruct (ws w) eqn:Ew; unfold CloseAndReset; rewrite !run_bind; by cbn.
  - apply (yields_pre closed); [by intros w Hw; apply Hw|].
    repeat first
      [ intros w Hw _; exact Hw | apply yields_closed; [solve [related_steps socket_leaf]|intros ?]
      | match goal with |- yields _ (let '(_, _) := ?x in _) _ => destruct x end ].
Qed.

Lemma ConnectionLoop_exit fuel :
  yields closed (ConnectionLoop (E := E) max_age liveness fuel)
    (fun stopped w => stopped = true -> state (snapshot w) = kDisconnected /\ pending w = [] /\ ws w = false).
Proof.
  induction fuel as [|fuel IH]; cbn [ConnectionLoop]; [by intros w|].
  apply yields_closed; [apply socket_call|]. intros [|].
  - intros w Hw _. unfold shutdown. rewrite !run_bind. cbn [ret snd]. unfold closed in Hw.
    unfold ClearPendingCommandsIfAny, SetState. destruct (pending w) eqn:Ep; cbn; case_decide as Hd; cbn in *; by rewrite ?Hw, ?Ep.
  - eapply yields_bind; [apply loop_iteration_closed|]. intros [|]; cbn [negb]; [|by intros w].
    apply (yields_pre closed); [by intros w Hw; apply Hw|exact IH].
Qed.
End Sockets.

(** ** Properties *)

Section Properties.
Context {E : Type} `{HarmonyEnv E} `{JsonCodec} (max_age liveness : Z).

(** C6: Whatever the network, the clock, the settings and the other threads do, and however
    long the loop runs, the snapshot and the queue stay well formed: no device, activity
    or current activity is shown without a configuration; each published state change
    really changes the state, and the last one is the state the snapshot shows; the queue
    never holds more than twenty commands; and no device or activity has an empty id. *)
Theorem harmony_invariant (fuel : nat) (e : E) (b : RetryBackoff) :
  harmony_ok (exec (ConnectionLoop max_age liveness fuel) (start e b)).
Proof. apply ConnectionLoop_ok. split_and!; try done; unfold kMaxPendingCommands; cbn; lia. Qed.

(** C15: Once a stop is requested the connection thread ends: if at most [n] waits happen
    before the stop token reports it, the loop returns, whatever the network does in
    between, and it leaves nothing behind: the state is disconnected, no command is left
    in the queue and the socket is closed. *)
Theorem stop_ends_loop (remaining : E -> nat) (n fuel : nat) (w : World (E := E)) :
  StopLaws remaining -> (remaining (env w) <= n)%nat -> (S n < fuel)%nat -> ws w = false ->
  eval (ConnectionLoop max_age liveness fuel) w = true /\
  let w' := exec (ConnectionLoop max_age liveness fuel) w in
  state (snapshot w') = kDisconnected /\ pending w' = [] /\ ws w' = false.
Proof.
  intros L Hn Hf Hw. pose proof (ConnectionLoop_ends max_age liveness remaining L fuel n Hf w Hn) as He.
  split; [exact He|]. by apply (ConnectionLoop_exit max_age liveness fuel w Hw).
Qed.

(** C7: Sending the queued commands never loses one silently: either every queued command
    that names something to send was put on the wire successfully and in order, or a
    dropped event was published; and a failed return with something queued published it. *)
Theorem no_command_lost_silently (w : World (E := E)) :
  let ok := eval (SendPendingCommands max_age) w in
  let w' := exec (SendPendingCommands max_age) w in
  let dropped := exists evs, published w' = published w ++ evs /\ HarmonyCommandDroppedEvent ∈ evs in
  (dropped \/ exists rest, sent w' = sent w ++ map (fun t => (t, true)) (omap (command_text (hub_id w)) (pending w)) ++ rest) /\
  (ok = false -> pending w <> [] -> dropped).
Proof.
  unfold eval, exec. rewrite SendPendingCommands_run. cbv zeta. destruct (ws w).
  2: { destruct (pending w) as [|c q] eqn:Ep; cbn.
       - split; [right; exists []; by rewrite app_nil_r|done].
       - assert (Hd : exists evs, published w ++ [HarmonyCommandDroppedEvent] = published w ++ evs /\
                        HarmonyCommandDroppedEvent ∈ evs) by (eexists; split; [done|set_solver]).
         auto. }
  pose proof (call_same steady_now (with_shared [] (requested w) w)) as (S1 & S2 & S3 & S4).
  destruct (call steady_now _) as [now w2]. cbn [snd sent published hub_id with_shared] in *.
  pose proof (send_batch_post max_age now (pending w)
    {| started_activity := false; dropped_stale := false; transport_failed := false |} w2) as (l & L1 & L2 & L3).
  destruct (send_batch _ _ _ _ w2) as [[b|] w3]; cbn [fst snd] in *; rewrite S1, S3 in *; rewrite S2 in L3.
  2: { assert (Hd : exists evs, published w3 = published w ++ evs /\ HarmonyCommandDroppedEvent ∈ evs)
         by (eexists; split; [exact L3|set_solver]). auto. }
  destruct L3 as (P1 & P2 & P3).
  set (w4 := if started_activity b then _ else w3).
  assert (G : grows w3 w4) by (unfold w4; destruct (started_activity b); [apply refresh_grows|done]).
  destruct G as [[ls G1] [es G2]].
  destruct (dropped_stale b || transport_failed b) eqn:Hf.
  - assert (Hd : exists evs, published w4 ++ [HarmonyCommandDroppedEvent] = published w ++ evs /\
                   HarmonyCommandDroppedEvent ∈ evs).
    { exists (es ++ [HarmonyCommandDroppedEvent]). rewrite G2, P1, app_assoc. split; [done|set_solver]. }
    auto.
  - destruct (P3 eq_refl) as [_ ->]. split; [right; exists ls; by rewrite G1, L1, app_assoc|].
    apply orb_false_iff in Hf as [_ ->]. done.
Qed.

(** While no stop is requested, every queued release is put on the wire, in order:
    neither its age nor a send that failed earlier in the batch keeps a release back, so
    a button held on the hub is always let go if the socket still can. *)
Theorem releases_always_attempted (w : World (E := E)) :
  (forall e : E, eval stop_requested e = false) -> ws w = true ->
  exists l, sent (exec (SendPendingCommands max_age) w) = sent w ++ l /\
            sublist (omap (release_text (hub_id w)) (pending w)) (map fst l).
Proof.
  intros Hstop Hws. unfold exec. rewrite SendPendingCommands_run. cbv zeta. rewrite Hws.
  pose proof (call_same steady_now (with_shared [] (requested w) w)) as (S1 & S2 & S3 & S4).
  destruct (call steady_now _) as [now w2]. cbn [snd sent published hub_id with_shared] in *.
  set (b0 := {| started_activity := false; dropped_stale := false; transport_failed := false |}).
  pose proof (send_batch_post max_age now (pending w) b0 w2) as (l & L1 & L2 & L3).
  destruct (send_batch_completes max_age now Hstop (pending w) b0 w2) as [b Hb].
  destruct (send_batch _ _ _ _ w2) as [r w3]. cbn [fst snd] in *. subst r. destruct L3 as (P1 & P2 & P3).
  rewrite S1, S3 in *.
  set (w4 := if started_activity b then _ else w3).
  assert (G : grows w3 w4) by (unfold w4; destruct (started_activity b); [apply refresh_grows|done]).
  destruct G as [[ls G1] _]. exists (l ++ ls). split.
  - destruct (_ || _); cbn; by rewrite G1, L1, app_assoc.
  - rewrite map_app. by apply sublist_inserts_r.
Qed.

(** The connection goes where the settings say: for a host the settings screen accepts,
    the URL built by concatenation is parsed back to exactly that host on the hub's port,
    and nothing of the host reaches the request target. *)
Theorem hub_url_reaches_host (host id : string) :
  IsValidHubHost host = true ->
  ParseWsUrl (WebSocketUrl host id) =
  {| host_header := host +:+ ":8088"; request_target := "/?domain=svcs.myharmony.com&hubId=" +:+ id |}.
Proof.
  intros Hv. unfold IsValidHubHost in Hv. apply negb_true_iff, screened_lacks_slash in Hv.
  unfold ParseWsUrl, WebSocketUrl.
  set (rest := host +:+ ":8088/?domain=svcs.myharmony.com&hubId=" +:+ id).
  change (break_on "://" ("ws://" +:+ rest)) with ("ws", Some rest). cbv beta iota. unfold rest.
  assert (Hl : lacks "/" (host +:+ ":8088") = true) by (rewrite lacks_app, Hv; done).
  pose proof (break_at_found "/" (host +:+ ":8088") ("?domain=svcs.myharmony.com&hubId=" +:+ id) Hl) as Hb.
  rewrite sapp_assoc in Hb. change (":8088" +:+ String "/" ("?domain=svcs.myharmony.com&hubId=" +:+ id)) with
    (":8088/?domain=svcs.myharmony.com&hubId=" +:+ id) in Hb. by rewrite Hb.
Qed.
End Properties.

(** ** Witnesses *)

Module Sample.

(** A hub whose sends fail and whose handshake is refused; the state counts the waits
    left before the stop. *)
#[export] Instance env (stops : bool) : HarmonyEnv nat := {|
  http_post := fun _ _ _ => ret {| success := false; http_status := 0; http_body := EmptyString |};
  ws_connect := fun _ => ret false;
  ws_send := fun _ => ret false;
  ws_receive := fun _ => ret None;
  ws_close := ret tt;
  stop_requested := fun e => (if stops then (e =? 0)%nat else false, e);
  steady_now := ret 90000;
  read_hub_host := ret (Some {| vv_value := "192.168.1.20"; schema_version := 1 |});
  interfere := ret [];
  wait := fun _ e => ((false, [ExtTrigger]), Nat.pred e)
|}.

#[export] Instance codec : JsonCodec := {|
  json_parse := fun _ => JDiscarded;
  json_dump := fun j => match find_object "hbus" j with
                        | Some h => match find_object "params" h with
                                    | Some p => match find_string "status" p with Some s => s | None => "start" end
                                    | None => EmptyString
                                    end
                        | None => EmptyString
                        end |}.

Definition backoff0 : RetryBackoff := NewRetryBackoff 1000 60000.

(** A stale press, a press and its release queued on an open socket. *)
Definition held : World (E := nat) :=
  let w := start 3%nat backoff0 in
  with_ws true (ReleaseDeviceCommand "VolumeUp" 80001 (PressDeviceCommand "VolumeUp" 80000 (PressDeviceCommand "Mute" 0 w))).
End Sample.

Lemma stop_ends_loop_witness :
  let run := ConnectionLoop (H := Sample.env true) (H0 := Sample.codec) 30000 30000 7 in
  eval run (start 4%nat Sample.backoff0) = true /\
  let w' := exec run (start 4%nat Sample.backoff0) in
  state (snapshot w') = kDisconnected /\ pending w' = [] /\ ws w' = false.
Proof.
  apply (stop_ends_loop (H := Sample.env true) (H0 := Sample.codec) 30000 30000 (fun e => e) 4 7 (start 4%nat Sample.backoff0)).
  - constructor; intros; cbn; try lia. by destruct e.
  - cbn. lia.
  - lia.
  - reflexivity.
Defined.

Lemma releases_always_attempted_witness :
  exists l, sent (exec (SendPendingCommands (H := Sample.env false) (H0 := Sample.codec) 30000) Sample.held) =
              sent Sample.held ++ l /\
            sublist (omap (release_text (H0 := Sample.codec) (hub_id Sample.held)) (pending Sample.held)) (map fst l).
Proof.
  apply (releases_always_attempted (H := Sample.env false) (H0 := Sample.codec) 30000 Sample.held).
  - intros e. reflexivity.
  - reflexivity.
Defined.

Lemma hub_url_reaches_host_witness :
  ParseWsUrl (WebSocketUrl "192.168.1.20" "1234567") =
  {| host_header := "192.168.1.20:8088"; request_target := "/?domain=svcs.myharmony.com&hubId=1234567" |}.
Proof. apply (hub_url_reaches_host "192.168.1.20" "1234567"). vm_compute. reflexivity. Defined.
