(* ===== verification/Dashboard.v ===== *)
(** Dashboard: the decision logic behind the screens, which the sources keep free of LVGL.

    Models [src/src/ui/grid_occupancy.h] and [DashboardGrid::AddWidget] of
    [src/src/ui/dashboard_grid.cpp] (module [Grid]), [src/src/ui/virtual_list_window.h]
    and the binding of rows to buttons in [src/src/ui/virtual_list.cpp] (module
    [VirtualList]), and the press, activity and lazy-load trackers (module [Trackers]).
    What LVGL draws is not modelled; what the code hands it is. *)
From S2P Require Import Prelude.

(** ** The dashboard grid *)

Module Grid.

Record Placement := { row : Z; col : Z }.
Record Span := { col_span : Z; row_span : Z }.

(** [GridOccupancy<Columns>] is its rows, a bit set per declared row. *)

Definition kMaxRowSpan : Z := 100.

Section Grid.
Context (Columns : Z).

Definition ClampSpan (cs rs : Z) : Span :=
  let cs := if cs <? 1 then 1 else cs in
  let cs := if Columns <? cs then Columns else cs in
  let rs := if rs <? 1 then 1 else rs in
  let rs := if kMaxRowSpan <? rs then kMaxRowSpan else rs in
  {| col_span := cs; row_span := rs |}.

Definition NewGridOccupancy : list Z := [0].

Definition RowCount (g : list Z) : Z := Z.of_nat (List.length g).

(** [while (size <= row) emplace_back();] *)
Definition EnsureRowExists (r : Z) (g : list Z) : list Z :=
  g ++ repeat 0 (Z.to_nat (r + 1 - RowCount g)).

(** [occupancy_[r][c]]. *)
Definition occupied (g : list Z) (r c : Z) : bool := Z.testbit (nth (Z.to_nat r) g 0) c.

Definition Fits (g : list Z) (r0 c0 cs rs : Z) : bool :=
  if Columns <? c0 + cs then false
  else forallb (fun r => if RowCount g <=? r then true
                         else forallb (fun c => negb (occupied g r c)) (seqZ c0 cs)) (seqZ r0 rs).

(** [occupancy_[r].set(c)], which throws for a column the row does not have. *)
Definition set_cell (g : list Z) (cell : Z * Z) : option (list Z) :=
  let '(r, c) := cell in
  if (0 <=? r) && (r <? RowCount g) && (0 <=? c) && (c <? Columns)
  then Some (<[Z.to_nat r := Z.setbit (nth (Z.to_nat r) g 0) c]> g) else None.

Fixpoint set_cells (cells : list (Z * Z)) (g : list Z) : option (list Z) :=
  match cells with
  | [] => Some g
  | cell :: rest => match set_cell g cell with Some g' => set_cells rest g' | None => None end
  end.

(** The cells of a footprint in the order of the two loops. *)
Definition footprint (r0 c0 cs rs : Z) : list (Z * Z) :=
  flat_map (fun r => map (fun c => (r, c)) (seqZ c0 cs)) (seqZ r0 rs).

Definition MarkOccupied (r0 c0 cs rs : Z) (g : list Z) : option (list Z) :=
  set_cells (footprint r0 c0 cs rs) (EnsureRowExists (r0 + rs - 1) g).

(** The scan of [FindPlacement]; [None] when the fuel runs out. *)
Fixpoint find_from (fuel : nat) (g : list Z) (s : Span) (r c : Z) : option Placement :=
  match fuel with
  | O => None
  | S fuel' =>
      if Fits g r c (col_span s) (row_span s) then Some {| row := r; col := c |}
      else if Columns <=? c + 1 then find_from fuel' g s (r + 1) 0
      else find_from fuel' g s r (c + 1)
  end.

(** Every declared position, and the first one below them. *)
Definition scan_fuel (g : list Z) : nat := S (Z.to_nat (RowCount g * Columns)).

Definition FindPlacement (g : list Z) (cs rs : Z) : option Placement :=
  find_from (scan_fuel g) g (ClampSpan cs rs) 0 0.
End Grid.

(** [GrowRowDescriptorArray]: [None] is [back()] on an empty vector. *)
Definition set_back (x : Z) (l : list Z) : option (list Z) :=
  match l with [] => None | _ => Some (removelast l ++ [x]) end.

Fixpoint grow_descriptors (fuel : nat) (height terminator : Z) (dsc : list Z) : option (list Z) :=
  match fuel with
  | O => Some dsc
  | S fuel' =>
      match set_back height dsc with
      | Some dsc' => grow_descriptors fuel' height terminator (dsc' ++ [terminator])
      | None => None
      end
  end.

(** Each round of the loop adds one entry, so it runs [row - (size - 1) + 1] times. *)
Definition GrowRowDescriptorArray (dsc : list Z) (r height terminator : Z) : option (list Z) :=
  if r <? Z.of_nat (List.length dsc) - 1 then Some dsc
  else grow_descriptors (Z.to_nat (r + 2 - Z.of_nat (List.length dsc))) height terminator dsc.

(** *** [DashboardGrid] *)

Definition kColumns : Z := 4.
Definition kPanelWidth : Z := 720.
Definition kGridPadding : Z := 8.
Definition kCellGap : Z := 8.
Definition kRowHeight : Z := (kPanelWidth - 2 * kGridPadding - (kColumns - 1) * kCellGap) ÷ kColumns.

(** [LV_GRID_TEMPLATE_LAST], a constant of LVGL. *)
Definition Terminator := Z.

Record DashboardGrid := { row_dsc_ : list Z; occupancy_ : list Z }.

Definition NewDashboardGrid (last : Terminator) : DashboardGrid :=
  {| row_dsc_ := [kRowHeight; last]; occupancy_ := NewGridOccupancy |}.

(** What [AddWidget] hands [lv_obj_set_grid_cell]. *)
Record Cell := { at_ : Placement; size : Span }.

Definition AddWidget (last : Terminator) (column_span_ row_span_ : Z) (d : DashboardGrid) : option (Cell * DashboardGrid) :=
  let s := ClampSpan kColumns column_span_ row_span_ in
  match FindPlacement kColumns (occupancy_ d) (col_span s) (row_span s) with
  | None => None
  | Some p =>
      match MarkOccupied kColumns (row p) (col p) (col_span s) (row_span s) (occupancy_ d) with
      | None => None
      | Some g =>
          match GrowRowDescriptorArray (row_dsc_ d) (row p + row_span s - 1) kRowHeight last with
          | None => None
          | Some dsc => Some ({| at_ := p; size := s |}, {| row_dsc_ := dsc; occupancy_ := g |})
          end
      end
  end.

Fixpoint AddWidgets (last : Terminator) (widgets : list (Z * Z)) (d : DashboardGrid) : option (list Cell * DashboardGrid) :=
  match widgets with
  | [] => Some ([], d)
  | (cs, rs) :: rest =>
      match AddWidget last cs rs d with
      | None => None
      | Some (cell, d') =>
          match AddWidgets last rest d' with
          | None => None
          | Some (cells, d'') => Some (cell :: cells, d'')
          end
      end
  end.

(** ** Lemmas *)

Section GridLemmas.
Context (Columns : Z) (HC : 0 < Columns).

Lemma ClampSpan_bounds cs rs :
  1 <= col_span (ClampSpan Columns cs rs) <= Columns /\ 1 <= row_span (ClampSpan Columns cs rs) <= kMaxRowSpan.
Proof. unfold ClampSpan, kMaxRowSpan. cbn. repeat case_match; lia. Qed.

Lemma ClampSpan_idem cs rs :
  let s := ClampSpan Columns cs rs in ClampSpan Columns (col_span s) (row_span s) = s.
Proof. unfold ClampSpan, kMaxRowSpan. cbn. repeat case_match; f_equal; lia. Qed.

Lemma occupied_outside g r c : RowCount g <= r -> occupied g r c = false.
Proof.
  unfold RowCount, occupied. intros Hr. rewrite nth_overflow by lia. apply Z.testbit_0_l.
Qed.

Lemma forallb_seqZ (p : Z -> bool) m n : forallb p (seqZ m n) = true <-> forall i, m <= i < m + n -> p i = true.
Proof.
  rewrite forallb_forall. split; intros Hp i Hi; apply Hp.
  - apply list_elem_of_In, elem_of_seqZ. done.
  - apply list_elem_of_In, elem_of_seqZ in Hi. done.
Qed.

Lemma Fits_spec g r0 c0 cs rs :
  Fits Columns g r0 c0 cs rs = true <->
  c0 + cs <= Columns /\ forall r c, r0 <= r < r0 + rs -> c0 <= c < c0 + cs -> occupied g r c = false.
Proof.
  unfold Fits. destruct (Z.ltb_spec Columns (c0 + cs)) as [Hc|Hc]; [split; [done|lia]|].
  rewrite forallb_seqZ. split.
  - intros Hf. split; [done|]. intros r c Hr Hcc. specialize (Hf r Hr).
    destruct (Z.leb_spec (RowCount g) r); [by apply occupied_outside|].
    apply forallb_seqZ with (i := c) in Hf; [|done]. by apply negb_true_iff.
  - intros [_ Hf] r Hr. destruct (Z.leb_spec (RowCount g) r); [done|].
    apply forallb_seqZ. intros c Hcc. apply negb_true_iff. auto.
Qed.

(** The position [k] of the row-major scan. *)
Definition scan_row (k : Z) : Z := k / Columns.
Definition scan_col (k : Z) : Z := k mod Columns.

Lemma scan_next k : 0 <= k ->
  (if Columns <=? scan_col k + 1 then (scan_row k + 1, 0) else (scan_row k, scan_col k + 1)) =
  (scan_row (k + 1), scan_col (k + 1)).
Proof.
  intros Hk. unfold scan_row, scan_col. pose proof (Z.mod_pos_bound k Columns HC).
  pose proof (Z.div_mod k Columns ltac:(lia)).
  destruct (Z.leb_spec Columns (k mod Columns + 1)) as [Hl|Hl].
  - f_equal; [apply Z.div_unique with 0; lia|apply Z.mod_unique with (k / Columns + 1); lia].
  - f_equal; [apply Z.div_unique with (k mod Columns + 1); lia|apply Z.mod_unique with (k / Columns); lia].
Qed.

(** The scan returns the first position that fits, if one is within its fuel. *)
Lemma find_from_first fuel g s k n :
  0 <= k <= n -> n - k < Z.of_nat fuel ->
  Fits Columns g (scan_row n) (scan_col n) (col_span s) (row_span s) = true ->
  exists m, k <= m <= n /\ find_from Columns fuel g s (scan_row k) (scan_col k) =
              Some {| row := scan_row m; col := scan_col m |} /\
    Fits Columns g (scan_row m) (scan_col m) (col_span s) (row_span s) = true /\
    forall j, k <= j < m -> Fits Columns g (scan_row j) (scan_col j) (col_span s) (row_span s) = false.
Proof.
  revert k. induction fuel as [|fuel IH]; intros k Hk Hf Hn; [lia|]. cbn [find_from].
  destruct (Fits Columns g (scan_row k) (scan_col k) _ _) eqn:E.
  { exists k. split_and!; try done; lia. }
  assert (k <> n) by congruence.
  destruct (IH (k + 1) ltac:(lia) ltac:(lia) Hn) as (m & Hm & Hfind & Hfit & Hbefore).
  exists m. split_and!; try lia; [|done|].
  - pose proof (scan_next k ltac:(lia)) as Hs.
    destruct (Columns <=? scan_col k + 1); injection Hs as Hr Hc; by rewrite Hr, Hc.
  - intros j Hj. destruct (decide (j = k)) as [->|]; [done|]. apply Hbefore. lia.
Qed.

(** The first position below the declared rows always fits. *)
Lemma fits_below g s :
  col_span s <= Columns -> Fits Columns g (RowCount g) 0 (col_span s) (row_span s) = true.
Proof.
  intros Hs. apply Fits_spec. split; [lia|]. intros r c Hr _. apply occupied_outside. lia.
Qed.

Lemma scan_below g : scan_row (RowCount g * Columns) = RowCount g /\ scan_col (RowCount g * Columns) = 0.
Proof. unfold scan_row, scan_col. split; [apply Z.div_mul; lia|apply Z.mod_mul; lia]. Qed.

Lemma FindPlacement_spec g cs rs :
  let s := ClampSpan Columns cs rs in
  exists m, 0 <= m <= RowCount g * Columns /\
    FindPlacement Columns g cs rs = Some {| row := scan_row m; col := scan_col m |} /\
    Fits Columns g (scan_row m) (scan_col m) (col_span s) (row_span s) = true /\
    forall j, 0 <= j < m -> Fits Columns g (scan_row j) (scan_col j) (col_span s) (row_span s) = false.
Proof.
  intros s. destruct (scan_below g) as [Hr Hc].
  assert (H0 : 0 <= RowCount g * Columns) by (unfold RowCount; nia).
  destruct (find_from_first (scan_fuel Columns g) g s 0 (RowCount g * Columns)) as (m & Hm & Hf); [lia| | |].
  - unfold scan_fuel. lia.
  - rewrite Hr, Hc. apply fits_below, ClampSpan_bounds.
  - exists m. split; [lia|]. exact Hf.
Qed.

(** *** Marking *)

Lemma RowCount_EnsureRowExists r g : RowCount (EnsureRowExists r g) = Z.max (RowCount g) (r + 1).
Proof. unfold EnsureRowExists, RowCount. rewrite length_app, repeat_length. lia. Qed.

Lemma occupied_EnsureRowExists r0 g r c : occupied (EnsureRowExists r0 g) r c = occupied g r c.
Proof.
  unfold occupied, EnsureRowExists. destruct (decide (Z.to_nat r < List.length g)%nat) as [Hl|Hl].
  - by rewrite app_nth1.
  - rewrite app_nth2, (nth_overflow g) by lia. by rewrite nth_repeat.
Qed.

Lemma set_cell_spec g r c :
  0 <= r < RowCount g -> 0 <= c < Columns ->
  exists g', set_cell Columns g (r, c) = Some g' /\ RowCount g' = RowCount g /\
    forall r' c', 0 <= r' -> 0 <= c' -> occupied g' r' c' = occupied g r' c' || ((r' =? r) && (c' =? c)).
Proof.
  intros Hr Hc. unfold set_cell. rewrite !(proj2 (Z.leb_le _ _)), !(proj2 (Z.ltb_lt _ _)) by lia. cbn [andb].
  eexists. split; [done|]. unfold RowCount in *. rewrite length_insert. split; [done|]. intros r' c' Hr' Hc'.
  unfold occupied. destruct (Z.eqb_spec r' r) as [->|Hne].
  - rewrite (nth_lookup (<[_ := _]> g)), list_lookup_insert_eq by lia. cbn. rewrite Z.setbit_eqb by lia.
    rewrite orb_comm. f_equal. destruct (Z.eqb_spec c c'), (Z.eqb_spec c' c); congruence.
  - rewrite (nth_lookup (<[_ := _]> g)), list_lookup_insert_ne, <- nth_lookup by lia. cbn. by rewrite orb_false_r.
Qed.

Lemma set_cells_spec cells g :
  Forall (fun '(r, c) => 0 <= r < RowCount g /\ 0 <= c < Columns) cells ->
  exists g', set_cells Columns cells g = Some g' /\ RowCount g' = RowCount g /\
    forall r c, 0 <= r -> 0 <= c -> occupied g' r c = occupied g r c || existsb (fun '(r', c') => (r =? r') && (c =? c')) cells.
Proof.
  revert g. induction cells as [|[r0 c0] cells IH]; intros g Hc.
  { exists g. split_and!; try done. intros. by rewrite orb_false_r. }
  apply Forall_cons in Hc as [[Hr0 Hc0] Hcells].
  destruct (set_cell_spec g r0 c0 Hr0 Hc0) as (g1 & E1 & R1 & O1).
  destruct (IH g1) as (g2 & E2 & R2 & O2); [by rewrite R1|].
  exists g2. cbn [set_cells]. rewrite E1. split_and!; [done|congruence|].
  intros r c Hr Hcc. rewrite O2, O1 by done. cbn [existsb]. by rewrite orb_assoc.
Qed.

Lemma footprint_cells r0 c0 cs rs r c :
  existsb (fun '(r', c') => (r =? r') && (c =? c')) (footprint r0 c0 cs rs) = true <->
  r0 <= r < r0 + rs /\ c0 <= c < c0 + cs.
Proof.
  rewrite existsb_exists. unfold footprint. split.
  - intros ([r' c'] & Hin & Heq). apply andb_true_iff in Heq as [Hr Hc].
    apply Z.eqb_eq in Hr, Hc. subst r' c'.
    apply in_flat_map in Hin as (x & Hx & Hin). apply in_map_iff in Hin as (y & Heq & Hy). simplify_eq.
    apply list_elem_of_In, elem_of_seqZ in Hx. apply list_elem_of_In, elem_of_seqZ in Hy. done.
  - intros [Hr Hc]. exists (r, c). split; [|by rewrite !Z.eqb_refl].
    apply in_flat_map. exists r. split; [by apply list_elem_of_In, elem_of_seqZ|].
    apply in_map_iff. exists c. split; [done|]. by apply list_elem_of_In, elem_of_seqZ.
Qed.

Lemma MarkOccupied_spec r0 c0 cs rs g :
  0 <= r0 -> 0 <= c0 -> c0 + cs <= Columns -> 1 <= rs ->
  exists g', MarkOccupied Columns r0 c0 cs rs g = Some g' /\ RowCount g' = Z.max (RowCount g) (r0 + rs) /\
    forall r c, 0 <= r -> 0 <= c ->
      occupied g' r c = true <-> occupied g r c = true \/ (r0 <= r < r0 + rs /\ c0 <= c < c0 + cs).
Proof.
  intros Hr Hc Hcs Hrs. unfold MarkOccupied.
  destruct (set_cells_spec (footprint r0 c0 cs rs) (EnsureRowExists (r0 + rs - 1) g)) as (g' & E' & R' & O').
  - apply Forall_forall. intros [r c] Hin.
    assert (Hb : r0 <= r < r0 + rs /\ c0 <= c < c0 + cs).
    { apply footprint_cells, existsb_exists. exists (r, c). split; [by apply list_elem_of_In|by rewrite !Z.eqb_refl]. }
    rewrite RowCount_EnsureRowExists. lia.
  - exists g'. rewrite RowCount_EnsureRowExists in R'. split_and!; [done|rewrite R'; lia|].
    intros r c Hr' Hc'. rewrite O', occupied_EnsureRowExists, orb_true_iff, footprint_cells by done. done.
Qed.
End GridLemmas.

(** *** The row template *)

Lemma grow_descriptors_spec fuel h t n :
  grow_descriptors fuel h t (repeat h n ++ [t]) = Some (repeat h (n + fuel) ++ [t]).
Proof.
  revert n. induction fuel as [|fuel IH]; intros n; cbn [grow_descriptors].
  { by rewrite Nat.add_0_r. }
  assert (Hb : set_back h (repeat h n ++ [t]) = Some (repeat h (S n))).
  { unfold set_back. rewrite removelast_last, <- repeat_cons. by destruct n. }
  rewrite Hb, IH. f_equal. f_equal. f_equal. lia.
Qed.

Lemma GrowRowDescriptorArray_spec n r h t :
  (0 < n)%nat -> 0 <= r ->
  GrowRowDescriptorArray (repeat h n ++ [t]) r h t = Some (repeat h (Nat.max n (Z.to_nat (r + 1))) ++ [t]).
Proof.
  intros Hn Hr. unfold GrowRowDescriptorArray. rewrite length_app, repeat_length. cbn [List.length].
  destruct (Z.ltb_spec r (Z.of_nat (n + 1) - 1)).
  - do 3 f_equal. lia.
  - rewrite grow_descriptors_spec. do 3 f_equal. lia.
Qed.

(** *** The placed widgets *)

Definition covers (x : Cell) (r c : Z) : Prop :=
  row (at_ x) <= r < row (at_ x) + row_span (size x) /\ col (at_ x) <= c < col (at_ x) + col_span (size x).

Definition in_grid (x : Cell) : Prop :=
  0 <= row (at_ x) /\ 0 <= col (at_ x) /\ col (at_ x) + col_span (size x) <= kColumns /\
  1 <= col_span (size x) /\ 1 <= row_span (size x) <= kMaxRowSpan.

Definition apart (x y : Cell) : Prop := forall r c, covers x r c -> covers y r c -> False.

(** The bits are the placed footprints, and LVGL's row template has a row for each
    declared one and its terminator. *)
Record grid_ok (last : Terminator) (placed : list Cell) (d : DashboardGrid) : Prop := {
  cells_marked : forall r c, 0 <= r -> 0 <= c -> occupied (occupancy_ d) r c = true <-> exists x, x ∈ placed /\ covers x r c;
  rows_declared : 0 < RowCount (occupancy_ d);
  template_rows : row_dsc_ d = repeat kRowHeight (List.length (occupancy_ d)) ++ [last]
}.

Lemma new_grid_ok last : grid_ok last [] (NewDashboardGrid last).
Proof.
  split; [|done|done]. intros r c Hr Hc. unfold occupied. cbn.
  destruct (Z.to_nat r) as [|[|]]; rewrite Z.testbit_0_l; split; try done; by intros (x & []%not_elem_of_nil & _).
Qed.

Lemma AddWidget_ok last cs rs placed d :
  grid_ok last placed d ->
  exists x d', AddWidget last cs rs d = Some (x, d') /\ size x = ClampSpan kColumns cs rs /\ in_grid x /\
    Forall (apart x) placed /\ grid_ok last (x :: placed) d'.
Proof.
  intros [Hcells Hrows Htpl]. unfold AddWidget. set (s := ClampSpan kColumns cs rs).
  assert (HC : 0 < kColumns) by done.
  destruct (ClampSpan_bounds kColumns HC cs rs) as [Hcs Hrs]. fold s in Hcs, Hrs.
  destruct (FindPlacement_spec kColumns HC (occupancy_ d) (col_span s) (row_span s)) as (m & Hm & -> & Hfit & _).
  pose proof (ClampSpan_idem kColumns HC cs rs) as Hid. cbv zeta in Hid. fold s in Hid. rewrite Hid in Hfit.
  apply Fits_spec in Hfit as [Hcol Hfree]. set (p := {| row := scan_row kColumns m; col := scan_col kColumns m |}).
  assert (H0 : 0 <= row p /\ 0 <= col p).
  { cbn. unfold scan_row, scan_col. split; [apply Z.div_pos; lia|apply Z.mod_pos_bound; lia]. }
  change (scan_row kColumns m) with (row p) in Hfree. change (scan_col kColumns m) with (col p) in Hcol, Hfree. clearbody p s.
  destruct (MarkOccupied_spec kColumns (row p) (col p) (col_span s) (row_span s) (occupancy_ d)) as (g' & -> & HR & HO);
    [lia|lia|done|lia|].
  rewrite Htpl, GrowRowDescriptorArray_spec; [|unfold RowCount in Hrows; lia|lia].
  exists {| at_ := p; size := s |}. eexists. split; [done|]. split; [done|]. split; [split_and!; cbn; lia|]. split.
  - apply Forall_forall. intros y Hy r c [Hr Hc] [Hr' Hc']. cbn in *.
    enough (occupied (occupancy_ d) r c = true) by (rewrite Hfree in *; done).
    apply Hcells; [lia|lia|]. exists y. by split.
  - split.
    + intros r c Hr Hc. cbn. rewrite HO, Hcells by done. split.
      * intros [(x & Hx & Hcov)|Hin]; [exists x; split; [by right|done]|eexists; split; [by left|done]].
      * intros (x & Hx & Hcov). apply elem_of_cons in Hx as [->|Hx]; [by right|left; by exists x].
    + cbn. unfold RowCount in *. lia.
    + cbn. do 2 f_equal. unfold RowCount in HR, Hrows. lia.
Qed.

Lemma AddWidgets_ok last widgets placed d :
  grid_ok last placed d ->
  exists cells d', AddWidgets last widgets d = Some (cells, d') /\
    map size cells = map (fun '(cs, rs) => ClampSpan kColumns cs rs) widgets /\ Forall in_grid cells /\
    ForallOrdPairs apart cells /\ Forall (fun x => Forall (apart x) placed) cells /\ grid_ok last (reverse cells ++ placed) d'.
Proof.
  revert placed d. induction widgets as [|[cs rs] widgets IH]; intros placed d Hok.
  { exists [], d. split_and!; try done; constructor. }
  destruct (AddWidget_ok last cs rs placed d Hok) as (x & d1 & E1 & Hsz & Hin & Hap & Hok1).
  destruct (IH (x :: placed) d1 Hok1) as (cells & d2 & E2 & Hsz2 & Hin2 & Hpairs & Hap2 & Hok2).
  exists (x :: cells), d2. cbn [AddWidgets]. rewrite E1, E2. split_and!; [done| | | | |].
  - cbn. by rewrite Hsz, Hsz2.
  - by constructor.
  - constructor; [|done]. apply Forall_forall. intros y Hy. rewrite Forall_forall in Hap2.
    specialize (Hap2 y Hy). apply Forall_cons in Hap2 as [Hyx _]. intros r c Hx Hyc. by apply (Hyx r c).
  - constructor; [done|]. eapply Forall_impl; [exact Hap2|]. intros y Hy. by apply Forall_cons in Hy as [_ Hy].
  - rewrite reverse_cons, <- app_assoc. done.
Qed.

(** ** Properties *)

(** The placement scan terminates and is first fit: whatever spans a widget reports, a
    position is found, at most one row below the declared ones; the footprint fits
    there, and at no position before it in row-major order. *)
Theorem find_placement_first_fit (Columns : Z) (g : list Z) (cs rs : Z) :
  0 < Columns ->
  let s := ClampSpan Columns cs rs in
  exists p, FindPlacement Columns g cs rs = Some p /\ 0 <= row p <= RowCount g /\ 0 <= col p < Columns /\
    Fits Columns g (row p) (col p) (col_span s) (row_span s) = true /\
    forall r c, 0 <= r -> 0 <= c < Columns -> r < row p \/ (r = row p /\ c < col p) ->
      Fits Columns g r c (col_span s) (row_span s) = false.
Proof.
  intros HC s. destruct (FindPlacement_spec Columns HC g cs rs) as (m & Hm & -> & Hfit & Hbefore).
  pose proof (Z.mod_pos_bound m Columns HC) as Hmod. pose proof (Z.div_mod m Columns ltac:(lia)) as Hdm.
  eexists. split; [done|]. cbn. unfold scan_row, scan_col in *. split_and!; try lia; try done.
  - apply Z.div_pos; lia.
  - apply Z.div_le_upper_bound; nia.
  - intros r c Hr Hc Hlt. specialize (Hbefore (Columns * r + c)).
    rewrite <- (Z.div_unique (Columns * r + c) Columns r c), <- (Z.mod_unique (Columns * r + c) Columns r c) in Hbefore by lia.
    apply Hbefore. split; [nia|]. destruct Hlt as [Hlt|[-> Hlt]]; nia.
Qed.

(** C38: Widgets never overlap: however many widgets are added to a new dashboard, and
    whatever spans they report, each is placed, with its span clamped, inside the four
    columns, no two share a cell, and the row template handed to LVGL has exactly one
    entry per declared row before its terminator. *)
Theorem dashboard_never_overlaps (last : Terminator) (widgets : list (Z * Z)) :
  exists cells d, AddWidgets last widgets (NewDashboardGrid last) = Some (cells, d) /\
    map size cells = map (fun '(cs, rs) => ClampSpan kColumns cs rs) widgets /\ Forall in_grid cells /\
    ForallOrdPairs apart cells /\
    row_dsc_ d = repeat kRowHeight (List.length (occupancy_ d)) ++ [last].
Proof.
  destruct (AddWidgets_ok last widgets [] (NewDashboardGrid last) (new_grid_ok last))
    as (cells & d & E & Hsz & Hin & Hap & _ & Hok).
  exists cells, d. split_and!; try done. apply Hok.
Qed.

Lemma find_placement_first_fit_witness :
  exists p, FindPlacement 4 [7; 1] 2 2 = Some p /\ row p = 1 /\ col p = 1.
Proof.
  destruct (find_placement_first_fit 4 [7; 1] 2 2 ltac:(lia)) as (p & Hp & _).
  exists p. split; [exact Hp|]. vm_compute in Hp. injection Hp as <-. split; reflexivity.
Defined.
End Grid.

(** ** Lists that bind a few buttons to the visible rows *)

Module VirtualList.

Record VisibleRows := { first : Z; count : Z }.

Definition floor_div (a b : Z) : Z := if 0 <=? a then a ÷ b else - ((- a + b - 1) ÷ b).

Definition ComputeVisibleRows (list_top view_height pitch total overscan : Z) : VisibleRows :=
  if (total =? 0) || (pitch <=? 0) || (view_height <=? 0) then {| first := 0; count := 0 |}
  else
    let first_on_screen := floor_div (- list_top) pitch in
    let last_on_screen := floor_div (view_height - 1 - list_top) pitch in
    let last_row := total - 1 in
    let first := clamp (first_on_screen - overscan) 0 last_row in
    let last := clamp (last_on_screen + overscan) 0 last_row in
    {| first := first; count := last - first + 1 |}.

(** [None] is [kNoRow]. *)
Definition RowForSlot (slot pool_size : Z) (window : VisibleRows) : option Z :=
  if (pool_size =? 0) || (pool_size <=? slot) || (count window =? 0) then None
  else
    let offset := (slot + pool_size - first window mod pool_size) mod pool_size in
    if offset <? count window then Some (first window + offset) else None.

Definition MaxVisibleRows (view_height pitch overscan : Z) : Z :=
  if (pitch <=? 0) || (view_height <=? 0) then 0
  else (view_height + pitch - 1) ÷ pitch + 2 + 2 * overscan.

(** *** [VirtualList] *)

Definition kRowGap : Z := 12.
Definition kRemoteButtonHeight : Z := 110.
Definition kOverscan : Z := 2.
Definition kRowPitch : Z := kRemoteButtonHeight + kRowGap.

(** A pool button as LVGL has it, with the row [slot_row_] records for its slot. *)
Record Slot := { hidden : bool; text : string; y : Z; user_data : Z; bound : option Z }.

(** The list, its three labels, and the pool. [label_at_] is [None] and [on_select_]
    [false] while the callback is null. *)
Record VirtualList := {
  count_ : Z;
  label_at_ : option (Z -> string);
  on_select_ : bool;
  pool_ : list Slot;
  list_hidden : bool;
  list_height : Z;
  empty_hidden : bool;
  loading_hidden : bool;
  truncated_hidden : bool;
  truncated_text : string
}.

Definition NewVirtualList : VirtualList :=
  {| count_ := 0; label_at_ := None; on_select_ := false; pool_ := []; list_hidden := true; list_height := 0; empty_hidden := true;
     loading_hidden := false; truncated_hidden := true; truncated_text := EmptyString |}.

Definition with_pool (p : list Slot) (v : VirtualList) : VirtualList :=
  {| count_ := count_ v; label_at_ := label_at_ v; on_select_ := on_select_ v; pool_ := p; list_hidden := list_hidden v;
     list_height := list_height v; empty_hidden := empty_hidden v; loading_hidden := loading_hidden v;
     truncated_hidden := truncated_hidden v; truncated_text := truncated_text v |}.

(** [CreateRemoteButton] and [lv_obj_set_hidden]: a fresh, hidden, unbound button. *)
Definition new_slot : Slot := {| hidden := true; text := EmptyString; y := 0; user_data := 0; bound := None |}.

Definition unbind (s : Slot) : Slot :=
  {| hidden := hidden s; text := text s; y := y s; user_data := user_data s; bound := None |}.

Definition EnsurePool (view_height : Z) (v : VirtualList) : VirtualList :=
  let wanted := Z.min (count_ v) (MaxVisibleRows view_height kRowPitch kOverscan) in
  let grown := pool_ v ++ repeat new_slot (Z.to_nat (wanted - Z.of_nat (List.length (pool_ v)))) in
  with_pool (map unbind grown) v.

Definition hide_slot (s : Slot) : Slot :=
  {| hidden := true; text := text s; y := y s; user_data := user_data s; bound := None |}.

(** One round of [Rebind]'s loop; [None] when a null [label_at_] would be called. *)
Definition rebind_slot (force : bool) (label_at : option (Z -> string)) (pool_size : Z) (rows : VisibleRows)
    (slot : Z) (s : Slot) : option Slot :=
  if count rows =? 0 then Some (hide_slot s)
  else match RowForSlot slot pool_size rows with
       | None => Some (hide_slot s)
       | Some r =>
           if force || negb (bool_decide (bound s = Some r)) then
             match label_at with
             | Some f => Some {| hidden := false; text := f r; y := r * kRowPitch; user_data := r; bound := Some r |}
             | None => None
             end
           else Some {| hidden := false; text := text s; y := y s; user_data := user_data s; bound := bound s |}
       end.

Fixpoint rebind_from (force : bool) (label_at : option (Z -> string)) (pool_size : Z) (rows : VisibleRows)
    (slot : Z) (slots : list Slot) : option (list Slot) :=
  match slots with
  | [] => Some []
  | s :: rest =>
      match rebind_slot force label_at pool_size rows slot s, rebind_from force label_at pool_size rows (slot + 1) rest with
      | Some s', Some rest' => Some (s' :: rest')
      | _, _ => None
      end
  end.

(** [Rebind]: [layout_top] is the list's position on the screen, [None] under a hidden
    ancestor. *)
Definition visible_rows (view_height : Z) (layout_top : option Z) (v : VirtualList) : VisibleRows :=
  let pool_size := Z.min (Z.of_nat (List.length (pool_ v))) (count_ v) in
  if negb (count_ v =? 0) && negb (pool_size =? 0) then
    ComputeVisibleRows (match layout_top with Some t => t | None => 0 end) view_height kRowPitch (count_ v) kOverscan
  else {| first := 0; count := 0 |}.

Definition Rebind (force : bool) (view_height : Z) (layout_top : option Z) (v : VirtualList) : option VirtualList :=
  let pool_size := Z.min (Z.of_nat (List.length (pool_ v))) (count_ v) in
  match rebind_from force (label_at_ v) pool_size (visible_rows view_height layout_top v) 0 (pool_ v) with
  | Some p => Some (with_pool p v)
  | None => None
  end.

Definition SetItems (n : Z) (label_at : Z -> string) (on_select : bool) (view_height : Z) (layout_top : option Z) (v : VirtualList)
    : option VirtualList :=
  Rebind true view_height layout_top
    (EnsurePool view_height
       {| count_ := n; label_at_ := Some label_at; on_select_ := on_select; pool_ := pool_ v; list_hidden := n =? 0;
          list_height := if n =? 0 then 0 else n * kRowPitch - kRowGap; empty_hidden := negb (n =? 0);
          loading_hidden := true; truncated_hidden := true; truncated_text := truncated_text v |}).

Definition SetTruncated (truncated : bool) (v : VirtualList) : VirtualList :=
  {| count_ := count_ v; label_at_ := label_at_ v; on_select_ := on_select_ v; pool_ := pool_ v; list_hidden := list_hidden v;
     list_height := list_height v; empty_hidden := if truncated then true else empty_hidden v;
     loading_hidden := loading_hidden v; truncated_hidden := negb truncated;
     truncated_text := if truncated
                       then if negb (count_ v =? 0) then "Only the first " +:+ to_string (count_ v) +:+ " items are shown."
                            else "Kodi took too long to list this."
                       else truncated_text v |}.

Definition Clear (view_height : Z) (layout_top : option Z) (v : VirtualList) : option VirtualList :=
  Rebind true view_height layout_top
    {| count_ := 0; label_at_ := None; on_select_ := false; pool_ := pool_ v; list_hidden := true; list_height := 0; empty_hidden := true;
       loading_hidden := false; truncated_hidden := true; truncated_text := truncated_text v |}.

(** [Refresh] and the scroll callback. *)
Definition Refresh : Z -> option Z -> VirtualList -> option VirtualList := Rebind false.

(** The row a tap on a button selects. *)
Definition OnRowClicked (s : Slot) (v : VirtualList) : option Z :=
  if on_select_ v && (user_data s <? count_ v) then Some (user_data s) else None.

Inductive ListOp :=
  | OpSetItems (n : Z) (label_at : Z -> string) (on_select : bool) (layout_top : option Z)
  | OpSetTruncated (truncated : bool)
  | OpClear (layout_top : option Z)
  | OpRefresh (layout_top : option Z).

Definition step (view_height : Z) (v : VirtualList) (op : ListOp) : option VirtualList :=
  match op with
  | OpSetItems n f sel top => SetItems n f sel view_height top v
  | OpSetTruncated t => Some (SetTruncated t v)
  | OpClear top => Clear view_height top v
  | OpRefresh top => Refresh view_height top v
  end.

Fixpoint run (view_height : Z) (ops : list ListOp) (v : VirtualList) : option VirtualList :=
  match ops with
  | [] => Some v
  | op :: rest => match step view_height v op with Some v' => run view_height rest v' | None => None end
  end.

(** ** Lemmas *)

Lemma floor_div_spec a b : 0 < b -> floor_div a b = a / b.
Proof.
  intros Hb. unfold floor_div. destruct (Z.leb_spec 0 a); [by apply Z.quot_div_nonneg|].
  rewrite Z.quot_div_nonneg by lia.
  pose proof (Z.div_mod a b ltac:(lia)). pose proof (Z.mod_pos_bound a b Hb).
  rewrite <- (Z.div_unique (- a + b - 1) b (- (a / b)) (b - 1 - a mod b)); lia.
Qed.

(** The pixels of row [r] and those of the view meet. *)
Definition on_screen (list_top view_height pitch r : Z) : Prop :=
  list_top + r * pitch <= view_height - 1 /\ 0 <= list_top + r * pitch + pitch - 1.

Lemma on_screen_range t h p r : 0 < p -> on_screen t h p r <-> (- t) / p <= r <= (h - 1 - t) / p.
Proof.
  intros Hp. unfold on_screen.
  pose proof (Z.div_mod (- t) p ltac:(lia)). pose proof (Z.mod_pos_bound (- t) p Hp).
  pose proof (Z.div_mod (h - 1 - t) p ltac:(lia)). pose proof (Z.mod_pos_bound (h - 1 - t) p Hp).
  split; nia.
Qed.

Definition in_window (w : VisibleRows) (r : Z) : Prop := first w <= r < first w + count w.

Section Window.
Context (t h p n o : Z) (Hp : 0 < p) (Hh : 0 < h) (Hn : 0 < n) (Ho : 0 <= o).

Lemma window_eq :
  ComputeVisibleRows t h p n o =
  let f := clamp ((- t) / p - o) 0 (n - 1) in
  {| first := f; count := clamp ((h - 1 - t) / p + o) 0 (n - 1) - f + 1 |}.
Proof.
  unfold ComputeVisibleRows. rewrite (proj2 (Z.eqb_neq n 0)), !(proj2 (Z.leb_gt _ _)) by lia. cbn [orb].
  by rewrite !floor_div_spec.
Qed.

Lemma div_span : (- t) / p <= (h - 1 - t) / p <= (- t) / p + (h - 1) / p + 1.
Proof.
  pose proof (Z.div_mod (- t) p ltac:(lia)). pose proof (Z.mod_pos_bound (- t) p Hp).
  pose proof (Z.div_mod (h - 1 - t) p ltac:(lia)). pose proof (Z.mod_pos_bound (h - 1 - t) p Hp).
  pose proof (Z.div_mod (h - 1) p ltac:(lia)). pose proof (Z.mod_pos_bound (h - 1) p Hp). nia.
Qed.

Lemma window_bounds :
  let w := ComputeVisibleRows t h p n o in 0 <= first w /\ 0 < count w /\ first w + count w <= n.
Proof. rewrite window_eq. pose proof div_span. unfold clamp. cbn. repeat case_match; lia. Qed.

Lemma window_covers r : 0 <= r < n -> on_screen t h p r -> in_window (ComputeVisibleRows t h p n o) r.
Proof.
  intros Hr Hon. apply on_screen_range in Hon; [|done]. rewrite window_eq. unfold in_window, clamp. cbn.
  repeat case_match; lia.
Qed.

Lemma window_small : count (ComputeVisibleRows t h p n o) <= MaxVisibleRows h p o.
Proof.
  rewrite window_eq. unfold MaxVisibleRows. rewrite !(proj2 (Z.leb_gt _ _)) by lia. cbn [orb].
  rewrite Z.quot_div_nonneg by lia. pose proof div_span.
  replace (h + p - 1) with (h - 1 + 1 * p) by lia. rewrite Z.div_add by lia.
  assert (0 <= (h - 1) / p) by (apply Z.div_pos; lia).
  unfold clamp. cbn. repeat case_match; lia.
Qed.
End Window.

Lemma RowForSlot_spec slot pool w r :
  0 <= slot < pool -> 0 <= first w -> 0 < count w <= pool ->
  RowForSlot slot pool w = Some r <-> in_window w r /\ r mod pool = slot.
Proof.
  intros Hs Hf Hc. unfold RowForSlot, in_window.
  rewrite !(proj2 (Z.eqb_neq _ _)), (proj2 (Z.leb_gt _ _)) by lia. cbn [orb].
  set (off := (slot + pool - first w mod pool) mod pool).
  assert (Ho : 0 <= off < pool) by (apply Z.mod_pos_bound; lia).
  assert (Hm : (first w + off) mod pool = slot).
  { unfold off. rewrite Zplus_mod_idemp_r. replace (first w + (slot + pool - first w mod pool))
      with (slot + (1 + first w / pool) * pool) by (pose proof (Z.div_mod (first w) pool ltac:(lia)); lia).
    rewrite Z.mod_add by lia. apply Z.mod_small. lia. }
  split.
  - destruct (Z.ltb_spec off (count w)); [|done]. intros E. simplify_eq. split; [lia|done].
  - intros [Hr Hrm].
    assert (Heq : r = first w + off).
    { pose proof (Z.div_mod r pool ltac:(lia)). pose proof (Z.div_mod (first w + off) pool ltac:(lia)).
      assert (r / pool = (first w + off) / pool) by nia. nia. }
    subst r. rewrite (proj2 (Z.ltb_lt _ _)) by lia. done.
Qed.

(** *** What the pool shows *)

(** The row a slot should show. *)
Definition target (rows : VisibleRows) (pool_size slot : Z) : option Z :=
  if count rows =? 0 then None else RowForSlot slot pool_size rows.

Definition bound_to (label_at : option (Z -> string)) (r : Z) (s : Slot) : Prop :=
  exists f, label_at = Some f /\ text s = f r /\ y s = r * kRowPitch /\ user_data s = r.

Definition shows (label_at : option (Z -> string)) (want : option Z) (s : Slot) : Prop :=
  bound s = want /\
  match want with
  | Some r => hidden s = false /\ bound_to label_at r s
  | None => hidden s = true
  end.

(** What a slot still bound to a row carries. *)
Definition slot_ok (label_at : option (Z -> string)) (s : Slot) : Prop :=
  forall r, bound s = Some r -> bound_to label_at r s.

Lemma rebind_slot_shows force label pool_size rows slot s :
  (count rows <> 0 -> exists f, label = Some f) -> (force = false -> slot_ok label s) ->
  exists s', rebind_slot force label pool_size rows slot s = Some s' /\ shows label (target rows pool_size slot) s'.
Proof.
  intros Hl Hok. unfold rebind_slot, target. destruct (Z.eqb_spec (count rows) 0) as [|Hne]; [by eexists|].
  destruct (Hl Hne) as [f ->]. destruct (RowForSlot slot pool_size rows) as [r|]; [|by eexists].
  destruct (force || negb (bool_decide (bound s = Some r))) eqn:E.
  - eexists. split; [done|]. split; [done|]. split; [done|]. by exists f.
  - apply orb_false_iff in E as [-> E]. apply negb_false_iff, bool_decide_eq_true in E.
    eexists. split; [done|]. split; [done|]. split; [done|]. by apply Hok.
Qed.

Lemma rebind_from_shows force label pool_size rows slots : forall slot,
  (count rows <> 0 -> exists f, label = Some f) -> (force = false -> Forall (slot_ok label) slots) ->
  exists slots', rebind_from force label pool_size rows slot slots = Some slots' /\
    List.length slots' = List.length slots /\
    forall i s', slots' !! i = Some s' -> shows label (target rows pool_size (slot + Z.of_nat i)) s'.
Proof.
  induction slots as [|s slots IH]; intros slot Hl Hok; cbn [rebind_from].
  { exists []. split_and!; try done. }
  destruct (rebind_slot_shows force label pool_size rows slot s Hl) as (s' & -> & Hs').
  { intros Hf. specialize (Hok Hf). by apply Forall_cons in Hok as [? _]. }
  destruct (IH (slot + 1) Hl) as (slots' & -> & Hlen & Hall).
  { intros Hf. specialize (Hok Hf). by apply Forall_cons in Hok as [_ ?]. }
  exists (s' :: slots'). split_and!; [done|cbn; lia|]. intros [|i] s0 Hi; cbn in Hi.
  - simplify_eq. by rewrite Z.add_0_r.
  - replace (slot + Z.of_nat (S i)) with (slot + 1 + Z.of_nat i) by lia. by apply Hall.
Qed.

(** The list between two calls: enough buttons for any scroll position, and each button
    shown carries the text, place and tap target of the row it is bound to. *)
Record list_ok (view : Z) (v : VirtualList) : Prop := {
  count_nonneg : 0 <= count_ v;
  label_set : 0 < count_ v -> exists f, label_at_ v = Some f;
  pool_enough : Z.min (count_ v) (MaxVisibleRows view kRowPitch kOverscan) <= Z.of_nat (List.length (pool_ v));
  slots_ok : Forall (slot_ok (label_at_ v)) (pool_ v)
}.

Definition pool_size (v : VirtualList) : Z := Z.min (Z.of_nat (List.length (pool_ v))) (count_ v).

Lemma Rebind_spec force view top v :
  0 <= count_ v -> (0 < count_ v -> exists f, label_at_ v = Some f) ->
  (force = false -> Forall (slot_ok (label_at_ v)) (pool_ v)) ->
  exists slots, Rebind force view top v = Some (with_pool slots v) /\ List.length slots = List.length (pool_ v) /\
    forall i s, slots !! i = Some s ->
      shows (label_at_ v) (target (visible_rows view top v) (pool_size v) (Z.of_nat i)) s.
Proof.
  intros Hc Hl Hok. unfold Rebind.
  destruct (rebind_from_shows force (label_at_ v) (pool_size v) (visible_rows view top v) (pool_ v) 0)
    as (slots & E & Hlen & Hall); [|done|].
  - intros Hne. apply Hl. destruct (decide (count_ v = 0)) as [E0|]; [|lia]. unfold visible_rows in Hne.
    rewrite E0 in Hne. done.
  - exists slots. unfold pool_size in E at 1. rewrite E. split_and!; try done.
Qed.

Lemma shown_slot_ok label want s : shows label want s -> slot_ok label s.
Proof. intros [Hb Hw] r Hr. rewrite Hr in Hb. subst want. apply Hw. Qed.

Lemma Rebind_list_ok force view top v :
  0 <= count_ v -> (0 < count_ v -> exists f, label_at_ v = Some f) ->
  Z.min (count_ v) (MaxVisibleRows view kRowPitch kOverscan) <= Z.of_nat (List.length (pool_ v)) ->
  (force = false -> Forall (slot_ok (label_at_ v)) (pool_ v)) ->
  exists v', Rebind force view top v = Some v' /\ list_ok view v'.
Proof.
  intros Hc Hl Hp Hok. destruct (Rebind_spec force view top v Hc Hl Hok) as (slots & E & Hlen & Hall).
  eexists. split; [exact E|]. split; cbn; try done.
  - by rewrite Hlen.
  - apply Forall_lookup. intros i s Hi. eapply shown_slot_ok, Hall, Hi.
Qed.

Definition op_ok (op : ListOp) : Prop := match op with OpSetItems n _ _ _ => 0 <= n | _ => True end.

Lemma step_list_ok view v op : op_ok op -> list_ok view v -> exists v', step view v op = Some v' /\ list_ok view v'.
Proof.
  intros Hop [H1 H2 H3 H4]. destruct op as [n f sel top|b|top|top]; cbn [step op_ok] in *.
  - apply Rebind_list_ok; try done; [intros _; by exists f|]. unfold EnsurePool. cbn.
    rewrite length_map, length_app, repeat_length. lia.
  - eexists. split; [done|]. split; done.
  - apply Rebind_list_ok; try done. cbn. unfold MaxVisibleRows. repeat case_match; lia.
  - by apply Rebind_list_ok.
Qed.

Lemma run_list_ok view ops v : Forall op_ok ops -> list_ok view v -> exists v', run view ops v = Some v' /\ list_ok view v'.
Proof.
  intros Hops. revert v. induction Hops as [|op ops Hop _ IH]; intros v Hv; [by eexists|]. cbn [run].
  destruct (step_list_ok view v op Hop Hv) as (v1 & -> & Hv1). by apply IH.
Qed.

Lemma new_list_ok view : list_ok view NewVirtualList.
Proof. split; cbn; try done. unfold MaxVisibleRows. repeat case_match; lia. Qed.

Lemma window_of_list view top v :
  0 < view -> list_ok view v -> 0 < count_ v ->
  let w := visible_rows view (Some top) v in
  w = ComputeVisibleRows top view kRowPitch (count_ v) kOverscan /\
  0 < count w <= pool_size v /\ 0 <= first w /\ first w + count w <= count_ v.
Proof.
  intros Hview [_ _ Hp _] Hpos w. assert (Hpitch : 0 < kRowPitch) by done. assert (Ho : 0 <= kOverscan) by done.
  pose proof (window_bounds top view kRowPitch (count_ v) kOverscan Hpitch Hview Hpos Ho) as (B1 & B2 & B3).
  pose proof (window_small top view kRowPitch (count_ v) kOverscan Hpitch Hview Hpos Ho) as Hsm.
  assert (Ew : w = ComputeVisibleRows top view kRowPitch (count_ v) kOverscan).
  { unfold w, visible_rows. rewrite !(proj2 (Z.eqb_neq _ _)) by lia. done. }
  rewrite Ew. unfold pool_size. split_and!; try done; lia.
Qed.

(** After any rebinding each visible button shows a row of the list. *)
Definition row_shown (v : VirtualList) (s : Slot) : Prop :=
  hidden s = false -> exists r, 0 <= r < count_ v /\ bound_to (label_at_ v) r s.

Lemma target_in_range view top v i r :
  0 < view -> list_ok view v ->
  target (visible_rows view (Some top) v) (pool_size v) (Z.of_nat i) = Some r ->
  0 <= r < count_ v /\ r mod pool_size v = Z.of_nat i.
Proof.
  intros Hview Hok Et. pose proof (count_nonneg _ _ Hok) as Hnn.
  unfold target in Et. destruct (Z.eqb_spec (count (visible_rows view (Some top) v)) 0) as [|Hne]; [done|].
  assert (Hpos : 0 < count_ v).
  { destruct (decide (count_ v = 0)) as [E0|]; [|lia]. unfold visible_rows in Hne. by rewrite E0 in Hne. }
  destruct (window_of_list view top v Hview Hok Hpos) as (Ew & Hc & Hf & Hfc).
  assert (Hslot : 0 <= Z.of_nat i < pool_size v).
  { split; [lia|]. destruct (Z.ltb_spec (Z.of_nat i) (pool_size v)); [done|]. unfold RowForSlot in Et.
    rewrite (proj2 (Z.leb_le _ _)), orb_true_r in Et by lia. done. }
  apply RowForSlot_spec in Et as [Hin Hmod]; [|done|done|done]. unfold in_window in Hin. split; [lia|done].
Qed.

Lemma Rebind_rows_shown force view top v :
  0 < view -> 0 <= count_ v -> (0 < count_ v -> exists f, label_at_ v = Some f) ->
  Z.min (count_ v) (MaxVisibleRows view kRowPitch kOverscan) <= Z.of_nat (List.length (pool_ v)) ->
  (force = false -> Forall (slot_ok (label_at_ v)) (pool_ v)) ->
  exists slots, Rebind force view top v = Some (with_pool slots v) /\ list_ok view (with_pool slots v) /\
    Forall (row_shown (with_pool slots v)) slots.
Proof.
  intros Hview Hc Hl Hp Hok. destruct (Rebind_spec force view top v Hc Hl Hok) as (slots & E & Hlen & Hall).
  assert (Hlist : list_ok view (with_pool slots v)).
  { split; cbn; try done; [by rewrite Hlen|]. apply Forall_lookup. intros i s Hi. eapply shown_slot_ok, Hall, Hi. }
  exists slots. split_and!; [done|done|]. apply Forall_lookup. intros i s Hi Hvis. cbn.
  destruct (Hall i s Hi) as [_ Hsh].
  replace (visible_rows view top v) with (visible_rows view (Some (default 0 top)) (with_pool slots v)) in Hsh
    by (unfold visible_rows; cbn; rewrite Hlen; by destruct top).
  replace (pool_size v) with (pool_size (with_pool slots v)) in Hsh by (unfold pool_size; cbn; by rewrite Hlen).
  destruct (target _ _ _) as [r|] eqn:Et; [|congruence]. exists r. split; [|apply Hsh].
  by apply (target_in_range view (default 0 top) (with_pool slots v) i).
Qed.

(** ** Properties *)

(** Scrolling never shows a wrong or missing row: after any calls on a list, a refresh
    at any scroll position leaves every visible button bound to a row of the list, with
    that row's text, position and tap target, no two on the same row; and every row that
    has a pixel on the screen has its button. *)
Theorem list_shows_visible_rows (view : Z) (ops : list ListOp) (top : Z) :
  0 < view -> Forall op_ok ops ->
  exists v v', run view ops NewVirtualList = Some v /\ Refresh view (Some top) v = Some v' /\ count_ v' = count_ v /\
    (forall i s, pool_ v' !! i = Some s -> hidden s = false ->
       exists r, 0 <= r < count_ v /\ bound_to (label_at_ v) r s /\ r mod pool_size v = Z.of_nat i) /\
    (forall r, 0 <= r < count_ v -> on_screen top view kRowPitch r ->
       exists i s, pool_ v' !! i = Some s /\ hidden s = false /\ bound_to (label_at_ v) r s).
Proof.
  intros Hview Hops. destruct (run_list_ok view ops NewVirtualList Hops (new_list_ok view)) as (v & Hrun & [H1 H2 H3 H4]).
  destruct (Rebind_spec false view (Some top) v H1 H2 (fun _ => H4)) as (slots & E & Hlen & Hall).
  exists v, (with_pool slots v). split_and!; try done; cbn [pool_ with_pool].
  - intros i s Hi Hvis. pose proof (Hall i s Hi) as [Hb Hshow]. pose proof (lookup_lt_Some _ _ _ Hi) as Hil.
    destruct (target _ _ _) as [r|] eqn:Et; [|congruence].
    destruct (target_in_range view top v i r Hview (Build_list_ok _ _ H1 H2 H3 H4) Et) as [Hr Hmod].
    exists r. split; [done|]. split; [apply Hshow|done].
  - intros r Hr Hon.
    destruct (window_of_list view top v Hview (Build_list_ok _ _ H1 H2 H3 H4) ltac:(lia)) as (Ew & Hc & Hf & Hfc).
    set (i := r mod pool_size v). assert (Hi : 0 <= i < pool_size v) by (apply Z.mod_pos_bound; lia).
    destruct (lookup_lt_is_Some_2 slots (Z.to_nat i)) as [s Hs]; [unfold pool_size in Hi; lia|].
    exists (Z.to_nat i), s. split; [done|]. pose proof (Hall _ _ Hs) as [Hb Hshow].
    assert (Et : target (visible_rows view (Some top) v) (pool_size v) (Z.of_nat (Z.to_nat i)) = Some r).
    { unfold target. rewrite (proj2 (Z.eqb_neq _ _)), Z2Nat.id by lia. apply RowForSlot_spec; [done|done|done|].
      split; [|done]. rewrite Ew. apply window_covers; done || lia. }
    rewrite Et in Hshow. apply Hshow.
Qed.

Lemma list_shows_visible_rows_witness :
  exists v v', run 1280 [OpSetItems 500 (fun r => to_string r) true (Some 100)] NewVirtualList = Some v /\
    Refresh 1280 (Some (-6000)) v = Some v' /\
    exists i s, pool_ v' !! i = Some s /\ hidden s = false /\ bound_to (label_at_ v) 50 s.
Proof.
  destruct (list_shows_visible_rows 1280 [OpSetItems 500 (fun r => to_string r) true (Some 100)] (-6000))
    as (v & v' & Hrun & Href & Hc & _ & Hall).
  - lia.
  - repeat constructor; cbn; lia.
  - exists v, v'. split; [exact Hrun|]. split; [exact Href|]. apply Hall.
    + assert (Hn : (count_ <$> run 1280 [OpSetItems 500 (fun r => to_string r) true (Some 100)] NewVirtualList) = Some 500)
        by (vm_compute; reflexivity).
      rewrite Hrun in Hn. cbn in Hn. injection Hn as ->. lia.
    + unfold on_screen, kRowPitch, kRemoteButtonHeight, kRowGap. lia.
Defined.
End VirtualList.

(** ** Trackers of presses, activity starts and loads *)

Module Trackers.

(** *** [CommandButtonPressTracker] *)

Inductive Action := kNone | kPress | kHold | kRelease | kPressAndRelease.

(** [long_press_active_buttons_], by the button's identity. *)
Definition Presses := gset Z.

Definition OnLongPressed (button : Z) (t : Presses) : Action * Presses := (kPress, {[button]} ∪ t).
Definition OnLongPressRepeat (button : Z) (t : Presses) : Action := kHold.
Definition OnReleased (button : Z) (is_scrolling : bool) (t : Presses) : Action * Presses :=
  if decide (button ∈ t) then (kRelease, t ∖ {[button]})
  else if is_scrolling then (kNone, t)
  else (kPressAndRelease, t).
Definition Reset (t : Presses) : Presses := ∅.

Inductive PressEvent := LongPressed (b : Z) | LongPressedRepeat (b : Z) | Released (b : Z) (is_scrolling : bool).

Definition button_of (ev : PressEvent) : Z :=
  match ev with LongPressed b | LongPressedRepeat b => b | Released b _ => b end.

Definition press_step (t : Presses) (ev : PressEvent) : Action * Presses :=
  match ev with
  | LongPressed b => OnLongPressed b t
  | LongPressedRepeat b => (OnLongPressRepeat b t, t)
  | Released b s => OnReleased b s t
  end.

(** The actions sent, with their button. *)
Fixpoint press_run (t : Presses) (evs : list PressEvent) : list (Z * Action) * Presses :=
  match evs with
  | [] => ([], t)
  | ev :: rest =>
      let '(a, t') := press_step t ev in
      let '(acts, t'') := press_run t' rest in ((button_of ev, a) :: acts, t'')
  end.

(** *** [ActivityStartTracker] *)

Record ActivityStart := { starting_activity_id_ : string; command_failed_ : bool }.

Definition NewActivityStart : ActivityStart := {| starting_activity_id_ := EmptyString; command_failed_ := false |}.

Definition has_pending (t : ActivityStart) : bool := negb (is_empty (starting_activity_id_ t)).

Record TapOutcome := { status_text : string; is_fresh_start : bool }.

Definition OnActivityTapped (id label : string) (is_current : bool) (t : ActivityStart) : TapOutcome * ActivityStart :=
  let t' := {| starting_activity_id_ := id; command_failed_ := false |} in
  if is_current then ({| status_text := "Resent to " +:+ label +:+ "."; is_fresh_start := false |}, t')
  else ({| status_text := "Starting " +:+ label +:+ "..."; is_fresh_start := true |}, t').

Definition ClearPending (t : ActivityStart) : ActivityStart :=
  {| starting_activity_id_ := EmptyString; command_failed_ := false |}.

Definition OnConnectionStateChanged (now_connected : bool) (t : ActivityStart) : bool * ActivityStart :=
  if negb now_connected && has_pending t then
    (true, {| starting_activity_id_ := EmptyString; command_failed_ := command_failed_ t |})
  else if now_connected && command_failed_ t then
    (false, {| starting_activity_id_ := starting_activity_id_ t; command_failed_ := false |})
  else (false, t).

Definition OnCommandDropped (label : string) (t : ActivityStart) : option string * ActivityStart :=
  if negb (has_pending t) then (None, t)
  else (Some ("Couldn't start " +:+ label +:+ " - hub unreachable"),
        {| starting_activity_id_ := EmptyString; command_failed_ := true |}).

Definition OnStartingTimedOut (label : string) (t : ActivityStart) : option string * ActivityStart :=
  if negb (has_pending t) then (None, t)
  else (Some ("No response starting " +:+ label +:+ " - try again"),
        {| starting_activity_id_ := EmptyString; command_failed_ := true |}).

Inductive activity_step : ActivityStart -> ActivityStart -> Prop :=
  | step_tap t id label cur : activity_step t (OnActivityTapped id label cur t).2
  | step_clear t : activity_step t (ClearPending t)
  | step_connection t c : activity_step t (OnConnectionStateChanged c t).2
  | step_dropped t label : activity_step t (OnCommandDropped label t).2
  | step_timeout t label : activity_step t (OnStartingTimedOut label t).2.

(** *** [LazyLoad] *)

Definition TakeIf (ready stale : bool) : bool * bool := if negb stale || negb ready then (false, stale) else (true, false).
Definition OnConnected (screen_active stale : bool) : bool * bool := TakeIf screen_active true.
Definition MarkStale (stale : bool) : bool := true.
Definition OnShown (connected stale : bool) : bool * bool := TakeIf connected stale.

Inductive LoadEvent := Connected (screen_active : bool) | LoadFailed | Shown (connected : bool).

Definition load_step (stale : bool) (ev : LoadEvent) : bool * bool :=
  match ev with
  | Connected a => OnConnected a stale
  | LoadFailed => (false, MarkStale stale)
  | Shown c => OnShown c stale
  end.

(** Each event with whether it started a load, newest first. *)
Fixpoint load_run (evs : list LoadEvent) : list (LoadEvent * bool) * bool :=
  match evs with
  | [] => ([], true)
  | ev :: before =>
      let '(log, stale) := load_run before in
      let '(loads, stale') := load_step stale ev in ((ev, loads) :: log, stale')
  end.

(** What the log calls for: a load after the last connect or failure, or a first one. *)
Fixpoint outdated (log : list (LoadEvent * bool)) : bool :=
  match log with
  | [] => true
  | (_, true) :: _ => false
  | (Shown _, false) :: before => outdated before
  | (_, false) :: _ => true
  end.

(** ** Lemmas *)

(** The presses and releases of [b] among the actions sent. *)
Definition presses (b : Z) (acts : list (Z * Action)) : nat :=
  List.length (List.filter (fun '(b', a) => (b =? b') && match a with kPress | kPressAndRelease => true | _ => false end) acts).
Definition releases (b : Z) (acts : list (Z * Action)) : nat :=
  List.length (List.filter (fun '(b', a) => (b =? b') && match a with kRelease | kPressAndRelease => true | _ => false end) acts).

Definition held (b : Z) (t : Presses) : nat := if decide (b ∈ t) then 1 else 0.

(** LVGL reports a long press of a button once between two releases of it. *)
Fixpoint lvgl_order (t : Presses) (evs : list PressEvent) : Prop :=
  match evs with
  | [] => True
  | ev :: rest =>
      match ev with LongPressed b => b ∉ t | _ => True end /\ lvgl_order (press_step t ev).2 rest
  end.

Lemma press_run_balance evs : forall t b acts t',
  lvgl_order t evs -> press_run t evs = (acts, t') ->
  (presses b acts + held b t = releases b acts + held b t')%nat.
Proof.
  induction evs as [|ev evs IH]; intros t b acts t' Ho E; cbn in E; [by simplify_eq|].
  destruct Ho as [Hev Ho]. destruct (press_step t ev) as [a t1] eqn:Es. cbn [snd] in Ho.
  destruct (press_run t1 evs) as [acts1 t2] eqn:E2. simplify_eq.
  specialize (IH t1 b acts1 t' Ho E2). unfold presses, releases, held in *. cbn [List.filter].
  destruct ev as [b0|b0|b0 sc]; cbn [press_step button_of] in *.
  - unfold OnLongPressed in Es. simplify_eq. destruct (Z.eqb_spec b b0) as [->|Hne]; cbn [andb List.length].
    + destruct (decide (b0 ∈ {[b0]} ∪ t)); [|set_solver]. destruct (decide (b0 ∈ t)); [done|lia].
    + destruct (decide (b ∈ {[b0]} ∪ t)), (decide (b ∈ t)); try done; set_solver.
  - simplify_eq. unfold OnLongPressRepeat. by rewrite !andb_false_r.
  - unfold OnReleased in Es. destruct (decide (b0 ∈ t)) as [Hin|Hin]; [|destruct sc]; simplify_eq; rewrite ?andb_false_r.
    + destruct (Z.eqb_spec b b0) as [->|Hne]; cbn [andb List.length].
      * destruct (decide (b0 ∈ t ∖ {[b0]})); [set_solver|]. destruct (decide (b0 ∈ t)); [lia|done].
      * destruct (decide (b ∈ t ∖ {[b0]})), (decide (b ∈ t)); try done; set_solver.
    + done.
    + destruct (b =? b0); cbn [andb List.length]; lia.
Qed.

(** ** Properties *)

(** No key is left held on the hub: over any events in LVGL's order, the releases sent
    for a button match its presses but for a long press still in progress, so once the
    button is released every press of it has had its release, scrolling or not. *)
Theorem presses_are_released (evs : list PressEvent) (b : Z) :
  lvgl_order ∅ evs ->
  let '(acts, t) := press_run ∅ evs in
  presses b acts = (releases b acts + held b t)%nat.
Proof.
  intros Ho. destruct (press_run ∅ evs) as [acts t] eqn:E.
  pose proof (press_run_balance evs ∅ b acts t Ho E) as H. unfold held in *.
  destruct (decide (b ∈ (∅ : Presses))); [set_solver|]. lia.
Qed.

Lemma presses_are_released_witness :
  let '(acts, t) := press_run ∅ [LongPressed 1; LongPressedRepeat 1; Released 2 false; Released 1 true] in
  presses 1 acts = (releases 1 acts + held 1 t)%nat.
Proof.
  apply (presses_are_released [LongPressed 1; LongPressedRepeat 1; Released 2 false; Released 1 true] 1).
  cbn [lvgl_order press_step OnLongPressed OnReleased snd]. split_and!; set_solver.
Defined.

(** The status line has one message: whatever events reach it, a tracker never reports a
    pending start and a failed command at once. *)
Theorem pending_excludes_failure (t : ActivityStart) :
  rtc activity_step NewActivityStart t -> has_pending t && command_failed_ t = false.
Proof.
  intros Hr. apply (rtc_ind_r (R := activity_step) (fun t => has_pending t && command_failed_ t = false) NewActivityStart); [done| |done].
  clear t Hr. intros t t' _ Hstep IH. destruct Hstep as [t id label cur|t|t c|t label|t label].
  - destruct cur; cbn; by rewrite andb_false_r.
  - done.
  - unfold OnConnectionStateChanged. destruct (negb c && has_pending t); [done|].
    destruct (c && command_failed_ t); [cbn; by rewrite andb_false_r|done].
  - unfold OnCommandDropped. by destruct (negb (has_pending t)).
  - unfold OnStartingTimedOut. by destruct (negb (has_pending t)).
Qed.

Lemma pending_excludes_failure_witness :
  has_pending (OnActivityTapped "1" "TV" false NewActivityStart).2 &&
  command_failed_ (OnActivityTapped "1" "TV" false NewActivityStart).2 = false.
Proof.
  apply (pending_excludes_failure (OnActivityTapped "1" "TV" false NewActivityStart).2).
  eapply rtc_l; [apply step_tap|apply rtc_refl].
Defined.

(** A screen loads exactly when it must: over any events, the screen is marked stale iff
    a connect or a failed load came after the last load it started, or none was started;
    and showing it while connected starts a load in exactly that case. *)
Theorem lazy_load_exact (evs : list LoadEvent) :
  let '(log, stale) := load_run evs in
  stale = outdated log /\ (OnShown true stale).1 = outdated log.
Proof.
  induction evs as [|ev evs IH]; [done|]. cbn [load_run]. destruct (load_run evs) as [log stale].
  destruct IH as [-> _]. destruct ev as [[]| |[]]; cbn; destruct (outdated log) eqn:E; cbn; rewrite ?E; done.
Qed.
End Trackers.
