(* ===== verification/Routes.v ===== *)
(** Routes: the settings, backup and firmware-update handlers of the Web API.

    Models [src/src/core/settings_routes.cpp] (module [SettingsRoutes]) and
    [src/src/core/ota_routes.cpp] (module [OtaRoutes]). The handlers run on the state
    they share ([Part]); the callbacks the platform supplies (validation of a value, the
    device name, the image writer) are parameters. *)
From S2P Require Import Prelude Text Json Storage Power Http Auth.

(** ** Settings and backup *)

Module SettingsRoutes.

Definition kDeviceNameKey : string := "device_name".
Definition kMaxSettingValueLength : Z := 4096.

Definition InvalidKey (module_id key : string) : bool :=
  negb (IsValidStoreSegment module_id) || negb (IsValidStoreSegment key).

Definition IsValidSchemaVersion (value : json) : bool :=
  match value with JInt z => (0 <=? z) && (z <=? INT_MAX) | _ => false end.

Definition EntryToJson (entry : SettingEntry) : json :=
  JObject [("module", JString (module_id entry)); ("key", JString (entry_key entry));
           ("value", JString (entry_value entry)); ("schemaVersion", JInt (entry_schema_version entry))].

Section Handlers.
Context {S W : Type} `{KvStore S} `{Part W S} `{JsonCodec}.
Context (on_device_name_validate : option (string -> bool))
        (on_device_name_committed : option (string -> M W unit))
        (on_setting_validate : option (string -> string -> string -> bool)).

Definition AllSettingsJson (s : S) : json := JArray (map EntryToJson (ListAllSettings s)).

Definition get_settings : Handler W := fun _ =>
  let* s := gets view in ret (json_response 200 (json_dump (AllSettingsJson s))).

(** The [schemaVersion] member when it is acceptable. *)
Definition find_schema_version (j : json) : option Z :=
  match find "schemaVersion" j with
  | Some (JInt z) => if IsValidSchemaVersion (JInt z) then Some (to_i32 z) else None
  | _ => None
  end.

(** A null callback accepts. *)
Definition setting_accepted (m k v : string) : bool :=
  match on_setting_validate with Some f => f m k v | None => true end.
Definition device_name_accepted (v : string) : bool :=
  match on_device_name_validate with Some f => f v | None => true end.

(** The checks of a write, once its fields are there, and the write itself. *)
Definition write_setting (m k v : string) (ver : Z) : M W HttpResponse :=
  if InvalidKey m k then ret (error_response 400 "invalid_key")
  else if kMaxSettingValueLength <? size v then ret (error_response 400 "value_too_long")
  else if IsReservedSettingsKey m k then ret (error_response 403 "reserved_key")
  else if negb (setting_accepted m k v) then ret (error_response 400 "invalid_value")
  else
    let is_device_name := String.eqb m kCoreModuleId && String.eqb k kDeviceNameKey in
    if is_device_name && negb (device_name_accepted v) then ret (error_response 400 "invalid_value")
    else
      let* ok := on (SetSetting m k ver v) in
      if negb ok then ret (error_response 500 "write_failed")
      else
        (if is_device_name then match on_device_name_committed with Some f => f v | None => ret tt end else ret tt) ;;*
        ret status_ok.

Definition post_settings : Handler W := fun request =>
  match TryParseJsonObject (req_body request) with
  | None => ret (error_response 400 "invalid_request")
  | Some parsed =>
      match find_string "module" parsed with
      | None => ret (missing_field "module")
      | Some m =>
          match find_string "key" parsed with
          | None => ret (missing_field "key")
          | Some k =>
              match find_string "value" parsed with
              | None => ret (missing_field "value")
              | Some v =>
                  match find_schema_version parsed with
                  | None => ret (missing_field "schemaVersion")
                  | Some ver => write_setting m k v ver
                  end
              end
          end
      end
  end.

Definition post_settings_erase : Handler W := fun request =>
  match TryParseJsonObject (req_body request) with
  | None => ret (error_response 400 "invalid_request")
  | Some parsed =>
      match find_string "module" parsed, find_string "key" parsed with
      | Some m, Some k =>
          if InvalidKey m k then ret (error_response 400 "invalid_key")
          else if IsReservedSettingsKey m k then ret (error_response 403 "reserved_key")
          else
            let* ok := on (EraseSetting m k) in
            if negb ok then ret (error_response 500 "erase_failed") else ret status_ok
      | _, _ => ret (error_response 400 "missing_field")
      end
  end.

Definition backup_body (s : S) : json := JObject [("settings", AllSettingsJson s)].

Definition get_backup : Handler W := fun _ =>
  let* s := gets view in
  ret (add_header "Content-Disposition" ("attachment; filename=" +:+ quoted "homedeck-backup.json")
         (json_response 200 (json_dump (backup_body s)))).

(** What happens to one entry of a backup. *)
Inductive RestoreOutcome := Applied | Skipped | Failed (m k : string) | Rejected (m k : string).

Definition restore_entry (entry : json) : M W RestoreOutcome :=
  if negb (is_object entry) then ret Skipped
  else match find_string "module" entry, find_string "key" entry, find_string "value" entry, find_schema_version entry with
       | Some m, Some k, Some v, Some ver =>
           if IsReservedSettingsKey m k then ret (Rejected m k)
           else if InvalidKey m k || (kMaxSettingValueLength <? size v) then ret (Failed m k)
           else if negb (setting_accepted m k v) then ret (Rejected m k)
           else
             let* ok := on (SetSetting m k ver v) in
             ret (if ok : bool then Applied else Failed m k)
       | _, _, _, _ => ret Skipped
       end.

(** The loop's counters. *)
Record Tally := { applied : Z; skipped : Z; failed : list json; rejected : list json }.

Definition name_json (m k : string) : json := JObject [("module", JString m); ("key", JString k)].

Definition tally_outcome (t : Tally) (o : RestoreOutcome) : Tally :=
  match o with
  | Applied => {| applied := applied t + 1; skipped := skipped t; failed := failed t; rejected := rejected t |}
  | Skipped => {| applied := applied t; skipped := skipped t + 1; failed := failed t; rejected := rejected t |}
  | Failed m k =>
      {| applied := applied t; skipped := skipped t; failed := failed t ++ [name_json m k]; rejected := rejected t |}
  | Rejected m k =>
      {| applied := applied t; skipped := skipped t; failed := failed t; rejected := rejected t ++ [name_json m k] |}
  end.

Fixpoint restore_entries (entries : list json) (t : Tally) : M W Tally :=
  match entries with
  | [] => ret t
  | entry :: rest => let* o := restore_entry entry in restore_entries rest (tally_outcome t o)
  end.

Definition tally_json (t : Tally) : json :=
  JObject [("applied", JInt (applied t)); ("skipped", JInt (skipped t));
           ("failed", JArray (failed t)); ("rejected", JArray (rejected t))].

Definition no_tally : Tally := {| applied := 0; skipped := 0; failed := []; rejected := [] |}.

Definition post_backup_restore : Handler W := fun request =>
  match TryParseJsonObject (req_body request) with
  | None => ret (error_response 400 "invalid_request")
  | Some parsed =>
      match find_array "settings" parsed with
      | None => ret (missing_field "settings")
      | Some entries =>
          let* t := restore_entries entries no_tally in ret (json_response 200 (json_dump (tally_json t)))
      end
  end.
End Handlers.

Definition RegisterSettingsRoutes {S R W : Type} `{KvStore S} `{Part W S} `{!Part W (Svc (S := S) (R := R))} `{JsonCodec}
    (validate_name : option (string -> bool)) (committed : option (string -> M W unit))
    (validate : option (string -> string -> string -> bool)) (now : Z) : list (HttpMethod * string * Handler W) :=
  [(kGet, "/api/settings", RequireAuth now get_settings);
   (kPost, "/api/settings", RequireAuth now (post_settings validate_name committed validate));
   (kPost, "/api/settings/erase", RequireAuth now post_settings_erase);
   (kGet, "/api/backup", RequireAuth now get_backup);
   (kPost, "/api/backup/restore", RequireAuth now (post_backup_restore validate))].

(** ** Lemmas *)

Section Lemmas.
Context {S W : Type} `{KvLaws S} `{PartLaws W S} (validate : option (string -> string -> string -> bool)).

Lemma on_exec {A} (m : M S A) (w : W) : view (exec (on m) w) = exec m (view w).
Proof. unfold exec, on. destruct (m (view w)) as [a s]. apply view_update. Qed.

Lemma on_eval {A} (m : M S A) (w : W) : eval (on m) w = eval m (view w).
Proof. unfold eval, on. by destruct (m (view w)) as [a s]. Qed.

(** A setting that is not written to reads as before. *)
Lemma SetSetting_other m k ver v m' k' (s : S) :
  (m', k') <> (m, k) -> GetSetting m' k' (exec (SetSetting m k ver v) s) = GetSetting m' k' s.
Proof.
  intros Hne. unfold SetSetting, GetSetting. destruct (IsReservedSettingsKey m k); [done|].
  rewrite kv_set_other; [done|]. congruence.
Qed.

Lemma SetSetting_read m k ver v (s : S) :
  INT_MIN <= ver <= INT_MAX -> eval (SetSetting m k ver v) s = true ->
  GetSetting m k (exec (SetSetting m k ver v) s) = Some {| schema_version := ver; vv_value := v |}.
Proof.
  intros Hv. unfold SetSetting, GetSetting, eval, exec. destruct (IsReservedSettingsKey m k); [done|].
  destruct (kv_set Settings m k (Encode ver v) s) as [ok s'] eqn:E. cbn. intros ->.
  rewrite (kv_get_set _ _ _ _ _ _ E). cbn. by apply Decode_Encode.
Qed.

(** The module and key an entry names, when all its fields are usable. *)
Definition entry_target (entry : json) : option (string * string * Z * string) :=
  if negb (is_object entry) then None
  else match find_string "module" entry, find_string "key" entry, find_string "value" entry, find_schema_version entry with
       | Some m, Some k, Some v, Some ver => Some (m, k, ver, v)
       | _, _, _, _ => None
       end.

Lemma find_schema_version_range j ver : find_schema_version j = Some ver -> 0 <= ver <= INT_MAX.
Proof.
  unfold find_schema_version. destruct (find "schemaVersion" j) as [[| | |z| | | |]|]; try done.
  destruct (IsValidSchemaVersion (JInt z)) eqn:E; [|done]. intros [= <-]. cbn in E.
  apply andb_true_iff in E as [E1 E2]. apply Z.leb_le in E1, E2.
  unfold to_i32. rewrite wrap_s_id; [done|done|]. unfold INT_MAX in *. lia.
Qed.

(** One entry writes at most the setting it names. *)
Lemma restore_entry_spec (entry : json) (w : W) :
  let o := eval (restore_entry validate entry) w in
  let w' := exec (restore_entry validate entry) w in
  match o with
  | Applied => exists m k ver v, entry_target entry = Some (m, k, ver, v) /\ IsReservedSettingsKey m k = false /\
                 GetSetting m k (view w') = Some {| schema_version := ver; vv_value := v |}
  | Failed m k => exists ver v, entry_target entry = Some (m, k, ver, v)
  | Skipped => w' = w /\ entry_target entry = None
  | Rejected m k => w' = w /\ exists ver v, entry_target entry = Some (m, k, ver, v)
  end /\
  forall m' k', (forall m k ver v, entry_target entry = Some (m, k, ver, v) -> (m', k') <> (m, k)) ->
    GetSetting m' k' (view w') = GetSetting m' k' (view w).
Proof.
  unfold restore_entry, entry_target. destruct (negb (is_object entry)); [by cbn|].
  destruct (find_string "module" entry) as [m|]; [|by cbn]. destruct (find_string "key" entry) as [k|]; [|by cbn].
  destruct (find_string "value" entry) as [v|]; [|by cbn].
  destruct (find_schema_version entry) as [ver|] eqn:Ev; [|by cbn].
  apply find_schema_version_range in Ev.
  destruct (IsReservedSettingsKey m k) eqn:Er; [cbn; eauto 10|].
  destruct (InvalidKey m k || _); [cbn; eauto 10|].
  destruct (negb (setting_accepted validate m k v)); [cbn; eauto 10|].
  unfold eval, exec. rewrite run_bind. cbn [ret fst snd].
  pose proof (on_exec (SetSetting m k ver v) w) as Hx. pose proof (on_eval (SetSetting m k ver v) w) as He.
  unfold exec, eval in Hx, He. rewrite Hx, He. split.
  - destruct (SetSetting m k ver v (view w)).1 eqn:Eok; [|eauto 10]. do 4 eexists. split; [done|]. split; [done|].
    apply (SetSetting_read m k ver v (view w)); [unfold INT_MIN, INT_MAX in *; lia|done].
  - intros m' k' Hne. apply SetSetting_other. by apply (Hne m k ver v).
Qed.

Definition entry_name (entry : json) : option (string * string) :=
  match entry_target entry with Some (m, k, _, _) => Some (m, k) | None => None end.

Definition total (t : Tally) : Z :=
  applied t + skipped t + Z.of_nat (List.length (failed t)) + Z.of_nat (List.length (rejected t)).

Lemma tally_total t o : total (tally_outcome t o) = total t + 1.
Proof. destruct o; unfold total; cbn; rewrite ?length_app; cbn; lia. Qed.

(** The admin password key is never written. *)
Lemma restore_reserved entries t (w : W) :
  GetSetting kCoreModuleId kPasswordKey (view (exec (restore_entries validate entries t) w)) =
  GetSetting kCoreModuleId kPasswordKey (view w).
Proof.
  revert t w. induction entries as [|e entries IH]; intros t w; [done|]. cbn [restore_entries].
  unfold exec in *. rewrite run_bind, IH. clear IH.
  destruct (restore_entry_spec e w) as [Ho Hother]. unfold eval, exec in Ho, Hother.
  destruct (decide (entry_name e = Some (kCoreModuleId, kPasswordKey))) as [En|En].
  - unfold entry_name in En. destruct (entry_target e) as [[[[m k] ver] v]|] eqn:Et; [|done]. simplify_eq.
    unfold restore_entry. unfold entry_target in Et. destruct (negb (is_object e)); [done|].
    destruct (find_string "module" e), (find_string "key" e), (find_string "value" e), (find_schema_version e); simplify_eq.
    done.
  - apply Hother. intros m k ver v Et [= <- <-]. apply En. unfold entry_name. by rewrite Et.
Qed.

(** What is counted stays counted. *)
Lemma tally_grows t o x : x ∈ failed t \/ x ∈ rejected t ->
  x ∈ failed (tally_outcome t o) \/ x ∈ rejected (tally_outcome t o).
Proof. destruct o; cbn; set_solver. Qed.

Lemma restore_grows entries t x (w : W) : x ∈ failed t \/ x ∈ rejected t ->
  let t' := eval (restore_entries validate entries t) w in x ∈ failed t' \/ x ∈ rejected t'.
Proof.
  revert t w. induction entries as [|e entries IH]; intros t w Hx; [done|]. cbn [restore_entries].
  unfold eval. rewrite run_bind. apply IH, tally_grows, Hx.
Qed.

Lemma restore_total entries t (w : W) :
  total (eval (restore_entries validate entries t) w) = total t + Z.of_nat (List.length entries).
Proof.
  revert t w. induction entries as [|e entries IH]; intros t w; [cbn; lia|]. cbn [restore_entries].
  unfold eval in *. rewrite run_bind, IH, tally_total. cbn [List.length]. lia.
Qed.

(** Settings no entry names are left alone. *)
Lemma restore_other entries t m k (w : W) :
  (m, k) ∉ omap entry_name entries ->
  GetSetting m k (view (exec (restore_entries validate entries t) w)) = GetSetting m k (view w).
Proof.
  revert t w. induction entries as [|e entries IH]; intros t w Hn; [done|]. cbn [restore_entries].
  unfold exec in *. rewrite run_bind. destruct (restore_entry_spec e w) as [_ Ho]. unfold exec in Ho.
  assert (Hrest : (m, k) ∉ omap entry_name entries).
  { contradict Hn. cbn. destruct (entry_name e); [by right|done]. }
  rewrite IH by done. apply Ho. intros m0 k0 ver v E [= <- <-]. apply Hn. cbn. unfold entry_name at 1. rewrite E. by left.
Qed.

Lemma restore_each entries t m k ver v (w : W) :
  NoDup (omap entry_name entries) -> (exists e, e ∈ entries /\ entry_target e = Some (m, k, ver, v)) ->
  let t' := eval (restore_entries validate entries t) w in
  let w' := exec (restore_entries validate entries t) w in
  (name_json m k ∈ failed t' \/ name_json m k ∈ rejected t') \/
  GetSetting m k (view w') = Some {| schema_version := ver; vv_value := v |}.
Proof.
  revert t w. induction entries as [|e entries IH]; intros t w Hnd (e0 & Hin & Et); [by apply not_elem_of_nil in Hin|].
  cbn [restore_entries]. unfold eval, exec. rewrite run_bind.
  cbn [omap list_omap] in Hnd. apply elem_of_cons in Hin as [<-|Hin].
  - unfold entry_name at 1 in Hnd. rewrite Et in Hnd. apply NoDup_cons in Hnd as [Hfresh _].
    destruct (restore_entry_spec e0 w) as [Ho _]. unfold eval, exec in Ho.
    destruct (restore_entry validate e0 w) as [o w1]. cbn [fst snd] in *.
    destruct o as [| |m1 k1|m1 k1].
    + right. destruct Ho as (m1 & k1 & ver1 & v1 & Et1 & _ & Hget). simplify_eq.
      pose proof (restore_other entries (tally_outcome t Applied) _ _ w1 Hfresh) as Hr. unfold exec in Hr. by rewrite Hr.
    + destruct Ho as [_ Hn]. congruence.
    + left. destruct Ho as (ver1 & v1 & Et1). simplify_eq. apply restore_grows. left. cbn. set_solver.
    + left. destruct Ho as (_ & ver1 & v1 & Et1). simplify_eq. apply restore_grows. right. cbn. set_solver.
  - apply IH; [|by exists e0]. destruct (entry_name e); [by apply NoDup_cons in Hnd as [_ ?]|done].
Qed.

Lemma backup_entry_target (e : SettingEntry) :
  0 <= entry_schema_version e <= INT_MAX ->
  entry_target (EntryToJson e) = Some (module_id e, entry_key e, entry_schema_version e, entry_value e).
Proof.
  intros [Hlo Hhi]. unfold entry_target, find_schema_version. cbn.
  rewrite (proj2 (Z.leb_le _ _) Hlo), (proj2 (Z.leb_le _ _) Hhi). cbn.
  unfold to_i32. rewrite wrap_s_id; [done|done|]. unfold INT_MAX in Hhi. lia.
Qed.
End Lemmas.

(** ** Properties *)

Section Properties.
Context {S W : Type} `{KvLaws S} `{PartLaws W S} `{JsonCodec} (validate : option (string -> string -> string -> bool)).

(** A restore never loses an entry: the four counts of the reply add up to the number of
    entries; every usable entry is either named in the failed or rejected list or reads
    back with its version and value afterwards; settings the backup does not name, and
    always the admin password key, read as before. *)
Theorem restore_accounts_for_every_entry (entries : list json) (w : W) :
  NoDup (omap entry_name entries) ->
  let t := eval (restore_entries validate entries no_tally) w in
  let w' := exec (restore_entries validate entries no_tally) w in
  total t = Z.of_nat (List.length entries) /\
  (forall e m k ver v, e ∈ entries -> entry_target e = Some (m, k, ver, v) ->
     (name_json m k ∈ failed t \/ name_json m k ∈ rejected t) \/
     GetSetting m k (view w') = Some {| schema_version := ver; vv_value := v |}) /\
  (forall m k, (m, k) ∉ omap entry_name entries -> GetSetting m k (view w') = GetSetting m k (view w)) /\
  GetSetting kCoreModuleId kPasswordKey (view w') = GetSetting kCoreModuleId kPasswordKey (view w).
Proof.
  intros Hnd t w'. split_and!.
  - apply restore_total.
  - intros e m k ver v Hin Et. apply restore_each; [done|by exists e].
  - intros m k Hn. by apply restore_other.
  - apply restore_reserved.
Qed.

(** C14: A backup restores what it saved: if the reply text of one device's backup parses back
    to the value it was printed from, posting it to another device leaves every setting of
    the first readable there with the same version and value, save those the reply names
    as failed or rejected. *)
Theorem backup_restores_settings (a : S) (w : W) (request : HttpRequest) :
  TryParseJsonObject (req_body request) = Some (backup_body a) ->
  NoDup (map (fun e => (module_id e, entry_key e)) (ListAllSettings a)) ->
  Forall (fun e => 0 <= entry_schema_version e <= INT_MAX) (ListAllSettings a) ->
  exists t, eval (post_backup_restore validate request) w = json_response 200 (json_dump (tally_json t)) /\
    total t = Z.of_nat (List.length (ListAllSettings a)) /\
    forall e, e ∈ ListAllSettings a ->
      (name_json (module_id e) (entry_key e) ∈ failed t \/ name_json (module_id e) (entry_key e) ∈ rejected t) \/
      GetSetting (module_id e) (entry_key e) (view (exec (post_backup_restore validate request) w)) =
        Some {| schema_version := entry_schema_version e; vv_value := entry_value e |}.
Proof.
  intros Hparse Hnd Hver. unfold post_backup_restore, eval, exec. rewrite Hparse.
  change (find_array "settings" (backup_body a)) with (Some (map EntryToJson (ListAllSettings a))).
  cbn iota beta. rewrite run_bind. set (entries := map EntryToJson (ListAllSettings a)).
  assert (Hnames : omap entry_name entries = map (fun e => (module_id e, entry_key e)) (ListAllSettings a)).
  { unfold entries. clear -Hver. induction Hver as [|e l He _ IH]; [done|]. cbn. unfold entry_name at 1.
    rewrite (backup_entry_target e He). by rewrite IH. }
  eexists. split; [done|]. split.
  - etrans; [apply (restore_total validate entries no_tally w)|]. unfold entries. rewrite length_map. done.
  - intros e He. apply (restore_each validate entries no_tally); [by rewrite Hnames|].
    exists (EntryToJson e). split; [by apply list_elem_of_fmap_2|].
    rewrite Forall_forall in Hver. by apply backup_entry_target, Hver.
Qed.

(** What a save does, reply by reply. *)
Lemma post_settings_spec (validate_name : option (string -> bool)) (committed : option (string -> M W unit))
    (request : HttpRequest) (w : W) :
  (forall f name w0, committed = Some f -> view (exec (f name) w0) = view w0) ->
  let resp := eval (post_settings validate_name committed validate request) w in
  let w' := exec (post_settings validate_name committed validate request) w in
  (status_code resp = 200 ->
     exists parsed m k v ver, TryParseJsonObject (req_body request) = Some parsed /\
       find_string "module" parsed = Some m /\ find_string "key" parsed = Some k /\
       find_string "value" parsed = Some v /\ find_schema_version parsed = Some ver /\
       InvalidKey m k = false /\ size v <= kMaxSettingValueLength /\ IsReservedSettingsKey m k = false /\
       setting_accepted validate m k v = true /\
       GetSetting m k (view w') = Some {| schema_version := ver; vv_value := v |}) /\
  (status_code resp <> 200 -> status_code resp <> 500 -> w' = w).
Proof.
  intros Hcom. unfold post_settings.
  destruct (TryParseJsonObject (req_body request)) as [parsed|]; [|by cbn].
  destruct (find_string "module" parsed) as [m|] eqn:Em; [|by cbn]. destruct (find_string "key" parsed) as [k|] eqn:Ek; [|by cbn].
  destruct (find_string "value" parsed) as [v|] eqn:Evv; [|by cbn].
  destruct (find_schema_version parsed) as [ver|] eqn:Ev; [|by cbn].
  unfold write_setting. destruct (InvalidKey m k) eqn:Ei; [by cbn|].
  destruct (Z.ltb_spec kMaxSettingValueLength (size v)); [by cbn|].
  destruct (IsReservedSettingsKey m k) eqn:Er; [by cbn|].
  destruct (setting_accepted validate m k v) eqn:Ea; [cbn [negb]|by cbn].
  destruct (_ && negb (device_name_accepted _ v)); [by cbn|].
  unfold eval, exec. rewrite run_bind.
  pose proof (on_exec (SetSetting m k ver v) w) as Hx. pose proof (on_eval (SetSetting m k ver v) w) as He.
  unfold exec, eval in Hx, He. rewrite He.
  destruct (SetSetting m k ver v (view w)).1 eqn:Eok; cbn [negb]; [|by cbn]. rewrite run_bind. cbn [ret fst snd].
  split; [|by cbn]. intros _. exists parsed, m, k, v, ver. split_and!; try done.
  apply find_schema_version_range in Ev.
  assert (Hr : GetSetting m k (view (on (SetSetting m k ver v) w).2) = Some {| schema_version := ver; vv_value := v |}).
  { rewrite Hx. apply (SetSetting_read m k ver v (view w)); [unfold INT_MIN, INT_MAX in *; lia|done]. }
  destruct (String.eqb m kCoreModuleId && String.eqb k kDeviceNameKey); [|exact Hr]. destruct committed as [f|]; [|exact Hr].
  rewrite <- Hr. f_equal. by apply (Hcom f v).
Qed.

(** Saving a setting: the reply is 200 only if the body was an object with a usable
    module, key, value and version, every check passed, and the setting now reads back as
    sent; any other reply but the 500 of a failed write leaves everything as it was. *)
Theorem saved_setting_reads_back (validate_name : option (string -> bool)) (committed : option (string -> M W unit))
    (request : HttpRequest) (w : W) :
  (forall f name w0, committed = Some f -> view (exec (f name) w0) = view w0) ->
  let resp := eval (post_settings validate_name committed validate request) w in
  let w' := exec (post_settings validate_name committed validate request) w in
  (status_code resp = 200 ->
     exists parsed m k v ver, TryParseJsonObject (req_body request) = Some parsed /\
       find_string "module" parsed = Some m /\ find_string "key" parsed = Some k /\
       find_string "value" parsed = Some v /\ find_schema_version parsed = Some ver /\
       InvalidKey m k = false /\ size v <= kMaxSettingValueLength /\ IsReservedSettingsKey m k = false /\
       setting_accepted validate m k v = true /\
       GetSetting m k (view w') = Some {| schema_version := ver; vv_value := v |}) /\
  (status_code resp <> 200 -> status_code resp <> 500 -> w' = w).
Proof. apply post_settings_spec. Qed.
End Properties.

(** ** Witnesses *)

(** Two host devices; the codec stands for a text both agree on. *)
Definition source_device : FileTree :=
  exec (let* _ := SetSetting (H := HostKvStore closes_ok ["a"]) "weather" "latitude" 1 "52.5" in
        SetSetting (H := HostKvStore closes_ok ["a"]) "harmony" "hub_host" 1 "10.0.0.9") {| files := ∅; outcomes := [] |}.

Definition blank_device : FileTree := {| files := ∅; outcomes := [] |}.

Definition sample_codec : JsonCodec := {|
  json_parse := fun _ => backup_body (H := HostKvStore closes_ok ["a"]) source_device; json_dump := fun _ => EmptyString |}.

Definition backup_request : HttpRequest :=
  {| req_path := "/api/backup/restore"; req_query := EmptyString; req_body := EmptyString; cookie_header := None |}.

Lemma restore_accounts_for_every_entry_witness :
  let entries := map EntryToJson (ListAllSettings (H := HostKvStore closes_ok ["a"]) source_device) ++ [JNull] in
  total (eval (restore_entries (H := HostKvStore closes_ok ["a"]) None entries no_tally) blank_device) = 3.
Proof.
  intros entries.
  apply (restore_accounts_for_every_entry (H0 := host_laws ["a"]) None entries blank_device).
  apply (bool_decide_unpack _). vm_compute. exact I.
Defined.

Lemma backup_restores_settings_witness :
  exists t, eval (post_backup_restore (H := HostKvStore closes_ok ["a"]) (H1 := sample_codec) None backup_request) blank_device =
              json_response 200 (json_dump (JsonCodec := sample_codec) (tally_json t)) /\ total t = 2.
Proof.
  destruct (backup_restores_settings (H := HostKvStore closes_ok ["a"]) (H0 := host_laws ["a"]) (H3 := sample_codec) None source_device blank_device backup_request)
    as (t & Ht & Hn & _).
  - vm_compute. reflexivity.
  - apply (bool_decide_unpack _). vm_compute. exact I.
  - apply (bool_decide_unpack _). vm_compute. exact I.
  - exists t. split; [exact Ht|exact Hn].
Defined.

(** A codec for one request body, and the request that carries it. *)
Definition save_codec : JsonCodec := {|
  json_parse := fun _ => JObject [("module", JString "core"); ("key", JString "device_name");
                                  ("value", JString "Kitchen"); ("schemaVersion", JInt 1)];
  json_dump := fun _ => EmptyString |}.

Lemma saved_setting_reads_back_witness :
  GetSetting (H := HostKvStore closes_ok ["a"]) "core" "device_name"
    (exec (post_settings (H := HostKvStore closes_ok ["a"]) (H1 := save_codec) None (Some (fun _ => ret tt)) None backup_request) blank_device) =
  Some {| schema_version := 1; vv_value := "Kitchen" |}.
Proof.
  destruct (saved_setting_reads_back (H := HostKvStore closes_ok ["a"]) (H0 := host_laws ["a"]) (H3 := save_codec) None None
              (Some (fun _ => ret tt)) backup_request blank_device) as [Hok _].
  - intros f name w0 [= <-]. reflexivity.
  - destruct Hok as (parsed & m & k & v & ver & Hp & Hm & Hk & Hv & Hver & _ & _ & _ & _ & Hget).
    + vm_compute. reflexivity.
    + vm_compute in Hp. injection Hp as <-. vm_compute in Hm, Hk, Hv, Hver.
      injection Hm as <-. injection Hk as <-. injection Hv as <-. injection Hver as <-. exact Hget.
Defined.
End SettingsRoutes.

(** ** Firmware update *)

Module OtaRoutes.
Import SettingsRoutes.

(** What the upload shares between requests: the mutex, the update events published, the
    images written. [W] is the rest of the device. *)
Record OtaState := { upload_locked : bool; ota_events : list bool; written : list (string * bool) }.

(** [OtaWriter]; its write happens between the two phases below. *)
Record OtaWriter := { max_image_size : Z; running_version : string }.

Section Upload.
Context `{JsonCodec}.

Definition ota_status (r : BatteryReading) (writer : OtaWriter) : HttpResponse :=
  let gate := EvaluateOtaGate r in
  json_response 200 (json_dump
    (JObject [("batteryPercent", JInt (battery_percent gate));
              ("externalPowerConnected", JBool (IsExternalPowerConnected r));
              ("batteryPresent", JBool (IsBatteryPresent r));
              ("gateOpen", JBool (Power.open gate));
              ("gateReason", JString (reason gate));
              ("runningVersion", JString (running_version writer))])).

Definition error_json (e : string) : json := JObject [("error", JString e)].

(** [POST /api/ota/upload] up to the write: the request is answered at once, or the image
    is being written, with the mutex held and the update announced. *)
Definition upload_begin (r : BatteryReading) (writer : OtaWriter) (body : string) (o : OtaState) : option HttpResponse * OtaState :=
  if upload_locked o then (Some (json_response 409 (json_dump (error_json "upload_in_progress"))), o)
  else
    let gate := EvaluateOtaGate r in
    if negb (Power.open gate) then
      (Some (json_response 403 (json_dump (JObject [("error", JString "gate_closed"); ("reason", JString (reason gate))]))), o)
    else if max_image_size writer <? size body then
      (Some (json_response 400 (json_dump (error_json "image_too_large"))), o)
    else (None, {| upload_locked := true; ota_events := ota_events o ++ [true]; written := written o |}).

(** ... and from the end of the write on. *)
Definition upload_end (body : string) (write_succeeded : bool) (o : OtaState) : HttpResponse * OtaState :=
  let o' := {| upload_locked := false; ota_events := ota_events o ++ [false]; written := written o ++ [(body, write_succeeded)] |} in
  if negb write_succeeded then (json_response 500 (json_dump (error_json "write_failed")), o') else (status_ok, o').

(** Requests on several server threads: each begins, and if it got to the write, ends. *)
Inductive ota_step (writer : OtaWriter) : OtaState * list string -> OtaState * list string -> Prop :=
  | ota_refused r body resp o o' writing :
      upload_begin r writer body o = (Some resp, o') -> ota_step writer (o, writing) (o', writing)
  | ota_started r body o o' writing :
      upload_begin r writer body o = (None, o') -> ota_step writer (o, writing) (o', body :: writing)
  | ota_finished body ok o before after :
      ota_step writer (o, before ++ body :: after) ((upload_end body ok o).2, before ++ after).

Definition idle : OtaState * list string := ({| upload_locked := false; ota_events := []; written := [] |}, []).

Definition ota_ok (writer : OtaWriter) (st : OtaState * list string) : Prop :=
  (List.length st.2 = if upload_locked st.1 then 1 else 0)%nat /\
  ota_events st.1 = concat (repeat [true; false] (List.length (written st.1))) ++ (if upload_locked st.1 then [true] else []) /\
  Forall (fun body => size body <= max_image_size writer) (st.2 ++ map fst (written st.1)).

(** ** Properties *)

(** One firmware image at a time: however requests interleave on the server's threads, at
    most one image is being written, the update events alternate between begin and end
    with one pair per finished write, and no image above the partition's size is ever
    handed to the writer. *)
Theorem one_upload_at_a_time (writer : OtaWriter) (st : OtaState * list string) :
  rtc (ota_step writer) idle st -> ota_ok writer st.
Proof.
  intros Hr. apply (rtc_ind_r (R := ota_step writer) (ota_ok writer) idle); [split_and!; [done|done|constructor]| |done].
  clear st Hr. intros st st' _ Hstep (H1 & H2 & H3). destruct Hstep as [r body resp o o' writing E|r body o o' writing E|body ok o before after];
    cbn [fst snd] in *.
  - assert (o' = o) as -> by (unfold upload_begin in E; by repeat case_match; simplify_eq). exact (conj H1 (conj H2 H3)).
  - unfold upload_begin in E. destruct (upload_locked o) eqn:El; [done|]. destruct (negb _); [done|].
    destruct (Z.ltb_spec (max_image_size writer) (size body)); [done|]. simplify_eq. cbn [fst snd] in *.
    destruct writing; [|done]. split_and!; [done| |].
    + cbn. by rewrite H2, app_nil_r.
    + cbn. by constructor.
  - rewrite length_app in H1. cbn in H1. destruct (upload_locked o) eqn:El; [|lia].
    destruct before; [|cbn in *; lia]. destruct after; [|cbn in *; lia]. cbn [app List.length] in *.
    assert (Hcat : forall n, concat (repeat [true; false] n) ++ [true; false] = concat (repeat [true; false] (S n))).
    { intros n. rewrite <- (concat_app _ [[true; false]]). by rewrite <- repeat_cons. }
    split_and!.
    + by destruct ok.
    + destruct ok; cbn; rewrite H2, app_nil_r, length_app, Nat.add_1_r, <- Hcat, <- app_assoc; done.
    + destruct ok; cbn; rewrite map_app; cbn; apply Forall_app; apply Forall_cons in H3 as [? ?]; by repeat constructor.
Qed.
End Upload.

Definition sample_writer : OtaWriter := {| max_image_size := 4; running_version := "1.0" |}.

Lemma one_upload_at_a_time_witness :
  ota_ok sample_writer ({| upload_locked := true; ota_events := [true]; written := [] |}, ["img"]).
Proof.
  apply (one_upload_at_a_time (H := sample_codec) sample_writer
           ({| upload_locked := true; ota_events := [true]; written := [] |}, ["img"])).
  eapply rtc_l; [|apply rtc_refl].
  apply (ota_started (H := sample_codec) sample_writer
           {| IsBatteryPresent := true; ReadPercent := 80; IsExternalPowerConnected := false |} "img"
           idle.1 {| upload_locked := true; ota_events := [true]; written := [] |} []).
  vm_compute. reflexivity.
Defined.
End OtaRoutes.
