(* ===== verification/KodiJson.v ===== *)
(** KodiJson: the parsers of Kodi's replies.

    Models [src/src/core/kodi_json.cpp] and the clamps of [src/src/core/kodi_json.h]. Kodi
    has no authentication, so each reader checks the type of what it takes. Doubles are those
    of [Double.v]. *)
From Stdlib Require Import SpecFloat.
From S2P Require Import Prelude Json Double.

(** ** Typed field readers *)

Definition GetInt (j : json) (key : string) (fallback : Z) : Z :=
  if negb (is_object j) then fallback
  else match find key j with Some (JInt z) => to_i64 z | _ => fallback end.

Definition GetDouble (j : json) (key : string) (fallback : spec_float) : spec_float :=
  if negb (is_object j) then fallback
  else match find key j with
       | Some j => default fallback (json_double j)
       | None => fallback
       end.

Definition GetBoundedInt (j : json) (key : string) (fallback lo hi : Z) : Z := to_i32 (clamp (GetInt j key fallback) lo hi).

Definition GetString (j : json) (key fallback : string) : string :=
  if negb (is_object j) then fallback
  else match find key j with Some (JString s) => s | _ => fallback end.

Definition GetBool (j : json) (key : string) (fallback : bool) : bool :=
  if negb (is_object j) then fallback
  else match find key j with Some (JBool b) => b | _ => fallback end.

Definition kMaxVolume : Z := 100.
Definition kMaxSpeed : Z := 1000.
Definition kMaxTimeFieldValue : Z := 1000000.
Definition kMaxSeasonOrEpisode : Z := 1000000.

Definition ClampVolume (volume : Z) : Z := if volume <? 0 then 0 else if kMaxVolume <? volume then kMaxVolume else volume.
Definition ClampSpeed (speed : Z) : Z :=
  if speed <? - kMaxSpeed then - kMaxSpeed else if kMaxSpeed <? speed then kMaxSpeed else speed.

(** [long long] arithmetic, wrapping at 64 bits. *)
Definition MillisFromTimeObject (t : json) : Z :=
  let field key := GetBoundedInt t key 0 0 kMaxTimeFieldValue in
  let seconds := to_i64 (to_i64 (to_i64 (field "hours" * 3600) + to_i64 (field "minutes" * 60)) + field "seconds") in
  to_i64 (to_i64 (seconds * 1000) + field "milliseconds").

Inductive KodiPlaybackState := kInactive | kPlaying | kPaused.

Definition PlaybackFromSpeed (speed : Z) : KodiPlaybackState := if speed =? 0 then kPaused else kPlaying.

Definition ResumePositionMs (item : json) : Z :=
  if negb (is_object item) then 0
  else match find "resume" item with
       | None => 0
       | Some resume =>
           let seconds := double_clamp (GetDouble resume "position" (double_of_Z 0)) (double_of_Z 0)
                            (SFmul prec emax (double_of_Z kMaxTimeFieldValue) (double_of_Z 3600)) in
           to_i64 (double_trunc (SFmul prec emax seconds (double_of_Z 1000)))
       end.

Definition TitleOrLabel (item : json) : string :=
  let title := GetString item "title" EmptyString in
  if negb (is_empty title) then title else GetString item "label" EmptyString.

Definition ResultArray (parsed : json) (key : string) : option (list json) :=
  match (if is_object parsed then find "result" parsed else None) with
  | Some (JObject r) => find_array key (JObject r)
  | _ => None
  end.

(** ** Listings *)

Section Listings.
Context `{JsonCodec}.

Definition ParseList {T} (text key : string) (fill : json -> T) : list T :=
  match ResultArray (ParseBoundedJson text) key with
  | None => []
  | Some array => map fill array
  end.

(** [static_cast<int>(GetInt(...))]. *)
Definition GetInt32 (j : json) (key : string) (fallback : Z) : Z := to_i32 (GetInt j key fallback).

Record KodiMovie := { movieid : Z; movie_title : string; movie_year : Z; movie_resume_ms : Z }.
Definition ParseMovies (text : string) : list KodiMovie :=
  ParseList text "movies" (fun m =>
    {| movieid := GetInt m "movieid" (-1); movie_title := TitleOrLabel m; movie_year := GetInt32 m "year" 0;
       movie_resume_ms := ResumePositionMs m |}).

Record KodiTvShow := { tvshowid : Z; show_title_ : string; show_year : Z; show_episodes : Z; show_watched : Z }.
Definition ParseTvShows (text : string) : list KodiTvShow :=
  ParseList text "tvshows" (fun s =>
    {| tvshowid := GetInt s "tvshowid" (-1); show_title_ := TitleOrLabel s; show_year := GetInt32 s "year" 0;
       show_episodes := GetInt32 s "episode" 0; show_watched := GetInt32 s "watchedepisodes" 0 |}).

Record KodiSeason := { season_number : Z; season_label : string; season_episodes : Z; season_watched : Z }.
Definition ParseSeasons (text : string) : list KodiSeason :=
  ParseList text "seasons" (fun s =>
    {| season_number := GetInt32 s "season" 0; season_label := TitleOrLabel s;
       season_episodes := GetInt32 s "episode" 0; season_watched := GetInt32 s "watchedepisodes" 0 |}).

Record KodiEpisode := { episodeid : Z; episode_number : Z; episode_title : string; episode_resume_ms : Z }.
Definition ParseEpisodes (text : string) : list KodiEpisode :=
  ParseList text "episodes" (fun e =>
    {| episodeid := GetInt e "episodeid" (-1); episode_number := GetInt32 e "episode" 0;
       episode_title := TitleOrLabel e; episode_resume_ms := ResumePositionMs e |}).

Record KodiArtist := { artistid : Z; artist_name : string }.
Definition ParseArtists (text : string) : list KodiArtist :=
  ParseList text "artists" (fun a =>
    let name := GetString a "artist" EmptyString in
    {| artistid := GetInt a "artistid" (-1);
       artist_name := if negb (is_empty name) then name else GetString a "label" EmptyString |}).

Record KodiAlbum := { albumid : Z; album_title : string; album_year : Z }.
Definition ParseAlbums (text : string) : list KodiAlbum :=
  ParseList text "albums" (fun a =>
    {| albumid := GetInt a "albumid" (-1); album_title := TitleOrLabel a; album_year := GetInt32 a "year" 0 |}).

Record KodiSong := { songid : Z; song_track : Z; song_title : string; song_seconds : Z }.
Definition ParseSongs (text : string) : list KodiSong :=
  ParseList text "songs" (fun s =>
    {| songid := GetInt s "songid" (-1); song_track := GetInt32 s "track" 0; song_title := TitleOrLabel s;
       song_seconds := GetInt32 s "duration" 0 |}).

Record KodiFileItem := { file_path : string; file_label : string; is_folder : bool }.
Definition ParseFileItems (text result_key : string) (all_folders : bool) : list KodiFileItem :=
  ParseList text result_key (fun f =>
    {| file_path := GetString f "file" EmptyString; file_label := TitleOrLabel f;
       is_folder := all_folders || String.eqb (GetString f "filetype" EmptyString) "directory" |}).

Record KodiChannelGroup := { channelgroupid : Z; group_label : string }.
Definition ParseChannelGroups (text : string) : list KodiChannelGroup :=
  ParseList text "channelgroups" (fun g =>
    {| channelgroupid := GetInt g "channelgroupid" (-1); group_label := TitleOrLabel g |}).

Record KodiChannel := { channelid : Z; channel_label : string }.
Definition ParseChannels (text : string) : list KodiChannel :=
  ParseList text "channels" (fun c => {| channelid := GetInt c "channelid" (-1); channel_label := TitleOrLabel c |}).
End Listings.

(** ** What is playing *)

(** The identity half of [KodiNowPlaying]; the timing half is not touched here. *)
Record Identity := { title : string; show_title : string; season : Z; episode : Z; media_type : string }.

(** The assignment of a field when the reply has something to say about it. *)
Definition keep_or {A} (current : A) (update : option A) : A := match update with Some a => a | None => current end.

Definition item_title (item : json) : option string :=
  let t := GetString item "title" EmptyString in
  let t := if is_empty t then GetString item "label" EmptyString else t in
  if is_empty t then None else Some t.

Definition item_show (item : json) : option string :=
  match find "showtitle" item with Some (JString s) => if is_empty s then None else Some s | _ => None end.

Definition item_number (item : json) (key : string) : option Z :=
  let n := GetBoundedInt item key (-1) (-1) kMaxSeasonOrEpisode in if 0 <=? n then Some n else None.

Definition item_type (item : json) : option string :=
  match find "type" item with
  | Some (JString t) => if negb (is_empty t) && negb (String.eqb t "unknown") then Some t else None
  | _ => None
  end.

Definition ApplyItemFields (item : json) (np : Identity) : Identity :=
  if negb (is_object item) then np
  else {| title := keep_or (title np) (item_title item); show_title := keep_or (show_title np) (item_show item);
          season := keep_or (season np) (item_number item "season");
          episode := keep_or (episode np) (item_number item "episode");
          media_type := keep_or (media_type np) (item_type item) |}.

(** ** Lemmas *)

Lemma to_i32_id z : INT_MIN <= z <= INT_MAX -> to_i32 z = z.
Proof. unfold INT_MIN, INT_MAX, to_i32. intros Hz. apply wrap_s_id; lia. Qed.

Lemma to_i64_id z : - 2 ^ 63 <= z < 2 ^ 63 -> to_i64 z = z.
Proof. intros Hz. apply wrap_s_id; [done|]. exact Hz. Qed.

Lemma GetBoundedInt_range j key fallback lo hi :
  INT_MIN <= lo -> lo <= hi -> hi <= INT_MAX -> lo <= GetBoundedInt j key fallback lo hi <= hi.
Proof.
  intros Hl Hh Hm. unfold GetBoundedInt. pose proof (clamp_bounds (GetInt j key fallback) lo hi Hh).
  rewrite to_i32_id; lia.
Qed.

Lemma GetDouble_fits j key fallback : json_numbers_ok j -> fits fallback -> fits (GetDouble j key fallback).
Proof.
  intros Hj Hf. unfold GetDouble. destruct (negb (is_object j)); [done|].
  destruct (find key j) as [v|] eqn:E; [|done]. apply (json_numbers_find _ _ _ Hj) in E.
  destruct v; cbn; try done; [apply double_of_Z_fits|by apply is_double_fits].
Qed.

Definition kMaxResumeMs : Z := kMaxTimeFieldValue * 3600 * 1000.

(** The largest resume position, and a second in milliseconds, as doubles. *)
Lemma resume_bounds :
  SFmul prec emax (double_of_Z kMaxTimeFieldValue) (double_of_Z 3600) = S754_finite false 7549747200000000 (-21) /\
  double_of_Z 1000 = S754_finite false 8796093022208000 (-43).
Proof. by vm_compute. Qed.

(** The product with its rounding, in units of its last place. *)
Lemma resume_product m e :
  -1074 <= e -> e < -21 /\ Z.pos m < 2 ^ 53 \/ e = -21 /\ Z.pos m <= 7549747200000000 ->
  let p := (m * 8796093022208000)%positive in
  Z.pos p + 2 ^ places (Z.pos p) (e + -43) < (kMaxResumeMs + 1) * 2 ^ - (e + -43).
Proof.
  intros He Hm. cbv zeta. rewrite Pos2Z.inj_mul. change (2 ^ 53) with 9007199254740992 in Hm.
  change (kMaxResumeMs + 1) with 3600000000001.
  assert (HP : 0 < Z.pos m * 8796093022208000 < 2 ^ 106).
  { change (2 ^ 106) with 81129638414606681695789005144064. lia. }
  set (P := Z.pos m * 8796093022208000) in *. set (n := places P (e + -43)).
  assert (Hd : Zdigits2 P <= 106) by (by apply Zdigits2_le).
  set (Q := 2 ^ - (e + -43)).
  assert (Hn : 0 <= 2 ^ n <= 9007199254740992 \/ 0 <= 2 ^ n <= Q /\ e < -21).
  { subst n Q. unfold places, prec. destruct (Z.leb_spec (-1074 - (e + -43)) 53).
    - left. split; [apply Z.pow_nonneg; lia|]. change 9007199254740992 with (2 ^ 53). apply Z.pow_le_mono_r; lia.
    - right. split; [split; [apply Z.pow_nonneg; lia|]; apply Z.pow_le_mono_r; lia|lia]. }
  destruct Hm as [[He' _]|[-> Hm]].
  - assert (HQ : 36893488147419103232 <= Q) by (change 36893488147419103232 with (2 ^ 65); apply Z.pow_le_mono_r; lia).
    change (2 ^ 106) with 81129638414606681695789005144064 in HP. lia.
  - change Q with 18446744073709551616. destruct Hn as [Hn|[_ ?]]; lia.
Qed.

(** The cast of a resume position is within its type: whatever a Kodi sends, the seconds are
    clamped before they are scaled. *)
Lemma resume_cast_range seconds :
  fits seconds ->
  0 <= double_trunc (SFmul prec emax (double_clamp seconds (double_of_Z 0)
         (SFmul prec emax (double_of_Z kMaxTimeFieldValue) (double_of_Z 3600))) (double_of_Z 1000)) <= kMaxResumeMs.
Proof.
  intros Hs. destruct resume_bounds as [-> ->]. change (double_of_Z 0) with (S754_zero false).
  pose proof (double_clamp_below seconds 7549747200000000 (-21) Hs ltac:(lia)) as Hb.
  destruct (double_clamp seconds _ _) as [b|b| |[] m e]; try done.
  destruct Hb as [He Hm]. unfold prec in Hm. cbn [SFmul xorb].
  assert (Hlt : Z.pos (m * 8796093022208000) + 2 ^ places (Z.pos (m * 8796093022208000)) (e + -43) <
    (kMaxResumeMs + 1) * 2 ^ - (e + -43)).
  { apply (resume_product m e He). destruct Hm as [Hm|[? Hm]]; [by left|right; by split]. }
  assert (HE0 : e + -43 <= 0) by (destruct Hm as [[? _]|[? _]]; clear -H; lia). clear Hm.
  set (p := (m * 8796093022208000)%positive) in *. set (E := e + -43) in *.
  pose proof (binary_round_aux_le p E) as Hr.
  assert (H0 : 0 <= 0 <= kMaxResumeMs) by by vm_compute.
  destruct (binary_round_aux _ _ _ _ _ _) as [b|b| |s mr er]; [exact H0..|].
  destruct Hr as (-> & HE & Hr).
  apply (double_trunc_le mr E er (Z.pos p + 2 ^ places (Z.pos p) E)); [exact HE|exact HE0|exact Hr|exact Hlt].
Qed.

(** The number a time object's field stands for. *)
Definition time_field (t : json) (key : string) : Z := GetBoundedInt t key 0 0 kMaxTimeFieldValue.

Lemma time_field_range t key : 0 <= time_field t key <= kMaxTimeFieldValue.
Proof. apply GetBoundedInt_range; unfold INT_MIN, INT_MAX, kMaxTimeFieldValue; lia. Qed.

Lemma item_number_range item key n : item_number item key = Some n -> 0 <= n <= kMaxSeasonOrEpisode.
Proof.
  unfold item_number. destruct (Z.leb_spec 0 (GetBoundedInt item key (-1) (-1) kMaxSeasonOrEpisode)); [|done].
  intros [= <-]. split; [done|]. apply GetBoundedInt_range; unfold INT_MIN, INT_MAX, kMaxSeasonOrEpisode; lia.
Qed.

(** What a merged item's season and episode can be. *)
Lemma item_fields_range item np :
  (season (ApplyItemFields item np) = season np \/ 0 <= season (ApplyItemFields item np) <= kMaxSeasonOrEpisode) /\
  (episode (ApplyItemFields item np) = episode np \/ 0 <= episode (ApplyItemFields item np) <= kMaxSeasonOrEpisode).
Proof.
  unfold ApplyItemFields. destruct (negb (is_object item)); [by split; left|]. cbn. split.
  - destruct (item_number item "season") eqn:E; [right|by left]. by apply item_number_range in E.
  - destruct (item_number item "episode") eqn:E; [right|by left]. by apply item_number_range in E.
Qed.

(** The wrapping arithmetic is the exact sum. *)
Lemma time_object_sum (t : json) :
  MillisFromTimeObject t =
    (time_field t "hours" * 3600 + time_field t "minutes" * 60 + time_field t "seconds") * 1000 + time_field t "milliseconds".
Proof.
  unfold MillisFromTimeObject. fold (time_field t "hours") (time_field t "minutes") (time_field t "seconds") (time_field t "milliseconds").
  pose proof (time_field_range t "hours"). pose proof (time_field_range t "minutes").
  pose proof (time_field_range t "seconds"). pose proof (time_field_range t "milliseconds").
  unfold kMaxTimeFieldValue in *.
  rewrite (to_i64_id (_ * 3600)) by lia. rewrite (to_i64_id (_ * 60)) by lia.
  rewrite (to_i64_id (time_field t "hours" * 3600 + _)) by lia. rewrite (to_i64_id (_ + time_field t "seconds")) by lia.
  rewrite (to_i64_id (_ * 1000)) by lia. rewrite to_i64_id by lia. lia.
Qed.

Lemma time_object_range t : 0 <= MillisFromTimeObject t <= 3661001000000.
Proof.
  rewrite time_object_sum. pose proof (time_field_range t "hours"). pose proof (time_field_range t "minutes").
  pose proof (time_field_range t "seconds"). pose proof (time_field_range t "milliseconds").
  unfold kMaxTimeFieldValue in *. lia.
Qed.

(** ** Properties *)

(** No time a Kodi reports overflows: whatever the object holds, the milliseconds computed
    in wrapping 64-bit arithmetic are the exact sum of the four clamped fields, at most
    3,661,001,000,000; and a well-formed time is converted exactly. *)
Theorem time_object_exact (t : json) :
  MillisFromTimeObject t =
    (time_field t "hours" * 3600 + time_field t "minutes" * 60 + time_field t "seconds") * 1000 + time_field t "milliseconds" /\
  0 <= MillisFromTimeObject t <= 3661001000000 /\
  (forall h m s ms, 0 <= h <= kMaxTimeFieldValue -> 0 <= m < 60 -> 0 <= s < 60 -> 0 <= ms < 1000 ->
     t = JObject [("hours", JInt h); ("minutes", JInt m); ("seconds", JInt s); ("milliseconds", JInt ms)] ->
     MillisFromTimeObject t = ((h * 60 + m) * 60 + s) * 1000 + ms).
Proof.
  split_and!; [apply time_object_sum|apply time_object_range|apply time_object_range|].
  intros h m s ms Hh Hm Hs Hms Et. rewrite time_object_sum.
  assert (Hf : forall key z, 0 <= z <= 1000000 -> find key t = Some (JInt z) -> time_field t key = z).
  { intros key z Hz Hfind. unfold time_field, GetBoundedInt, GetInt. rewrite Hfind. subst t. cbn [is_object negb].
    rewrite to_i64_id by lia. unfold kMaxTimeFieldValue. rewrite clamp_id by lia.
    apply to_i32_id. unfold INT_MIN, INT_MAX. lia. }
  rewrite (Hf "hours" h), (Hf "minutes" m), (Hf "seconds" s), (Hf "milliseconds" ms) by (lia || by subst t). lia.
Qed.

(** A blank reply never erases what is known: merging an item into what is playing keeps
    every field the item says nothing usable about; a title, show or type it sets is
    non-empty, and a season or episode it sets is within 0 and a million. *)
Theorem item_fields_merge (item : json) (np : Identity) :
  let np' := ApplyItemFields item np in
  (title np' = title np \/ title np' <> EmptyString) /\
  (show_title np' = show_title np \/ show_title np' <> EmptyString) /\
  (media_type np' = media_type np \/ (media_type np' <> EmptyString /\ media_type np' <> "unknown")) /\
  (season np' = season np \/ 0 <= season np' <= kMaxSeasonOrEpisode) /\
  (episode np' = episode np \/ 0 <= episode np' <= kMaxSeasonOrEpisode) /\
  ApplyItemFields item np' = np'.
Proof.
  unfold ApplyItemFields. destruct (negb (is_object item)); [split_and!; auto|]. cbn. split_and!.
  - unfold item_title. case_match eqn:E; [by left|right]. cbn. intros Heq. by rewrite Heq in E.
  - unfold item_show. destruct (find "showtitle" item) as [[]|]; try by left.
    destruct (is_empty s) eqn:E; [by left|right]. cbn. intros ->. done.
  - unfold item_type. destruct (find "type" item) as [[]|]; try by left.
    destruct (negb (is_empty s) && negb (String.eqb s "unknown")) eqn:E; [right|by left]. cbn.
    apply andb_true_iff in E as [E1 E2]. split; intros ->; done.
  - destruct (item_number item "season") eqn:E; [right|by left]. by apply item_number_range in E.
  - destruct (item_number item "episode") eqn:E; [right|by left]. by apply item_number_range in E.
  - f_equal; match goal with |- keep_or _ ?u = _ => by destruct u end.
Qed.
