(* ===== verification/KodiTypes.v ===== *)
(** KodiTypes: the data of the Kodi client, and the parts of it that keep no state.

    Models the types of [src/src/core/kodi_client.h] and, of
    [src/src/core/kodi_client.cpp], the choice of the instance to connect to, the
    JSON-RPC request texts, the command constructors and the library queries. The
    connection itself is [Kodi.v]. Durations are in milliseconds and the steady clock counts
    nanoseconds; [ms] converts. *)
From Stdlib Require Import SpecFloat.
From S2P Require Import Prelude Text Json Http WebSocket Double KodiJson.

(** ** Data *)

Inductive KodiConnectionState := kDisconnected | kConnecting | kConnected | kError.

#[export] Instance kodi_state_eq_dec : EqDecision KodiConnectionState.
Proof. solve_decision. Defined.

#[export] Instance kodi_playback_eq_dec : EqDecision KodiPlaybackState.
Proof. solve_decision. Defined.

#[export] Instance identity_eq_dec : EqDecision Identity.
Proof. solve_decision. Defined.

Inductive KodiInput := kUp | kDown | kLeft | kRight | kSelect | kBack | kHome | kInfo | kContextMenu | kShowOsd.

(** The identity fields are [KodiJson.Identity]. *)
Record KodiNowPlaying := {
  playback : KodiPlaybackState; speed : Z; identity : Identity;
  position_ms : Z; duration_ms : Z; percent : spec_float; can_seek : bool
}.

Definition no_identity : Identity :=
  {| title := EmptyString; show_title := EmptyString; season := -1; episode := -1; media_type := EmptyString |}.

Definition nothing_playing : KodiNowPlaying :=
  {| playback := kInactive; speed := 0; identity := no_identity; position_ms := 0; duration_ms := 0;
     percent := S754_zero false; can_seek := false |}.

(** The defaulted [operator==]: a [double] member compares as IEEE does. *)
Definition now_playing_eqb (a b : KodiNowPlaying) : bool :=
  bool_decide (playback a = playback b) && (speed a =? speed b) && bool_decide (identity a = identity b) &&
  (position_ms a =? position_ms b) && (duration_ms a =? duration_ms b) && SFeqb (percent a) (percent b) &&
  Bool.eqb (can_seek a) (can_seek b).

Record KodiDiscoveredInstance := { name : string; disc_host : string; uuid : string }.

Record KodiSnapshot := {
  state : KodiConnectionState; resolved_host : string; target_configured : bool; selected_uuid : string;
  discovered : list KodiDiscoveredInstance; app_version : string; volume : Z; muted : bool;
  now_playing : KodiNowPlaying; library_busy : bool
}.

Definition initial_snapshot : KodiSnapshot :=
  {| state := kDisconnected; resolved_host := EmptyString; target_configured := false; selected_uuid := EmptyString;
     discovered := []; app_version := EmptyString; volume := 0; muted := false; now_playing := nothing_playing;
     library_busy := false |}.

Inductive KodiEvent :=
  | KodiConnectionStateChangedEvent (s : KodiConnectionState)
  | KodiNowPlayingChangedEvent
  | KodiMoviesFetchedEvent (movies : list KodiMovie) (truncated : bool)
  | KodiTvShowsFetchedEvent (shows : list KodiTvShow) (truncated : bool)
  | KodiSeasonsFetchedEvent (tvshow : Z) (seasons : list KodiSeason) (truncated : bool)
  | KodiEpisodesFetchedEvent (tvshow season : Z) (episodes : list KodiEpisode) (truncated : bool)
  | KodiArtistsFetchedEvent (artists : list KodiArtist) (truncated : bool)
  | KodiAlbumsFetchedEvent (artist : Z) (albums : list KodiAlbum) (truncated : bool)
  | KodiSongsFetchedEvent (album : Z) (songs : list KodiSong) (truncated : bool)
  | KodiFilesFetchedEvent (path : string) (items : list KodiFileItem) (truncated : bool)
  | KodiChannelGroupsFetchedEvent (groups : list KodiChannelGroup) (truncated : bool)
  | KodiChannelsFetchedEvent (group : Z) (channels : list KodiChannel) (truncated : bool).

(** ** Constants *)

Definition ms (n : Z) : Z := n * 1000000.

Definition kCallTimeoutMs : Z := 8000.
Definition kBusySliceSlack : Z := ms 5.
Definition kLibraryPageSize : Z := 500.
Definition kMaxLibraryItems : Z := 10000.
Definition kNoTargetMaxRecheckInterval : Z := 30000.
Definition kMaxPumpIterations : nat := 32.
Definition kModuleId : string := "kodi".
Definition kInstanceUuidKey : string := "instance_uuid".
Definition kServiceType : string := "_xbmc-jsonrpc._tcp".
Definition kDefaultPort : Z := 9090.
Definition kMaxPendingCommands : nat := 20.
Definition kMaxToleratedPollTimeouts : Z := 3.
Definition kMaxPendingLibraryRequests : nat := 8.

(** ** Discovery *)

Record MdnsService := {
  instance_name : string; hostname : string; address : string; port : Z; txt : gmap string string
}.

Record Target := { target_host : string; target_port : Z }.

(** [s.txt.find("uuid")], empty when there is none. *)
Definition txt_uuid (s : MdnsService) : string := default EmptyString (txt s !! "uuid").

Definition rank (s : MdnsService) : Z :=
  if is_empty (address s) then 0 else if contains_char ":" (address s) then 1 else 2.

Definition instance_key (s : MdnsService) : string :=
  if is_empty (txt_uuid s) then "n:" +:+ instance_name s +:+ ":" +:+ to_string (port s) else "u:" +:+ txt_uuid s.

(** One pass of the loop: the instances kept so far and where each key's is. *)
Definition dedup_step (acc : list MdnsService * gmap string nat) (s : MdnsService)
    : list MdnsService * gmap string nat :=
  let '(unique, index_by_key) := acc in
  match index_by_key !! instance_key s with
  | None => (unique ++ [s], <[instance_key s := List.length unique]> index_by_key)
  | Some i =>
      match unique !! i with
      | Some kept => if rank kept <? rank s then (<[i := s]> unique, index_by_key) else acc
      | None => acc   (* an index is always in range *)
      end
  end.

Definition DeduplicateInstances (instances : list MdnsService) : list MdnsService :=
  (foldl dedup_step ([], ∅) instances).1.

Definition HostPortAuthority (host : string) (p : Z) : string :=
  let authority := if contains_char ":" host && negb (starts_with "[" host) then "[" +:+ host +:+ "]" else host in
  authority +:+ ":" +:+ to_string p.

Definition WebSocketUrl (host : string) (p : Z) : string := "ws://" +:+ HostPortAuthority host p +:+ "/jsonrpc".

(** The host an instance is listed under. *)
Definition instance_host (s : MdnsService) : string := if is_empty (address s) then hostname s else address s.

Definition usable (s : MdnsService) : bool :=
  negb (is_empty (instance_host s) || (port s =? 0) || HasUnsafeHostChars (instance_host s) true).

Definition discover (answers : list MdnsService) : list MdnsService :=
  DeduplicateInstances (List.filter usable answers).

(** The saved selection, or the only instance when nothing is saved; never one without a
    resolved address. *)
Definition choose (selected : string) (instances : list MdnsService) : option MdnsService :=
  let chosen :=
    if negb (is_empty selected)
    then List.find (fun s => match txt s !! "uuid" with Some u => String.eqb u selected | None => false end) instances
    else match instances with [s] => Some s | _ => None end in
  match chosen with
  | Some s => if is_empty (address s) then None else Some s
  | None => None
  end.

Definition discovered_of (s : MdnsService) : KodiDiscoveredInstance :=
  {| name := instance_name s; disc_host := instance_host s; uuid := txt_uuid s |}.

(** ** Requests *)

(** JSON text written with single quotes: [R"(...)"]. *)
Definition raw (s : string) : string := string_map (fun c => if Ascii.eqb c "'" then dquote else c) s.

(** ** Commands *)

Inductive PlayerCommandKind := kPlayPause | kStop | kSeekPercent | kSeekStep | kSetSpeed.

Record PlayerCommand := { pc_kind : PlayerCommandKind; pc_value : spec_float }.

Record PendingCommand := {
  player_command : option PlayerCommand; method : string; params_json : string; keep_when_stale : bool; enqueued_at : Z
}.

Definition InputMethod (input : KodiInput) : string :=
  match input with
  | kUp => "Input.Up" | kDown => "Input.Down" | kLeft => "Input.Left" | kRight => "Input.Right"
  | kSelect => "Input.Select" | kBack => "Input.Back" | kHome => "Input.Home" | kInfo => "Input.Info"
  | kContextMenu => "Input.ContextMenu" | kShowOsd => "Input.ShowOSD"
  end.

Definition player (kind : PlayerCommandKind) (value : spec_float) (keep : bool) (now : Z) : PendingCommand :=
  {| player_command := Some {| pc_kind := kind; pc_value := value |}; method := EmptyString;
     params_json := EmptyString; keep_when_stale := keep; enqueued_at := now |}.

Definition global_command (m params : string) (keep : bool) (now : Z) : PendingCommand :=
  {| player_command := None; method := m; params_json := params; keep_when_stale := keep; enqueued_at := now |}.

Section Requests.
Context `{JsonCodec}.

(** The JSON-RPC request both [Call] and [SendPendingCommands] build. *)
Definition rpc_request (id : Z) (m params : string) : string :=
  let request := JObject [("jsonrpc", JString "2.0"); ("id", JInt id); ("method", JString m)] in
  json_dump
    (if is_empty params then request
     else let p := ParseBoundedJson params in if is_discarded p then request else set_key "params" p request).

(** What each command queues; the time is the steady clock's at the call. *)
Definition PlayPause : Z -> PendingCommand := player kPlayPause (double_of_Z 0) false.
Definition StopPlayback : Z -> PendingCommand := player kStop (double_of_Z 0) true.
Definition SeekPercent (pct : spec_float) : Z -> PendingCommand := player kSeekPercent pct false.
Definition SeekStep (forward : bool) : Z -> PendingCommand :=
  player kSeekStep (double_of_Z (if forward then 1 else -1)) false.
Definition VolumeStep (up : bool) : Z -> PendingCommand :=
  global_command "Application.SetVolume" (if up then raw "{'volume':'increment'}" else raw "{'volume':'decrement'}") false.
Definition SetSpeed (s : Z) : Z -> PendingCommand := player kSetSpeed (double_of_Z s) false.
Definition SetVolume (v : Z) : Z -> PendingCommand :=
  global_command "Application.SetVolume" (json_dump (JObject [("volume", JInt v)])) false.
Definition ToggleMute : Z -> PendingCommand := global_command "Application.SetMute" (raw "{'mute':'toggle'}") true.
Definition SendInput (input : KodiInput) : Z -> PendingCommand := global_command (InputMethod input) EmptyString false.
Definition OpenLibraryItem (id_field : string) (id : Z) (resume : bool) : Z -> PendingCommand :=
  let params := JObject [("item", JObject [(id_field, JInt id)])] in
  global_command "Player.Open"
    (json_dump (if resume then set_key "options" (JObject [("resume", JBool true)]) params else params)) false.
Definition PlayFile (path : string) : Z -> PendingCommand :=
  global_command "Player.Open" (json_dump (JObject [("item", JObject [("file", JString path)])])) false.

(** A command's method and parameters once the active player is known; [None] when it has
    no player to act on. *)
Definition command_request (player_id : Z) (c : PendingCommand) : option (string * string) :=
  match player_command c with
  | None => Some (method c, params_json c)
  | Some pc =>
      if player_id <? 0 then None
      else
        let params := JObject [("playerid", JInt player_id)] in
        let '(m, p) :=
          match pc_kind pc with
          | kPlayPause => ("Player.PlayPause", params)
          | kStop => ("Player.Stop", params)
          | kSeekPercent => ("Player.Seek", set_key "value" (JObject [("percentage", JFloat (pc_value pc))]) params)
          | kSeekStep =>
              ("Player.Seek",
               set_key "value" (JString (if SFltb (S754_zero false) (pc_value pc) then "smallforward" else "smallbackward")) params)
          | kSetSpeed => ("Player.SetSpeed", set_key "speed" (JInt (to_i32 (double_trunc (pc_value pc)))) params)
          end in
        Some (m, json_dump p)
  end.
End Requests.

(** ** Library requests *)

Inductive LibraryKind :=
  | kMovies | kTvShows | kSeasons | kEpisodes | kArtists | kAlbums | kSongs | kFileSources | kDirectory
  | kChannelGroups | kChannels.

Record LibraryRequest := { lr_kind : LibraryKind; parent_id : Z; lr_season : Z; lr_path : string }.

#[export] Instance library_kind_eq_dec : EqDecision LibraryKind.
Proof. solve_decision. Defined.

#[export] Instance library_request_eq_dec : EqDecision LibraryRequest.
Proof. solve_decision. Defined.

Definition request_of (k : LibraryKind) (parent s : Z) (path : string) : LibraryRequest :=
  {| lr_kind := k; parent_id := parent; lr_season := s; lr_path := path |}.

Definition RequestMovies : LibraryRequest := request_of kMovies 0 0 EmptyString.
Definition RequestTvShows : LibraryRequest := request_of kTvShows 0 0 EmptyString.
Definition RequestSeasons (tvshow : Z) : LibraryRequest := request_of kSeasons tvshow 0 EmptyString.
Definition RequestEpisodes (tvshow s : Z) : LibraryRequest := request_of kEpisodes tvshow s EmptyString.
Definition RequestArtists : LibraryRequest := request_of kArtists 0 0 EmptyString.
Definition RequestAlbums (artist : Z) : LibraryRequest := request_of kAlbums artist 0 EmptyString.
Definition RequestSongs (album : Z) : LibraryRequest := request_of kSongs album 0 EmptyString.
Definition RequestFileSources : LibraryRequest := request_of kFileSources 0 0 EmptyString.
Definition RequestDirectory (path : string) : LibraryRequest := request_of kDirectory 0 0 path.
Definition RequestChannelGroups : LibraryRequest := request_of kChannelGroups 0 0 EmptyString.
Definition RequestChannels (group : Z) : LibraryRequest := request_of kChannels group 0 EmptyString.

Record LibraryQuery := {
  q_method : string; q_params : string; result_key : option string; publish : string -> bool -> KodiEvent
}.

Definition sort_by (m : string) : json := JObject [("method", JString m); ("order", JString "ascending")].

Definition strings (l : list string) : json := JArray (map JString l).

Section Queries.
Context `{JsonCodec}.

Definition query (m : string) (params : list (string * json)) (key : option string) (pub : string -> bool -> KodiEvent)
    : LibraryQuery :=
  {| q_method := m; q_params := json_dump (JObject params); result_key := key; publish := pub |}.

Definition BuildLibraryQuery (r : LibraryRequest) : LibraryQuery :=
  let kSortByLabel := sort_by "label" in
  let id := JInt (parent_id r) in
  match lr_kind r with
  | kMovies =>
      query "VideoLibrary.GetMovies" [("properties", strings ["title"; "year"; "resume"]); ("sort", kSortByLabel)]
        (Some "movies") (fun text => KodiMoviesFetchedEvent (ParseMovies text))
  | kTvShows =>
      query "VideoLibrary.GetTVShows"
        [("properties", strings ["title"; "year"; "episode"; "watchedepisodes"]); ("sort", kSortByLabel)]
        (Some "tvshows") (fun text => KodiTvShowsFetchedEvent (ParseTvShows text))
  | kSeasons =>
      query "VideoLibrary.GetSeasons"
        [("tvshowid", id); ("properties", strings ["season"; "episode"; "watchedepisodes"]); ("sort", sort_by "season")]
        (Some "seasons") (fun text => KodiSeasonsFetchedEvent (parent_id r) (ParseSeasons text))
  | kEpisodes =>
      query "VideoLibrary.GetEpisodes"
        [("tvshowid", id); ("season", JInt (lr_season r)); ("properties", strings ["episode"; "title"; "resume"]);
         ("sort", sort_by "episode")]
        (Some "episodes") (fun text => KodiEpisodesFetchedEvent (parent_id r) (lr_season r) (ParseEpisodes text))
  | kArtists =>
      query "AudioLibrary.GetArtists" [("sort", kSortByLabel)]
        (Some "artists") (fun text => KodiArtistsFetchedEvent (ParseArtists text))
  | kAlbums =>
      query "AudioLibrary.GetAlbums"
        [("filter", JObject [("artistid", id)]); ("properties", strings ["title"; "year"]); ("sort", sort_by "year")]
        (Some "albums") (fun text => KodiAlbumsFetchedEvent (parent_id r) (ParseAlbums text))
  | kSongs =>
      query "AudioLibrary.GetSongs"
        [("filter", JObject [("albumid", id)]); ("properties", strings ["title"; "track"; "duration"]);
         ("sort", sort_by "track")]
        (Some "songs") (fun text => KodiSongsFetchedEvent (parent_id r) (ParseSongs text))
  | kFileSources =>
      query "Files.GetSources" [("media", JString "video")]
        None (fun text => KodiFilesFetchedEvent EmptyString (ParseFileItems text "sources" true))
  | kDirectory =>
      query "Files.GetDirectory" [("directory", JString (lr_path r)); ("media", JString "video")]
        (Some "files") (fun text => KodiFilesFetchedEvent (lr_path r) (ParseFileItems text "files" false))
  | kChannelGroups =>
      query "PVR.GetChannelGroups" [("channeltype", JString "tv")]
        None (fun text => KodiChannelGroupsFetchedEvent (ParseChannelGroups text))
  | kChannels =>
      query "PVR.GetChannels" [("channelgroupid", id)]
        (Some "channels") (fun text => KodiChannelsFetchedEvent (parent_id r) (ParseChannels text))
  end.
End Queries.

(** ** Lemmas: one entry per instance *)

(** What the pass knows after reading [seen]: the index of every key kept, each key once,
    nothing kept that was not seen, and a best entry for each key seen. *)
Definition dedup_inv (seen unique : list MdnsService) (index : gmap string nat) : Prop :=
  (forall k i, index !! k = Some i <-> instance_key <$> (unique !! i) = Some k) /\
  NoDup (instance_key <$> unique) /\
  (forall s, s ∈ unique -> s ∈ seen) /\
  (forall s, s ∈ seen -> exists kept, kept ∈ unique /\ instance_key kept = instance_key s /\ rank s <= rank kept).

Lemma keys_unique (l : list MdnsService) a b :
  NoDup (instance_key <$> l) -> a ∈ l -> b ∈ l -> instance_key a = instance_key b -> a = b.
Proof.
  intros Hn Ha Hb Hk. apply list_elem_of_lookup in Ha as [i Ha]. apply list_elem_of_lookup in Hb as [j Hb].
  assert (i = j) as ->; [|congruence].
  eapply NoDup_lookup; [exact Hn| |]; rewrite list_lookup_fmap; [by rewrite Ha|rewrite Hb; cbn; congruence].
Qed.

Lemma dedup_step_inv seen unique index s :
  dedup_inv seen unique index ->
  let '(unique', index') := dedup_step (unique, index) s in dedup_inv (seen ++ [s]) unique' index'.
Proof.
  intros (Hi & Hn & Hs & Hb). unfold dedup_step. destruct (index !! instance_key s) as [i|] eqn:Ei.
  - pose proof (proj1 (Hi _ _) Ei) as Hk. destruct (unique !! i) as [kept|] eqn:Eu; [|done]. cbn in Hk. injection Hk as Hk.
    assert (Hin : kept ∈ unique) by by eapply list_elem_of_lookup_2.
    destruct (Z.ltb_spec (rank kept) (rank s)) as [Hr|Hr]; cycle 1.
    { split_and!; [done|done|intros x Hx; apply elem_of_app; left; auto|].
      intros x [Hx|Hx%list_elem_of_singleton]%elem_of_app; [auto|]. subst x. eauto. }
    assert (Hkeys : instance_key <$> <[i := s]> unique = instance_key <$> unique).
    { rewrite list_fmap_insert, <- Hk.
      apply list_insert_id. rewrite list_lookup_fmap, Eu. done. }
    assert (Hl : (i < List.length unique)%nat) by by eapply lookup_lt_Some.
    split_and!.
    + intros k j. rewrite Hi, <- !list_lookup_fmap. by rewrite Hkeys.
    + by rewrite Hkeys.
    + intros x Hx. apply elem_of_app. apply list_elem_of_lookup in Hx as [j Hj].
      apply list_lookup_insert_Some in Hj as [(-> & -> & _)|(_ & Hj)]; [right; by apply list_elem_of_singleton|left].
      apply Hs. by eapply list_elem_of_lookup_2.
    + assert (Hsin : s ∈ <[i := s]> unique) by (eapply list_elem_of_lookup_2; by apply list_lookup_insert_eq).
      intros x [Hx|Hx%list_elem_of_singleton]%elem_of_app; [|subst x; by exists s].
      destruct (Hb x Hx) as (k' & Hk' & He & Hle). destruct (decide (instance_key x = instance_key s)) as [E|E].
      * exists s. split_and!; [done|done|]. replace k' with kept in * by (apply (keys_unique unique); congruence). lia.
      * exists k'. split_and!; [|done|done]. apply list_elem_of_lookup in Hk' as [j Hj]. eapply list_elem_of_lookup_2.
        rewrite list_lookup_insert_ne; [exact Hj|]. intros ->. congruence.
  - assert (Hnew : instance_key s ∉ instance_key <$> unique).
    { intros Hx. apply list_elem_of_lookup in Hx as [j Hj].  rewrite list_lookup_fmap in Hj. apply Hi in Hj. congruence. }
    split_and!.
    + intros k j. destruct (decide (k = instance_key s)) as [->|E].
      * rewrite lookup_insert_eq. split.
        -- intros [= <-]. rewrite lookup_app_r, Nat.sub_diag by lia. done.
        -- intros Hj. f_equal. destruct (decide (j < List.length unique)%nat) as [Hl|Hl].
           { rewrite lookup_app_l in Hj by done. apply Hi in Hj. congruence. }
           apply fmap_Some in Hj as (x & Hj & _). apply lookup_lt_Some in Hj. rewrite length_app in Hj. cbn in Hj. lia.
      * rewrite lookup_insert_ne, Hi by done. destruct (decide (j < List.length unique)%nat) as [Hl|Hl].
        { by rewrite lookup_app_l. }
        rewrite (lookup_ge_None_2 unique j), lookup_app_r by lia.
        split; [done|]. destruct (j - List.length unique)%nat; cbn; [congruence|done].
    + rewrite fmap_app. apply NoDup_app.
      split_and!; [done| |apply NoDup_singleton]. intros x Hx ->%list_elem_of_singleton. done.
    + intros x [Hx|Hx]%elem_of_app; apply elem_of_app; [left; auto|by right].
    + intros x [Hx|Hx%list_elem_of_singleton]%elem_of_app.
      * destruct (Hb x Hx) as (k' & Hk' & ?). exists k'. split; [|done]. apply elem_of_app. by left.
      * subst x. exists s. split; [|done]. apply elem_of_app. right. by apply list_elem_of_singleton.
Qed.

Lemma dedup_foldl l seen unique index :
  dedup_inv seen unique index ->
  let '(unique', index') := foldl dedup_step (unique, index) l in dedup_inv (seen ++ l) unique' index'.
Proof.
  revert seen unique index. induction l as [|s l IH]; intros seen unique index Hinv; cbn [foldl].
  { by rewrite app_nil_r. }
  pose proof (dedup_step_inv seen unique index s Hinv) as Hs. destruct (dedup_step (unique, index) s) as [u i].
  specialize (IH _ _ _ Hs). by rewrite <- app_assoc in IH.
Qed.

Lemma dedup_spec l : exists index, dedup_inv l (DeduplicateInstances l) index.
Proof.
  unfold DeduplicateInstances.
  assert (H0 : dedup_inv [] [] ∅).
  { split_and!; [|constructor|done|by intros s Hs%elem_of_nil]. intros k i. rewrite lookup_empty. by destruct i. }
  pose proof (dedup_foldl l [] [] ∅ H0) as Hf. destruct (foldl _ _ l) as [u i]. by exists i.
Qed.

Lemma authority_lacks_slash host p : lacks "/" host = true -> lacks "/" (HostPortAuthority host p) = true.
Proof.
  intros Hh. unfold HostPortAuthority. destruct (_ && _); rewrite !lacks_app, to_string_lacks, Hh by done; done.
Qed.

Lemma kodi_url_parses host p :
  lacks "/" host = true ->
  ParseWsUrl (WebSocketUrl host p) = {| host_header := HostPortAuthority host p; request_target := "/jsonrpc" |}.
Proof.
  intros Hh. unfold ParseWsUrl, WebSocketUrl. set (rest := HostPortAuthority host p +:+ "/jsonrpc").
  change (break_on "://" ("ws://" +:+ rest)) with ("ws", Some rest). cbv beta iota. unfold rest.
  by rewrite (break_at_found "/" _ "jsonrpc") by by apply authority_lacks_slash.
Qed.

Lemma discover_elem s answers : s ∈ discover answers -> s ∈ answers /\ usable s = true.
Proof.
  unfold discover. destruct (dedup_spec (List.filter usable answers)) as (index & _ & _ & Hs & _).
  intros Hin%Hs. by apply list_elem_of_In, filter_In in Hin as [Hin%list_elem_of_In ?].
Qed.

(** One entry per key, each answered, each key at its best. *)
Lemma discovery_facts answers :
  let kept := discover answers in
  NoDup (map instance_key kept) /\
  (forall s, s ∈ kept -> s ∈ answers /\ usable s = true) /\
  (forall s, s ∈ answers -> usable s = true ->
     exists best, best ∈ kept /\ instance_key best = instance_key s /\ rank s <= rank best).
Proof.
  cbv zeta. destruct (dedup_spec (List.filter usable answers)) as (index & _ & Hn & _ & Hb).
  split_and!; [exact Hn|intros s Hs; by apply discover_elem|].
  intros s Hs Hu. apply Hb. apply list_elem_of_In, filter_In. split; [by apply list_elem_of_In|done].
Qed.

(** ** Properties *)

(** One browse answer per interface and protocol becomes one entry per instance: the kept
    entries have pairwise different keys (the TXT uuid, else name and port), each was
    answered and could be connected to, and every usable answer is represented by a kept
    entry of its key whose address is at least as good (IPv4 over IPv6 over none). *)
Theorem discovery_keeps_one_best (answers : list MdnsService) :
  let kept := discover answers in
  NoDup (map instance_key kept) /\
  (forall s, s ∈ kept -> s ∈ answers /\ usable s = true) /\
  (forall s, s ∈ answers -> usable s = true ->
     exists best, best ∈ kept /\ instance_key best = instance_key s /\ rank s <= rank best).
Proof. apply discovery_facts. Qed.

(** C20: The client never guesses which Kodi to drive, and never lets a discovered name redirect
    it: the instance chosen answered the browse, has a resolved address and a port, carries
    the saved uuid when one is saved, and otherwise is the only instance there is; no usable
    answer of the same instance has a better address; and the URL built by concatenating
    its address is parsed back to exactly that authority and the [/jsonrpc] path. *)
Theorem never_guesses_instance (selected : string) (answers : list MdnsService) (s : MdnsService) :
  choose selected (discover answers) = Some s ->
  s ∈ answers /\ address s <> EmptyString /\ port s <> 0 /\
  (if is_empty selected
   then forall s', s' ∈ answers -> usable s' = true -> instance_key s' = instance_key s
   else txt s !! "uuid" = Some selected) /\
  (forall s', s' ∈ answers -> usable s' = true -> instance_key s' = instance_key s -> rank s' <= rank s) /\
  ParseWsUrl (WebSocketUrl (address s) (port s)) =
    {| host_header := HostPortAuthority (address s) (port s); request_target := "/jsonrpc" |}.
Proof.
  intros Hc. destruct (discovery_facts answers) as (Hn & Hin & Hbest).
  assert (Hchosen : s ∈ discover answers /\ address s <> EmptyString /\
            (if is_empty selected then discover answers = [s] else txt s !! "uuid" = Some selected)).
  { unfold choose in Hc. destruct (is_empty selected); cbn [negb] in Hc.
    - destruct (discover answers) as [|x [|y l]]; try done. destruct (address x) eqn:Ea; cbn in Hc; simplify_eq.
      split_and!; [by apply list_elem_of_singleton|congruence|done].
    - destruct (List.find _ _) as [x|] eqn:Ef; [|done]. apply find_some in Ef as [Hx Hu].
      destruct (address x) eqn:Ea; cbn in Hc; simplify_eq. split_and!; [by apply list_elem_of_In|congruence|].
      destruct (txt s !! "uuid") as [u|]; [|done]. apply String.eqb_eq in Hu. by subst. }
  clear Hc. destruct Hchosen as (Hs & Ha & Hsel). destruct (Hin s Hs) as [Hans Hu].
  unfold usable, instance_host in Hu. replace (is_empty (address s)) with false in Hu by (by destruct (address s)).
  apply negb_true_iff in Hu. apply orb_false_iff in Hu as [[_ Hp]%orb_false_iff Hsafe].
  split_and!; [done|done|by apply Z.eqb_neq| | |].
  - destruct (is_empty selected); [|done]. intros s' Hs' Hu'. destruct (Hbest s' Hs' Hu') as (b & Hb & Hk & _).
    rewrite Hsel in Hb. apply list_elem_of_singleton in Hb. by subst.
  - intros s' Hs' Hu' Hk. destruct (Hbest s' Hs' Hu') as (b & Hb & Hkb & Hr).
    by replace s with b by (apply (keys_unique (discover answers)); [done|done|done|congruence]).
  - apply kodi_url_parses. by apply screened_lacks_slash with true.
Qed.

(** A living room answering over IPv6 and IPv4, and a bedroom without a resolved address. *)
Definition sample_answers : list MdnsService :=
  [{| instance_name := "Living"; hostname := "living.local"; address := "fe80::1"; port := 9090; txt := {["uuid" := "u-1"]} |};
   {| instance_name := "Living"; hostname := "living.local"; address := "192.168.1.40"; port := 9090; txt := {["uuid" := "u-1"]} |};
   {| instance_name := "Bed"; hostname := "Android"; address := EmptyString; port := 9090; txt := ∅ |}].

Lemma never_guesses_instance_witness :
  let s := {| instance_name := "Living"; hostname := "living.local"; address := "192.168.1.40"; port := 9090; txt := {["uuid" := "u-1"]} |} in
  ParseWsUrl (WebSocketUrl (address s) (port s)) = {| host_header := "192.168.1.40:9090"; request_target := "/jsonrpc" |}.
Proof.
  intros s. assert (Hc : choose "u-1" (discover sample_answers) = Some s) by (vm_compute; reflexivity).
  destruct (never_guesses_instance "u-1" sample_answers s Hc) as (_ & _ & _ & _ & _ & H). exact H.
Defined.
