(* ===== verification/Backends.v ===== *)
(** Backends: the network clients of the platform layer.

    Models [src/src/platform/host/http_client.cpp] and [firmware/http_client.cpp],
    [host/mdns_browser.cpp] and [firmware/mdns_browser.cpp], and
    [firmware/websocket_client.cpp]. The libraries below them (libcurl, esp_http_client, Avahi,
    espressif/mdns, esp_websocket_client) are the environment: what a call returns, and the
    callbacks that come while it runs, are its choice. *)
From S2P Require Import Prelude Http KodiTypes WebSocket.

(** ** [HttpClient] *)

Definition kMaxHttpResponseBodyBytes : Z := 1024 * 1024.

(** A response as a library hands it over: the pieces of its body, how the transfer ends if it
    is not aborted, and the status. *)
Record Transfer := { pieces : list string; transfer_ok : bool; transfer_status : Z }.

Definition failed_response : HttpClientResponse := {| success := false; http_status := 0; http_body := EmptyString |}.

(** What a library is asked to send: [kGet] or [kPost], the URL, the headers it holds, in
    order, and the body. libcurl holds lines of text, esp_http_client names with values. *)
Record ClientRequest (header : Type) :=
  { method : HttpMethod; request_url : string; request_headers : list header; post_body : string }.
Arguments method {_}. Arguments request_url {_}. Arguments request_headers {_}. Arguments post_body {_}.

Module HostHttp.

(** The write callback: how many bytes it took, and the body. *)
Definition WriteToString (data body : string) : Z * string :=
  if kMaxHttpResponseBodyBytes <? size body + size data then (0, body) else (size data, body +:+ data).

(** libcurl calls it for every piece, and aborts when it takes fewer bytes than it got. *)
Fixpoint deliver (ps : list string) (body : string) : bool * string :=
  match ps with
  | [] => (true, body)
  | p :: ps =>
      let '(taken, body') := WriteToString p body in
      if taken =? size p then deliver ps body' else (false, body')
  end.

(** What is left of [PerformCommon] when the library has the transfer. *)
Definition PerformCommon (t : Transfer) : HttpClientResponse :=
  let '(all_taken, body) := deliver (pieces t) EmptyString in
  let ok := all_taken && transfer_ok t in
  {| success := ok; http_status := if ok then transfer_status t else 0; http_body := body |}.

(** [curl_slist_append] gives the list with the line at its end, or a null pointer, which is
    the empty list for everything that takes one. *)
Section Client.
Context {E : Type} (curl_easy_init : M E bool) (curl_slist_append : list string -> string -> M E (list string))
  (curl_easy_perform : ClientRequest string -> M E Transfer).

Definition Get (url : string) : M E HttpClientResponse :=
  let* curl := curl_easy_init in
  if negb curl then ret failed_response
  else
    let* t := curl_easy_perform
      {| method := kGet; request_url := c_str url; request_headers := []; post_body := EmptyString |} in
    ret (PerformCommon t).

Fixpoint append_headers (headers : list string) (extra_headers : list (string * string)) : M E (list string) :=
  match extra_headers with
  | [] => ret headers
  | (name, value) :: extra_headers =>
      let* headers := curl_slist_append headers (c_str (name +:+ ": " +:+ value)) in
      append_headers headers extra_headers
  end.

Definition Post (url json_body : string) (extra_headers : list (string * string)) : M E HttpClientResponse :=
  let* curl := curl_easy_init in
  if negb curl then ret failed_response
  else
    let* headers := curl_slist_append [] "Content-Type: application/json" in
    let* headers := append_headers headers extra_headers in
    let* t := curl_easy_perform
      {| method := kPost; request_url := c_str url; request_headers := headers; post_body := json_body |} in
    ret (PerformCommon t).
End Client.
End HostHttp.

Module FirmwareHttp.

(** The handler of [HTTP_EVENT_ON_DATA]: whether it returns [ESP_OK], and the body. *)
Definition OnHttpEvent (data body : string) : bool * string :=
  if kMaxHttpResponseBodyBytes <? size body + size data then (false, body) else (true, body +:+ data).

(** The library aborts the transfer at the first event that is not [ESP_OK]. *)
Fixpoint dispatch (ps : list string) (body : string) : bool * string :=
  match ps with
  | [] => (true, body)
  | p :: ps => let '(ok, body') := OnHttpEvent p body in if ok then dispatch ps body' else (false, body')
  end.

Definition finish (t : Transfer) : HttpClientResponse :=
  let '(performed, body) := dispatch (pieces t) EmptyString in
  let err_ok := performed && transfer_ok t in
  {| success := err_ok; http_status := if err_ok then transfer_status t else 0; http_body := body |}.

(** The handle holds the headers: [esp_http_client_set_header] gives them with the new one in
    its place, or [None] when it does not return [ESP_OK]. *)
Section Client.
Context {E : Type} (esp_http_client_init : M E bool)
  (esp_http_client_set_header : string -> string -> list (string * string) -> M E (option (list (string * string))))
  (esp_http_client_set_post_field : string -> M E bool)
  (esp_http_client_perform : ClientRequest (string * string) -> M E Transfer).

Definition Get (url : string) : M E HttpClientResponse :=
  let* client := esp_http_client_init in
  if negb client then ret failed_response
  else
    let* t := esp_http_client_perform
      {| method := kGet; request_url := c_str url; request_headers := []; post_body := EmptyString |} in
    ret (finish t).

(** [request_built && ...]: after a failure, which is [None], the rest is not called. *)
Fixpoint set_headers (extra_headers : list (string * string)) (built : option (list (string * string))) :
    M E (option (list (string * string))) :=
  match extra_headers with
  | [] => ret built
  | (name, value) :: extra_headers =>
      let* built := match built with
                    | Some headers => esp_http_client_set_header (c_str name) (c_str value) headers
                    | None => ret None
                    end in
      set_headers extra_headers built
  end.

Definition Post (url json_body : string) (extra_headers : list (string * string)) : M E HttpClientResponse :=
  let* client := esp_http_client_init in
  if negb client then ret failed_response
  else
    let* built := esp_http_client_set_header "Content-Type" "application/json" [] in
    let* built := set_headers extra_headers built in
    match built with
    | None => ret failed_response
    | Some headers =>
        let* body_set := esp_http_client_set_post_field json_body in
        if negb body_set then ret failed_response
        else
          let* t := esp_http_client_perform
            {| method := kPost; request_url := c_str url; request_headers := headers; post_body := json_body |} in
          ret (finish t)
    end.
End Client.
End FirmwareHttp.

(** ** [MdnsBrowser] *)

Definition kMaxResults : Z := 20.

(** [svc.txt.emplace]: the first value of a key stays. *)
Definition emplace (txt : gmap string string) (kv : string * string) : gmap string string :=
  match txt !! kv.1 with Some _ => txt | None => <[kv.1 := kv.2]> txt end.

Module FirmwareMdns.

(** [mdns_result_t], with [None] for a null pointer; an address is IPv4 with its text ([None]
    when [esp_ip4addr_ntoa] fails) or of the other family. *)
Inductive IpAddr := V4 (text : option string) | V6.
Record mdns_result_t := {
  r_instance_name : option string; r_hostname : option string; r_port : Z; r_addr : list IpAddr;
  r_txt : list (option string * option string)
}.

(** The walk stops at the first IPv4 address whose text fits. *)
Fixpoint ipv4_text (addr : list IpAddr) : string :=
  match addr with
  | [] => EmptyString
  | V4 (Some text) :: _ => text
  | _ :: addr => ipv4_text addr
  end.

Definition txt_pair (t : option string * option string) : option (string * string) :=
  key ← t.1; Some (key, default EmptyString t.2).

Definition to_service (r : mdns_result_t) : MdnsService :=
  {| instance_name := default EmptyString (r_instance_name r); hostname := default EmptyString (r_hostname r);
     address := ipv4_text (r_addr r); port := r_port r; txt := foldl emplace ∅ (omap txt_pair (r_txt r)) |}.

(** [service_type.rfind('.')], the two sides of it, and the guard on them. *)
Fixpoint split_last (s : string) : option (string * string) :=
  match s with
  | EmptyString => None
  | String c s' =>
      match split_last s' with
      | Some (service, proto) => Some (String c service, proto)
      | None => if Ascii.eqb c "." then Some (EmptyString, s') else None
      end
  end.

Definition split_service_type (s : string) : option (string * string) :=
  match split_last s with
  | Some (service, proto) => if is_empty service || is_empty proto then None else Some (service, proto)
  | None => None
  end.

Section Browse.
Context {E : Type} (mdns_init : M E bool) (mdns_query_ptr : string -> string -> Z -> Z -> M E (option (list mdns_result_t))).

Definition Browse (service_type : string) (timeout : Z) : M E (list MdnsService) :=
  let* ok := mdns_init in
  if negb ok then ret []
  else
    match split_service_type service_type with
    | None => ret []
    | Some (service, proto) =>
        let* results := mdns_query_ptr (c_str service) (c_str proto) (clamp timeout 1 60000) kMaxResults in
        ret (match results with None => [] | Some results => map to_service results end)
    end.
End Browse.
End FirmwareMdns.

Module HostMdns.

(** A resolver is known by a number. [created] and [freed] are all that were, in order;
    [quit] is what [avahi_simple_poll_quit] sets. *)
Record BrowseContext := {
  results : list MdnsService; pending_resolvers : gset nat; created : list nat; freed : list nat; quit : bool
}.

Definition NewBrowseContext : BrowseContext :=
  {| results := []; pending_resolvers := ∅; created := []; freed := []; quit := false |}.

(** What [AVAHI_RESOLVER_FOUND] brings; [None] for a null pointer. A string of the TXT list
    that is no pair is [None]. *)
Record Found := {
  f_name : option string; f_host_name : option string; f_address : option string; f_port : Z;
  f_txt : list (option (option string * option string))
}.

Definition found_service (f : Found) : MdnsService :=
  {| instance_name := default EmptyString (f_name f); hostname := default EmptyString (f_host_name f);
     address := default EmptyString (f_address f); port := f_port f;
     txt := foldl emplace ∅ (map (fun '(k, v) => (default EmptyString k, default EmptyString v)) (omap id (f_txt f))) |}.

(** [event] is [None] for [AVAHI_RESOLVER_FAILURE]. *)
Definition ResolveCallback (resolver : nat) (event : option Found) (ctx : BrowseContext) : BrowseContext :=
  let results' :=
    match event with
    | Some f => if Z.of_nat (List.length (results ctx)) <? kMaxResults then results ctx ++ [found_service f] else results ctx
    | None => results ctx
    end in
  {| results := results'; pending_resolvers := pending_resolvers ctx ∖ {[resolver]}; created := created ctx;
     freed := freed ctx ++ [resolver]; quit := quit ctx |}.

(** [AVAHI_BROWSER_NEW]; [resolver] is what [avahi_service_resolver_new] would return. *)
Definition OnNew (resolver : option nat) (ctx : BrowseContext) : BrowseContext :=
  if kMaxResults <=? Z.of_nat (base.size (pending_resolvers ctx)) + Z.of_nat (List.length (results ctx)) then ctx
  else
    match resolver with
    | None => ctx
    | Some r => {| results := results ctx; pending_resolvers := pending_resolvers ctx ∪ {[r]}; created := created ctx ++ [r];
                   freed := freed ctx; quit := quit ctx |}
    end.

Definition Quit (ctx : BrowseContext) : BrowseContext :=
  {| results := results ctx; pending_resolvers := pending_resolvers ctx; created := created ctx; freed := freed ctx; quit := true |}.

(** The callbacks: a browse event, a resolver's answer, and the failures of the browser or the client. *)
Inductive Event := New (resolver : option nat) | Resolved (resolver : nat) (event : option Found) | Failure | Other.

Definition callback (ctx : BrowseContext) (e : Event) : BrowseContext :=
  match e with
  | New r => OnNew r ctx
  | Resolved r event => ResolveCallback r event ctx
  | Failure => Quit ctx
  | Other => ctx
  end.

(** One [avahi_simple_poll_iterate]: the clock after it, the callbacks it ran, and whether it failed. *)
Record Slice := { slice_end : Z; events : list Event; poll_failed : bool }.

(** The loop: [slices] is what the poll does, and the clock starts at [now]. *)
Fixpoint pump (slices : list Slice) (now deadline : Z) (ctx : BrowseContext) : BrowseContext :=
  match slices with
  | [] => ctx
  | s :: slices =>
      if deadline <=? now then ctx
      else
        let ctx' := foldl callback ctx (events s) in
        if quit ctx' || poll_failed s then ctx' else pump slices (slice_end s) deadline ctx'
  end.

(** What the library calls before the loop come to. *)
Record Setup := { have_poll : bool; have_client : bool; have_browser : bool }.

(** The results, with every resolver that was created and freed. *)
Definition Browse (setup : Setup) (slices : list Slice) (now timeout : Z) : BrowseContext :=
  if negb (have_poll setup) || negb (have_client setup) || negb (have_browser setup) then NewBrowseContext
  else
    let ctx := pump slices now (now + timeout) NewBrowseContext in
    {| results := results ctx; pending_resolvers := pending_resolvers ctx; created := created ctx;
       freed := freed ctx ++ elements (pending_resolvers ctx); quit := quit ctx |}.
End HostMdns.

(** ** [FirmwareWebSocketClient] *)

Module FirmwareWebSocket.
Import Assembler.

Record Client := {
  client_ : bool; connect_pending_ : bool; connect_succeeded_ : bool; assembler_ : Assembler; closed_ : bool
}.

Definition NewClient : Client :=
  {| client_ := false; connect_pending_ := false; connect_succeeded_ := false; assembler_ := Assembler.empty; closed_ := false |}.

Definition WS_TRANSPORT_OPCODES_CONT : Z := 0.
Definition WS_TRANSPORT_OPCODES_TEXT : Z := 1.
Definition WS_TRANSPORT_OPCODES_BINARY : Z := 2.

Definition IsApplicationDataOpcode (op_code : Z) : bool :=
  (op_code =? WS_TRANSPORT_OPCODES_CONT) || (op_code =? WS_TRANSPORT_OPCODES_TEXT) || (op_code =? WS_TRANSPORT_OPCODES_BINARY).

(** [esp_websocket_event_data_t]; [data] is the [data_len] bytes at [data_ptr]. *)
Record EventData := { op_code : Z; data : string; fin : bool; payload_offset : Z; payload_len : Z }.

Definition HandleConnected (c : Client) : Client :=
  {| client_ := client_ c; connect_pending_ := false; connect_succeeded_ := true; assembler_ := assembler_ c; closed_ := closed_ c |}.

Definition HandleClosed (c : Client) : Client :=
  {| client_ := client_ c; connect_pending_ := false;
     connect_succeeded_ := if connect_pending_ c then false else connect_succeeded_ c;
     assembler_ := assembler_ c; closed_ := true |}.

Definition frame_complete (d : EventData) : bool := payload_len d <=? payload_offset d + size (data d).

Definition HandleData (d : EventData) (c : Client) : Client :=
  if negb (IsApplicationDataOpcode (op_code d)) then c
  else if closed_ c then c
  else
    let '(result, a) := Add (data d) (fin d) (frame_complete d) (assembler_ c) in
    let c' := {| client_ := client_ c; connect_pending_ := connect_pending_ c; connect_succeeded_ := connect_succeeded_ c;
                 assembler_ := a; closed_ := closed_ c |} in
    match result with kOversized => HandleClosed c' | _ => c' end.

Inductive Event := Connected | Disconnected | ErrorEvent | ClosedEvent | DataEvent (d : EventData) | OtherEvent.

Definition OnWebSocketEvent (c : Client) (e : Event) : Client :=
  match e with
  | Connected => HandleConnected c
  | Disconnected | ErrorEvent | ClosedEvent => HandleClosed c
  | DataEvent d => HandleData d c
  | OtherEvent => c
  end.

Definition with_client (b : bool) (c : Client) : Client :=
  {| client_ := b; connect_pending_ := connect_pending_ c; connect_succeeded_ := connect_succeeded_ c;
     assembler_ := assembler_ c; closed_ := closed_ c |}.

(** The events that the library's task brings while [esp_websocket_client_stop] runs come first. *)
Definition Close (during_stop : list Event) (c : Client) : Client :=
  let c := if client_ c then with_client false (foldl OnWebSocketEvent c during_stop) else c in
  {| client_ := client_ c; connect_pending_ := connect_pending_ c; connect_succeeded_ := connect_succeeded_ c;
     assembler_ := Clear (assembler_ c); closed_ := true |}.

(** What the library does in one [Connect]: its calls' results, and the events until the wait
    ends (by a change of [connect_pending_] or the timeout) and in the two [Close] calls. *)
Record ConnectOutcome := {
  init_ok : bool; register_ok : bool; start_ok : bool;
  during_first_stop : list Event; while_waiting : list Event; during_second_stop : list Event
}.

Definition Connect (o : ConnectOutcome) (c : Client) : bool * Client :=
  let c := Close (during_first_stop o) c in
  if negb (init_ok o) then (false, c)
  else
    let c := {| client_ := true; connect_pending_ := true; connect_succeeded_ := false; assembler_ := assembler_ c; closed_ := false |} in
    if negb (register_ok o) || negb (start_ok o) then (false, with_client false c)
    else
      let c := foldl OnWebSocketEvent c (while_waiting o) in
      if connect_pending_ c || negb (connect_succeeded_ c) then (false, Close (during_second_stop o) c)
      else (true, c).

Definition SendText (text : string) (sent : Z) (c : Client) : bool :=
  if negb (client_ c) then false else sent =? size text.

(** [events] come during the wait, which ends with a message, with [closed_] or by the timeout. *)
Definition ReceiveText (events : list Event) (c : Client) : option string * Client :=
  let c := foldl OnWebSocketEvent c events in
  let got_message := HasMessage (assembler_ c) || closed_ c in
  if negb got_message || negb (HasMessage (assembler_ c)) then (None, c)
  else
    let '(message, a) := Pop (assembler_ c) in
    (message, {| client_ := client_ c; connect_pending_ := connect_pending_ c; connect_succeeded_ := connect_succeeded_ c;
                 assembler_ := a; closed_ := closed_ c |}).

Definition IsOpen (c : Client) : bool := client_ c && negb (closed_ c).
End FirmwareWebSocket.

(** ** The two HTTP clients are one *)

Module HttpClientsOk.

(** A piece is taken, or the transfer is over with what had come. *)
Lemma WriteToString_cases p body : size body <= kMaxHttpResponseBodyBytes ->
  (size body + size p <= kMaxHttpResponseBodyBytes /\ HostHttp.WriteToString p body = (size p, body +:+ p)) \/
  (kMaxHttpResponseBodyBytes < size body + size p /\ HostHttp.WriteToString p body = (0, body) /\ 0 < size p).
Proof. intros Hb. unfold HostHttp.WriteToString. destruct (Z.ltb_spec kMaxHttpResponseBodyBytes (size body + size p)); [right|left]; split_and!; try done; lia. Qed.

Lemma deliver_dispatch ps : forall body, size body <= kMaxHttpResponseBodyBytes ->
  HostHttp.deliver ps body = FirmwareHttp.dispatch ps body.
Proof.
  induction ps as [|p ps IH]; intros body Hb; [done|]. cbn. unfold FirmwareHttp.OnHttpEvent.
  destruct (WriteToString_cases p body Hb) as [[Hs ->]|(Hs & -> & Hp)].
  - rewrite Z.eqb_refl, (proj2 (Z.ltb_ge _ _) Hs). apply IH. rewrite size_app. lia.
  - rewrite (proj2 (Z.ltb_lt _ _) Hs). destruct (Z.eqb_spec 0 (size p)); [lia|done].
Qed.

Lemma deliver_bounded ps : forall body, size body <= kMaxHttpResponseBodyBytes ->
  let '(all_taken, body') := HostHttp.deliver ps body in
  size body' <= kMaxHttpResponseBodyBytes /\
  all_taken = (size body + size (string_concat ps) <=? kMaxHttpResponseBodyBytes) /\
  (all_taken = true -> body' = body +:+ string_concat ps).
Proof.
  induction ps as [|p ps IH]; intros body Hb.
  - cbn. rewrite sapp_nil_r. split_and!; [done|symmetry; apply Z.leb_le; unfold size in *; cbn in *; lia|done].
  - cbn. destruct (WriteToString_cases p body Hb) as [[Hs ->]|(Hs & -> & Hp)].
    + rewrite Z.eqb_refl. specialize (IH (body +:+ p)). rewrite size_app in IH. specialize (IH Hs).
      destruct (HostHttp.deliver ps (body +:+ p)) as [ok b]. destruct IH as (H1 & H2 & H3). rewrite size_app. split_and!; [done| |].
      * rewrite H2. f_equal. fold (string_concat ps). lia.
      * intros Hok. by rewrite H3, sapp_assoc.
    + destruct (Z.eqb_spec 0 (size p)); [lia|]. split_and!; [done| |done].
      symmetry. apply Z.leb_gt. rewrite size_app. pose proof (size_nonneg (foldr String.append EmptyString ps)). lia.
Qed.

Lemma perform_agrees t : HostHttp.PerformCommon t = FirmwareHttp.finish t.
Proof. unfold HostHttp.PerformCommon, FirmwareHttp.finish. by rewrite deliver_dispatch by (vm_compute; discriminate). Qed.

(** Header fields both libraries send as they are: a name that is a token and none of those
    they manage themselves, and a value that has no control character, does not start or end
    with a blank and is not empty. *)
Definition token_char (c : ascii) : bool := islower c || isupper c || isdigit c || Ascii.eqb c "-" || Ascii.eqb c "_".
Definition visible (c : ascii) : bool := (32 <=? code c) && negb (code c =? 127).

Fixpoint last_char (s : string) : option ascii :=
  match s with EmptyString => None | String c EmptyString => Some c | String _ s' => last_char s' end.

Definition blank_edge (c : option ascii) : bool := match c with Some c => Ascii.eqb c " " | None => true end.

Definition managed : list string :=
  ["host"; "content-length"; "transfer-encoding"; "connection"; "cookie"; "authorization"].

Definition plain_field (h : string * string) : bool :=
  negb (is_empty h.1) && string_forallb token_char h.1 && negb (existsb (String.eqb (string_map tolower h.1)) managed) &&
  string_forallb visible h.2 && negb (blank_edge (String.get 0 h.2)) && negb (blank_edge (last_char h.2)).

(** No two of the same name, whatever its case. *)
Definition distinct_names (hs : list (string * string)) : Prop := NoDup (map (fun h => string_map tolower h.1) hs).

Definition content_type : string * string := ("Content-Type", "application/json").

Definition line (h : string * string) : string := h.1 +:+ ": " +:+ h.2.

Lemma string_forallb_lacks p c s : p c = false -> string_forallb p s = true -> lacks c s = true.
Proof.
  intros Hp. induction s as [|d s IH]; [done|]. rewrite lacks_cons. cbn. intros [Hd Hs]%andb_true_iff. rewrite IH by done.
  destruct (Ascii.eqb_spec d c) as [->|]; [congruence|done].
Qed.

Lemma plain_nul h : plain_field h = true -> lacks nul h.1 = true /\ lacks nul h.2 = true.
Proof.
  unfold plain_field. rewrite !andb_true_iff. intros [[[[[_ H1] _] H2] _] _].
  split; by eapply string_forallb_lacks; [|eassumption].
Qed.

Lemma c_str_plain s : lacks nul s = true -> c_str s = s.
Proof. intros H. unfold c_str. by rewrite break_at_missing. Qed.

Lemma plain_line h : plain_field h = true -> c_str (line h) = line h.
Proof. intros H. destruct (plain_nul h H) as [H1 H2]. apply c_str_plain. unfold line. by rewrite !lacks_app, H1, H2. Qed.

(** What the clients are told to send, and what the libraries make of it: [send] is one
    request with the fields it carries, [curl_fields] the fields of libcurl's lines,
    [esp_set] the headers of an esp_http_client after [esp_http_client_set_header]. *)
Section Agreement.
Context {E : Type} (init : M E bool) (can_hold : string -> bool) (curl_fields : list string -> list (string * string))
  (esp_set : string -> string -> list (string * string) -> list (string * string))
  (send : HttpMethod -> string -> list (string * string) -> string -> M E Transfer).

(** The documented behaviour of the two on fields they send as they are. *)
Definition curl_sends_lines : Prop := forall hs, Forall (fun h => plain_field h = true) hs -> curl_fields (map line hs) = hs.
Definition esp_appends_new : Prop := forall h hs, plain_field h = true -> distinct_names (hs ++ [h]) ->
  esp_set h.1 h.2 hs = hs ++ [h].

Definition curl_slist_append (headers : list string) (l : string) : M E (list string) :=
  ret (if can_hold l then headers ++ [l] else []).
Definition curl_easy_perform (r : ClientRequest string) : M E Transfer :=
  send (method r) (request_url r) (curl_fields (request_headers r)) (post_body r).
Definition esp_http_client_set_header (name value : string) (headers : list (string * string)) :
    M E (option (list (string * string))) :=
  ret (if can_hold (line (name, value)) then Some (esp_set name value headers) else None).
Definition esp_http_client_perform (r : ClientRequest (string * string)) : M E Transfer :=
  send (method r) (request_url r) (request_headers r) (post_body r).

Definition host_post := HostHttp.Post init curl_slist_append curl_easy_perform.
Definition firmware_post := FirmwareHttp.Post init esp_http_client_set_header (fun _ => ret true) esp_http_client_perform.

Lemma append_headers_all hs (e : E) : forall lines, Forall (fun h => plain_field h = true) hs ->
  forallb (fun h => can_hold (line h)) hs = true ->
  HostHttp.append_headers curl_slist_append lines hs e = (lines ++ map line hs, e).
Proof.
  induction hs as [|[n v] hs IH]; intros lines Hp Hc; [by rewrite app_nil_r|]. apply Forall_cons in Hp as [Hh Hp].
  cbn in Hc. apply andb_true_iff in Hc as [Hl Hc]. cbn. fold (line (n, v)).
  change (bind (curl_slist_append lines (c_str (line (n, v)))) (fun l => HostHttp.append_headers curl_slist_append l hs) e
    = (lines ++ line (n, v) :: map line hs, e)).
  rewrite (plain_line (n, v)) by done. unfold bind, curl_slist_append at 1, ret. rewrite Hl, IH by done. by rewrite <- app_assoc.
Qed.

Lemma set_headers_none hs (e : E) : FirmwareHttp.set_headers esp_http_client_set_header hs None e = (None, e).
Proof. induction hs as [|[n v] hs IH]; [done|exact IH]. Qed.

Lemma set_headers_all hs (e : E) : esp_appends_new -> forall table, Forall (fun h => plain_field h = true) hs ->
  distinct_names (table ++ hs) ->
  FirmwareHttp.set_headers esp_http_client_set_header hs (Some table) e =
    (if forallb (fun h => can_hold (line h)) hs then Some (table ++ hs) else None, e).
Proof.
  intros Hset. induction hs as [|[n v] hs IH]; intros table Hp Hd; [by rewrite app_nil_r|]. apply Forall_cons in Hp as [Hh Hp].
  destruct (plain_nul _ Hh) as [Hn Hv]. cbn [fst snd] in Hn, Hv. cbn [FirmwareHttp.set_headers forallb].
  rewrite !c_str_plain by done. unfold bind, esp_http_client_set_header at 1, ret.
  destruct (can_hold (line (n, v))); cbn [andb]; [|apply set_headers_none].
  replace (table ++ (n, v) :: hs) with ((table ++ [(n, v)]) ++ hs) in * by by rewrite <- app_assoc.
  rewrite (Hset (n, v)) by (done || (unfold distinct_names in *; rewrite map_app in Hd; by apply NoDup_app in Hd as [Hd _])).
  by apply IH.
Qed.

(** C22: The two HTTP clients keep one contract. For every transfer the library hands over, they
    give the same response; its body is never above 1 MiB; it is a success exactly when the
    transfer ends well and the whole body fits, and then it carries the whole body and the
    status. A GET is the same on both. A POST sends the same fields on both, Content-Type
    and then the caller's in order, when those are fields that both libraries send as they
    are and no two of one name, which for esp_http_client would replace each other, and when
    there is memory to hold them; without it the firmware sends nothing. *)
Theorem http_clients_agree :
  curl_sends_lines -> esp_appends_new ->
  (forall t, let r := HostHttp.PerformCommon t in
     r = FirmwareHttp.finish t /\ size (http_body r) <= kMaxHttpResponseBodyBytes /\
     (success r = true <-> transfer_ok t = true /\ size (string_concat (pieces t)) <= kMaxHttpResponseBodyBytes) /\
     (success r = true -> http_body r = string_concat (pieces t) /\ http_status r = transfer_status t)) /\
  (forall url e,
     HostHttp.Get init curl_easy_perform url e = FirmwareHttp.Get init esp_http_client_perform url e) /\
  (forall url body headers e (all := content_type :: headers),
     Forall (fun h => plain_field h = true) headers -> distinct_names all ->
     let posted := let* ok := init in
       if ok : bool then let* t := send kPost (c_str url) all body in ret (HostHttp.PerformCommon t) else ret failed_response in
     if forallb (fun h => can_hold (line h)) all
     then host_post url body headers e = posted e /\ firmware_post url body headers e = posted e
     else firmware_post url body headers e = (failed_response, (init e).2)).
Proof.
  intros Hcurl Hesp. split_and!.
  - intros t r. split; [apply perform_agrees|]. subst r. unfold HostHttp.PerformCommon.
    pose proof (deliver_bounded (pieces t) EmptyString ltac:(vm_compute; discriminate)) as Hd.
    destruct (HostHttp.deliver (pieces t) EmptyString) as [ok b]. destruct Hd as (H1 & H2 & H3). cbn [http_body success http_status].
    split; [done|]. change (size EmptyString) with 0 in H2. rewrite sapp_nil_l in H3. split.
    + rewrite andb_true_iff, H2, Z.leb_le, Z.add_0_l. tauto.
    + intros Hok. rewrite Hok. apply andb_true_iff in Hok as [Hok _]. by rewrite H3.
  - intros url e. pose proof (Hcurl [] ltac:(by constructor)) as Hnil. cbn [map] in Hnil. unfold HostHttp.Get, FirmwareHttp.Get, bind, ret. destruct (init e) as [[] e1]; [|done]. cbn [negb].
    unfold curl_easy_perform, esp_http_client_perform. cbn [method request_url request_headers post_body]. rewrite Hnil.
    destruct (send _ _ _ _ e1) as [t e2]. by rewrite perform_agrees.
  - intros url body headers e all Hh Hd posted.
    assert (Hct : plain_field content_type = true) by by vm_compute.
    assert (Hf : firmware_post url body headers e =
      if forallb (fun h => can_hold (line h)) all then posted e else (failed_response, (init e).2)).
    { subst posted. unfold firmware_post, FirmwareHttp.Post, bind. cbv beta. destruct (init e) as [[] e1]; [|by destruct (forallb _ all)]. cbn [negb].
      pose proof (set_headers_all all e1 Hesp [] ltac:(by constructor) Hd) as Hs. unfold all in Hs. cbn [FirmwareHttp.set_headers content_type] in Hs.
      rewrite !c_str_plain in Hs by done. unfold bind in Hs. fold content_type all in Hs.
      destruct (esp_http_client_set_header _ _ [] e1) as [built e2]. rewrite Hs.
      case_match; [|done]. unfold ret at 1. cbn [negb]. unfold esp_http_client_perform. cbn [method request_url request_headers post_body app].
      destruct (send _ _ _ _ e1) as [t e3]. by rewrite perform_agrees. }
    destruct (forallb (fun h => can_hold (line h)) all) eqn:Hc; [|done]. split; [|done]. clear Hf.
    pose proof (append_headers_all all) as Ha. unfold host_post, HostHttp.Post, posted, bind. destruct (init e) as [[] e1]; [|done]. cbn [negb].
    specialize (Ha e1 [] ltac:(by constructor) Hc). unfold all in Ha. cbn [HostHttp.append_headers content_type] in Ha. unfold bind in Ha.
    change (c_str _) with "Content-Type: application/json" in Ha.
    destruct (curl_slist_append [] "Content-Type: application/json" e1) as [l e2]. fold content_type all in Ha. rewrite Ha.
    unfold curl_easy_perform. cbn [method request_url request_headers post_body app]. by rewrite Hcurl by (by constructor).
Qed.
End Agreement.

(** Concrete libraries: libcurl cuts a line at its colon and leaves it out when nothing
    follows; esp_http_client keeps one value per name. *)
Definition sample_fields (lines : list string) : list (string * string) :=
  omap (fun l => match break_at ":" l with
                 | (n, Some v) => match drop_chars 1 v with EmptyString => None | v => Some (n, v) end
                 | _ => None
                 end) lines.

Fixpoint sample_set (name value : string) (hs : list (string * string)) : list (string * string) :=
  match hs with
  | [] => [(name, value)]
  | h :: hs => if String.eqb (string_map tolower h.1) (string_map tolower name) then (h.1, value) :: hs
               else h :: sample_set name value hs
  end.

Definition sample_transfer : Transfer := {| pieces := ["{'a':"; "1}"]; transfer_ok := true; transfer_status := 200 |}.

(** The environment records what was sent. *)
Definition sample_send (_ : HttpMethod) (_ : string) (fields : list (string * string)) (_ : string) :
  M (list (list (string * string))) Transfer := fun sent => (sample_transfer, sent ++ [fields]).

Lemma sample_curl : curl_sends_lines sample_fields.
Proof.
  intros hs. induction 1 as [|[n v] hs Hh _ IH]; [done|]. cbn [map]. unfold sample_fields in *. cbn [omap list_omap].
  rewrite IH. unfold plain_field in Hh. cbn [fst snd] in Hh. rewrite !andb_true_iff in Hh. destruct Hh as [[[[[_ Hn] _] _] Hv] _].
  assert (break_at ":" (line (n, v)) = (n, Some (" " +:+ v))) as ->.
  { unfold line. cbn [fst snd]. apply break_at_found. by apply (string_forallb_lacks token_char). }
  cbn [drop_chars]. destruct v; [done|done].
Qed.

Lemma sample_esp : esp_appends_new sample_set.
Proof.
  intros [n v] hs _. unfold distinct_names. rewrite map_app. intros (_ & Hd & _)%NoDup_app. cbn [fst snd map] in *.
  induction hs as [|[m w] hs IH]; [done|]. cbn [sample_set fst app].
  destruct (String.eqb_spec (string_map tolower m) (string_map tolower n)) as [E|_].
  - exfalso. apply (Hd (string_map tolower m)); [by left|]. rewrite E. by left.
  - f_equal. apply IH. intros x Hx. apply Hd. by right.
Qed.

Lemma http_clients_agree_witness :
  http_body (HostHttp.PerformCommon sample_transfer) = "{'a':1}" /\
  (host_post (ret true) (fun _ => true) sample_fields sample_send "http://hub/" "{}" [("Origin", "x")] []).2 =
    [[("Content-Type", "application/json"); ("Origin", "x")]] /\
  (firmware_post (ret true) (fun _ => true) sample_set sample_send "http://hub/" "{}" [("Origin", "x")] []).2 =
    [[("Content-Type", "application/json"); ("Origin", "x")]].
Proof.
  destruct (http_clients_agree (ret true) (fun _ => true) sample_fields sample_set sample_send sample_curl sample_esp)
    as (H1 & _ & H3). split.
  - destruct (H1 sample_transfer) as (_ & _ & _ & H). by destruct H as [-> _].
  - destruct (H3 "http://hub/" "{}" [("Origin", "x")] []) as [-> ->]; [by repeat constructor| |done].
    apply (bool_decide_unpack _). by vm_compute.
Defined.

(** Where the two part: one name twice, an empty value, and a line that finds no memory. *)
Example posts_differ :
  let host hs := (host_post (ret true) (fun l => negb (String.eqb l "B: 2")) sample_fields sample_send "u" "{}" hs []).2 in
  let firmware hs := (firmware_post (ret true) (fun l => negb (String.eqb l "B: 2")) sample_set sample_send "u" "{}" hs []).2 in
  host [("A", "1"); ("a", "2")] = [[content_type; ("A", "1"); ("a", "2")]] /\
  firmware [("A", "1"); ("a", "2")] = [[content_type; ("A", "2")]] /\
  host [("A", EmptyString)] = [[content_type]] /\ firmware [("A", EmptyString)] = [[content_type; ("A", EmptyString)]] /\
  host [("B", "2"); ("C", "3")] = [[("C", "3")]] /\ firmware [("B", "2"); ("C", "3")] = [].
Proof. by vm_compute. Qed.
End HttpClientsOk.

(** ** Browsing the network frees what it creates *)

Module HostMdnsOk.
Import HostMdns.

(** What Avahi keeps to: a new resolver is none of those there were, and only a resolver that
    has not been freed has its callback called. *)
Definition proper (ctx : BrowseContext) (e : Event) : Prop :=
  match e with
  | New (Some r) => r ∉ created ctx
  | Resolved r _ => r ∈ pending_resolvers ctx
  | _ => True
  end.

Fixpoint proper_events (es : list Event) (ctx : BrowseContext) : Prop :=
  match es with
  | [] => True
  | e :: es => proper ctx e /\ proper_events es (callback ctx e)
  end.

Fixpoint proper_slices (slices : list Slice) (ctx : BrowseContext) : Prop :=
  match slices with
  | [] => True
  | s :: slices => proper_events (events s) ctx /\ proper_slices slices (foldl callback ctx (events s))
  end.

Record browse_inv (ctx : BrowseContext) : Prop := {
  bi_bound : Z.of_nat (base.size (pending_resolvers ctx)) + Z.of_nat (List.length (results ctx)) <= kMaxResults;
  bi_split : created ctx ≡ₚ freed ctx ++ elements (pending_resolvers ctx);
  bi_nodup : NoDup (created ctx)
}.

Lemma callback_inv ctx e : browse_inv ctx -> proper ctx e -> browse_inv (callback ctx e).
Proof.
  intros [Hb Hs Hn] Hp. destruct e as [[r|]|r event| |]; cbn [callback proper] in *; try done.
  - unfold OnNew. destruct (Z.leb_spec kMaxResults (Z.of_nat (base.size (pending_resolvers ctx)) + Z.of_nat (List.length (results ctx)))); [done|].
    assert (r ∉ pending_resolvers ctx) as Hr.
    { intros Hr. apply Hp. rewrite Hs, elem_of_app, elem_of_elements. by right. }
    split; cbn [pending_resolvers results created freed].
    + rewrite size_union by set_solver. rewrite size_singleton. lia.
    + rewrite Hs, <- app_assoc. f_equiv. rewrite (union_comm_L _ {[r]}), elements_union_singleton by done. by rewrite Permutation_app_comm.
    + apply NoDup_app. split_and!; [done| |by apply NoDup_singleton]. intros x Hx Hxr. by apply list_elem_of_singleton in Hxr as ->.
  - by unfold OnNew; case_match.
  - assert (Z.of_nat (base.size (pending_resolvers ctx)) = Z.of_nat (base.size (pending_resolvers ctx ∖ {[r]})) + 1) as Hsz.
    { rewrite (union_difference_singleton_L r (pending_resolvers ctx)) at 1 by done. rewrite size_union by set_solver. rewrite size_singleton. lia. }
    split; unfold ResolveCallback; cbn [pending_resolvers results created freed].
    + repeat case_match; rewrite ?length_app; cbn [List.length]; lia.
    + rewrite Hs, <- app_assoc. f_equiv. rewrite (union_difference_singleton_L r (pending_resolvers ctx)) at 1 by done.
      rewrite elements_union_singleton by set_solver. done.
    + done.
Qed.

Lemma events_inv es : forall ctx, browse_inv ctx -> proper_events es ctx -> browse_inv (foldl callback ctx es).
Proof. induction es as [|e es IH]; intros ctx Hc Hp; [done|]. destruct Hp. cbn. apply IH; [by apply callback_inv|done]. Qed.

Lemma pump_inv deadline slices : forall now ctx, browse_inv ctx -> proper_slices slices ctx -> browse_inv (pump slices now deadline ctx).
Proof.
  induction slices as [|s slices IH]; intros now ctx Hc Hp; [done|]. destruct Hp as [He Hs]. cbn. case_match; [done|].
  pose proof (events_inv _ _ Hc He). case_match; [done|]. by apply IH.
Qed.

(** A browse is bounded and leaks nothing: whatever answers come, however the browse ends, it
    returns at most twenty services, and every resolver that was created has been freed, once. *)
Theorem host_browse_frees_resolvers (setup : Setup) (slices : list Slice) (now timeout : Z) :
  proper_slices slices NewBrowseContext ->
  let ctx := Browse setup slices now timeout in
  Z.of_nat (List.length (results ctx)) <= kMaxResults /\ freed ctx ≡ₚ created ctx /\ NoDup (freed ctx).
Proof.
  intros Hp. assert (browse_inv NewBrowseContext) as H0 by (split; [by vm_compute|done|constructor]).
  unfold Browse. case_match; [split_and!; [by vm_compute|done|constructor]|].
  destruct (pump_inv (now + timeout) slices now _ H0 Hp) as [Hb Hs Hn]. cbn. split_and!; [lia|by rewrite Hs|by rewrite <- Hs].
Qed.

(** Two resolvers, of which one has its answer before the deadline. *)
Definition kitchen : Found :=
  {| f_name := Some "Kitchen"; f_host_name := Some "kitchen.local"; f_address := Some "10.0.0.7"; f_port := 8080;
     f_txt := [Some (Some "uuid", Some "a"); Some (Some "uuid", Some "b"); None] |}.

Lemma host_browse_frees_resolvers_witness :
  let ctx := Browse {| have_poll := true; have_client := true; have_browser := true |}
    [{| slice_end := 250; events := [New (Some 1%nat); New (Some 2%nat); Resolved 1 (Some kitchen)]; poll_failed := false |};
     {| slice_end := 1000; events := [New None]; poll_failed := false |}; {| slice_end := 1250; events := [New (Some 3%nat)]; poll_failed := false |}] 0 1000 in
  freed ctx ≡ₚ created ctx /\ freed ctx = [1%nat; 2%nat] /\ map address (results ctx) = ["10.0.0.7"].
Proof.
  intros ctx. split; [|by vm_compute]. apply host_browse_frees_resolvers. cbn. split_and!; try done; try set_solver;
    apply (bool_decide_unpack _); by vm_compute.
Defined.
End HostMdnsOk.

(** ** The firmware's WebSocket delivers whole messages *)

Module FirmwareWebSocketOk.
Import Assembler FirmwareWebSocket.

(** *** Reference: what a peer sends, frame by frame

    A frame has an opcode, a payload, and is the last of its message or not. The library
    brings it in pieces, each with its place in the payload: one event for an empty
    payload, otherwise pieces of at least one byte. *)
Record WsFrame := { w_opcode : Z; w_pieces : list string; w_final : bool }.

Definition w_payload (f : WsFrame) : string := string_concat (w_pieces f).

Definition well_cut (f : WsFrame) : Prop := w_pieces f <> [] /\ Forall (fun p => p <> EmptyString) (tail (w_pieces f)).

Fixpoint piece_events (f : WsFrame) (offset : Z) (ps : list string) : list Event :=
  match ps with
  | [] => []
  | p :: ps =>
      DataEvent {| op_code := w_opcode f; data := p; fin := w_final f; payload_offset := offset;
                   payload_len := size (w_payload f) |} :: piece_events f (offset + size p) ps
  end.

Definition frame_events (f : WsFrame) : list Event := piece_events f 0 (w_pieces f).

(** Frames, and events that are none. *)
Inductive Arrival := Arrived (f : WsFrame) | ConnectedNotice | OtherNotice.

Definition arrival_events (a : Arrival) : list Event :=
  match a with Arrived f => frame_events f | ConnectedNotice => [Connected] | OtherNotice => [OtherEvent] end.

Definition arrival_ok (a : Arrival) : Prop := match a with Arrived f => well_cut f | _ => True end.

(** The messages the frames make up, after [text] of the first of them, and whether the
    connection outlives them: text, binary and continuation frames belong to a message,
    and a message of more than 1 MiB ends it. *)
Fixpoint heard (text : string) (arrivals : list Arrival) : list string * bool :=
  match arrivals with
  | [] => ([], true)
  | Arrived f :: rest =>
      match w_opcode f with
      | 0 | 1 | 2 =>
          let text := text +:+ w_payload f in
          if 2 ^ 20 <? size text then ([], false)
          else if w_final f then let '(messages, still_open) := heard EmptyString rest in (text :: messages, still_open)
          else heard text rest
      | _ => heard text rest
      end
  | _ :: rest => heard text rest
  end.

(** How a stream stops: with the connection as it is, or with its end, which may cut a frame
    off after some of its pieces; what the library still brings after the end is [late]. *)
Inductive Stop := StillUp | Ended (f : WsFrame) (k : nat) (how : Event) (late : list Event).

Definition stop_events (s : Stop) : list Event :=
  match s with StillUp => [] | Ended f k how late => take k (frame_events f) ++ how :: late end.

Definition stop_ok (s : Stop) : Prop :=
  match s with
  | StillUp => True
  | Ended f k how _ => well_cut f /\ (k < List.length (w_pieces f))%nat /\ how ∈ [Disconnected; ErrorEvent; ClosedEvent]
  end.

(** A closed connection takes nothing more. *)
Lemma closed_stays es : forall c, closed_ c = true ->
  closed_ (foldl OnWebSocketEvent c es) = true /\ assembler_ (foldl OnWebSocketEvent c es) = assembler_ c.
Proof.
  induction es as [|e es IH]; intros c Hc; [done|]. cbn [foldl].
  assert (closed_ (OnWebSocketEvent c e) = true /\ assembler_ (OnWebSocketEvent c e) = assembler_ c) as [H1 H2].
  { destruct e; cbn; unfold HandleData; rewrite ?Hc; by repeat case_match. }
  destruct (IH _ H1) as [H3 H4]. by rewrite H3, H4.
Qed.

Lemma Add_cases piece last complete a : Add piece last complete a =
  if kMaxWebSocketMessageBytes <? size (in_progress_ a) + size piece then (kOversized, {| queue_ := queue_ a; in_progress_ := EmptyString |})
  else if last && complete then (kComplete, {| queue_ := drop_oldest (queue_ a ++ [in_progress_ a +:+ piece]); in_progress_ := EmptyString |})
  else (kPartial, {| queue_ := queue_ a; in_progress_ := in_progress_ a +:+ piece |}).
Proof. unfold Add. case_match; [done|]. by destruct last, complete. Qed.

Definition message_opcode (op : Z) : bool := match op with 0 | 1 | 2 => true | _ => false end.

Lemma IsApplicationDataOpcode_message op : IsApplicationDataOpcode op = message_opcode op.
Proof. by destruct op as [|[p|[p|p|]|]|]. Qed.

(** What the library's events leave: [Some] of the queue and the text in progress while the
    connection is open; after its end, the queue. *)
Definition sees (c : Client) (queue : list string) (text : option string) : Prop :=
  queue_ (assembler_ c) = queue /\
  match text with
  | Some text => closed_ c = false /\ in_progress_ (assembler_ c) = text
  | None => closed_ c = true
  end.

Lemma sees_closed c queue es : sees c queue None -> sees (foldl OnWebSocketEvent c es) queue None.
Proof. intros [Hq Hc]. destruct (closed_stays es c Hc) as [H1 H2]. split; [by rewrite H2|done]. Qed.

(** One piece of a message. *)
Lemma piece_step c queue text f p offset : sees c queue (Some text) -> message_opcode (w_opcode f) = true ->
  let c' := HandleData {| op_code := w_opcode f; data := p; fin := w_final f; payload_offset := offset;
                          payload_len := size (w_payload f) |} c in
  if 2 ^ 20 <? size (text +:+ p) then sees c' queue None
  else if w_final f && (size (w_payload f) <=? offset + size p)
  then sees c' (drop_oldest (queue ++ [text +:+ p])) (Some EmptyString)
  else sees c' queue (Some (text +:+ p)).
Proof.
  intros (Hq & Hc & Ht) Hop c'. subst c'. unfold HandleData. cbn [op_code data fin].
  rewrite IsApplicationDataOpcode_message, Hop, Hc, Add_cases, Hq, Ht, size_app. cbn [negb].
  unfold frame_complete. cbn [payload_len payload_offset data].
  change (2 ^ 20) with kMaxWebSocketMessageBytes. case_match; [done|]. by case_match.
Qed.

Lemma pieces_more p ps : p <> EmptyString -> 0 < size (string_concat (p :: ps)).
Proof.
  intros Hp. change (string_concat (p :: ps)) with (p +:+ string_concat ps). rewrite size_app.
  pose proof (size_nonneg (string_concat ps)). destruct p as [|a p]; [done|]. unfold size at 1. cbn [String.length]. lia.
Qed.

(** The pieces of a frame that are still to come, at their place in it. *)
Definition remains (f : WsFrame) (offset : Z) (ps : list string) : Prop :=
  offset + size (string_concat ps) = size (w_payload f) /\ Forall (fun p => p <> EmptyString) (tail ps).

Lemma remains_tail f offset p ps : remains f offset (p :: ps) ->
  remains f (offset + size p) ps /\ (size (w_payload f) <=? offset + size p) = match ps with [] => true | _ => false end.
Proof.
  intros [Hs Hn]. cbn [tail] in Hn. change (string_concat (p :: ps)) with (p +:+ string_concat ps) in Hs. rewrite size_app in Hs.
  split; [split; [lia|by destruct Hn]|]. destruct Hn as [|q qs Hq Hqs].
  - apply Z.leb_le. change (size (string_concat [])) with 0 in Hs. lia.
  - apply Z.leb_gt. pose proof (pieces_more q qs Hq). lia.
Qed.

(** A whole frame of a message, and a frame that breaks off. *)
Lemma frame_pieces f ps : forall c queue text offset, sees c queue (Some text) -> message_opcode (w_opcode f) = true ->
  ps <> [] -> remains f offset ps -> size text <= 2 ^ 20 ->
  let c' := foldl OnWebSocketEvent c (piece_events f offset ps) in
  let text' := text +:+ string_concat ps in
  if 2 ^ 20 <? size text' then sees c' queue None
  else if w_final f then sees c' (drop_oldest (queue ++ [text'])) (Some EmptyString)
  else sees c' queue (Some text').
Proof.
  induction ps as [|p ps IH]; intros c queue text offset Hc Hop Hps Hr Hb; [done|]. cbn [piece_events foldl OnWebSocketEvent].
  destruct (remains_tail _ _ _ _ Hr) as [Hr' Hlast]. pose proof (piece_step c queue text f p offset Hc Hop) as Hstep.
  rewrite Hlast in Hstep. cbv zeta in Hstep |- *. change (string_concat (p :: ps)) with (p +:+ string_concat ps).
  rewrite <- sapp_assoc, (size_app (text +:+ p)). pose proof (size_nonneg (string_concat ps)).
  destruct ps as [|q ps].
  { change (string_concat []) with EmptyString. rewrite sapp_nil_r, Z.add_0_r. rewrite andb_true_r in Hstep. exact Hstep. }
  rewrite andb_false_r in Hstep. destruct (Z.ltb_spec (2 ^ 20) (size (text +:+ p))).
  - rewrite (proj2 (Z.ltb_lt _ _)) by lia. by apply sees_closed.
  - specialize (IH _ _ _ _ Hstep Hop ltac:(done) Hr' ltac:(done)). cbv zeta in IH. by rewrite size_app in IH.
Qed.

Lemma frame_prefix f ps : forall c queue text offset k, sees c queue (Some text) -> message_opcode (w_opcode f) = true ->
  remains f offset ps -> (k < List.length ps)%nat ->
  exists rest, sees (foldl OnWebSocketEvent c (take k (piece_events f offset ps))) queue rest.
Proof.
  induction ps as [|p ps IH]; intros c queue text offset k Hc Hop Hr Hk; [cbn in Hk; lia|].
  destruct k as [|k]; [by exists (Some text)|]. cbn [piece_events take foldl OnWebSocketEvent].
  destruct (remains_tail _ _ _ _ Hr) as [Hr' Hlast]. pose proof (piece_step c queue text f p offset Hc Hop) as Hstep.
  destruct ps as [|q ps]; [cbn in Hk; lia|]. rewrite Hlast, andb_false_r in Hstep. cbv zeta in Hstep.
  case_match; [exists None; by apply sees_closed|]. eapply IH; [exact Hstep|done|done|cbn in *; lia].
Qed.

(** Frames that are no part of a message change nothing. *)
Lemma other_frame f ps : message_opcode (w_opcode f) = false ->
  forall c offset k, foldl OnWebSocketEvent c (take k (piece_events f offset ps)) = c.
Proof.
  intros Hop. induction ps as [|p ps IH]; intros c offset k; destruct k as [|k]; try done. cbn [piece_events take foldl OnWebSocketEvent].
  unfold HandleData at 1. cbn [op_code]. rewrite IsApplicationDataOpcode_message, Hop. apply IH.
Qed.

Lemma heard_frame text f rest : heard text (Arrived f :: rest) =
  if message_opcode (w_opcode f) then
    let text := text +:+ w_payload f in
    if 2 ^ 20 <? size text then ([], false)
    else if w_final f then let '(messages, still_open) := heard EmptyString rest in (text :: messages, still_open)
    else heard text rest
  else heard text rest.
Proof. cbn [heard]. by destruct (w_opcode f) as [|[p|[p|p|]|]|]. Qed.

Lemma arrivals_heard arrivals : forall c queue text, Forall arrival_ok arrivals -> size text <= 2 ^ 20 ->
  sees c queue (Some text) -> (List.length queue <= 20)%nat ->
  let '(messages, still_open) := heard text arrivals in
  Forall (fun m => size m <= 2 ^ 20) messages /\
  exists rest, sees (foldl OnWebSocketEvent c (concat (map arrival_events arrivals))) (last_n 20 (queue ++ messages)) rest /\
    (is_Some rest <-> still_open = true).
Proof.
  assert (Hid : forall queue : list string, (List.length queue <= 20)%nat -> last_n 20 (queue ++ []) = queue).
  { intros queue Hl. rewrite app_nil_r. unfold last_n. by replace (_ - 20)%nat with 0%nat by lia. }
  assert (Hlen : forall queue : list string, (List.length (last_n 20 queue) <= 20)%nat).
  { intros queue. unfold last_n. rewrite length_drop. lia. }
  induction arrivals as [|a arrivals IH]; intros c queue text Hok Hb Hc Hl.
  - cbn. split; [constructor|]. exists (Some text). rewrite Hid by done. split; [done|]. split; [done|by eexists].
  - apply Forall_cons in Hok as [Ha Hok]. cbn [map concat]. rewrite foldl_app.
    destruct a as [f| |]; [|by apply IH|by apply IH]. rewrite heard_frame. cbn [arrival_events arrival_ok] in *.
    destruct (message_opcode (w_opcode f)) eqn:Hop.
    2:{ pose proof (other_frame f (w_pieces f) Hop c 0 (List.length (frame_events f))) as E.
        rewrite firstn_all in E. unfold frame_events at 1. rewrite E. by apply IH. }
    destruct Ha as [Hne Htl].
    pose proof (frame_pieces f (w_pieces f) c queue text 0 Hc Hop Hne ltac:(by split) Hb) as Hf. cbv zeta in Hf |- *.
    fold (frame_events f) (w_payload f) in Hf. destruct (Z.ltb_spec (2 ^ 20) (size (text +:+ w_payload f))).
    { split; [constructor|]. exists None. rewrite Hid by done. split; [by apply sees_closed|]. split; [by intros []|done]. }
    destruct (w_final f).
    + rewrite drop_oldest_last in Hf. specialize (IH _ _ EmptyString Hok ltac:(by vm_compute) Hf (Hlen _)).
      destruct (heard EmptyString arrivals) as [messages still_open]. destruct IH as [Hm (rest & Hs & Ho)].
      split; [by constructor|]. exists rest. split; [|done]. by rewrite last_n_app, <- app_assoc in Hs.
    + by apply IH.
Qed.

(** C21: From a connection that has just been made, for every stream of frames however the library
    cuts them into pieces, with control frames between them and whatever way the stream
    stops: what can be received is the newest twenty of the whole messages that came, in their
    order, each the payloads of its frames put together and none above 1 MiB; nothing of a
    message that was cut off is received; the connection counts as open until its end or a
    message above the bound; and [ReceiveText] takes the oldest message, or nothing. *)
Theorem firmware_socket_delivers_messages (c : Client) (arrivals : list Arrival) (stop : Stop) :
  client_ c = true -> closed_ c = false -> assembler_ c = Assembler.empty ->
  Forall arrival_ok arrivals -> stop_ok stop ->
  let '(messages, still_open) := heard EmptyString arrivals in
  let '(received, c') := ReceiveText (concat (map arrival_events arrivals) ++ stop_events stop) c in
  received :: map Some (queue_ (assembler_ c')) =
    (match last_n 20 messages with [] => [None] | l => map Some l end) /\
  Forall (fun m => size m <= 2 ^ 20) messages /\
  (IsOpen c' = true <-> still_open = true /\ stop = StillUp).
Proof.
  intros Hcl Ho Ha Hok Hstop.
  pose proof (arrivals_heard arrivals c [] EmptyString Hok ltac:(by vm_compute) ltac:(unfold sees; by rewrite Ha) ltac:(cbn; lia)) as Hh.
  destruct (heard EmptyString arrivals) as [messages still_open]. destruct Hh as [Hm (rest & Hs & Hopen)]. cbn [app] in Hs.
  assert (exists rest', sees (foldl OnWebSocketEvent c (concat (map arrival_events arrivals) ++ stop_events stop)) (last_n 20 messages) rest' /\
            (is_Some rest' <-> still_open = true /\ stop = StillUp)) as (rest' & Hs' & Hopen').
  { rewrite foldl_app. destruct stop as [|f k how late]; [exists rest; cbn; tauto|]. exists None.
    split; [|split; [by intros []|by intros [_ ?]]]. destruct Hstop as ([Hne Htl] & Hk & Hhow). cbn [stop_events].
    destruct rest as [text|]; [|by apply sees_closed]. rewrite foldl_app. cbn [foldl].
    assert (exists rest, sees (foldl OnWebSocketEvent (foldl OnWebSocketEvent c (concat (map arrival_events arrivals)))
              (take k (frame_events f))) (last_n 20 messages) rest) as (r & Hq & _).
    { destruct (message_opcode (w_opcode f)) eqn:Hop.
      - by apply (frame_prefix f (w_pieces f) _ _ text 0 k Hs Hop).
      - exists (Some text). unfold frame_events. by rewrite other_frame. }
    apply sees_closed. set_unfold in Hhow. by destruct Hhow as [->|[->|[->|[]]]]. }
  assert (client_ (foldl OnWebSocketEvent c (concat (map arrival_events arrivals) ++ stop_events stop)) = true) as Hcl'.
  { rewrite <- Hcl. generalize (concat (map arrival_events arrivals) ++ stop_events stop). clear. intros es. revert c.
    induction es as [|e es IH]; intros c; [done|]. cbn [foldl]. rewrite IH.
    destruct e; cbn; unfold HandleData; repeat case_match; done. }
  unfold ReceiveText. set (c1 := foldl OnWebSocketEvent c (concat (map arrival_events arrivals) ++ stop_events stop)) in *.
  clearbody c1. destruct Hs' as [Hq Hr].
  assert (closed_ c1 = false <-> still_open = true /\ stop = StillUp) as Hc1.
  { rewrite <- Hopen'. destruct rest'; [destruct Hr as [-> _]; split; [by eexists|done]|rewrite Hr; split; [done|by intros []]]. }
  unfold HasMessage, Pop, IsOpen. rewrite Hq. destruct (last_n 20 messages) as [|m ms]; cbn [negb orb].
  - rewrite orb_true_r. rewrite Hq, Hcl'. split_and!; [done|done|]. rewrite <- Hc1. by destruct (closed_ c1).
  - cbn [client_ closed_ assembler_ queue_]. rewrite Hcl'. split_and!; [done|done|]. rewrite <- Hc1. by destruct (closed_ c1).
Qed.

(** A ping between the two halves of a message, the second half in two pieces, and a message
    cut off by the end of the connection. *)
Definition sample_arrivals : list Arrival :=
  [Arrived {| w_opcode := 1; w_pieces := ["{'a'"]; w_final := false |};
   Arrived {| w_opcode := 9; w_pieces := [EmptyString]; w_final := true |}; OtherNotice;
   Arrived {| w_opcode := 0; w_pieces := [":"; "1}"]; w_final := true |}].

Definition sample_stop : Stop :=
  Ended {| w_opcode := 1; w_pieces := ["la"; "te"]; w_final := true |} 1 ClosedEvent [Connected].

Lemma firmware_socket_delivers_messages_witness :
  exists c c', Connect {| init_ok := true; register_ok := true; start_ok := true; during_first_stop := []; while_waiting := [OtherEvent; Connected];
                          during_second_stop := [] |} NewClient = (true, c) /\
    ReceiveText (concat (map arrival_events sample_arrivals) ++ stop_events sample_stop) c = (Some "{'a':1}", c') /\
    queue_ (assembler_ c') = [] /\ (IsOpen c' = true <-> true = true /\ sample_stop = StillUp).
Proof.
  eexists _, _. split; [reflexivity|]. split; [vm_compute; reflexivity|].
  destruct (firmware_socket_delivers_messages
    {| client_ := true; connect_pending_ := false; connect_succeeded_ := true; assembler_ := Assembler.empty; closed_ := false |}
    sample_arrivals sample_stop eq_refl eq_refl eq_refl) as (Hq & _ & H).
  - repeat constructor; done.
  - cbn. split_and!; [split; [done|by repeat constructor]|lia|set_solver].
  - split; [reflexivity|exact H].
Defined.
End FirmwareWebSocketOk.
