(* ===== verification/Kodi.v ===== *)
(** Kodi: the connection to a Kodi instance.

    Models [src/src/core/kodi_client.cpp]: choosing the target, the JSON-RPC call with its
    interleaved notifications, the reconcile poll, the paged library listings, the two
    queues and the connection loop. As in [Harmony.v] the network, the clock, the stop
    token, the settings and the browse are an environment ([KodiEnv]) over a state [E],
    and every call into it is a point at which other threads may have queued commands or
    requests ([interfere]). The state is grouped as the code guards it: [snapshot] under
    its mutex, [own] only touched by the loop's thread, the queues and the trigger under
    the wake mutex. *)
From Stdlib Require Import SpecFloat.
From S2P Require Import Prelude Text Json Storage Connectivity Double KodiJson KodiTypes.

(** ** The snapshot's fields *)

Definition set_state (v : KodiConnectionState) (s : KodiSnapshot) : KodiSnapshot :=
  {| state := v; resolved_host := resolved_host s; target_configured := target_configured s;
     selected_uuid := selected_uuid s; discovered := discovered s; app_version := app_version s;
     volume := volume s; muted := muted s; now_playing := now_playing s; library_busy := library_busy s |}.
Definition set_app_version (v : string) (s : KodiSnapshot) : KodiSnapshot :=
  {| state := state s; resolved_host := resolved_host s; target_configured := target_configured s;
     selected_uuid := selected_uuid s; discovered := discovered s; app_version := v; volume := volume s;
     muted := muted s; now_playing := now_playing s; library_busy := library_busy s |}.
Definition set_volume (v : Z) (s : KodiSnapshot) : KodiSnapshot :=
  {| state := state s; resolved_host := resolved_host s; target_configured := target_configured s;
     selected_uuid := selected_uuid s; discovered := discovered s; app_version := app_version s; volume := v;
     muted := muted s; now_playing := now_playing s; library_busy := library_busy s |}.
Definition set_muted (v : bool) (s : KodiSnapshot) : KodiSnapshot :=
  {| state := state s; resolved_host := resolved_host s; target_configured := target_configured s;
     selected_uuid := selected_uuid s; discovered := discovered s; app_version := app_version s;
     volume := volume s; muted := v; now_playing := now_playing s; library_busy := library_busy s |}.
Definition set_now_playing (v : KodiNowPlaying) (s : KodiSnapshot) : KodiSnapshot :=
  {| state := state s; resolved_host := resolved_host s; target_configured := target_configured s;
     selected_uuid := selected_uuid s; discovered := discovered s; app_version := app_version s;
     volume := volume s; muted := muted s; now_playing := v; library_busy := library_busy s |}.
Definition set_library_busy (v : bool) (s : KodiSnapshot) : KodiSnapshot :=
  {| state := state s; resolved_host := resolved_host s; target_configured := target_configured s;
     selected_uuid := selected_uuid s; discovered := discovered s; app_version := app_version s;
     volume := volume s; muted := muted s; now_playing := now_playing s; library_busy := v |}.

(** The connection settings and the results of a browse, stored together. *)
Definition set_target (resolved : string) (configured : bool) (selected : string) (found : list KodiDiscoveredInstance)
    (s : KodiSnapshot) : KodiSnapshot :=
  {| state := state s; resolved_host := resolved; target_configured := configured; selected_uuid := selected;
     discovered := found; app_version := app_version s; volume := volume s; muted := muted s;
     now_playing := now_playing s; library_busy := library_busy s |}.

Definition set_identity (i : Identity) (np : KodiNowPlaying) : KodiNowPlaying :=
  {| playback := playback np; speed := speed np; identity := i; position_ms := position_ms np;
     duration_ms := duration_ms np; percent := percent np; can_seek := can_seek np |}.

Definition set_speed (v : Z) (np : KodiNowPlaying) : KodiNowPlaying :=
  {| playback := playback np; speed := v; identity := identity np; position_ms := position_ms np;
     duration_ms := duration_ms np; percent := percent np; can_seek := can_seek np |}.

Definition set_playback (v : KodiPlaybackState) (np : KodiNowPlaying) : KodiNowPlaying :=
  {| playback := v; speed := speed np; identity := identity np; position_ms := position_ms np;
     duration_ms := duration_ms np; percent := percent np; can_seek := can_seek np |}.

(** ** The loop thread's own fields

    [ws] is [ws_client_ != nullptr]. [starved] is not in the code: it records that a call
    ran out of the fuel of this model; [kodi_stops] shows it never does while the clock
    runs. *)
Record LoopState := {
  ws : bool;
  next_rpc_id : Z;
  last_call_timed_out : bool;
  needs_immediate_poll : bool;
  consecutive_poll_timeouts : Z;
  library_busy_ : bool;
  identity_from_notification : bool;
  player_stop_count : Z;
  backoff : RetryBackoff;
  no_target_backoff : RetryBackoff;
  starved : bool
}.

Definition set_ws (v : bool) (o : LoopState) : LoopState :=
  {| ws := v; next_rpc_id := next_rpc_id o; last_call_timed_out := last_call_timed_out o;
     needs_immediate_poll := needs_immediate_poll o; consecutive_poll_timeouts := consecutive_poll_timeouts o;
     library_busy_ := library_busy_ o; identity_from_notification := identity_from_notification o;
     player_stop_count := player_stop_count o; backoff := backoff o; no_target_backoff := no_target_backoff o;
     starved := starved o |}.
Definition set_next_rpc_id (v : Z) (o : LoopState) : LoopState :=
  {| ws := ws o; next_rpc_id := v; last_call_timed_out := last_call_timed_out o;
     needs_immediate_poll := needs_immediate_poll o; consecutive_poll_timeouts := consecutive_poll_timeouts o;
     library_busy_ := library_busy_ o; identity_from_notification := identity_from_notification o;
     player_stop_count := player_stop_count o; backoff := backoff o; no_target_backoff := no_target_backoff o;
     starved := starved o |}.
Definition set_last_call_timed_out (v : bool) (o : LoopState) : LoopState :=
  {| ws := ws o; next_rpc_id := next_rpc_id o; last_call_timed_out := v;
     needs_immediate_poll := needs_immediate_poll o; consecutive_poll_timeouts := consecutive_poll_timeouts o;
     library_busy_ := library_busy_ o; identity_from_notification := identity_from_notification o;
     player_stop_count := player_stop_count o; backoff := backoff o; no_target_backoff := no_target_backoff o;
     starved := starved o |}.
Definition set_needs_immediate_poll (v : bool) (o : LoopState) : LoopState :=
  {| ws := ws o; next_rpc_id := next_rpc_id o; last_call_timed_out := last_call_timed_out o;
     needs_immediate_poll := v; consecutive_poll_timeouts := consecutive_poll_timeouts o;
     library_busy_ := library_busy_ o; identity_from_notification := identity_from_notification o;
     player_stop_count := player_stop_count o; backoff := backoff o; no_target_backoff := no_target_backoff o;
     starved := starved o |}.
Definition set_consecutive_poll_timeouts (v : Z) (o : LoopState) : LoopState :=
  {| ws := ws o; next_rpc_id := next_rpc_id o; last_call_timed_out := last_call_timed_out o;
     needs_immediate_poll := needs_immediate_poll o; consecutive_poll_timeouts := v;
     library_busy_ := library_busy_ o; identity_from_notification := identity_from_notification o;
     player_stop_count := player_stop_count o; backoff := backoff o; no_target_backoff := no_target_backoff o;
     starved := starved o |}.
Definition set_library_busy_ (v : bool) (o : LoopState) : LoopState :=
  {| ws := ws o; next_rpc_id := next_rpc_id o; last_call_timed_out := last_call_timed_out o;
     needs_immediate_poll := needs_immediate_poll o; consecutive_poll_timeouts := consecutive_poll_timeouts o;
     library_busy_ := v; identity_from_notification := identity_from_notification o;
     player_stop_count := player_stop_count o; backoff := backoff o; no_target_backoff := no_target_backoff o;
     starved := starved o |}.
Definition set_identity_from_notification (v : bool) (o : LoopState) : LoopState :=
  {| ws := ws o; next_rpc_id := next_rpc_id o; last_call_timed_out := last_call_timed_out o;
     needs_immediate_poll := needs_immediate_poll o; consecutive_poll_timeouts := consecutive_poll_timeouts o;
     library_busy_ := library_busy_ o; identity_from_notification := v;
     player_stop_count := player_stop_count o; backoff := backoff o; no_target_backoff := no_target_backoff o;
     starved := starved o |}.
Definition set_player_stop_count (v : Z) (o : LoopState) : LoopState :=
  {| ws := ws o; next_rpc_id := next_rpc_id o; last_call_timed_out := last_call_timed_out o;
     needs_immediate_poll := needs_immediate_poll o; consecutive_poll_timeouts := consecutive_poll_timeouts o;
     library_busy_ := library_busy_ o; identity_from_notification := identity_from_notification o;
     player_stop_count := v; backoff := backoff o; no_target_backoff := no_target_backoff o;
     starved := starved o |}.
Definition set_backoff (v : RetryBackoff) (o : LoopState) : LoopState :=
  {| ws := ws o; next_rpc_id := next_rpc_id o; last_call_timed_out := last_call_timed_out o;
     needs_immediate_poll := needs_immediate_poll o; consecutive_poll_timeouts := consecutive_poll_timeouts o;
     library_busy_ := library_busy_ o; identity_from_notification := identity_from_notification o;
     player_stop_count := player_stop_count o; backoff := v; no_target_backoff := no_target_backoff o;
     starved := starved o |}.
Definition set_no_target_backoff (v : RetryBackoff) (o : LoopState) : LoopState :=
  {| ws := ws o; next_rpc_id := next_rpc_id o; last_call_timed_out := last_call_timed_out o;
     needs_immediate_poll := needs_immediate_poll o; consecutive_poll_timeouts := consecutive_poll_timeouts o;
     library_busy_ := library_busy_ o; identity_from_notification := identity_from_notification o;
     player_stop_count := player_stop_count o; backoff := backoff o; no_target_backoff := v;
     starved := starved o |}.
Definition set_starved (v : bool) (o : LoopState) : LoopState :=
  {| ws := ws o; next_rpc_id := next_rpc_id o; last_call_timed_out := last_call_timed_out o;
     needs_immediate_poll := needs_immediate_poll o; consecutive_poll_timeouts := consecutive_poll_timeouts o;
     library_busy_ := library_busy_ o; identity_from_notification := identity_from_notification o;
     player_stop_count := player_stop_count o; backoff := backoff o; no_target_backoff := no_target_backoff o;
     starved := v |}.

(** ** The environment *)

(** What another thread may do to the client at any moment. *)
Inductive ExternalOp := ExtCommand (c : PendingCommand) | ExtLibrary (r : LibraryRequest) | ExtTrigger.

Class KodiEnv (E : Type) := {
  ws_connect : string -> M E bool;               (* a new client from the factory, then [Connect] *)
  ws_send : string -> M E bool;
  ws_receive : Z -> M E (option string);
  ws_is_open : M E bool;
  ws_close : M E unit;
  stop_requested : M E bool;
  steady_now : M E Z;
  read_setting : string -> M E (option VersionedValue);   (* [storage_.GetSetting("kodi", key)] *)
  browse : string -> Z -> M E (list MdnsService);
  interfere : M E (list ExternalOp);
  wait : Z -> M E (bool * list ExternalOp);
  after_int_max : Z                                       (* what [++] leaves of the greatest [int] *)
}.

Section Client.
Context {E : Type} `{KodiEnv E} `{JsonCodec}.

(** [published] is every event, oldest first; [sent] every [SendText] and whether it
    succeeded. *)
Record World := {
  env : E; snapshot : KodiSnapshot; own : LoopState; pending_commands : list PendingCommand;
  pending_library_requests : list LibraryRequest; requested : bool; published : list KodiEvent;
  sent : list (string * bool)
}.

Definition with_env (v : E) (w : World) : World :=
  {| env := v; snapshot := snapshot w; own := own w; pending_commands := pending_commands w;
     pending_library_requests := pending_library_requests w; requested := requested w;
     published := published w; sent := sent w |}.
Definition with_snapshot (v : KodiSnapshot) (w : World) : World :=
  {| env := env w; snapshot := v; own := own w; pending_commands := pending_commands w;
     pending_library_requests := pending_library_requests w; requested := requested w;
     published := published w; sent := sent w |}.
Definition with_own (v : LoopState) (w : World) : World :=
  {| env := env w; snapshot := snapshot w; own := v; pending_commands := pending_commands w;
     pending_library_requests := pending_library_requests w; requested := requested w;
     published := published w; sent := sent w |}.
Definition with_published (v : list KodiEvent) (w : World) : World :=
  {| env := env w; snapshot := snapshot w; own := own w; pending_commands := pending_commands w;
     pending_library_requests := pending_library_requests w; requested := requested w; published := v;
     sent := sent w |}.
Definition with_sent (v : list (string * bool)) (w : World) : World :=
  {| env := env w; snapshot := snapshot w; own := own w; pending_commands := pending_commands w;
     pending_library_requests := pending_library_requests w; requested := requested w;
     published := published w; sent := v |}.
Definition with_queues (cs : list PendingCommand) (ls : list LibraryRequest) (r : bool) (w : World) : World :=
  {| env := env w; snapshot := snapshot w; own := own w; pending_commands := cs; pending_library_requests := ls;
     requested := r; published := published w; sent := sent w |}.

(** Updates of one field: the snapshot's under its mutex, the loop's own. *)
Definition update_snapshot (f : KodiSnapshot -> KodiSnapshot) : M World unit :=
  modify (fun w => with_snapshot (f (snapshot w)) w).
Definition update_own (f : LoopState -> LoopState) : M World unit := modify (fun w => with_own (f (own w)) w).

(** *** The queues *)

(** [pop_front] while the queue is longer than its bound. *)
Fixpoint drop_front {A} (bound : nat) (queue : list A) : list A :=
  match queue with
  | [] => []
  | _ :: rest => if (bound <? List.length queue)%nat then drop_front bound rest else queue
  end.

Definition EnqueueCommand (c : PendingCommand) (w : World) : World :=
  with_queues (drop_front kMaxPendingCommands (pending_commands w ++ [c])) (pending_library_requests w) (requested w) w.

Definition EnqueueLibraryRequest (r : LibraryRequest) (w : World) : World :=
  if bool_decide (r ∈ pending_library_requests w) then w
  else with_queues (pending_commands w)
         (drop_front kMaxPendingLibraryRequests (pending_library_requests w ++ [r])) (requested w) w.

Definition TriggerReconnect (w : World) : World :=
  with_queues (pending_commands w) (pending_library_requests w) (Trigger (requested w)) w.

Definition apply_external (w : World) (op : ExternalOp) : World :=
  match op with
  | ExtCommand c => EnqueueCommand c w
  | ExtLibrary r => EnqueueLibraryRequest r w
  | ExtTrigger => TriggerReconnect w
  end.

(** A call into the environment, with what other threads did meanwhile. *)
Definition call {A} (op : M E A) : M World A := fun w =>
  let '(a, e) := op (env w) in
  let '(ops, e') := interfere e in
  (a, foldl apply_external (with_env e' w) ops).

Definition Publish (ev : KodiEvent) : M World unit := modify (fun w => with_published (published w ++ [ev]) w).

Definition SendText (text : string) : M World bool :=
  let* ok := call (ws_send text) in
  modify (fun w => with_sent (sent w ++ [(text, ok)]) w) ;;* ret ok.

Definition has_work (w : World) : bool :=
  negb (bool_decide (pending_commands w = [])) || negb (bool_decide (pending_library_requests w = [])).

Definition wake_event_of (op : ExternalOp) : wake_event :=
  match op with ExtTrigger => WakeTrigger | _ => WakeWork end.

Definition Sleep (delay : Z) (watch_commands : bool) : M World Reason := fun w =>
  let '((stopped, ops), e) := wait delay (env w) in
  let w' := foldl apply_external (with_env e w) ops in
  let '(reason, left_requested, rest) :=
    Wait watch_commands (has_work w) stopped (map wake_event_of ops) (requested w) in
  let triggered_later := existsb (fun ev => match ev with WakeTrigger => true | _ => false end) rest in
  (reason, with_queues (pending_commands w') (pending_library_requests w') (left_requested || triggered_later) w').

(** *** State changes and the busy flag *)

Definition SetState (s : KodiConnectionState) : M World unit :=
  let* current := gets (fun w => state (snapshot w)) in
  if bool_decide (current = s) then ret tt
  else update_snapshot (set_state s) ;;* Publish (KodiConnectionStateChangedEvent s).

Definition SetLibraryBusy (busy : bool) : M World unit :=
  let* current := gets (fun w => library_busy_ (own w)) in
  if Bool.eqb current busy then ret tt
  else
    update_own (set_library_busy_ busy) ;;*
    update_snapshot (set_library_busy busy) ;;*
    Publish KodiNowPlayingChangedEvent.

(** *** The target *)

Definition setting_or_empty (v : option VersionedValue) : string :=
  match v with Some v => vv_value v | None => EmptyString end.

Context (initial_backoff max_backoff reconcile_interval pump_interval browse_timeout max_pending_command_age
         library_busy_after library_call_timeout : Z).

Definition ResolveTarget : M World (option Target) :=
  let* host_setting := call (read_setting kHostKey) in
  let host := setting_or_empty host_setting in
  if negb (is_empty host) && IsValidKodiHost host then
    update_snapshot (set_target host true EmptyString []) ;;*
    ret (Some {| target_host := host; target_port := kDefaultPort |})
  else
    let* answers := call (browse kServiceType browse_timeout) in
    let instances := discover answers in
    let* uuid_setting := call (read_setting kInstanceUuidKey) in
    let selected := setting_or_empty uuid_setting in
    let chosen := choose selected instances in
    let resolved := match chosen with Some s => HostPortAuthority (address s) (port s) | None => EmptyString end in
    update_snapshot (set_target resolved (negb (is_empty selected)) selected (map discovered_of instances)) ;;*
    ret (match chosen with Some s => Some {| target_host := address s; target_port := port s |} | None => None end).

(** *** Notifications *)

Definition publish_if (changed : bool) : M World unit :=
  if changed then Publish KodiNowPlayingChangedEvent else ret tt.

Definition update_now_playing (f : KodiNowPlaying -> KodiNowPlaying) : M World unit :=
  update_snapshot (fun s => set_now_playing (f (now_playing s)) s).

(** [data.contains("volume") && data["volume"].is_number_integer()] and its assignment. *)
Definition on_volume_changed (data : json) : M World bool :=
  let* v := match find "volume" data with
            | Some (JInt z) => update_snapshot (set_volume (ClampVolume (to_i64 z))) ;;* ret true
            | _ => ret false
            end in
  let* m := match find "muted" data with
            | Some (JBool b) => update_snapshot (set_muted b) ;;* ret true
            | _ => ret false
            end in
  ret (v || m).

(** Something is shown: playback is active, or a title is left. *)
Definition showing (np : KodiNowPlaying) : bool :=
  negb (bool_decide (playback np = kInactive)) || negb (is_empty (title (identity np))).

Definition reset_if_showing : M World bool :=
  let* np := gets (fun w => now_playing (snapshot w)) in
  if showing np then update_now_playing (fun _ => nothing_playing) ;;* ret true else ret false.

Definition on_stop : M World bool :=
  update_own (fun o => set_player_stop_count (wrap_u 32 (player_stop_count o + 1)) o) ;;*
  let* changed := reset_if_showing in
  update_own (set_identity_from_notification false) ;;*
  ret changed.

Definition merge_item (item : json) (np : KodiNowPlaying) : KodiNowPlaying :=
  set_identity (ApplyItemFields item (identity np)) np.

Definition notification_speed (data : json) (np : KodiNowPlaying) : KodiNowPlaying :=
  match find_object "player" data with
  | Some p => match find "speed" p with Some (JInt z) => set_speed (ClampSpeed (to_i64 z)) np | _ => np end
  | None => np
  end.

Definition on_player (m : string) (data : json) : M World bool :=
  match find "item" data with
  | Some item =>
      (if String.eqb m "Player.OnPlay" then update_now_playing (set_identity no_identity) else ret tt) ;;*
      update_now_playing (merge_item item) ;;*
      update_own (set_identity_from_notification true)
  | None => ret tt
  end ;;*
  update_now_playing (fun np =>
    let np := notification_speed data np in set_playback (PlaybackFromSpeed (speed np)) np) ;;*
  update_own (set_needs_immediate_poll true) ;;*
  ret true.

(** [frame["params"]["data"]], an empty object when either is missing or not an object. *)
Definition notification_data (frame : json) : json :=
  match find_object "params" frame with
  | Some p => match find_object "data" p with Some d => d | None => JObject [] end
  | None => JObject []
  end.

Definition HandleNotification (frame_text : string) : M World unit :=
  let frame := ParseBoundedJson frame_text in
  if is_discarded frame || negb (is_object frame) then ret tt
  else match find_string "method" frame with
       | None =>
           match find "id" frame with Some (JInt _) => SetLibraryBusy false | _ => ret tt end
       | Some m =>
           let data := notification_data frame in
           let* changed :=
             if String.eqb m "Application.OnVolumeChanged" then on_volume_changed data
             else if String.eqb m "Player.OnStop" then on_stop
             else if starts_with "Player.On" m then on_player m data
             else ret false in
           publish_if changed
       end.

(** *** Calls *)

(** [call_fuel] bounds the frames one call reads; see [call_terminates]. *)
Context (call_fuel : nat).

Definition starve {A} (a : A) : M World A := update_own (set_starved true) ;;* ret a.

(** No reply: whether the link is still open says what kind of failure it was. *)
Definition abandon : M World (option string) :=
  let* open := call ws_is_open in
  update_own (set_last_call_timed_out open) ;;* ret None.

(** [ws_client_->IsOpen() && steady_clock::now() >= wait_until - kBusySliceSlack]. *)
Definition slice_elapsed (wait_until : Z) : M World bool :=
  let* open := call ws_is_open in
  if negb open then ret false
  else let* now := call steady_now in ret (wait_until - kBusySliceSlack <=? now).

Fixpoint await_reply (fuel : nat) (id deadline busy_at : Z) (report_busy : bool) : M World (option string) :=
  match fuel with
  | O => starve None
  | S fuel' =>
      let again := await_reply fuel' id deadline busy_at report_busy in
      let* stopped := call stop_requested in
      if stopped : bool then ret None
      else
        let* now := call steady_now in
        if deadline <=? now then abandon
        else
          let* busy := gets (fun w => library_busy_ (own w)) in
          let wait_until := if report_busy && negb busy && (now <? busy_at) then Z.min deadline busy_at else deadline in
          let slice := to_i32 ((wait_until - now) ÷ ms 1) in
          let* text := call (ws_receive (Z.max slice 1)) in
          match text with
          | None =>
              let* first_slice := if wait_until <? deadline then slice_elapsed wait_until else ret false in
              if first_slice : bool then SetLibraryBusy true ;;* again else abandon
          | Some text =>
              let frame := ParseBoundedJson text in
              if is_discarded frame || negb (is_object frame) then again
              else
                let otherwise := (if contains "method" frame then HandleNotification text else ret tt) ;;* again in
                match find "id" frame with
                | Some (JInt z) => SetLibraryBusy false ;;* if to_i32 z =? id then ret (Some text) else otherwise
                | _ => otherwise
                end
          end
  end.

(** [++] on an [int]: undefined for the greatest one, where the model leaves any [int]. *)
Definition increment (z : Z) : Z := to_i32 (if z =? INT_MAX then after_int_max else z + 1).

(** [++next_rpc_id_]. *)
Definition next_id : M World Z :=
  update_own (fun o => set_next_rpc_id (increment (next_rpc_id o)) o) ;;* gets (fun w => next_rpc_id (own w)).

Definition Call (m params : string) (timeout_ms : Z) (report_busy : bool) : M World (option string) :=
  let* open := gets (fun w => ws (own w)) in
  if negb open then ret None
  else
    update_own (set_last_call_timed_out false) ;;*
    let* id := next_id in
    let* ok := SendText (rpc_request id m params) in
    if negb ok then ret None
    else
      let* started := call steady_now in
      await_reply call_fuel id (started + ms timeout_ms) (started + ms library_busy_after) report_busy.

(** [parsed.is_object() ? parsed.find("result") : parsed.end()]. *)
Definition result_of (parsed : json) : option json := find "result" parsed.

(** *** Sending the queued commands *)

Definition first_player_id (text : string) : Z :=
  match result_of (ParseBoundedJson text) with
  | Some (JArray (p :: _)) => to_i32 (GetInt p "playerid" (-1))
  | _ => -1
  end.

Definition ResolveActivePlayerId : M World Z :=
  let* text := Call "Player.GetActivePlayers" EmptyString kCallTimeoutMs false in
  ret (match text with Some text => first_player_id text | None => -1 end).

Definition is_stale (now : Z) (c : PendingCommand) : bool :=
  negb (keep_when_stale c) && (ms max_pending_command_age <? now - enqueued_at c).

Fixpoint send_commands (player_id now : Z) (batch : list PendingCommand) (transport_failed : bool) : M World bool :=
  match batch with
  | [] => ret (negb transport_failed)
  | c :: rest =>
      let* stopped := call stop_requested in
      if stopped : bool then ret false
      else if is_stale now c then send_commands player_id now rest transport_failed
      else if transport_failed && negb (keep_when_stale c) then send_commands player_id now rest transport_failed
      else match command_request player_id c with
           | None => send_commands player_id now rest transport_failed
           | Some (m, p) =>
               let* id := next_id in
               let* ok := SendText (rpc_request id m p) in
               send_commands player_id now rest (transport_failed || negb ok)
           end
  end.

Definition take_commands : M World (list PendingCommand) := fun w =>
  (pending_commands w, with_queues [] (pending_library_requests w) (requested w) w).

Definition needs_player (c : PendingCommand) : bool := match player_command c with Some _ => true | None => false end.

Definition SendPendingCommands : M World bool :=
  let* batch := take_commands in
  if bool_decide (batch = []) then ret true
  else
    let* open := gets (fun w => ws (own w)) in
    if negb open then ret false
    else
      let* player_id := if existsb needs_player batch then ResolveActivePlayerId else ret (-1) in
      let* now := call steady_now in
      send_commands player_id now batch false.

(** *** Library listings *)

Definition timed_out_reply : string := raw "{'error':{'code':-1,'message':'timed out'}}".

(** [survive_timeout]: only a dead transport loses the reply; [true] is [truncated]. *)
Definition survive_timeout (text : option string) : M World (option string * bool) :=
  let* timed_out := gets (fun w => last_call_timed_out (own w)) in
  ret (match text with
       | Some t => (Some t, false)
       | None => if timed_out : bool then (Some timed_out_reply, true) else (None, false)
       end).

Definition library_call (m params : string) : M World (option string) := Call m params library_call_timeout true.

Definition page_params (params : json) (start : Z) : json :=
  set_key "limits" (JObject [("start", JInt start); ("end", JInt (start + kLibraryPageSize))]) params.

(** [GetInt(limits, "total", -1)] of a page's result. *)
Definition page_total (parsed : json) : Z :=
  let empty := JObject [] in
  match result_of parsed with
  | Some r => GetInt (match find "limits" r with Some l => l | None => empty end) "total" (-1)
  | None => -1
  end.

Definition item_count (l : list json) : Z := Z.of_nat (List.length l).

(** The items pushed before the cap stops the inner loop. *)
Definition push_page (merged page : list json) : list json :=
  merged ++ firstn (Z.to_nat (kMaxLibraryItems - item_count merged)) page.

(** The loop of [CallLibrary]: [inl] is an early return, [inr] what is left after the
    loop, the merged items and [truncated]. *)
Fixpoint fetch_pages (fuel : nat) (m : string) (params : json) (key : string) (start : Z) (merged : list json)
    (truncated : bool) : M World ((option string * bool) + (list json * bool)) :=
  match fuel with
  | O => starve (inr (merged, truncated))
  | S fuel' =>
      if negb (item_count merged <? kMaxLibraryItems) then ret (inr (merged, truncated))
      else
        let* sent_ok := if 0 <? start then SendPendingCommands else ret true in
        if negb sent_ok then ret (inl (None, truncated))
        else
          let params := page_params params start in
          let* text := library_call m (json_dump params) in
          match text with
          | None =>
              let* timed_out := gets (fun w => last_call_timed_out (own w)) in
              ret (if negb timed_out then inl (None, truncated)
                   else match merged with
                        | [] => inl (Some timed_out_reply, true)
                        | _ => inr (merged, true)
                        end)
          | Some text =>
              let parsed := ParseBoundedJson text in
              match ResultArray parsed key with
              | None =>
                  if start =? 0 then
                    if is_object parsed && contains "error" parsed then
                      let* retry := library_call m (json_dump (erase_key "limits" params)) in
                      let* r := survive_timeout retry in ret (inl r)
                    else ret (inl (Some text, truncated))
                  else ret (inr (merged, true))
              | Some page =>
                  let page_size := item_count page in
                  let merged := push_page merged page in
                  let start := start + page_size in
                  let total := page_total parsed in
                  if negb (page_size =? kLibraryPageSize) || ((0 <=? total) && (total <=? start))
                  then ret (inr (merged, truncated))
                  else fetch_pages fuel' m params key start merged (kMaxLibraryItems <=? item_count merged)
              end
          end
  end.

(** Full pages of 500 reach the cap of 10000 after twenty; see [pages_enough_fuel]. *)
Definition page_fuel : nat := 21.

(** The reply's text and [truncated]. *)
Definition CallLibrary (m params_json : string) (key : option string) : M World (option string * bool) :=
  let* sent_ok := SendPendingCommands in
  if negb sent_ok then ret (None, false)
  else match key with
       | None => let* text := library_call m params_json in survive_timeout text
       | Some key =>
           let params := ParseBoundedJson params_json in
           if negb (is_object params) then ret (None, false)
           else
             let* pages := fetch_pages page_fuel m params key 0 [] false in
             match pages with
             | inl r => ret r
             | inr (merged, truncated) =>
                 ret (Some (json_dump (JObject [("result", JObject [(key, JArray merged)])])), truncated)
             end
       end.

Fixpoint serve_requests (batch : list LibraryRequest) : M World bool :=
  match batch with
  | [] => ret true
  | r :: rest =>
      let* stopped := call stop_requested in
      if stopped : bool then ret false
      else
        let q := BuildLibraryQuery r in
        let* reply := CallLibrary (q_method q) (q_params q) (result_key q) in
        match reply with
        | (None, _) => ret false
        | (Some text, truncated) => Publish (publish q text truncated) ;;* serve_requests rest
        end
  end.

Definition take_library_requests : M World (list LibraryRequest) := fun w =>
  (pending_library_requests w, with_queues (pending_commands w) [] (requested w) w).

Definition SendPendingLibraryRequests : M World bool :=
  let* batch := take_library_requests in
  if bool_decide (batch = []) then ret true
  else
    let* open := gets (fun w => ws (own w)) in
    if negb open then ret false else serve_requests batch.

(** *** The reconcile poll *)

(** [call_failed]: a poll that got no answer ends the link, unless it timed out on an open
    one and may still be tolerated. *)
Definition call_failed (changed tolerate_timeout : bool) : M World bool :=
  publish_if changed ;;*
  let* timed_out := gets (fun w => last_call_timed_out (own w)) in
  if negb tolerate_timeout || negb timed_out then ret false
  else
    update_own (fun o => set_consecutive_poll_timeouts (consecutive_poll_timeouts o + 1) o) ;;*
    gets (fun w => consecutive_poll_timeouts (own w) <? kMaxToleratedPollTimeouts).

Definition version_text (version : json) : string :=
  to_string (GetInt version "major" 0) +:+ "." +:+ to_string (GetInt version "minor" 0).

(** The reply to [Application.GetProperties]; whether volume or mute changed. *)
Definition apply_application (reply : string) : M World bool :=
  match result_of (ParseBoundedJson reply) with
  | Some (JObject r) =>
      let result := JObject r in
      let* s := gets snapshot in
      let* v := match find "volume" result with
                | Some (JInt z) =>
                    if ClampVolume (to_i64 z) =? volume s then ret false
                    else update_snapshot (set_volume (ClampVolume (to_i64 z))) ;;* ret true
                | _ => ret false
                end in
      let* m := match find "muted" result with
                | Some (JBool b) => if Bool.eqb b (muted s) then ret false else update_snapshot (set_muted b) ;;* ret true
                | _ => ret false
                end in
      match find_object "version" result with
      | Some version => update_snapshot (set_app_version (version_text version))
      | None => ret tt
      end ;;*
      ret (v || m)
  | _ => ret false
  end.

Definition time_of (props : json) (key : string) : Z :=
  MillisFromTimeObject (match find key props with Some t => t | None => JObject [] end).

(** The reply to [Player.GetProperties]. *)
Definition apply_properties (reply : string) (np : KodiNowPlaying) : KodiNowPlaying :=
  match result_of (ParseBoundedJson reply) with
  | Some (JObject r) =>
      let props := JObject r in
      let sp := ClampSpeed (GetInt props "speed" (speed np)) in
      {| playback := PlaybackFromSpeed sp; speed := sp; identity := identity np;
         position_ms := time_of props "time"; duration_ms := time_of props "totaltime";
         percent := GetDouble props "percentage" (percent np); can_seek := GetBool props "canseek" (can_seek np) |}
  | _ => np
  end.

(** The reply to [Player.GetItem]. *)
Definition apply_item (reply : string) (np : KodiNowPlaying) : KodiNowPlaying :=
  match result_of (ParseBoundedJson reply) with
  | Some (JObject r) =>
      match find "item" (JObject r) with Some item => merge_item item np | None => np end
  | _ => np
  end.

(** Both replies, under the mutex; the item only until a notification named one. *)
Definition apply_player (props item : string) : M World bool :=
  let* before := gets (fun w => now_playing (snapshot w)) in
  let* from_notification := gets (fun w => identity_from_notification (own w)) in
  let np := apply_properties props before in
  let np := if from_notification : bool then np else apply_item item np in
  update_now_playing (fun _ => np) ;;*
  ret (negb (now_playing_eqb np before)).

Definition finish_poll (changed : bool) : M World bool := publish_if changed ;;* ret true.

(** A call of the poll: the rest of it with the reply, or the poll's failure. *)
Definition poll_call (changed tolerate : bool) (m params : string) (k : string -> M World bool) : M World bool :=
  let* text := Call m params kCallTimeoutMs false in
  match text with None => call_failed changed tolerate | Some text => k text end.

Definition player_params (player_id : Z) (properties : string) : string :=
  raw "{'playerid':" +:+ to_string player_id +:+ raw ",'properties':" +:+ raw properties +:+ "}".

(** What [Player.GetActivePlayers] says: nothing is playing, or the first player's id. *)
Definition active_player (reply : string) : option Z :=
  match result_of (ParseBoundedJson reply) with
  | Some (JArray (p :: _)) => Some (to_i32 (GetInt p "playerid" (-1)))
  | _ => None
  end.

Definition poll_idle (changed : bool) : M World bool :=
  let* reset := reset_if_showing in
  update_own (set_identity_from_notification false) ;;*
  finish_poll (changed || reset).

Definition poll_player (changed tolerate : bool) (player_id : Z) : M World bool :=
  let* stops_before := gets (fun w => player_stop_count (own w)) in
  poll_call changed tolerate "Player.GetProperties"
    (player_params player_id "['speed','percentage','time','totaltime','canseek']") (fun props =>
  poll_call changed tolerate "Player.GetItem"
    (player_params player_id "['title','showtitle','season','episode']") (fun item =>
  let* stops := gets (fun w => player_stop_count (own w)) in
  if negb (stops =? stops_before) then update_own (set_needs_immediate_poll true) ;;* finish_poll changed
  else
    let* moved := apply_player props item in
    finish_poll (changed || moved))).

Definition ReconcilePoll (tolerate : bool) : M World bool :=
  poll_call false tolerate "Application.GetProperties" (raw "{'properties':['volume','muted','version']}") (fun app =>
  update_own (set_consecutive_poll_timeouts 0) ;;*
  let* changed := apply_application app in
  poll_call changed tolerate "Player.GetActivePlayers" EmptyString (fun players =>
  match active_player players with
  | None => poll_idle changed
  | Some player_id => if player_id <? 0 then finish_poll changed else poll_player changed tolerate player_id
  end)).

(** *** The connection *)

Fixpoint pump (n : nat) : M World unit :=
  match n with
  | O => ret tt
  | S n' =>
      let* text := call (ws_receive 0) in
      match text with Some text => HandleNotification text ;;* pump n' | None => ret tt end
  end.

Definition PumpNotifications : M World unit :=
  let* open := gets (fun w => ws (own w)) in
  if open : bool then pump kMaxPumpIterations else ret tt.

Definition ConnectAndPrime (target : Target) : M World bool :=
  update_own (set_ws true) ;;*
  let* connected := call (ws_connect (WebSocketUrl (target_host target) (target_port target))) in
  if negb connected then ret false
  else
    let* stopped := call stop_requested in
    if stopped : bool then ret false
    else
      update_now_playing (fun _ => nothing_playing) ;;*
      update_own (set_identity_from_notification false) ;;*
      ReconcilePoll false.

(** [Close] and [reset], and the busy flag with them. *)
Definition drop_link : M World unit :=
  let* open := gets (fun w => ws (own w)) in
  (if open : bool then call ws_close ;;* update_own (set_ws false) else ret tt) ;;*
  SetLibraryBusy false.

Definition next_backoff (get : LoopState -> RetryBackoff) (set : RetryBackoff -> LoopState -> LoopState) : M World Z :=
  fun w => let '(delay, b) := NextDelay (get (own w)) in (delay, with_own (set b (own w)) w).

(** [false] when the fuel ran out before the loop was left. *)
Fixpoint connected_loop (fuel : nat) (last_reconcile : Z) : M World bool :=
  match fuel with
  | O => ret false
  | S fuel' =>
      let* stopped := call stop_requested in
      if stopped : bool then ret true
      else
        let* reason := Sleep pump_interval true in
        match reason with
        | kStopRequested => ret true
        | _ =>
            PumpNotifications ;;*
            let* ok := SendPendingCommands in
            if negb ok then ret true
            else
              let* ok := SendPendingLibraryRequests in
              if negb ok then ret true
              else match reason with
                   | kTriggered => ret true
                   | kCommandPending => connected_loop fuel' last_reconcile
                   | _ =>
                       let* now := call steady_now in
                       let* immediate := gets (fun w => needs_immediate_poll (own w)) in
                       if immediate || (ms reconcile_interval <=? now - last_reconcile) then
                         update_own (set_needs_immediate_poll false) ;;*
                         let* alive := ReconcilePoll true in
                         if negb alive then ret true
                         else let* now := call steady_now in connected_loop fuel' now
                       else connected_loop fuel' last_reconcile
                   end
        end
  end.

Definition serve_connection (fuel : nat) : M World bool :=
  update_own (fun o => set_backoff (ResetBackoff (backoff o)) o) ;;*
  SetState kConnected ;;*
  let* now := call steady_now in
  let* left_loop := connected_loop fuel now in
  if negb left_loop then ret false else drop_link ;;* ret true.

Definition loop_iteration (fuel : nat) : M World bool :=
  let* target := ResolveTarget in
  match target with
  | None =>
      SetState kDisconnected ;;*
      let* delay := next_backoff no_target_backoff set_no_target_backoff in
      Sleep delay false ;;* ret true
  | Some target =>
      update_own (fun o => set_no_target_backoff (ResetBackoff (no_target_backoff o)) o) ;;*
      SetState kConnecting ;;*
      let* ok := ConnectAndPrime target in
      if negb ok then
        drop_link ;;*
        SetState kError ;;*
        let* delay := next_backoff backoff set_backoff in
        Sleep delay false ;;* ret true
      else serve_connection fuel
  end.

(** [true] when the stop was seen within the fuel. *)
Fixpoint ConnectionLoop (fuel : nat) : M World bool :=
  match fuel with
  | O => ret false
  | S fuel' =>
      let* stopped := call stop_requested in
      if stopped : bool then SetState kDisconnected ;;* ret true
      else
        let* completed := loop_iteration fuel' in
        if negb completed then ret false else ConnectionLoop fuel'
  end.

(** The client as constructed. *)
Definition start (e : E) : World :=
  {| env := e; snapshot := initial_snapshot;
     own := {| ws := false; next_rpc_id := 0; last_call_timed_out := false; needs_immediate_poll := false;
               consecutive_poll_timeouts := 0; library_busy_ := false; identity_from_notification := false;
               player_stop_count := 0; backoff := NewRetryBackoff initial_backoff max_backoff;
               no_target_backoff := NewRetryBackoff initial_backoff (Z.min max_backoff kNoTargetMaxRecheckInterval);
               starved := false |};
     pending_commands := []; pending_library_requests := []; requested := false; published := []; sent := [] |}.
End Client.
