(* ===== verification/KodiInvariant.v ===== *)
(** KodiInvariant: what stays true of the Kodi client whatever the network does.

    Lemmas on every operation of [Kodi.v] and the theorems that follow from them: the
    invariant of the snapshot and the queues ([kodi_invariant]), and that the loop ends
    once a stop is requested ([kodi_stops]). *)
From Stdlib Require Import SpecFloat.
From S2P Require Import Prelude Text Json Storage Connectivity Double KodiJson KodiTypes Kodi.

(** ** The invariant *)

Definition transitions (evs : list KodiEvent) : list KodiConnectionState :=
  omap (fun ev => match ev with KodiConnectionStateChangedEvent s => Some s | _ => None end) evs.

(** Each announced state differs from the one before it; the last one. *)
Fixpoint follow (s : KodiConnectionState) (l : list KodiConnectionState) : option KodiConnectionState :=
  match l with
  | [] => Some s
  | s' :: l' => if bool_decide (s = s') then None else follow s' l'
  end.

Definition identity_ok (i : Identity) : Prop :=
  -1 <= season i <= kMaxSeasonOrEpisode /\ -1 <= episode i <= kMaxSeasonOrEpisode.

Definition max_time_ms : Z := 3661001000000.

Definition playing_ok (np : KodiNowPlaying) : Prop :=
  - kMaxSpeed <= speed np <= kMaxSpeed /\ identity_ok (identity np) /\
  0 <= position_ms np <= max_time_ms /\ 0 <= duration_ms np <= max_time_ms.

Definition snapshot_ok (s : KodiSnapshot) : Prop := 0 <= volume s <= kMaxVolume /\ playing_ok (now_playing s).

Section Invariant.
Context {E : Type}.

Definition queues_ok (w : World (E := E)) : Prop :=
  (List.length (pending_commands w) <= kMaxPendingCommands)%nat /\
  (List.length (pending_library_requests w) <= kMaxPendingLibraryRequests)%nat /\
  NoDup (pending_library_requests w).

(** The busy flag is shown as the loop has it, and only while there is a connection. *)
Definition busy_ok (w : World (E := E)) : Prop :=
  library_busy (snapshot w) = library_busy_ (own w) /\ (library_busy_ (own w) = true -> ws (own w) = true).

Definition kodi_ok (w : World (E := E)) : Prop :=
  follow kDisconnected (transitions (published w)) = Some (state (snapshot w)) /\
  queues_ok w /\ snapshot_ok (snapshot w) /\ busy_ok w.

Lemma kodi_ok_intro w :
  follow kDisconnected (transitions (published w)) = Some (state (snapshot w)) ->
  (List.length (pending_commands w) <= kMaxPendingCommands)%nat ->
  (List.length (pending_library_requests w) <= kMaxPendingLibraryRequests)%nat ->
  NoDup (pending_library_requests w) -> snapshot_ok (snapshot w) ->
  library_busy (snapshot w) = library_busy_ (own w) ->
  (library_busy_ (own w) = true -> ws (own w) = true) -> kodi_ok w.
Proof. intros. refine (conj _ (conj (conj _ (conj _ _)) (conj _ (conj _ _)))); assumption. Qed.

Definition linked (w : World (E := E)) : Prop := kodi_ok w /\ ws (own w) = true.

Definition same_link (w w' : World (E := E)) : Prop := ws (own w') = ws (own w).

#[global] Instance same_link_preorder : PreOrder same_link.
Proof. unfold same_link. split; [done|]. intros w1 w2 w3 A B. congruence. Qed.

Lemma keeps_linked {A} (m : M (World (E := E)) A) :
  related (keeps kodi_ok) m -> related same_link m -> related (keeps linked) m.
Proof. intros H1 H2 w [Hw Hl]. split; [by apply H1|]. pose proof (H2 w) as Hs. unfold same_link in Hs. congruence. Qed.

Lemma kodi_follow_app s l l' : follow s (l ++ l') = match follow s l with Some s1 => follow s1 l' | None => None end.
Proof. revert s. induction l as [|x l IH]; intros s; [done|]. cbn. case_bool_decide; [done|]. apply IH. Qed.

Lemma transitions_app a b : transitions (a ++ b) = transitions a ++ transitions b.
Proof. apply omap_app. Qed.

(** *** The queues *)

Lemma kodi_drop_front_bound {A} n (q : list A) : (List.length (drop_front n q) <= n)%nat.
Proof.
  induction q as [|c q IH]; [cbn; lia|]. cbn [drop_front].
  destruct (Nat.ltb_spec n (List.length (c :: q))); [done|lia].
Qed.

Lemma drop_front_suffix {A} n (q : list A) : drop_front n q `suffix_of` q.
Proof.
  induction q as [|c q IH]; [done|]. cbn [drop_front]. destruct (Nat.ltb _ _); [|done]. by apply suffix_cons_r.
Qed.

Lemma drop_front_sublist {A} n (q : list A) : sublist (drop_front n q) q.
Proof. destruct (drop_front_suffix n q) as [l Hl]. rewrite Hl at 2. by apply sublist_inserts_l. Qed.

Lemma drop_front_NoDup {A} n (q : list A) : NoDup q -> NoDup (drop_front n q).
Proof. intros Hq. eapply sublist_NoDup; [exact Hq|apply drop_front_sublist]. Qed.

Lemma external_ok op (w : World (E := E)) : kodi_ok w -> kodi_ok (apply_external w op).
Proof.
  intros (H1 & (H2 & H3 & H4) & H5 & H6 & H7). destruct op as [c|r|]; cbn [apply_external].
  - apply kodi_ok_intro; try done. apply kodi_drop_front_bound.
  - unfold EnqueueLibraryRequest. case_bool_decide as Hr; [by apply kodi_ok_intro|]. apply kodi_ok_intro; try done; cbn.
    + apply kodi_drop_front_bound.
    + apply drop_front_NoDup, NoDup_app. split_and!; [done| |apply NoDup_singleton]. set_solver.
  - by apply kodi_ok_intro.
Qed.

Lemma externals_ok ops (w : World (E := E)) : kodi_ok w -> kodi_ok (foldl apply_external w ops).
Proof. revert w. induction ops as [|op ops IH]; intros w Hw; [done|]. cbn [foldl]. by apply IH, external_ok. Qed.

Lemma kodi_external_same op (w : World (E := E)) :
  snapshot (apply_external w op) = snapshot w /\ own (apply_external w op) = own w /\
  published (apply_external w op) = published w /\ sent (apply_external w op) = sent w /\
  env (apply_external w op) = env w.
Proof. destruct op as [c|r|]; [done| |done]. cbn. unfold EnqueueLibraryRequest. by case_bool_decide. Qed.

Lemma externals_same ops (w : World (E := E)) :
  let w' := foldl apply_external w ops in
  snapshot w' = snapshot w /\ own w' = own w /\ published w' = published w /\ sent w' = sent w /\ env w' = env w.
Proof.
  cbv zeta. revert w. induction ops as [|op ops IH]; intros w; [done|]. cbn [foldl].
  destruct (IH (apply_external w op)) as (-> & -> & -> & -> & ->). apply kodi_external_same.
Qed.
End Invariant.

(** ** Steps that keep the invariant *)

Section Steps.
Context {E : Type} `{KodiEnv E} `{JsonCodec}.

(** What a call into the environment leaves alone. *)
Lemma kodi_call_same {A} (op : M E A) w :
  let w' := (call op w).2 in
  snapshot w' = snapshot w /\ own w' = own w /\ published w' = published w /\ sent w' = sent w.
Proof.
  cbv zeta. unfold call. destruct (op (env w)) as [a e]. destruct (interfere e) as [ops e']. cbn [snd].
  by destruct (externals_same ops (with_env e' w)) as (-> & -> & -> & -> & _).
Qed.

Lemma call_ok {A} (op : M E A) : related (keeps kodi_ok) (call op).
Proof.
  intros w Hw. unfold exec, call. destruct (op (env w)) as [a e]. destruct (interfere e) as [ops e'].
  apply externals_ok, Hw.
Qed.

(** An update the invariant does not see. *)
Lemma update_own_ok f :
  (forall o, ws (f o) = ws o /\ library_busy_ (f o) = library_busy_ o) -> related (keeps (kodi_ok (E := E))) (update_own f).
Proof.
  intros Hf w (H1 & (H2 & H3 & H4) & H5 & H6 & H7). destruct (Hf (own w)) as [Hw Hb].
  apply kodi_ok_intro; try done; cbn; by rewrite ?Hw, ?Hb.
Qed.

Lemma Publish_ok ev :
  match ev with KodiConnectionStateChangedEvent _ => False | _ => True end ->
  related (keeps (kodi_ok (E := E))) (Publish ev).
Proof.
  intros Hev w (H1 & (H2 & H3 & H4) & H5 & H6 & H7). apply kodi_ok_intro; try done. cbn [exec Publish modify snd published with_published snapshot].
  rewrite transitions_app, kodi_follow_app, H1. by destruct ev.
Qed.

Lemma update_snapshot_ok f :
  (forall s, snapshot_ok s -> snapshot_ok (f s) /\ state (f s) = state s /\ library_busy (f s) = library_busy s) ->
  related (keeps (kodi_ok (E := E))) (update_snapshot f).
Proof.
  intros Hf w (H1 & (H2 & H3 & H4) & H5 & H6 & H7). destruct (Hf _ H5) as (F1 & F2 & F3).
  apply kodi_ok_intro; try done; cbn; by rewrite ?F2, ?F3.
Qed.

Lemma update_playing_ok f :
  (forall np, playing_ok np -> playing_ok (f np)) -> related (keeps (kodi_ok (E := E))) (update_now_playing f).
Proof. intros Hf. apply update_snapshot_ok. intros s [Hv Hp]. split_and!; [split; [done|by apply Hf]|done|done]. Qed.

Lemma kodi_SetState_ok s : related (keeps (kodi_ok (E := E))) (SetState s).
Proof.
  intros w (H1 & (H2 & H3 & H4) & H5 & H6 & H7). unfold exec, SetState. rewrite run_bind. cbn [gets fst snd].
  case_bool_decide as Hd; [by apply kodi_ok_intro|]. apply kodi_ok_intro; try done.
  cbn [update_snapshot Publish modify bind snd published with_published with_snapshot snapshot set_state state].
  rewrite transitions_app, kodi_follow_app, H1. cbn. by rewrite bool_decide_false.
Qed.

Lemma SetLibraryBusy_ok b (w : World (E := E)) : kodi_ok w -> (b = true -> ws (own w) = true) -> kodi_ok (exec (SetLibraryBusy b) w).
Proof.
  intros (H1 & (H2 & H3 & H4) & H5 & H6 & H7) Hb. unfold exec, SetLibraryBusy. rewrite run_bind. cbn [gets fst snd].
  destruct (Bool.eqb _ _); [by apply kodi_ok_intro|]. apply kodi_ok_intro; try done. cbn.
  by rewrite transitions_app, kodi_follow_app, H1.
Qed.

Lemma not_busy_ok : related (keeps (kodi_ok (E := E))) (SetLibraryBusy false).
Proof. intros w Hw. by apply SetLibraryBusy_ok. Qed.

Lemma busy_linked b : related (keeps (linked (E := E))) (SetLibraryBusy b).
Proof.
  intros w [Hw Hl]. split; [by apply SetLibraryBusy_ok|]. unfold exec, SetLibraryBusy. rewrite run_bind.
  cbn [gets fst snd]. by destruct (Bool.eqb _ _).
Qed.

Lemma SendText_ok text : related (keeps kodi_ok) (SendText text).
Proof.
  unfold SendText. apply related_bind; [exact _|apply call_ok|intros ok].
  apply related_bind; [exact _|intros w Hw; exact Hw|intros _; apply related_ret; exact _].
Qed.

Lemma take_commands_ok : related (keeps (kodi_ok (E := E))) take_commands.
Proof. intros w (H1 & (H2 & H3 & H4) & H5 & H6 & H7). apply kodi_ok_intro; try done. cbn. lia. Qed.

Lemma take_library_requests_ok : related (keeps (kodi_ok (E := E))) take_library_requests.
Proof. intros w (H1 & (H2 & H3 & H4) & H5 & H6 & H7). apply kodi_ok_intro; try done; cbn; [lia|constructor]. Qed.

Lemma Sleep_ok delay watch : related (keeps kodi_ok) (Sleep delay watch).
Proof.
  intros w Hw. unfold exec, Sleep. destruct (wait delay (env w)) as [[stopped ops] e].
  destruct (Wait _ _ _ _ _) as [[r q] rest]. apply (externals_ok ops (with_env e w)), Hw.
Qed.

Lemma next_backoff_ok get set :
  (forall b o, ws (set b o) = ws o /\ library_busy_ (set b o) = library_busy_ o) ->
  related (keeps (kodi_ok (E := E))) (next_backoff get set).
Proof.
  intros Hf w (H1 & (H2 & H3 & H4) & H5 & H6 & H7). unfold exec, next_backoff. destruct (NextDelay _) as [d b].
  destruct (Hf b (own w)) as [Hw Hb]. apply kodi_ok_intro; try done; cbn; by rewrite ?Hw, ?Hb.
Qed.

(** *** The fields' ranges *)

Lemma ClampVolume_range v : 0 <= ClampVolume v <= kMaxVolume.
Proof. unfold ClampVolume, kMaxVolume. repeat case_if; bool_to_prop; lia. Qed.

Lemma ClampSpeed_range v : - kMaxSpeed <= ClampSpeed v <= kMaxSpeed.
Proof. unfold ClampSpeed, kMaxSpeed. repeat case_if; bool_to_prop; lia. Qed.

Lemma nothing_playing_ok : playing_ok nothing_playing.
Proof. unfold playing_ok, identity_ok, kMaxSpeed, max_time_ms, kMaxSeasonOrEpisode. cbn. lia. Qed.

Lemma ApplyItemFields_ok item i : identity_ok i -> identity_ok (ApplyItemFields item i).
Proof.
  intros Hi. destruct (item_fields_range item i) as [Hs He]. unfold identity_ok in *.
  destruct Hs as [->|Hs]; destruct He as [->|He]; lia.
Qed.

Lemma merge_item_ok item np : playing_ok np -> playing_ok (merge_item item np).
Proof. intros (H1 & H2 & H3 & H4). split_and!; try apply H1; try apply H3; try apply H4; by apply ApplyItemFields_ok. Qed.

Lemma time_of_range props key : 0 <= time_of props key <= max_time_ms.
Proof. apply time_object_range. Qed.

Lemma apply_properties_ok reply np : playing_ok np -> playing_ok (apply_properties reply np).
Proof.
  intros Hnp. unfold apply_properties. destruct (result_of _) as [[]|]; try done.
  destruct Hnp as (H1 & H2 & H3 & H4). split_and!; cbn [speed identity position_ms duration_ms];
    try apply ClampSpeed_range; try apply H2; apply time_of_range.
Qed.

Lemma apply_item_ok reply np : playing_ok np -> playing_ok (apply_item reply np).
Proof.
  intros Hnp. unfold apply_item. destruct (result_of _) as [[]|]; try done. destruct (find _ _); [by apply merge_item_ok|done].
Qed.

Lemma notification_speed_ok data np : playing_ok np -> playing_ok (notification_speed data np).
Proof.
  intros Hnp. unfold notification_speed. destruct (find_object _ _); [|done]. destruct (find _ _) as [[]|]; try done.
  destruct Hnp as (H1 & H2 & H3 & H4). split_and!; try done; try apply H3; try apply H4; apply ClampSpeed_range.
Qed.

Lemma set_playback_ok p np : playing_ok np -> playing_ok (set_playback p np).
Proof. done. Qed.

Lemma no_identity_ok np : playing_ok np -> playing_ok (set_identity no_identity np).
Proof. intros (H1 & H2 & H3). repeat split; try apply H1; try apply H3; done. Qed.

Lemma set_volume_ok v s :
  snapshot_ok s -> snapshot_ok (set_volume (ClampVolume v) s) /\ state (set_volume (ClampVolume v) s) = state s /\
                   library_busy (set_volume (ClampVolume v) s) = library_busy s.
Proof. intros [_ Hp]. repeat split; try apply Hp; apply ClampVolume_range. Qed.
End Steps.

Create HintDb kodi discriminated.
#[export] Hint Constants Opaque : kodi.
#[export] Hint Resolve call_ok kodi_SetState_ok not_busy_ok SendText_ok take_commands_ok take_library_requests_ok Sleep_ok
  nothing_playing_ok set_playback_ok no_identity_ok merge_item_ok apply_properties_ok apply_item_ok notification_speed_ok : kodi.

(** The leaves of a traversal with the invariant. *)
Ltac ok_leaf := idtac;
  match goal with
  | |- related (keeps kodi_ok) (update_own _) => apply update_own_ok; by intros
  | |- related (keeps kodi_ok) (Publish _) => apply Publish_ok; exact I
  | |- related (keeps kodi_ok) (update_now_playing _) =>
      apply update_playing_ok; intros ? ?; solve [eauto with kodi]
  | |- related (keeps kodi_ok) (update_snapshot _) =>
      apply update_snapshot_ok; intros ? Hs; solve [by apply set_volume_ok | exact (conj Hs (conj eq_refl eq_refl))]
  | |- related (keeps kodi_ok) _ => solve [eauto 2 with kodi]
  end.

Section Operations.
Context {E : Type} `{KodiEnv E} `{JsonCodec}.

Lemma publish_if_ok b : related (keeps (kodi_ok (E := E))) (publish_if b).
Proof. unfold publish_if. related_steps ok_leaf. Qed.

Lemma reset_if_showing_ok : related (keeps (kodi_ok (E := E))) reset_if_showing.
Proof. unfold reset_if_showing. related_steps ok_leaf. Qed.

Lemma HandleNotification_ok text : related (keeps (kodi_ok (E := E))) (HandleNotification text).
Proof.
  unfold HandleNotification, on_volume_changed, on_stop, on_player. cbv zeta.
  related_steps (apply reset_if_showing_ok || apply publish_if_ok || ok_leaf).
Qed.

Lemma update_own_link (f : LoopState -> LoopState) :
  (forall o, ws (f o) = ws o) -> related (same_link (E := E)) (update_own f).
Proof. intros Hf w. apply Hf. Qed.

Lemma call_link {A} (op : M E A) : related same_link (call op).
Proof. intros w. unfold same_link, exec. by destruct (kodi_call_same op w) as (_ & -> & _). Qed.

Lemma SendText_link text : related same_link (SendText text).
Proof.
  unfold SendText. apply related_bind; [exact _|apply call_link|intros ok].
  apply related_bind; [exact _|by intros w|intros _; apply related_ret; exact _].
Qed.

Lemma SetLibraryBusy_link b : related (same_link (E := E)) (SetLibraryBusy b).
Proof.
  intros w. unfold exec, SetLibraryBusy. rewrite run_bind. cbn [gets fst snd]. by destruct (Bool.eqb _ _).
Qed.

Lemma Sleep_link delay watch : related same_link (Sleep delay watch).
Proof.
  intros w. unfold exec, Sleep, same_link. destruct (wait delay (env w)) as [[stopped ops] e].
  destruct (Wait _ _ _ _ _) as [[r q] rest]. cbn. by destruct (externals_same ops (with_env e w)) as (_ & -> & _).
Qed.
End Operations.

(** The leaves of a traversal that follows the socket only. *)
Ltac link_leaf := idtac;
  match goal with
  | |- related same_link (call _) => apply call_link
  | |- related same_link (update_own _) => apply update_own_link; by intros
  | |- related same_link (SendText _) => apply SendText_link
  | |- related same_link (SetLibraryBusy _) => apply SetLibraryBusy_link
  | |- related same_link (Sleep _ _) => apply Sleep_link
  | |- related same_link (Publish _) => by intros ?
  | |- related same_link (update_snapshot _) => by intros ?
  | |- related same_link (update_now_playing _) => by intros ?
  | |- related same_link (next_backoff _ _) => intros ?; unfold same_link, exec, next_backoff; by destruct (NextDelay _)
  | |- related same_link take_commands => by intros ?
  | |- related same_link take_library_requests => by intros ?
  end.

Section Calls.
Context {E : Type} `{KodiEnv E} `{JsonCodec}
  (initial_backoff max_backoff reconcile_interval pump_interval browse_timeout max_age busy_after library_timeout : Z)
  (call_fuel : nat).

Abbreviation Call := (Call busy_after call_fuel).
Abbreviation ReconcilePoll := (ReconcilePoll busy_after call_fuel).
Abbreviation SendPendingCommands := (SendPendingCommands max_age busy_after call_fuel).
Abbreviation CallLibrary := (CallLibrary max_age busy_after library_timeout call_fuel).
Abbreviation SendPendingLibraryRequests := (SendPendingLibraryRequests max_age busy_after library_timeout call_fuel).

Lemma publish_if_link b : related (same_link (E := E)) (publish_if b).
Proof. unfold publish_if. related_steps link_leaf. Qed.

Lemma HandleNotification_link text : related (same_link (E := E)) (HandleNotification text).
Proof.
  unfold HandleNotification, on_volume_changed, on_stop, on_player, reset_if_showing. cbv zeta.
  related_steps (apply publish_if_link || link_leaf).
Qed.

Lemma await_reply_link fuel id deadline busy_at rb : related (same_link (E := E)) (await_reply fuel id deadline busy_at rb).
Proof.
  induction fuel as [|fuel IH]; cbn [await_reply]; unfold starve, abandon, slice_elapsed; cbv zeta;
  related_steps (apply IH || apply HandleNotification_link || link_leaf).
Qed.

Lemma await_reply_ok fuel id deadline busy_at rb : related (keeps (linked (E := E))) (await_reply fuel id deadline busy_at rb).
Proof.
  assert (Hl : forall A (m : M (World (E := E)) A), related (keeps kodi_ok) m -> related same_link m -> related (keeps linked) m)
    by (intros; by apply keeps_linked).
  induction fuel as [|fuel IH]; cbn [await_reply]; unfold starve, abandon, slice_elapsed; cbv zeta;
  related_steps (first
    [ apply IH | apply busy_linked
    | apply Hl; [apply HandleNotification_ok|apply HandleNotification_link]
    | apply Hl; [ok_leaf|link_leaf] ]).
Qed.

Lemma Call_link m p t rb : related (same_link (E := E)) (Call m p t rb).
Proof. unfold Kodi.Call, next_id. related_steps (apply await_reply_link || link_leaf). Qed.

Lemma Call_ok m p t rb : related (keeps (kodi_ok (E := E))) (Call m p t rb).
Proof.
  intros w Hw. unfold exec, Kodi.Call. rewrite run_bind. cbn [gets fst snd]. destruct (ws (own w)) eqn:Ew; [|exact Hw].
  cbn [negb].
  match goal with |- kodi_ok (?m w).2 => assert (Hm : related (keeps (linked (E := E))) m) end.
  2: { apply (Hm w). by split. }
  unfold next_id.
  related_steps (apply await_reply_ok || (apply keeps_linked; [ok_leaf|link_leaf])).
Qed.
End Calls.

(** *** The rest of the loop: once for the socket, once for the invariant *)

Ltac link_more := idtac;
  lazymatch goal with
  | |- related _ (Call _ _ _ _ _ _) => apply Call_link
  | |- related _ (publish_if _) => apply publish_if_link
  | |- related _ (HandleNotification _) => apply HandleNotification_link
  | |- _ => link_leaf
  end.
Ltac ok_more := idtac;
  lazymatch goal with
  | |- related _ (Call _ _ _ _ _ _) => apply Call_ok
  | |- related _ (publish_if _) => apply publish_if_ok
  | |- related _ reset_if_showing => apply reset_if_showing_ok
  | |- related _ (HandleNotification _) => apply HandleNotification_ok
  | |- _ => ok_leaf
  end.

Section Drains.
Context {E : Type} `{KodiEnv E} `{JsonCodec}
  (initial_backoff max_backoff reconcile_interval pump_interval browse_timeout max_age busy_after library_timeout : Z)
  (call_fuel : nat).

Abbreviation Call := (Call busy_after call_fuel).
Abbreviation ReconcilePoll := (ReconcilePoll busy_after call_fuel).
Abbreviation SendPendingCommands := (SendPendingCommands max_age busy_after call_fuel).
Abbreviation CallLibrary := (CallLibrary max_age busy_after library_timeout call_fuel).
Abbreviation SendPendingLibraryRequests := (SendPendingLibraryRequests max_age busy_after library_timeout call_fuel).

Lemma send_commands_link pid now batch failed : related (same_link (E := E)) (send_commands max_age pid now batch failed).
Proof.
  revert failed. induction batch as [|c batch IH]; intros failed; cbn [send_commands]; unfold next_id;
  related_steps (apply IH || link_more).
Qed.

Lemma send_commands_ok pid now batch failed :
  related (keeps (kodi_ok (E := E))) (send_commands max_age pid now batch failed).
Proof.
  revert failed. induction batch as [|c batch IH]; intros failed; cbn [send_commands]; unfold next_id;
  related_steps (apply IH || ok_more).
Qed.

Lemma SendPendingCommands_link : related (same_link (E := E)) SendPendingCommands.
Proof. unfold Kodi.SendPendingCommands, ResolveActivePlayerId. related_steps (apply send_commands_link || link_more). Qed.

Lemma SendPendingCommands_ok : related (keeps (kodi_ok (E := E))) SendPendingCommands.
Proof. unfold Kodi.SendPendingCommands, ResolveActivePlayerId. related_steps (apply send_commands_ok || ok_more). Qed.

Lemma fetch_pages_link fuel m params key start merged truncated :
  related (same_link (E := E)) (fetch_pages max_age busy_after library_timeout call_fuel fuel m params key start merged truncated).
Proof.
  revert params start merged truncated.
  induction fuel as [|fuel IH]; intros; cbn [fetch_pages]; unfold starve, library_call, survive_timeout; cbv zeta;
  related_steps (apply IH || apply SendPendingCommands_link || link_more).
Qed.

Lemma fetch_pages_ok fuel m params key start merged truncated :
  related (keeps (kodi_ok (E := E)))
    (fetch_pages max_age busy_after library_timeout call_fuel fuel m params key start merged truncated).
Proof.
  revert params start merged truncated.
  induction fuel as [|fuel IH]; intros; cbn [fetch_pages]; unfold starve, library_call, survive_timeout; cbv zeta;
  related_steps (apply IH || apply SendPendingCommands_ok || ok_more).
Qed.

Lemma CallLibrary_link m p key : related (same_link (E := E)) (CallLibrary m p key).
Proof.
  unfold Kodi.CallLibrary, library_call, survive_timeout; cbv zeta.
  related_steps (apply fetch_pages_link || apply SendPendingCommands_link || link_more).
Qed.

Lemma CallLibrary_ok m p key : related (keeps (kodi_ok (E := E))) (CallLibrary m p key).
Proof.
  unfold Kodi.CallLibrary, library_call, survive_timeout; cbv zeta.
  related_steps (apply fetch_pages_ok || apply SendPendingCommands_ok || ok_more).
Qed.

(** A listing event is not a state change. *)
Lemma listing_event r text truncated :
  match publish (BuildLibraryQuery r) text truncated with KodiConnectionStateChangedEvent _ => False | _ => True end.
Proof. unfold BuildLibraryQuery. by destruct (lr_kind r). Qed.

Lemma serve_requests_link batch :
  related (same_link (E := E)) (serve_requests max_age busy_after library_timeout call_fuel batch).
Proof.
  induction batch as [|r batch IH]; cbn [serve_requests]; cbv zeta;
  related_steps (apply IH || apply CallLibrary_link || link_more).
Qed.

Lemma serve_requests_ok batch :
  related (keeps (kodi_ok (E := E))) (serve_requests max_age busy_after library_timeout call_fuel batch).
Proof.
  induction batch as [|r batch IH]; cbn [serve_requests]; cbv zeta;
  related_steps (first [ apply IH | apply CallLibrary_ok | apply Publish_ok, listing_event | ok_more ]).
Qed.

Lemma SendPendingLibraryRequests_link : related (same_link (E := E)) SendPendingLibraryRequests.
Proof. unfold Kodi.SendPendingLibraryRequests. related_steps (apply serve_requests_link || link_more). Qed.

Lemma SendPendingLibraryRequests_ok : related (keeps (kodi_ok (E := E))) SendPendingLibraryRequests.
Proof. unfold Kodi.SendPendingLibraryRequests. related_steps (apply serve_requests_ok || ok_more). Qed.

Lemma ReconcilePoll_link tolerate : related (same_link (E := E)) (ReconcilePoll tolerate).
Proof.
  unfold Kodi.ReconcilePoll, poll_call, poll_player, poll_idle, finish_poll, call_failed, apply_application, apply_player,
    reset_if_showing; cbv zeta. unfold poll_call.
  related_steps link_more.
Qed.

Lemma apply_application_ok reply : related (keeps (kodi_ok (E := E))) (apply_application reply).
Proof. unfold apply_application; cbv zeta. related_steps ok_more. Qed.

Lemma apply_player_ok props item : related (keeps (kodi_ok (E := E))) (apply_player props item).
Proof.
  intros w Hw. unfold exec, apply_player. cbv zeta. rewrite (run_bind (gets _)), (run_bind (gets _)). cbn [gets fst snd].
  rewrite run_bind. cbn [ret snd]. refine (update_playing_ok _ _ w Hw). intros _ _.
  destruct Hw as (_ & _ & [_ Hp] & _). destruct (identity_from_notification (own w)); eauto with kodi.
Qed.

Lemma ReconcilePoll_ok tolerate : related (keeps (kodi_ok (E := E))) (ReconcilePoll tolerate).
Proof.
  unfold Kodi.ReconcilePoll, poll_call, poll_player, poll_idle, finish_poll, call_failed; cbv zeta. unfold poll_call.
  related_steps (apply apply_application_ok || apply apply_player_ok || ok_more).
Qed.

Lemma PumpNotifications_link : related (same_link (E := E)) PumpNotifications.
Proof.
  assert (Hp : forall n, related (same_link (E := E)) (pump n)).
  { induction n as [|n IH]; cbn [pump]; related_steps (apply IH || link_more). }
  unfold PumpNotifications. related_steps (apply Hp || link_more).
Qed.

Lemma PumpNotifications_ok : related (keeps (kodi_ok (E := E))) PumpNotifications.
Proof.
  assert (Hp : forall n, related (keeps (kodi_ok (E := E))) (pump n)).
  { induction n as [|n IH]; cbn [pump]; related_steps (apply IH || ok_more). }
  unfold PumpNotifications. related_steps (apply Hp || ok_more).
Qed.

Lemma set_ws_ok : related (keeps (kodi_ok (E := E))) (update_own (set_ws true)).
Proof. intros w (H1 & (H2 & H3 & H4) & H5 & H6 & H7). by apply kodi_ok_intro. Qed.

Lemma ConnectAndPrime_ok target : related (keeps (kodi_ok (E := E))) (ConnectAndPrime busy_after call_fuel target).
Proof. unfold ConnectAndPrime. related_steps (apply set_ws_ok || apply ReconcilePoll_ok || ok_more). Qed.

(** Dropping the link clears the busy flag with it. *)
Lemma drop_link_ok : related (keeps (kodi_ok (E := E))) drop_link.
Proof.
  intros w Hw. unfold exec, drop_link. rewrite run_bind. cbn [gets fst snd]. destruct (ws (own w)) eqn:Ew.
  2: { rewrite run_bind. cbn [ret fst snd]. by apply not_busy_ok. }
  rewrite !run_bind. set (w1 := (call ws_close w).2).
  assert (Hw1 : kodi_ok w1) by by apply (call_ok ws_close w).
  destruct Hw1 as (H1 & (H2 & H3 & H4) & H5 & H6 & H7). unfold SetLibraryBusy, update_own, modify. rewrite run_bind.
  cbn [gets fst snd own with_own set_ws library_busy_].
  destruct (library_busy_ (own w1)) eqn:Eb; cbn [Bool.eqb].
  - apply kodi_ok_intro; try done. cbn. by rewrite transitions_app, kodi_follow_app, H1.
  - apply kodi_ok_intro; try done; cbn; by rewrite Eb in *.
Qed.

Lemma drop_link_closed w : ws (own (exec drop_link w)) = false.
Proof.
  unfold exec, drop_link. rewrite run_bind. cbn [gets fst snd]. destruct (ws (own w)) eqn:Ew; rewrite !run_bind;
    rewrite (SetLibraryBusy_link false _ : ws (own (SetLibraryBusy false _).2) = _); done.
Qed.
End Drains.

(** ** The loop *)

Section Loop.
Context {E : Type} `{KodiEnv E} `{JsonCodec}
  (initial_backoff max_backoff reconcile_interval pump_interval browse_timeout max_age busy_after library_timeout : Z)
  (call_fuel : nat).

Abbreviation Connected := (connected_loop reconcile_interval pump_interval max_age busy_after library_timeout call_fuel).
Abbreviation Iteration := (loop_iteration reconcile_interval pump_interval browse_timeout max_age busy_after library_timeout call_fuel).
Abbreviation Loop := (ConnectionLoop reconcile_interval pump_interval browse_timeout max_age busy_after library_timeout call_fuel).

Ltac ok_loop := idtac;
  lazymatch goal with
  | |- related _ PumpNotifications => apply PumpNotifications_ok
  | |- related _ (SendPendingCommands _ _ _) => apply SendPendingCommands_ok
  | |- related _ (SendPendingLibraryRequests _ _ _ _) => apply SendPendingLibraryRequests_ok
  | |- related _ (ReconcilePoll _ _ _) => apply ReconcilePoll_ok
  | |- related _ (ConnectAndPrime _ _ _) => apply ConnectAndPrime_ok
  | |- related _ drop_link => apply drop_link_ok
  | |- related _ (next_backoff _ _) => apply next_backoff_ok; by intros
  | |- _ => ok_more
  end.

Lemma connected_loop_ok fuel last : related (keeps (kodi_ok (E := E))) (Connected fuel last).
Proof.
  revert last. induction fuel as [|fuel IH]; intros last; cbn [connected_loop]; related_steps (apply IH || ok_loop).
Qed.

Lemma ResolveTarget_ok : related (keeps (kodi_ok (E := E))) (ResolveTarget browse_timeout).
Proof. unfold ResolveTarget; cbv zeta. related_steps ok_loop. Qed.

Lemma kodi_loop_iteration_ok fuel : related (keeps (kodi_ok (E := E))) (Iteration fuel).
Proof.
  unfold loop_iteration, serve_connection. related_steps (apply ResolveTarget_ok || apply connected_loop_ok || ok_loop).
Qed.

Lemma kodi_ConnectionLoop_ok fuel : related (keeps (kodi_ok (E := E))) (Loop fuel).
Proof.
  induction fuel as [|fuel IH]; cbn [ConnectionLoop]; related_steps (apply IH || apply kodi_loop_iteration_ok || ok_loop).
Qed.

(** An iteration that completes leaves no connection behind. *)
Lemma kodi_loop_iteration_closed fuel :
  yields (fun w : World (E := E) => ws (own w) = false) (Iteration fuel) (fun completed w => completed = true -> ws (own w) = false).
Proof.
  assert (Hlink : forall A (m : M (World (E := E)) A), related same_link m -> related (keeps (fun w => ws (own w) = false)) m).
  { intros A m Hm w Hw. pose proof (Hm w) as Hs. unfold same_link in Hs. congruence. }
  assert (Hdrop : forall A (k : unit -> M (World (E := E)) A) Q,
    (forall u, yields (fun w => ws (own w) = false) (k u) Q) -> yields (fun _ => True) (bind drop_link k) Q).
  { intros A k Q Hk. apply yields_bind with (R := fun _ w => ws (own w) = false); [|exact Hk].
    intros w _. apply drop_link_closed. }
  assert (Hret : forall b Q, (forall w, ws (own w) = false -> Q w) ->
    yields (fun w : World (E := E) => ws (own w) = false) (ret b) (fun completed w => completed = true -> Q w)).
  { intros b Q HQ w Hw _. by apply HQ. }
  unfold loop_iteration. apply yields_step.
  { apply Hlink. unfold ResolveTarget; cbv zeta. related_steps (link_more || link_leaf). }
  intros [target|].
  - do 2 (apply yields_any; intros ?). apply yields_any. intros [|]; cbn [negb].
    + unfold serve_connection. do 3 (apply yields_any; intros ?). apply yields_any. intros [|]; cbn [negb].
      * apply Hdrop. intros _. by apply Hret.
      * by intros w.
    + apply Hdrop. intros _.
      repeat (apply yields_step; [apply Hlink; related_steps (link_more || link_leaf); unfold SetState; related_steps link_more|intros ?]).
      by apply Hret.
  - repeat (apply yields_step; [apply Hlink; related_steps (link_more || link_leaf); unfold SetState; related_steps link_more|intros ?]).
    by apply Hret.
Qed.
End Loop.

(** ** Lemmas: how the loop ends *)

(** [remaining e] bounds the waits left before a stop is requested, as in [Harmony.v];
    [clock e] is the steady clock, which never goes back and moves on by at least [tick]
    in a receive that was given time. *)
Definition calm_op {E A} (remaining : E -> nat) (clock : E -> Z) (op : M E A) : Prop :=
  forall e, (remaining (exec op e) <= remaining e)%nat /\ clock e <= clock (exec op e).

Record KodiLaws {E} `{KodiEnv E} (remaining : E -> nat) (clock : E -> Z) (tick : Z) : Prop := {
  tick_pos : 0 < tick;
  calm_connect : forall url, calm_op remaining clock (ws_connect url);
  calm_send : forall text, calm_op remaining clock (ws_send text);
  calm_receive : forall timeout, calm_op remaining clock (ws_receive timeout);
  calm_is_open : calm_op remaining clock ws_is_open;
  calm_close : calm_op remaining clock ws_close;
  calm_stop : calm_op remaining clock stop_requested;
  calm_now : calm_op remaining clock steady_now;
  calm_setting : forall key, calm_op remaining clock (read_setting key);
  calm_browse : forall service timeout, calm_op remaining clock (browse service timeout);
  calm_interfere : calm_op remaining clock interfere;
  wait_lowers : forall delay e, (remaining (exec (wait delay) e) <= Nat.pred (remaining e))%nat;
  wait_clock : forall delay e, clock e <= clock (exec (wait delay) e);
  now_reads : forall e, eval steady_now e = clock e;
  receive_takes : forall timeout e, 1 <= timeout -> clock e + tick <= clock (exec (ws_receive timeout) e);
  stop_exact : forall e, eval stop_requested e = (remaining e =? 0)%nat
}.

Section Ending.
Context {E : Type} `{KodiEnv E} `{JsonCodec}
  (reconcile_interval pump_interval browse_timeout max_age busy_after library_timeout : Z) (call_fuel : nat)
  (remaining : E -> nat) (clock : E -> Z) (tick : Z) (L : KodiLaws remaining clock tick).

Definition waits_left (w : World (E := E)) : nat := remaining (env w).
Definition fed (w : World (E := E)) : Prop := starved (own w) = false.

(** Time passes and no wait is gained; and the fuel did not run out if it had not. *)
Definition advances (w w' : World (E := E)) : Prop :=
  (waits_left w' <= waits_left w)%nat /\ clock (env w) <= clock (env w').
Definition progress (w w' : World (E := E)) : Prop := advances w w' /\ keeps fed w w'.

#[global] Instance advances_preorder : PreOrder advances.
Proof. unfold advances. split; [intros w; lia|]. intros w1 w2 w3 [A1 A2] [B1 B2]. lia. Qed.

#[global] Instance progress_preorder : PreOrder progress.
Proof.
  split; [intros w; split; [reflexivity|by intros ?]|]. intros w1 w2 w3 [A1 A2] [B1 B2].
  split; [by etrans|]. intros Hw. by apply B2, A2.
Qed.

Lemma progress_calm {A} (m : M (World (E := E)) A) : related progress m -> related (calmer waits_left) m.
Proof. intros Hm w. apply (Hm w). Qed.

Lemma idle_progress {A} (m : M (World (E := E)) A) :
  (forall w, env (exec m w) = env w /\ starved (own (exec m w)) = starved (own w)) -> related progress m.
Proof. intros Hm w. destruct (Hm w) as [He Hs]. unfold progress, advances, keeps, waits_left, fed. rewrite He, Hs. auto with lia. Qed.

(** A call into the environment that is calm. *)
Lemma call_progress {A} (op : M E A) : calm_op remaining clock op -> related progress (call op).
Proof.
  intros Hop w. unfold progress, advances, keeps, fed, waits_left, exec, call. specialize (Hop (env w)). unfold exec in Hop.
  destruct (op (env w)) as [a e]. pose proof (calm_interfere _ _ _ L e) as Hi. unfold exec in Hi.
  destruct (interfere e) as [ops e']. cbn [snd] in *. destruct (externals_same ops (with_env e' w)) as (_ & -> & _ & _ & ->).
  cbn. split; [lia|done].
Qed.

Lemma kodi_Sleep_drops delay watch : drops waits_left (Sleep (E := E) delay watch).
Proof.
  intros w. unfold exec, Sleep, waits_left. pose proof (wait_lowers _ _ _ L delay (env w)) as Hw. unfold exec in Hw.
  destruct (wait delay (env w)) as [[stopped ops] e]. destruct (Wait _ _ _ _ _) as [[r q] rest].
  cbn in *. by destruct (externals_same ops (with_env e w)) as (_ & _ & _ & _ & ->).
Qed.

Lemma Sleep_progress delay watch : related progress (Sleep (E := E) delay watch).
Proof.
  intros w. pose proof (kodi_Sleep_drops delay watch w) as Hd. unfold progress, advances, keeps, fed, exec in *. revert Hd.
  unfold Sleep. pose proof (wait_clock _ _ _ L delay (env w)) as Hc. unfold exec in Hc.
  destruct (wait delay (env w)) as [[stopped ops] e]. destruct (Wait _ _ _ _ _) as [[r q] rest].
  cbn in *. destruct (externals_same ops (with_env e w)) as (_ & -> & _ & _ & He). rewrite He. cbn.
  intros Hd. split; [lia|done].
Qed.

Lemma SetLibraryBusy_idle b w :
  env (exec (SetLibraryBusy b) w) = env w /\ starved (own (exec (SetLibraryBusy (E := E) b) w)) = starved (own w).
Proof. unfold exec, SetLibraryBusy. rewrite run_bind. cbn [gets fst snd]. by destruct (Bool.eqb _ _). Qed.

Lemma SetState_idle s w :
  env (exec (SetState s) w) = env w /\ starved (own (exec (SetState (E := E) s) w)) = starved (own w).
Proof. unfold exec, SetState. rewrite run_bind. cbn [gets fst snd]. by case_bool_decide. Qed.

Lemma next_backoff_idle get set w :
  (forall b o, starved (set b o) = starved o) ->
  env (exec (next_backoff (E := E) get set) w) = env w /\
  starved (own (exec (next_backoff (E := E) get set) w)) = starved (own w).
Proof. intros Hs. unfold exec, next_backoff. destruct (NextDelay _) as [d b]. split; [done|]. apply Hs. Qed.

Ltac progress_leaf := idtac;
  match goal with
  | |- related progress (call _) => apply call_progress; solve [apply L]
  | |- related progress (Sleep _ _) => apply Sleep_progress
  | |- related progress (SetLibraryBusy _) => apply idle_progress, SetLibraryBusy_idle
  | |- related progress (SetState _) => apply idle_progress, SetState_idle
  | |- related progress (next_backoff _ _) => apply idle_progress; intros ?; by apply next_backoff_idle
  | |- related progress (modify _) => by apply idle_progress
  | |- related progress (Publish _) => by apply idle_progress
  | |- related progress (update_own _) => by apply idle_progress
  | |- related progress (update_snapshot _) => by apply idle_progress
  | |- related progress (update_now_playing _) => by apply idle_progress
  | |- related progress take_commands => by apply idle_progress
  | |- related progress take_library_requests => by apply idle_progress
  end.

Lemma SendText_progress text : related progress (SendText (E := E) text).
Proof. unfold SendText. related_steps progress_leaf. Qed.

Lemma HandleNotification_progress text : related progress (HandleNotification (E := E) text).
Proof.
  unfold HandleNotification, on_volume_changed, on_stop, on_player, reset_if_showing, publish_if. cbv zeta.
  related_steps progress_leaf.
Qed.

Lemma slice_elapsed_progress until : related progress (slice_elapsed (E := E) until).
Proof. unfold slice_elapsed. related_steps progress_leaf. Qed.

Lemma give_up_progress : related progress (abandon (E := E)).
Proof. unfold abandon. related_steps progress_leaf. Qed.

Lemma await_reply_advances fuel id deadline busy_at rb :
  related advances (await_reply (E := E) fuel id deadline busy_at rb).
Proof.
  assert (Hp : forall A (m : M (World (E := E)) A), related progress m -> related advances m)
    by (intros A m Hm w; apply (Hm w)).
  induction fuel as [|fuel IH]; cbn [await_reply]; cbv zeta; unfold starve;
  related_steps (first
    [ apply IH | apply Hp; first [apply give_up_progress | apply slice_elapsed_progress | apply HandleNotification_progress | progress_leaf]
    | intros w; unfold advances, waits_left; cbn; lia ]).
Qed.

(** The fuel left reaches past the deadline. *)
Definition timely (deadline : Z) (fuel : nat) (w : World (E := E)) : Prop :=
  fed w /\ (1 <= fuel)%nat /\ deadline <= clock (env w) + (Z.of_nat fuel - 1) * tick.

Lemma progress_timely {A} (m : M (World (E := E)) A) d f : related progress m -> related (keeps (timely d f)) m.
Proof.
  intros Hm w (H1 & H2 & H3). destruct (Hm w) as [[_ Hc] Hf]. split; [by apply Hf|]. split; [done|]. lia.
Qed.

Lemma yields_fed {A} (m : M (World (E := E)) A) d f : related progress m -> yields (timely d f) m (fun _ => fed).
Proof. intros Hm w (Hw & _). by apply (Hm w). Qed.

(** Reading the clock before the deadline leaves fuel for one more turn. *)
Lemma clock_read fuel deadline :
  yields (timely deadline (S fuel)) (call steady_now)
    (fun now w => fed w /\ now <= clock (env w) /\ (now < deadline -> (1 <= fuel)%nat) /\ deadline <= now + Z.of_nat fuel * tick).
Proof.
  intros w (Hw & _ & Hd). destruct (call_progress steady_now (calm_now _ _ _ L) w) as [[_ Hc] Hf].
  assert (Hn : (call steady_now w).1 = clock (env w)).
  { pose proof (now_reads _ _ _ L (env w)) as Hn. unfold eval in Hn. unfold call.
    destruct (steady_now (env w)) as [now e]. by destruct (interfere e). }
  rewrite Hn. split_and!; [by apply Hf|done| |lia]. pose proof (tick_pos _ _ _ L). intros. destruct fuel; lia.
Qed.

(** A receive given time moves the clock by a tick. *)
Lemma receive_timely fuel deadline now timeout :
  1 <= timeout -> now < deadline ->
  yields (fun w => fed w /\ now <= clock (env w) /\ (now < deadline -> (1 <= fuel)%nat) /\ deadline <= now + Z.of_nat fuel * tick)
    (call (ws_receive timeout)) (fun _ => timely deadline fuel).
Proof.
  intros Ht Hd w (Hw & Hn & Hf & Hfuel).
  destruct (call_progress (ws_receive timeout) (calm_receive _ _ _ L timeout) w) as [_ Hk].
  split; [by apply Hk|]. split; [by apply Hf|]. unfold call.
  pose proof (receive_takes _ _ _ L timeout (env w) Ht) as Htick. unfold exec in Htick.
  destruct (ws_receive timeout (env w)) as [a e]. pose proof (calm_interfere _ _ _ L e) as Hi. unfold exec in Hi.
  destruct (interfere e) as [ops e']. cbn [snd] in *. destruct (externals_same ops (with_env e' w)) as (_ & _ & _ & _ & ->).
  cbn. lia.
Qed.

Lemma await_reply_fed fuel id deadline busy_at rb :
  yields (timely deadline fuel) (await_reply (E := E) fuel id deadline busy_at rb) (fun _ => fed).
Proof.
  induction fuel as [|fuel IH]; cbn [await_reply]; [by intros w (_ & ? & _); lia|]. cbv zeta.
  apply yields_step; [apply progress_timely; progress_leaf|]. intros [|]; [by apply yields_fed, related_ret; exact _|].
  eapply yields_bind; [apply clock_read|]. intros now. destruct (Z.leb_spec deadline now) as [Hd|Hd].
  { intros w (Hw & _). by apply (give_up_progress w). }
  apply yields_step; [by intros w Hw|]. intros busy.
  eapply yields_bind; [apply receive_timely; [lia|done]|]. cbn beta.
  assert (Hagain : forall m : M (World (E := E)) unit, related progress m ->
    yields (timely deadline fuel) (m ;;* await_reply fuel id deadline busy_at rb) (fun _ => fed)).
  { intros m Hm. apply yields_step; [by apply progress_timely|intros _; exact IH]. }
  intros [text|].
  - destruct (is_discarded _ || _); [exact IH|].
    assert (Hother : yields (timely deadline fuel)
      ((if contains "method" (ParseBoundedJson text) then HandleNotification text else ret tt) ;;*
       await_reply fuel id deadline busy_at rb) (fun _ => fed)).
    { apply Hagain. destruct (contains _ _); [apply HandleNotification_progress|apply related_ret; exact _]. }
    destruct (find "id" _) as [[]|]; try exact Hother.
    apply yields_step; [apply progress_timely; progress_leaf|]. intros _.
    destruct (to_i32 z =? id); [|exact Hother]. by apply yields_fed, related_ret; exact _.
  - apply yields_step.
    { apply progress_timely. destruct (_ <? deadline); [apply slice_elapsed_progress|apply related_ret; exact _]. }
    intros [|]; [|apply yields_fed, give_up_progress]. apply Hagain. progress_leaf.
Qed.

(** The fuel of a call with a timeout: a turn per tick, and one more. *)
Definition enough_for (timeout_ms : Z) : Prop :=
  (1 <= call_fuel)%nat /\ ms timeout_ms <= (Z.of_nat call_fuel - 1) * tick.

Lemma Call_progress m p t rb : enough_for t -> related progress (Call (E := E) busy_after call_fuel m p t rb).
Proof.
  intros [Hf1 Hf2] w. split.
  - revert w.
    assert (Hp : forall A (m : M (World (E := E)) A), related progress m -> related advances m)
      by (intros A m' Hm w; apply (Hm w)).
    change (related advances (Call busy_after call_fuel m p t rb)). unfold Call, next_id.
    related_steps (first [apply await_reply_advances | apply Hp; first [apply SendText_progress | progress_leaf]]).
  - revert w. change (yields fed (Call busy_after call_fuel m p t rb) (fun _ => fed)). unfold Call, next_id.
    assert (Hp : forall A (m : M (World (E := E)) A), related progress m -> related (keeps fed) m)
      by (intros A m' Hm w; apply (Hm w)).
    apply yields_step; [by intros w Hw|]. intros [|]; cbn [negb]; [|by intros w Hw].
    apply yields_step; [by intros w Hw|]. intros _.
    apply yields_step; [by intros w Hw|]. intros id.
    apply yields_step; [apply Hp, SendText_progress|]. intros [|]; cbn [negb]; [|by intros w Hw].
    apply yields_bind with (R := fun started w => fed w /\ started <= clock (env w)).
    + intros w Hw. destruct (call_progress steady_now (calm_now _ _ _ L) w) as [[_ Hc] Hk].
      split; [by apply Hk|]. pose proof (now_reads _ _ _ L (env w)) as Hn. unfold eval in Hn.
      revert Hc. unfold exec, call. destruct (steady_now (env w)) as [now e]. destruct (interfere e). cbn in *. by subst.
    + intros started w [Hw Hs]. apply await_reply_fed. split; [done|]. split; [done|]. lia.
Qed.

Context (call_enough : enough_for kCallTimeoutMs) (library_enough : enough_for library_timeout).

Lemma poll_call_progress m p rb : related progress (Call (E := E) busy_after call_fuel m p kCallTimeoutMs rb).
Proof. by apply Call_progress. Qed.

Lemma library_call_progress m p : related progress (library_call (E := E) busy_after library_timeout call_fuel m p).
Proof. by apply Call_progress. Qed.

Lemma publish_if_progress b : related progress (publish_if (E := E) b).
Proof. unfold publish_if. related_steps progress_leaf. Qed.

Ltac progress_more := idtac;
  lazymatch goal with
  | |- related progress (publish_if _) => apply publish_if_progress
  | |- related progress (Call _ _ _ _ _ _) => apply poll_call_progress
  | |- related progress (library_call _ _ _ _ _) => apply library_call_progress
  | |- related progress (SendText _) => apply SendText_progress
  | |- related progress (HandleNotification _) => apply HandleNotification_progress
  | |- _ => progress_leaf
  end.

Lemma SendPendingCommands_progress : related progress (SendPendingCommands (E := E) max_age busy_after call_fuel).
Proof.
  assert (Hs : forall pid now batch failed, related progress (send_commands (E := E) max_age pid now batch failed)).
  { intros pid now. induction batch as [|c batch IH]; intros failed; cbn [send_commands]; unfold next_id;
    related_steps (apply IH || progress_more). }
  unfold SendPendingCommands, ResolveActivePlayerId. related_steps (apply Hs || progress_more).
Qed.

(** Twenty full pages reach the cap, so twenty-one turns of the loop are enough. *)
Definition pages_left (fuel : nat) (merged : list json) : Prop :=
  (1 <= fuel)%nat /\ kMaxLibraryItems <= item_count merged + kLibraryPageSize * (Z.of_nat fuel - 1).

Lemma push_page_count merged page :
  item_count merged <= kMaxLibraryItems ->
  item_count (push_page merged page) = Z.min kMaxLibraryItems (item_count merged + item_count page).
Proof.
  intros Hm. unfold push_page, item_count in *. rewrite length_app, length_firstn. unfold kMaxLibraryItems in *. lia.
Qed.

Lemma fetch_pages_progress fuel m params key start merged truncated :
  pages_left fuel merged ->
  related progress
    (fetch_pages (E := E) max_age busy_after library_timeout call_fuel fuel m params key start merged truncated).
Proof.
  revert params start merged truncated.
  induction fuel as [|fuel IH]; intros params start merged truncated [Hf Hp]; [lia|]. cbn [fetch_pages]. cbv zeta.
  destruct (Z.ltb_spec (item_count merged) kMaxLibraryItems) as [Hm|Hm]; cbn [negb]; [|apply related_ret; exact _].
  assert (Hnext : forall page, item_count page = kLibraryPageSize -> pages_left fuel (push_page merged page)).
  { intros page Hpage. split; [unfold kMaxLibraryItems, kLibraryPageSize in *; lia|].
    rewrite push_page_count by lia. unfold kMaxLibraryItems, kLibraryPageSize in *. lia. }
  unfold survive_timeout.
  related_steps (first
    [ match goal with
      | |- related _ (fetch_pages _ _ _ _ _ _ _ _ _ _ _) => apply IH, Hnext; assumption
      | |- related _ (SendPendingCommands _ _ _) => apply SendPendingCommands_progress
      end
    | progress_more
    | match goal with
      | |- related _ (if negb (?a =? ?b) || _ then _ else _) => destruct (Z.eqb_spec a b); cbn [negb orb]
      end ]).
Qed.

Lemma CallLibrary_progress m p key :
  related progress (CallLibrary (E := E) max_age busy_after library_timeout call_fuel m p key).
Proof.
  unfold CallLibrary, survive_timeout; cbv zeta.
  assert (Hfuel : pages_left page_fuel []) by (split; [unfold page_fuel; lia|by vm_compute]).
  related_steps (first
    [ match goal with
      | |- related _ (fetch_pages _ _ _ _ _ _ _ _ _ _ _) => by apply fetch_pages_progress
      | |- related _ (SendPendingCommands _ _ _) => apply SendPendingCommands_progress
      end
    | progress_more ]).
Qed.

Lemma SendPendingLibraryRequests_progress :
  related progress (SendPendingLibraryRequests (E := E) max_age busy_after library_timeout call_fuel).
Proof.
  assert (Hs : forall batch, related progress (serve_requests (E := E) max_age busy_after library_timeout call_fuel batch)).
  { induction batch as [|r batch IH]; cbn [serve_requests]; cbv zeta;
    related_steps (apply IH || apply CallLibrary_progress || progress_more). }
  unfold SendPendingLibraryRequests. related_steps (apply Hs || progress_more).
Qed.

Lemma ReconcilePoll_progress tolerate : related progress (ReconcilePoll (E := E) busy_after call_fuel tolerate).
Proof.
  unfold ReconcilePoll, poll_call, poll_player, poll_idle, finish_poll, call_failed, apply_application, apply_player,
    reset_if_showing; cbv zeta. unfold poll_call.
  related_steps progress_more.
Qed.

Lemma PumpNotifications_progress : related progress (PumpNotifications (E := E)).
Proof.
  assert (Hp : forall n, related progress (pump (E := E) n)).
  { induction n as [|n IH]; cbn [pump]; related_steps (apply IH || progress_more). }
  unfold PumpNotifications. related_steps (apply Hp || progress_more).
Qed.

Ltac progress_loop := idtac;
  first [ apply PumpNotifications_progress | apply SendPendingCommands_progress | apply SendPendingLibraryRequests_progress
        | apply ReconcilePoll_progress | progress_more ].

Lemma ConnectAndPrime_progress target : related progress (ConnectAndPrime (E := E) busy_after call_fuel target).
Proof. unfold ConnectAndPrime. related_steps progress_loop. Qed.

Lemma drop_link_progress : related progress (drop_link (E := E)).
Proof. unfold drop_link. related_steps progress_loop. Qed.

Lemma ResolveTarget_progress : related progress (ResolveTarget (E := E) browse_timeout).
Proof. unfold ResolveTarget; cbv zeta. related_steps progress_loop. Qed.

Abbreviation Connected := (connected_loop reconcile_interval pump_interval max_age busy_after library_timeout call_fuel).
Abbreviation Iteration := (loop_iteration reconcile_interval pump_interval browse_timeout max_age busy_after library_timeout call_fuel).
Abbreviation Loop := (ConnectionLoop reconcile_interval pump_interval browse_timeout max_age busy_after library_timeout call_fuel).

Lemma connected_loop_progress fuel last : related progress (Connected fuel last).
Proof.
  revert last. induction fuel as [|fuel IH]; intros last; cbn [connected_loop]; related_steps (apply IH || progress_loop).
Qed.

Lemma loop_iteration_progress fuel : related progress (Iteration fuel).
Proof.
  unfold loop_iteration, serve_connection.
  related_steps (first [ apply ResolveTarget_progress | apply ConnectAndPrime_progress | apply drop_link_progress
                       | apply connected_loop_progress | progress_loop ]).
Qed.

Lemma ConnectionLoop_progress fuel : related progress (Loop fuel).
Proof.
  induction fuel as [|fuel IH]; cbn [ConnectionLoop]; related_steps (apply IH || apply loop_iteration_progress || progress_loop).
Qed.

(** *** The stop *)

Lemma kodi_stop_call_true w : (call stop_requested w).1 = (waits_left w =? 0)%nat.
Proof.
  unfold call, waits_left. pose proof (stop_exact _ _ _ L (env w)) as Hs. unfold eval in Hs.
  destruct (stop_requested (env w)) as [b e]. by destruct (interfere e).
Qed.

(** A check of the stop token: it is not passed when no wait is left. *)
Lemma kodi_ends_stop_check n k :
  (0 < n -> ends waits_left n (k false))%nat -> ends waits_left n (k true) ->
  ends waits_left n (let* stopped := call stop_requested in k stopped).
Proof.
  intros H1 H2 w Hw. unfold eval. rewrite run_bind, kodi_stop_call_true.
  assert (Hc : (waits_left (call stop_requested w).2 <= n)%nat).
  { destruct (call_progress stop_requested (calm_stop _ _ _ L) w) as [[Hc _] _]. unfold exec in Hc. lia. }
  destruct (Nat.eqb_spec (waits_left w) 0); [by apply H2|apply H1; [lia|done]].
Qed.

Ltac ends_progress :=
  apply ends_calm; [apply progress_calm; solve [related_steps progress_loop]|].

Lemma kodi_connected_loop_ends fuel n last : (n < fuel)%nat -> ends waits_left n (Connected fuel last).
Proof.
  revert n last. induction fuel as [|fuel IH]; intros n last Hn; [lia|]. cbn [connected_loop].
  apply (kodi_ends_stop_check n (fun stopped => if stopped : bool then _ else _)); [|apply ends_ret]. intros Hpos.
  apply ends_drops; [apply kodi_Sleep_drops|]. intros reason.
  assert (Hrec : forall last', ends waits_left (Nat.pred n) (Connected fuel last')) by (intros; apply IH; lia).
  destruct reason; try apply ends_ret.
  all: ends_progress; intros _; ends_progress; intros []; cbn [negb]; try apply ends_ret.
  all: ends_progress; intros []; cbn [negb]; try apply ends_ret; try apply Hrec.
  ends_progress. intros now. ends_progress. intros immediate. destruct (immediate || _); [|apply Hrec].
  ends_progress. intros _. ends_progress. intros []; cbn [negb]; [|apply ends_ret].
  ends_progress. intros ?. apply Hrec.
Qed.

Lemma kodi_connected_loop_drops fuel last : (0 < fuel)%nat -> drops waits_left (Connected fuel last).
Proof.
  intros Hf. destruct fuel as [|fuel]; [lia|]. intros w. unfold exec. cbn [connected_loop]. rewrite run_bind, kodi_stop_call_true.
  destruct (call_progress stop_requested (calm_stop _ _ _ L) w) as [[Hc _] _]. unfold exec in Hc.
  destruct (Nat.eqb_spec (waits_left w) 0) as [Hz|Hz]; [cbn; lia|].
  etrans; [|apply Nat.pred_le_mono, Hc]. generalize (call stop_requested w).2. clear w Hc Hz.
  match goal with |- forall w', (waits_left (?p w').2 <= _)%nat => change (drops waits_left p) end.
  apply drops_calm; [apply kodi_Sleep_drops|]. intros reason.
  assert (Hc : forall m : M (World (E := E)) bool, related progress m -> related (calmer waits_left) m)
    by (intros; by apply progress_calm).
  apply Hc. related_steps (apply connected_loop_progress || progress_loop).
Qed.

Lemma kodi_loop_iteration_ends fuel n : (n < fuel)%nat -> ends waits_left n (Iteration fuel).
Proof.
  intros Hf. unfold loop_iteration, serve_connection.
  repeat first
    [ apply ends_ret
    | apply ends_calm; [apply progress_calm; solve
        [related_steps (first [apply ResolveTarget_progress | apply ConnectAndPrime_progress | apply drop_link_progress | progress_loop])]
        |intros ?]
    | match goal with
      | |- ends _ _ (let* _ := connected_loop _ _ _ _ _ _ _ _ in _) => fail 1
      | |- ends _ _ (if ?b then _ else _) => destruct b
      | |- ends _ _ (match ?x with _ => _ end) => destruct x
      end ].
  intros w Hw. unfold eval. rewrite run_bind. rewrite (kodi_connected_loop_ends fuel n _ Hf w Hw : (_ w).1 = true).
  cbn [negb]. by rewrite run_bind.
Qed.

Lemma kodi_loop_iteration_drops fuel : (0 < fuel)%nat -> drops waits_left (Iteration fuel).
Proof.
  intros Hf. unfold loop_iteration, serve_connection.
  repeat first
    [ apply drops_calm; [apply kodi_Sleep_drops || by apply kodi_connected_loop_drops
                        |intros ?; apply progress_calm; solve [related_steps (apply drop_link_progress || progress_loop)]]
    | apply calm_drops; [apply progress_calm; solve
        [related_steps (first [apply ResolveTarget_progress | apply ConnectAndPrime_progress | apply drop_link_progress | progress_loop])]
        |intros ?]
    | match goal with
      | |- drops _ (if ?b then _ else _) => destruct b
      | |- drops _ (match ?x with _ => _ end) => destruct x
      end ].
Qed.

Lemma kodi_ConnectionLoop_ends fuel n : (S n < fuel)%nat -> ends waits_left n (Loop fuel).
Proof.
  revert n. induction fuel as [|fuel IH]; intros n Hn; [lia|]. cbn [ConnectionLoop].
  apply (kodi_ends_stop_check n (fun stopped => if stopped : bool then _ else _)).
  - intros Hpos w Hw. unfold eval. rewrite run_bind.
    pose proof (kodi_loop_iteration_ends fuel n ltac:(lia) w Hw) as He. unfold eval in He. rewrite He. cbn [negb].
    apply (IH (Nat.pred n)); [lia|]. pose proof (kodi_loop_iteration_drops fuel ltac:(lia) w) as Hd. unfold exec in Hd. lia.
  - intros w _. unfold eval. by rewrite run_bind.
Qed.

(** Where the loop leaves the client. *)
Lemma kodi_ConnectionLoop_exit fuel :
  yields (fun w : World (E := E) => ws (own w) = false) (Loop fuel)
    (fun stopped w => stopped = true -> state (snapshot w) = kDisconnected /\ ws (own w) = false).
Proof.
  induction fuel as [|fuel IH]; cbn [ConnectionLoop]; [by intros w|].
  apply yields_step; [intros w Hw; pose proof (call_link stop_requested w) as Hl; unfold same_link in Hl; congruence|].
  intros [|].
  - intros w Hw _. rewrite run_bind. cbn [ret snd]. unfold SetState. rewrite run_bind. cbn [gets fst snd].
    by case_bool_decide.
  - eapply yields_bind; [apply kodi_loop_iteration_closed|]. intros [|]; cbn [negb]; [|by intros w].
    apply (yields_pre (fun w => ws (own w) = false)); [by intros w Hw; apply Hw|exact IH].
Qed.
End Ending.

(** ** Properties *)

Section Properties.
Context {E : Type} `{KodiEnv E} `{JsonCodec}
  (initial_backoff max_backoff reconcile_interval pump_interval browse_timeout max_age busy_after library_timeout : Z)
  (call_fuel : nat).

Abbreviation Loop := (ConnectionLoop reconcile_interval pump_interval browse_timeout max_age busy_after library_timeout call_fuel).

Lemma start_ok (e : E) : kodi_ok (start initial_backoff max_backoff e).
Proof.
  apply kodi_ok_intro; try done; try (cbn; unfold kMaxPendingCommands, kMaxPendingLibraryRequests; lia).
  constructor.
Qed.

(** C16: Whatever a Kodi, the network, the settings and the other threads do, and however long the
    loop runs, what the client shows and holds stays well formed: every published state
    change is a real one and the last is the state shown; the volume is within 0 and 100,
    the speed within 1000 either way, season and episode within -1 and a million, and both
    times within their bounds; at most 20 commands and 8 library requests are queued, no
    request twice; and the busy flag shown is the loop's own, raised only while there is a
    connection. *)
Theorem kodi_invariant (fuel : nat) (e : E) : kodi_ok (exec (Loop fuel) (start initial_backoff max_backoff e)).
Proof.
  apply kodi_ConnectionLoop_ok, start_ok.
Qed.

(** C18: Once a stop is requested the client's thread ends: if at most [n] waits happen before
    the stop token reports it, and the steady clock runs, the loop returns, whatever Kodi
    sends in between; no call it makes spins past its deadline (the fuel of a call, one turn
    per clock tick of its timeout, never runs out), and it leaves the state disconnected,
    the socket closed and the busy flag off. *)
Theorem kodi_stops (remaining : E -> nat) (clock : E -> Z) (tick : Z) (n fuel : nat) (w : World (E := E)) :
  KodiLaws remaining clock tick -> enough_for call_fuel tick kCallTimeoutMs -> enough_for call_fuel tick library_timeout ->
  kodi_ok w -> ws (own w) = false -> starved (own w) = false -> (remaining (env w) <= n)%nat -> (S n < fuel)%nat ->
  eval (Loop fuel) w = true /\
  let w' := exec (Loop fuel) w in
  starved (own w') = false /\ state (snapshot w') = kDisconnected /\ ws (own w') = false /\ library_busy (snapshot w') = false.
Proof.
  intros L H1 H2 Hok Hws Hst Hn Hf.
  assert (He : eval (Loop fuel) w = true) by (by eapply kodi_ConnectionLoop_ends with (remaining := remaining)).
  split; [exact He|]. cbv zeta.
  destruct (ConnectionLoop_progress reconcile_interval pump_interval browse_timeout max_age busy_after library_timeout
              call_fuel remaining clock tick L H1 H2 fuel w) as [_ Hfed].
  destruct (kodi_ConnectionLoop_exit reconcile_interval pump_interval browse_timeout max_age busy_after library_timeout
              call_fuel fuel w Hws He) as [Hs Hc].
  destruct (kodi_ConnectionLoop_ok reconcile_interval pump_interval browse_timeout max_age busy_after library_timeout
              call_fuel fuel w Hok) as (_ & _ & _ & Hb1 & Hb2).
  split_and!; [by apply Hfed|exact Hs|exact Hc|]. unfold exec in *. rewrite Hb1. destruct (library_busy_ _); [|done].
  specialize (Hb2 eq_refl). congruence.
Qed.
End Properties.

(** ** Witnesses *)

Module Sample.

(** A network on which every connect succeeds and nothing ever answers; a receive takes a
    second. The state is the waits left before the stop, and the clock. *)
#[export] Instance env : KodiEnv (nat * Z) := {|
  ws_connect := fun _ => ret true;
  ws_send := fun _ => ret true;
  ws_receive := fun _ e => (None, (e.1, e.2 + 1000000000));
  ws_is_open := ret true;
  ws_close := ret tt;
  stop_requested := fun e => ((e.1 =? 0)%nat, e);
  steady_now := fun e => (e.2, e);
  read_setting := fun key => ret (if String.eqb key "host" then Some {| vv_value := "192.168.1.30"; schema_version := 1 |} else None);
  browse := fun _ _ => ret [];
  interfere := ret [];
  wait := fun _ e => ((false, [ExtLibrary RequestMovies]), (Nat.pred e.1, e.2));
  after_int_max := INT_MIN
|}.

#[export] Instance codec : JsonCodec := {| json_parse := fun _ => JDiscarded; json_dump := fun _ => "request" |}.

Lemma laws : KodiLaws (E := nat * Z) fst snd 1000000000.
Proof. constructor; unfold calm_op, exec, eval; intros; cbn; try lia; reflexivity. Qed.
End Sample.

Lemma kodi_stops_witness :
  let run := ConnectionLoop (H := Sample.env) (H0 := Sample.codec) 10000 250 2000 5000 3000 30000 32 6 in
  let w := start 2000 60000 (3%nat, 0) in
  eval run w = true /\
  let w' := exec run w in
  starved (own w') = false /\ state (snapshot w') = kDisconnected /\ ws (own w') = false /\ library_busy (snapshot w') = false.
Proof.
  apply (kodi_stops (H := Sample.env) (H0 := Sample.codec) 10000 250 2000 5000 3000 30000 32 fst snd 1000000000 3 6
           (start 2000 60000 (3%nat, 0))).
  - exact Sample.laws.
  - split; [lia|by vm_compute].
  - split; [lia|by vm_compute].
  - apply start_ok.
  - reflexivity.
  - reflexivity.
  - cbn. lia.
  - lia.
Defined.
