(* ===== verification/KodiProtocol.v ===== *)
(** KodiProtocol: what the Kodi client says and hears.

    Theorems on the exchanges of [Kodi.v]: a call returns its own reply and writes one
    request; a Kodi that stops answering is given up ([silent_kodi_dropped]); the queued
    commands; and a paged listing equals the server's list ([listing_is_complete]). *)
From Stdlib Require Import SpecFloat.
From S2P Require Import Prelude Text Json Storage Connectivity Double KodiJson KodiTypes Kodi KodiInvariant.

(** ** A call *)

Section Call.
Context {E : Type} `{KodiEnv E} `{JsonCodec} (busy_after : Z) (call_fuel : nat).

(** Nothing was written and no id was taken. *)
Definition unsent (w w' : World (E := E)) : Prop :=
  sent w' = sent w /\ next_rpc_id (own w') = next_rpc_id (own w).

#[global] Instance unsent_preorder : PreOrder unsent.
Proof. unfold unsent. split; [done|]. intros w1 w2 w3 [A1 A2] [B1 B2]. split; congruence. Qed.

Lemma unsent_call {A} (op : M E A) : related unsent (call op).
Proof. intros w. unfold unsent, exec. by destruct (kodi_call_same op w) as (_ & -> & _ & ->). Qed.

Ltac unsent_leaf := idtac;
  match goal with
  | |- related unsent (call _) => apply unsent_call
  | |- related unsent (update_own _) => by intros ?
  | |- related unsent (update_snapshot _) => by intros ?
  | |- related unsent (update_now_playing _) => by intros ?
  | |- related unsent (Publish _) => by intros ?
  | |- related unsent (SetLibraryBusy _) =>
      intros ?; unfold unsent, exec, SetLibraryBusy; rewrite run_bind; cbn [gets fst snd]; by destruct (Bool.eqb _ _)
  end.

Lemma unsent_HandleNotification text : related unsent (HandleNotification text).
Proof.
  unfold HandleNotification, on_volume_changed, on_stop, on_player, reset_if_showing, publish_if. cbv zeta.
  related_steps unsent_leaf.
Qed.

Lemma unsent_await fuel id deadline busy_at rb : related unsent (await_reply fuel id deadline busy_at rb).
Proof.
  induction fuel as [|fuel IH]; cbn [await_reply]; unfold starve, abandon, slice_elapsed; cbv zeta;
  related_steps (apply IH || apply unsent_HandleNotification || unsent_leaf).
Qed.

(** The text is a JSON object whose integer [id] is the call's. *)
Definition answers (id : Z) (text : string) : Prop :=
  exists members z, ParseBoundedJson text = JObject members /\ assoc "id" members = Some (JInt z) /\ to_i32 z = id.

(** A reply, or no reply and perhaps the mark of a timeout. *)
Definition reply_post (id : Z) (r : option string) (w : World (E := E)) : Prop :=
  match r with Some text => answers id text /\ last_call_timed_out (own w) = false | None => True end.

Definition no_timeout (w : World (E := E)) : Prop := last_call_timed_out (own w) = false.

Ltac timeout_leaf := idtac;
  match goal with
  | |- related (keeps no_timeout) (call ?op) =>
      intros ? ?Hw; unfold no_timeout, exec in *; by rewrite (proj1 (proj2 (kodi_call_same op _)))
  | |- related (keeps no_timeout) (update_own _) => by intros ? ?
  | |- related (keeps no_timeout) (update_snapshot _) => by intros ? ?
  | |- related (keeps no_timeout) (update_now_playing _) => by intros ? ?
  | |- related (keeps no_timeout) (Publish _) => by intros ? ?
  | |- related (keeps no_timeout) (SetLibraryBusy _) =>
      intros ? ?; unfold no_timeout, exec, SetLibraryBusy; rewrite run_bind; cbn [gets fst snd]; by destruct (Bool.eqb _ _)
  end.

Lemma no_timeout_HandleNotification text : related (keeps no_timeout) (HandleNotification text).
Proof.
  unfold HandleNotification, on_volume_changed, on_stop, on_player, reset_if_showing, publish_if. cbv zeta.
  related_steps timeout_leaf.
Qed.

Lemma await_reply_post fuel id deadline busy_at rb :
  yields no_timeout (await_reply fuel id deadline busy_at rb) (reply_post id).
Proof.
  induction fuel as [|fuel IH]; cbn [await_reply]; [by intros w|]. cbv zeta.
  assert (Hnone : forall (P : World (E := E) -> Prop) m, (forall w, (m w).1 = None) -> yields P m (reply_post id)).
  { intros P m Hm w _. unfold reply_post. by rewrite Hm. }
  assert (Hgive : yields no_timeout abandon (reply_post id)).
  { apply Hnone. intros w. unfold abandon. by rewrite run_bind. }
  apply yields_step; [timeout_leaf|]. intros [|]; [by apply Hnone|].
  apply yields_step; [timeout_leaf|]. intros now. destruct (deadline <=? now); [exact Hgive|].
  apply yields_step; [apply related_gets; exact _|]. intros busy.
  apply yields_step; [timeout_leaf|]. intros [text|].
  - destruct (is_discarded (ParseBoundedJson text) || negb (is_object (ParseBoundedJson text))) eqn:Ej; [exact IH|].
    assert (Hother : yields no_timeout
      ((if contains "method" (ParseBoundedJson text) then HandleNotification text else ret tt) ;;*
       await_reply fuel id deadline busy_at rb) (reply_post id)).
    { apply yields_step; [|intros _; exact IH].
      destruct (contains _ _); [apply no_timeout_HandleNotification|apply related_ret; exact _]. }
    destruct (find "id" (ParseBoundedJson text)) as [[]|] eqn:Ef; try exact Hother.
    apply yields_step; [timeout_leaf|]. intros _. destruct (Z.eqb_spec (to_i32 z) id) as [Hz|]; [|exact Hother].
    apply yields_ret. intros w Hw. split; [|exact Hw]. unfold answers.
    destruct (ParseBoundedJson text) as [| | | | | | |members]; try done. by exists members, z.
  - apply yields_step; [destruct (_ <? deadline); unfold slice_elapsed; related_steps timeout_leaf|].
    intros [|]; [|exact Hgive]. apply yields_step; [timeout_leaf|]. intros _. exact IH.
Qed.

(** What [Call] does, apart from the frames it handles on the way: one request is written,
    with the next id; a reply is the answer to it; and the timeout mark means a request
    that was written and got no reply. *)
Definition call_post (m p : string) (before : World (E := E)) (r : option string) (w : World (E := E)) : Prop :=
  let id := increment (next_rpc_id (own before)) in
  next_rpc_id (own w) = id /\
  exists ok, sent w = sent before ++ [(rpc_request id m p, ok)] /\
    (forall text, r = Some text -> ok = true /\ answers id text) /\
    (last_call_timed_out (own w) = true -> ok = true /\ r = None).

Lemma call_exchange m p timeout rb w0 :
  ws (own w0) = true ->
  yields (fun w => w = w0) (Call busy_after call_fuel m p timeout rb) (call_post m p w0).
Proof.
  intros Hws. unfold Call, call_post. set (id := increment _).
  apply yields_gets. intros open. apply (yields_assume (open = true)); [by intros w [-> <-]|]. intros ->. cbn [negb].
  apply yields_bind with (R := fun _ w => sent w = sent w0 /\ next_rpc_id (own w) = next_rpc_id (own w0) /\ no_timeout w);
    [by intros w [-> _]|intros _].
  apply yields_bind with (R := fun i w => i = id /\ sent w = sent w0 /\ next_rpc_id (own w) = id /\ no_timeout w).
  { intros w (H1 & H2 & H3). unfold next_id. rewrite run_bind. cbn. by rewrite H2. }
  intros i. apply (yields_assume (i = id)); [by intros w [-> _]|]. intros ->.
  set (text := rpc_request id m p).
  apply yields_bind with (R := fun ok w => sent w = sent w0 ++ [(text, ok)] /\ next_rpc_id (own w) = id /\ no_timeout w).
  { intros w (_ & H1 & H2 & H3). unfold SendText, no_timeout in *. rewrite !run_bind. cbn.
    destruct (kodi_call_same (ws_send text) w) as (_ & Ho & _ & Hs). by rewrite Hs, Ho, H1. }
  intros [|]; cbn [negb]; cycle 1.
  { intros w (H1 & H2 & H3). cbn. unfold no_timeout in H3. split; [done|]. exists false. split_and!; [done|done|congruence]. }
  apply yields_step.
  { intros w (H1 & H2 & H3). unfold exec, no_timeout in *. by destruct (kodi_call_same steady_now w) as (_ & -> & _ & ->). }
  intros started w (H1 & H2 & H3).
  destruct (unsent_await call_fuel id (started + ms timeout) (started + ms busy_after) rb w) as [U1 U2].
  pose proof (await_reply_post call_fuel id (started + ms timeout) (started + ms busy_after) rb w H3) as Hr.
  unfold exec in *. split; [congruence|]. exists true. split; [congruence|].
  destruct (await_reply _ _ _ _ _ w) as [[text'|] w']; cbn [fst snd reply_post] in *; [|split; [done|by auto]].
  destruct Hr as [Ha Ht]. split; [intros t [= <-]; auto|congruence].
Qed.
End Call.

(** ** A Kodi that stops answering *)

(** The link stays open and takes what is written, but nothing arrives; nobody else uses
    the client and no stop is requested; the steady clock never goes back and a wait of the
    loop takes its time. *)
Record SilentKodi {E} `{KodiEnv E} (clock : E -> Z) (pump_interval : Z) : Prop := {
  silent_pump_interval : 0 <= pump_interval;
  silent_send : forall text e, eval (ws_send text) e = true /\ clock e <= clock (exec (ws_send text) e);
  silent_receive : forall timeout e, eval (ws_receive timeout) e = None /\ clock e <= clock (exec (ws_receive timeout) e);
  silent_open : forall e, eval ws_is_open e = true /\ clock e <= clock (exec ws_is_open e);
  silent_stop : forall e, eval stop_requested e = false /\ clock e <= clock (exec stop_requested e);
  silent_now : forall e, eval steady_now e = clock e /\ clock e <= clock (exec steady_now e);
  silent_others : forall e, eval interfere e = [] /\ clock e <= clock (exec interfere e);
  silent_wait : forall e, eval (wait pump_interval) e = (false, []) /\
                          clock e + ms pump_interval <= clock (exec (wait pump_interval) e)
}.

Section Silence.
Context {E : Type} `{KodiEnv E} `{JsonCodec} (reconcile_interval pump_interval max_age busy_after library_timeout : Z)
  (call_fuel : nat) (clock : E -> Z) (L : SilentKodi clock pump_interval).

Abbreviation ReconcilePoll := (ReconcilePoll busy_after call_fuel).
Abbreviation Connected := (connected_loop reconcile_interval pump_interval max_age busy_after library_timeout call_fuel).

(** Time passed and at most a request was written. *)
Definition unmoved (w w' : World (E := E)) : Prop :=
  clock (env w) <= clock (env w') /\
  snapshot w' = snapshot w /\ published w' = published w /\ pending_commands w' = pending_commands w /\
  pending_library_requests w' = pending_library_requests w /\ requested w' = requested w /\
  ws (own w') = ws (own w) /\ consecutive_poll_timeouts (own w') = consecutive_poll_timeouts (own w).

#[global] Instance unmoved_preorder : PreOrder unmoved.
Proof.
  unfold unmoved. split; [done|].
  intros w1 w2 w3 (A1 & A2 & A3 & A4 & A5 & A6 & A7 & A8) (B1 & B2 & B3 & B4 & B5 & B6 & B7 & B8).
  split_and!; [lia|congruence..].
Qed.

(** A call into the silent environment: its result, and only time passes. *)
Lemma silent_call {A} (op : M E A) (a : A) w :
  (forall e, eval op e = a /\ clock e <= clock (exec op e)) ->
  exists e, call op w = (a, with_env e w) /\ clock (env w) <= clock e.
Proof.
  intros Hop. unfold call. destruct (Hop (env w)) as [H1 H2]. unfold eval, exec in H1, H2.
  destruct (op (env w)) as [a' e]. destruct (silent_others _ _ L e) as [H3 H4]. unfold eval, exec in H3, H4.
  destruct (interfere e) as [ops e']. cbn in *. subst. exists e'. split; [done|lia].
Qed.

Lemma silent_clock w : exists e, call steady_now w = (clock (env w), with_env e w) /\ clock (env w) <= clock e.
Proof.
  unfold call. destruct (silent_now _ _ L (env w)) as [H1 H2]. unfold eval, exec in H1, H2.
  destruct (steady_now (env w)) as [a' e]. destruct (silent_others _ _ L e) as [H3 H4]. unfold eval, exec in H3, H4.
  destruct (interfere e) as [ops e']. cbn in *. subst. exists e'. split; [done|lia].
Qed.

Lemma silent_give_up w :
  let '(r, w') := abandon w in r = None /\ unmoved w w' /\ last_call_timed_out (own w') = true.
Proof.
  unfold abandon. rewrite run_bind. destruct (silent_call ws_is_open true w (silent_open _ _ L)) as (e & -> & He).
  cbn. split_and!; [done| |done]. split_and!; done.
Qed.

Lemma silent_await id deadline busy_at w :
  (1 <= call_fuel)%nat ->
  let '(r, w') := await_reply call_fuel id deadline busy_at false w in
  r = None /\ unmoved w w' /\ last_call_timed_out (own w') = true.
Proof.
  destruct call_fuel as [|fuel]; [lia|]. intros _. cbn [await_reply]. cbv zeta. rewrite run_bind.
  destruct (silent_call stop_requested false w (silent_stop _ _ L)) as (e1 & -> & H1). cbn [fst snd]. rewrite run_bind.
  destruct (silent_clock (with_env e1 w)) as (e2 & -> & H2). cbn [fst snd env with_env] in *.
  assert (Hgive : forall e, clock (env w) <= clock e ->
    let '(r, w') := abandon (with_env e w) in r = None /\ unmoved w w' /\ last_call_timed_out (own w') = true).
  { intros e He. pose proof (silent_give_up (with_env e w)) as Hg. destruct (abandon _) as [r w'].
    destruct Hg as (-> & Hu & ->). split_and!; [done| |done]. etrans; [|exact Hu]. by split_and!. }
  destruct (deadline <=? clock e1); [apply (Hgive e2); lia|]. cbn [andb]. rewrite !run_bind. cbn [gets fst snd].
  destruct (silent_call (ws_receive (Z.max (to_i32 ((deadline - clock e1) ÷ ms 1)) 1)) None
              (with_env e2 (with_env e1 w)) (silent_receive _ _ L _)) as (e3 & -> & H3). cbn [fst snd env with_env] in *.
  rewrite Z.ltb_irrefl, run_bind. cbn [ret fst snd]. apply (Hgive e3). lia.
Qed.

Lemma silent_poll_call m p timeout w :
  (1 <= call_fuel)%nat -> ws (own w) = true ->
  let '(r, w') := Call busy_after call_fuel m p timeout false w in
  r = None /\ unmoved w w' /\ last_call_timed_out (own w') = true.
Proof.
  intros Hf Hw. unfold Call. rewrite run_bind. cbn [gets fst snd]. rewrite Hw. cbn [negb].
  unfold next_id. rewrite !run_bind. cbn [update_own modify gets fst snd].
  set (text := rpc_request _ m p). unfold SendText. rewrite !run_bind.
  match goal with |- context [call (ws_send text) ?v] => set (w1 := v) end.
  destruct (silent_call (ws_send text) true w1 (silent_send _ _ L text)) as (e1 & -> & H1). cbn [modify ret fst snd negb].
  rewrite run_bind. match goal with |- context [call steady_now ?v] => set (w2 := v) end.
  destruct (silent_clock w2) as (e2 & -> & H2). cbn [fst snd].
  match goal with |- context [await_reply _ ?i ?d ?b _ ?v] => pose proof (silent_await i d b v Hf) as Ha; destruct (await_reply _ i d b _ v) as [r w'] end.
  destruct Ha as (-> & Hu & ->). split_and!; [done| |done]. etrans; [|exact Hu].
  subst w2 w1. cbn in *. split_and!; try done. cbn. lia.
Qed.

(** A poll of a silent Kodi counts one more timeout and asks for the link to be dropped at
    the third; nothing is shown or announced. *)
Lemma silent_poll w :
  (1 <= call_fuel)%nat -> ws (own w) = true ->
  let '(alive, w') := ReconcilePoll true w in
  alive = (consecutive_poll_timeouts (own w) + 1 <? kMaxToleratedPollTimeouts) /\
  unmoved (with_own (set_consecutive_poll_timeouts (consecutive_poll_timeouts (own w) + 1) (own w)) w) w'.
Proof.
  intros Hf Hw. unfold Kodi.ReconcilePoll, poll_call. rewrite run_bind.
  match goal with |- context [Call _ _ ?m ?p ?t _ w] => pose proof (silent_poll_call m p t w Hf Hw) as Hc; destruct (Call _ _ m p t _ w) as [r w1] end.
  destruct Hc as (-> & (U1 & U2 & U3 & U4 & U5 & U6 & U7 & U8) & Ht). cbn [fst snd].
  unfold call_failed, publish_if. rewrite !run_bind. cbn [ret gets fst snd]. rewrite Ht. cbn.
  rewrite U8. by split_and!.
Qed.

(** Nothing is queued and nobody asked for a reconnect. *)
Definition idle (w : World (E := E)) : Prop :=
  ws (own w) = true /\ pending_commands w = [] /\ pending_library_requests w = [] /\ requested w = false.

Lemma unmoved_idle w w' : unmoved w w' -> idle w -> idle w'.
Proof. intros (_ & _ & _ & H1 & H2 & H3 & H4 & _). unfold idle. by rewrite H1, H2, H3, H4. Qed.

Lemma silent_pump w : idle w -> unmoved w (exec PumpNotifications w).
Proof.
  intros (Hw & _). unfold exec, PumpNotifications. rewrite run_bind. cbn [gets fst snd]. rewrite Hw.
  unfold kMaxPumpIterations. cbn [pump]. rewrite run_bind.
  destruct (silent_call (ws_receive 0) None w (silent_receive _ _ L 0)) as (e & -> & He). cbn. by split_and!.
Qed.

Lemma silent_sleep w :
  idle w ->
  exists w', Sleep pump_interval true w = (kTimeout, w') /\ unmoved w w' /\ clock (env w) + ms pump_interval <= clock (env w').
Proof.
  intros (Hw & Hc & Hl & Hr). unfold Sleep. destruct (silent_wait _ _ L (env w)) as [H1 H2]. unfold eval, exec in *.
  destruct (wait pump_interval (env w)) as [[stopped ops] e]. cbn in H1, H2. simplify_eq.
  unfold has_work. rewrite Hc, Hl, Hr. cbn. eexists. split; [reflexivity|]. cbn. split; [|done].
  pose proof (silent_pump_interval _ _ L). split_and!; cbn; try done. unfold ms in *. lia.
Qed.

(** Nothing to send: both drains return at once. *)
Lemma idle_commands w : idle w -> SendPendingCommands max_age busy_after call_fuel w = (true, with_queues [] [] false w).
Proof.
  intros (Hw & Hc & Hl & Hr). unfold SendPendingCommands. rewrite run_bind. unfold take_commands. cbn [fst snd].
  by rewrite Hc, Hl, Hr.
Qed.

Lemma idle_library w :
  idle w -> SendPendingLibraryRequests max_age busy_after library_timeout call_fuel w = (true, with_queues [] [] false w).
Proof.
  intros (Hw & Hc & Hl & Hr). unfold SendPendingLibraryRequests. rewrite run_bind. unfold take_library_requests. cbn [fst snd].
  by rewrite Hc, Hl, Hr.
Qed.

Lemma requeue_unmoved w : idle w -> unmoved w (with_queues [] [] false w).
Proof. intros (Hw & Hc & Hl & Hr). split_and!; cbn; congruence || done. Qed.

(** What a turn does once a poll is due. *)
Definition poll_turn (fuel : nat) : M (World (E := E)) bool :=
  update_own (set_needs_immediate_poll false) ;;*
  let* alive := ReconcilePoll true in
  if negb alive then ret true else let* now := call steady_now in Connected fuel now.

(** One turn of the connected loop up to its poll. *)
Lemma silent_turn fuel last w :
  idle w ->
  exists w1, unmoved w w1 /\ clock (env w) + ms pump_interval <= clock (env w1) /\
  exists (immediate : bool) (now : Z), now <= clock (env w1) /\ clock (env w) + ms pump_interval <= now /\
    Connected (S fuel) last w =
      (if immediate || (ms reconcile_interval <=? now - last) then poll_turn fuel w1 else Connected fuel last w1).
Proof.
  intros Hi. cbn [connected_loop]. rewrite run_bind.
  destruct (silent_call stop_requested false w (silent_stop _ _ L)) as (e1 & -> & H1). cbn [fst snd].
  assert (U1 : unmoved w (with_env e1 w)) by by split_and!.
  rewrite run_bind. destruct (silent_sleep _ (unmoved_idle _ _ U1 Hi)) as (w2 & -> & U2 & C2). cbn [fst snd].
  assert (I2 : idle w2) by (apply (unmoved_idle _ _ U2), (unmoved_idle _ _ U1), Hi).
  rewrite run_bind. pose proof (silent_pump w2 I2) as U3. unfold exec in U3. set (w3 := (PumpNotifications w2).2) in *.
  assert (I3 : idle w3) by by apply (unmoved_idle _ _ U3).
  rewrite run_bind, (idle_commands _ I3). cbn [fst snd negb].
  pose proof (requeue_unmoved _ I3) as U4. set (w4 := with_queues [] [] false w3) in *.
  assert (I4 : idle w4) by by apply (unmoved_idle _ _ U4).
  rewrite run_bind, (idle_library _ I4). cbn [fst snd negb].
  pose proof (requeue_unmoved _ I4) as U5. set (w5 := with_queues [] [] false w4) in *.
  rewrite run_bind. destruct (silent_clock w5) as (e6 & -> & H6). cbn [fst snd]. rewrite run_bind. cbn [gets fst snd].
  assert (U6 : unmoved w2 (with_env e6 w5)).
  { etrans; [exact U3|]. etrans; [exact U4|]. etrans; [exact U5|]. by split_and!. }
  exists (with_env e6 w5). split_and!.
  - etrans; [exact U1|]. by etrans.
  - destruct U6 as [Hc _]. cbn in *. lia.
  - exists (needs_immediate_poll (own w5)), (clock (env w5)). destruct U3 as [C3 _], U4 as [C4 _], U5 as [C5 _].
    cbn in *. split_and!; [lia|lia|]. by destruct (_ || _).
Qed.

(** [k] more waits until a poll is due; [polls] more polls until the link is dropped. *)
Lemma silent_loop (N : nat) fuel k last w :
  (1 <= N)%nat -> reconcile_interval <= Z.of_nat N * pump_interval -> (1 <= call_fuel)%nat -> idle w ->
  (1 <= k)%nat -> ms reconcile_interval <= clock (env w) - last + Z.of_nat k * ms pump_interval ->
  0 <= consecutive_poll_timeouts (own w) <= 2 ->
  Z.of_nat k + (2 - consecutive_poll_timeouts (own w)) * Z.of_nat N <= Z.of_nat fuel ->
  eval (Connected fuel last) w = true /\
  let w' := exec (Connected fuel last) w in
  consecutive_poll_timeouts (own w') = kMaxToleratedPollTimeouts /\ snapshot w' = snapshot w /\ published w' = published w.
Proof.
  intros HN Hint Hcf. revert k last w. unfold eval, exec.
  induction fuel as [|fuel IH]; intros k last w Hi Hk Hdue Hc Hfuel; [nia|].
  destruct (silent_turn fuel last w Hi) as (w1 & U1 & C1 & immediate & now & Hn1 & Hn2 & ->).
  pose proof (unmoved_idle _ _ U1 Hi) as I1. destruct U1 as (_ & S1 & P1 & _ & _ & _ & _ & N1).
  destruct (immediate || (ms reconcile_interval <=? now - last)) eqn:Ep.
  - unfold poll_turn. rewrite !run_bind. cbn [update_own modify fst snd]. set (w2 := with_own _ w1).
    assert (I2 : idle w2) by exact I1. destruct I2 as [W2 I2'].
    pose proof (silent_poll w2 Hcf W2) as Hp. destruct (ReconcilePoll true w2) as [alive w3]. destruct Hp as [-> U3].
    pose proof (unmoved_idle _ _ U3 (conj W2 I2')) as I3. destruct U3 as (_ & S3 & P3 & _ & _ & _ & _ & N3).
    cbn [own with_own set_needs_immediate_poll consecutive_poll_timeouts set_consecutive_poll_timeouts snapshot published w2] in S3, P3, N3.
    subst w2. cbn [own with_own set_needs_immediate_poll consecutive_poll_timeouts fst snd] in *. rewrite N1 in *.
    unfold kMaxToleratedPollTimeouts in *.
    destruct (Z.ltb_spec (consecutive_poll_timeouts (own w) + 1) 3) as [Hlt|Hge]; cbn [negb].
    + rewrite run_bind. destruct (silent_clock w3) as (e4 & -> & H4). cbn [fst snd].
      destruct (IH N (clock (env w3)) (with_env e4 w3)) as [R1 (R2 & R3 & R4)]; cbn [env own with_env]; try done.
      * unfold ms in *. lia.
      * rewrite N3. lia.
      * rewrite N3. nia.
      * split; [exact R1|]. split; [exact R2|]. cbn in R3, R4. split; congruence.
    + cbn. split; [done|]. split; [lia|]. split; congruence.
  - apply orb_false_iff in Ep as [_ Hlate%Z.leb_gt].
    assert (Hk2 : (2 <= k)%nat). { destruct k as [|[|k]]; lia. }
    destruct (IH (Nat.pred k) last w1) as [R1 (R2 & R3 & R4)]; rewrite ?N1; try done; try lia.
    split; [exact R1|]. split; [exact R2|]. split; congruence.
Qed.
End Silence.

(** ** The queued commands *)

Section Commands.
Context {E : Type} `{KodiEnv E} `{JsonCodec} (max_age busy_after : Z) (call_fuel : nat).

Definition has_target (pid : Z) (c : PendingCommand) : bool :=
  match command_request pid c with Some _ => true | None => false end.

(** The text written for a command. *)
Definition attempt_of (pid : Z) (c : PendingCommand) (t : string * bool) : Prop :=
  exists id m p, command_request pid c = Some (m, p) /\ t.1 = rpc_request id m p.

(** What a batch writes: one request per attempted command, in order; none stale. Unless
    stopped, every command that must not go stale is attempted, and a good return means
    that everything current was written. *)
Definition batch_post (pid now : Z) (batch : list PendingCommand) (failed : bool) (w : World (E := E)) (r : bool)
    (w' : World (E := E)) : Prop :=
  exists attempted l,
    sent w' = sent w ++ l /\ Forall2 (attempt_of pid) attempted l /\ sublist attempted batch /\
    Forall (fun c => is_stale max_age now c = false) attempted /\
    ((forall e : E, eval stop_requested e = false) ->
       sublist (List.filter (fun c => keep_when_stale c && has_target pid c) batch) attempted) /\
    (r = true -> failed = false /\ Forall (fun t => t.2 = true) l /\
       attempted = List.filter (fun c => negb (is_stale max_age now c) && has_target pid c) batch).

Lemma call_result {A} (op : M E A) (a : A) w : (forall e, eval op e = a) -> (call op w).1 = a.
Proof.
  intros Hop. unfold call. specialize (Hop (env w)). unfold eval in Hop. destruct (op (env w)). by destruct (interfere _).
Qed.

Lemma next_id_eq (w : World (E := E)) :
  next_id w = (increment (next_rpc_id (own w)), with_own (set_next_rpc_id (increment (next_rpc_id (own w))) (own w)) w).
Proof. done. Qed.

(** A command that is passed over. *)
Lemma kodi_batch_skip pid now c batch failed w w1 r w' :
  sent w1 = sent w -> negb (is_stale max_age now c) && has_target pid c && negb failed = false ->
  keep_when_stale c && has_target pid c = false ->
  batch_post pid now batch failed w1 r w' -> batch_post pid now (c :: batch) failed w r w'.
Proof.
  intros Hs H1 H2 (d & l & S1 & S2 & S3 & S4 & S5 & S6). exists d, l. rewrite <- Hs.
  split_and!; [done|done|by apply sublist_cons|done| |].
  - intros Hstop. cbn [List.filter]. rewrite H2. by apply S5.
  - intros Hr. destruct (S6 Hr) as (-> & S7 & S8). cbn [List.filter]. cbn in H1. rewrite andb_true_r in H1. by rewrite H1.
Qed.

Lemma send_commands_post pid now batch failed w :
  batch_post pid now batch failed w (send_commands max_age pid now batch failed w).1
    (send_commands max_age pid now batch failed w).2.
Proof.
  revert failed w. induction batch as [|c batch IH]; intros failed w; cbn [send_commands].
  { exists [], []. cbn. rewrite app_nil_r. split_and!; try done. by intros ?%negb_true_iff. }
  rewrite run_bind. destruct (kodi_call_same stop_requested w) as (_ & Ho & _ & Hs).
  destruct (call stop_requested w) as [stopped w1] eqn:Ec. cbn [fst snd] in *.
  destruct stopped.
  { exists [], []. rewrite app_nil_r. split_and!; try done; [by apply sublist_nil_l|].
    intros Hstop. pose proof (call_result stop_requested false w Hstop) as Hf. by rewrite Ec in Hf. }
  assert (Hkeep : is_stale max_age now c = true -> keep_when_stale c = false).
  { unfold is_stale. by destruct (keep_when_stale c). }
  destruct (is_stale max_age now c) eqn:Est.
  { apply (kodi_batch_skip _ _ _ _ _ _ w1); [done|by rewrite Est| |apply IH]. by rewrite Hkeep. }
  destruct (failed && negb (keep_when_stale c)) eqn:Ef.
  { apply andb_true_iff in Ef as [-> Hk%negb_true_iff].
    apply (kodi_batch_skip _ _ _ _ _ _ w1); [done|by rewrite andb_false_r|by rewrite Hk|apply IH]. }
  destruct (command_request pid c) as [[m p]|] eqn:Er.
  2: { assert (Ht : has_target pid c = false) by (unfold has_target; by rewrite Er).
       apply (kodi_batch_skip _ _ _ _ _ _ w1); [done|by rewrite Ht, andb_false_r|by rewrite Ht, andb_false_r|apply IH]. }
  assert (Ht : has_target pid c = true) by (unfold has_target; by rewrite Er).
  rewrite run_bind, next_id_eq. cbn [fst snd]. set (w2 := with_own _ w1). set (text := rpc_request _ m p).
  rewrite run_bind. unfold SendText. rewrite !run_bind. cbn [modify ret fst snd].
  destruct (kodi_call_same (ws_send text) w2) as (_ & _ & _ & Hs2). destruct (call (ws_send text) w2) as [ok w3]. cbn [fst snd] in *.
  destruct (IH (failed || negb ok) (with_sent (sent w3 ++ [(text, ok)]) w3)) as (d & l & S1 & S2 & S3 & S4 & S5 & S6).
  cbn [sent with_sent] in S1. exists (c :: d), ((text, ok) :: l). split_and!.
  - rewrite S1, Hs2. subst w2. cbn. by rewrite Hs, <- app_assoc.
  - constructor; [|done]. eexists _, m, p. split; [done|reflexivity].
  - by apply sublist_skip.
  - by constructor.
  - intros Hstop. cbn [List.filter]. rewrite Ht. destruct (keep_when_stale c); [by apply sublist_skip, S5|by apply sublist_cons, S5].
  - intros Hr. destruct (S6 Hr) as (Hfail & S7 & S8). apply orb_false_iff in Hfail as [-> ->%negb_false_iff].
    cbn [List.filter]. rewrite Est, Ht. cbn. split_and!; [done|by constructor|by f_equal].
Qed.
End Commands.

(** ** A complete listing *)

(** A Kodi that answers each request with one frame, which is there when the client looks;
    time passes only while it talks to the network, and nobody else uses the client.
    [inbox] is the frames that have arrived. *)
Record PromptKodi {E} `{KodiEnv E} (inbox : E -> list string) (clock : E -> Z) (reply : string -> string) : Prop := {
  prompt_send : forall text e, eval (ws_send text) e = true /\ inbox (exec (ws_send text) e) = inbox e ++ [reply text];
  prompt_receive : forall timeout e,
    eval (ws_receive timeout) e = head (inbox e) /\ inbox (exec (ws_receive timeout) e) = tail (inbox e);
  prompt_stop : forall e, eval stop_requested e = false /\ inbox (exec stop_requested e) = inbox e /\
                          clock (exec stop_requested e) = clock e;
  prompt_now : forall e, eval steady_now e = clock e /\ inbox (exec steady_now e) = inbox e /\
                         clock (exec steady_now e) = clock e;
  prompt_others : forall e, eval interfere e = [] /\ inbox (exec interfere e) = inbox e /\ clock (exec interfere e) = clock e
}.

(** The page a listing of [items] holds from [start] on. *)
Definition page_at (items : list json) (start : Z) : list json :=
  firstn (Z.to_nat kLibraryPageSize) (skipn (Z.to_nat start) items).

Definition page_reply (id : Z) (key : string) (items : list json) (start : Z) : json :=
  JObject [("id", JInt id);
           ("result", JObject [(key, JArray (page_at items start)); ("limits", JObject [("total", JInt (item_count items))])])].

(** The server honours [limits]: its reply to the page's request holds the page. *)
Definition serves `{JsonCodec} (reply : string -> string) (m : string) (params : json) (key : string) (items : list json) : Prop :=
  forall id start, INT_MIN <= id <= INT_MAX -> 0 <= start <= kMaxLibraryItems ->
    ParseBoundedJson (reply (rpc_request id m (json_dump (page_params params start)))) = page_reply id key items start.

Lemma set_member_twice key v v' m : set_member key v (set_member key v' m) = set_member key v m.
Proof.
  induction m as [|[k x] m IH]; cbn.
  - by rewrite String.eqb_refl.
  - destruct (String.eqb_spec key k); cbn; [by rewrite String.eqb_refl|].
    destruct (String.eqb_spec key k); [done|]. by rewrite IH.
Qed.

Lemma page_params_twice params a b : page_params (page_params params a) b = page_params params b.
Proof. destruct params; try done. unfold page_params. cbn [set_key]. by rewrite set_member_twice. Qed.

Lemma to_i32_range z : INT_MIN <= to_i32 z <= INT_MAX.
Proof.
  unfold to_i32, wrap_s, INT_MIN, INT_MAX. pose proof (Z.mod_pos_bound (z + 2 ^ (32 - 1)) (2 ^ 32) ltac:(lia)). lia.
Qed.

Lemma to_i32_twice z : to_i32 (to_i32 z) = to_i32 z.
Proof. apply to_i32_id, to_i32_range. Qed.

Lemma page_reply_items id key items start : ResultArray (page_reply id key items start) key = Some (page_at items start).
Proof. unfold ResultArray, page_reply, find_array. cbn. by rewrite String.eqb_refl. Qed.

Lemma page_reply_total id key items start :
  key <> "limits" -> item_count items < 2 ^ 63 -> page_total (page_reply id key items start) = item_count items.
Proof.
  intros Hk Hs. unfold page_total, page_reply, result_of.
  change (find "result" _) with (Some (JObject [(key, JArray (page_at items start)); ("limits", JObject [("total", JInt (item_count items))])])).
  cbv beta iota. unfold find at 1. cbn [assoc]. replace (String.eqb "limits" key) with false by (symmetry; apply String.eqb_neq; congruence).
  unfold GetInt. cbn. apply to_i64_id. unfold item_count in *. lia.
Qed.

Section Listing.
Context {E : Type} `{KodiEnv E} `{JsonCodec} (max_age busy_after library_timeout : Z) (call_fuel : nat)
  (inbox : E -> list string) (clock : E -> Z) (reply : string -> string) (L : PromptKodi inbox clock reply).

(** Connected, nothing queued, nothing unread, and not waiting for a slow listing. *)
Definition fresh (w : World (E := E)) : Prop :=
  ws (own w) = true /\ library_busy_ (own w) = false /\ pending_commands w = [] /\ inbox (env w) = [].

Definition same_events (w w' : World (E := E)) : Prop := published w' = published w.

(** A call into the environment, when nobody interferes. *)
Lemma prompt_call {A} (op : M E A) w :
  exists e, call op w = (eval op (env w), with_env e w) /\
            inbox e = inbox (exec op (env w)) /\ clock e = clock (exec op (env w)).
Proof.
  unfold call, eval, exec. destruct (op (env w)) as [a e]. destruct (prompt_others _ _ _ L e) as (H1 & H2 & H3).
  unfold eval, exec in *. destruct (interfere e) as [ops e']. cbn in *. subst. by exists e'.
Qed.

Lemma prompt_exchange m p w :
  (1 <= call_fuel)%nat -> 0 < library_timeout -> fresh w ->
  (forall id, INT_MIN <= id <= INT_MAX -> exists members, ParseBoundedJson (reply (rpc_request id m p)) = JObject members /\
                              assoc "id" members = Some (JInt id)) ->
  exists w', library_call busy_after library_timeout call_fuel m p w =
               (Some (reply (rpc_request (increment (next_rpc_id (own w))) m p)), w') /\
             fresh w' /\ published w' = published w.
Proof.
  intros Hf Ht (Hw & Hb & Hq & Hi) Hreply. unfold library_call, Call. rewrite run_bind. cbn [gets fst snd]. rewrite Hw.
  cbn [negb]. rewrite run_bind. cbn [update_own modify fst snd]. rewrite run_bind, next_id_eq. cbn [fst snd].
  set (id := increment _). set (w1 := with_own _ (with_own _ w)). set (text := rpc_request id m p).
  rewrite run_bind. unfold SendText. rewrite !run_bind.
  destruct (prompt_call (ws_send text) w1) as (e1 & -> & I1 & _). destruct (prompt_send _ _ _ L text (env w1)) as [-> S1].
  rewrite S1 in I1. cbn [modify ret fst snd negb].
  rewrite run_bind. destruct (prompt_call steady_now (with_sent (sent (with_env e1 w1) ++ [(text, true)]) (with_env e1 w1)))
    as (e2 & -> & I2 & C2). cbn [fst snd env with_env with_sent] in *.
  destruct (prompt_now _ _ _ L e1) as (-> & N1 & N2). rewrite N1 in I2. rewrite N2 in C2.
  destruct call_fuel as [|fuel]; [lia|]. cbn [await_reply]. cbv zeta. rewrite run_bind.
  match goal with |- context [call stop_requested ?v] => destruct (prompt_call stop_requested v) as (e3 & -> & I3 & C3) end.
  cbn [env with_env] in *. destruct (prompt_stop _ _ _ L e2) as (-> & T1 & T2). rewrite T1 in I3. rewrite T2 in C3. cbn [fst snd].
  rewrite run_bind.
  match goal with |- context [call steady_now ?v] => destruct (prompt_call steady_now v) as (e4 & -> & I4 & C4) end.
  cbn [env with_env] in *. destruct (prompt_now _ _ _ L e3) as (-> & N3 & N4). rewrite N3 in I4. cbn [fst snd].
  replace (clock e1 + ms library_timeout <=? clock e3) with false by (symmetry; apply Z.leb_gt; unfold ms; lia).
  rewrite !run_bind. cbn [gets fst snd].
  match goal with |- context [call (ws_receive ?t) ?v] => destruct (prompt_call (ws_receive t) v) as (e5 & -> & I5 & C5);
    destruct (prompt_receive _ _ _ L t (env v)) as [-> R1] end.
  cbn [env with_env] in *. rewrite R1 in I5. rewrite I4, I3, I2, I1 in *. cbn [env w1 with_own] in *. rewrite Hi in *. cbn [app head tail fst snd] in *.
  destruct (Hreply id (to_i32_range _)) as (members & Hp & Hid). fold text in Hp. rewrite Hp. cbn [is_discarded is_object negb orb find]. rewrite Hid.
  rewrite run_bind. unfold SetLibraryBusy. rewrite run_bind. cbn [gets fst snd own with_env with_sent with_own set_next_rpc_id set_last_call_timed_out library_busy_].
  change (library_busy_ (own w1)) with (library_busy_ (own w)). rewrite Hb. cbn [Bool.eqb ret fst snd]. replace (to_i32 id) with id by (symmetry; apply to_i32_twice). rewrite Z.eqb_refl.
  eexists. split; [reflexivity|]. split; [|done]. split_and!; done.
Qed.

Lemma fresh_commands w :
  fresh w -> exists w', SendPendingCommands max_age busy_after call_fuel w = (true, w') /\ fresh w' /\ published w' = published w.
Proof.
  intros (Hw & Hb & Hq & Hi). unfold SendPendingCommands. rewrite run_bind. unfold take_commands. cbn [fst snd].
  rewrite Hq. eexists. split; [reflexivity|]. by split_and!.
Qed.

(** *** The pages *)

Lemma push_page_firstn items k :
  (500 * k <= List.length items)%nat -> (S k <= 20)%nat ->
  push_page (firstn (500 * k) items) (page_at items (Z.of_nat (500 * k))) = firstn (500 * S k) items.
Proof.
  intros Hk Hcap. unfold push_page, page_at, item_count, kMaxLibraryItems, kLibraryPageSize.
  rewrite length_firstn, Nat.min_l by lia. rewrite Nat2Z.id, firstn_firstn.
  replace (Nat.min _ _) with 500%nat by lia.
  replace (500 * S k)%nat with (500 * k + 500)%nat by lia.
  rewrite <- (firstn_skipn (500 * k) items) at 3. rewrite firstn_app, length_firstn, Nat.min_l by lia.
  rewrite firstn_firstn, Nat.min_r by lia. f_equal. f_equal. lia.
Qed.

Lemma page_count items k :
  (500 * k <= List.length items)%nat ->
  item_count (page_at items (Z.of_nat (500 * k))) = Z.min 500 (item_count items - 500 * Z.of_nat k).
Proof.
  intros Hk. unfold item_count, page_at, kLibraryPageSize. rewrite length_firstn, length_skipn, Nat2Z.id. lia.
Qed.

(** The parameters of a later page carry the limits of the one before, which are replaced. *)
Definition same_query (ps params : json) : Prop := forall start, page_params ps start = page_params params start.

Lemma fetch_pages_complete m params key items fuel k ps w :
  (1 <= call_fuel)%nat -> 0 < library_timeout -> serves reply m params key items -> key <> "limits" ->
  item_count items < 2 ^ 63 -> fresh w -> same_query ps params ->
  (k + fuel = 21)%nat -> (k <= 20)%nat -> (500 * k <= List.length items)%nat ->
  (k = 20%nat -> kMaxLibraryItems < item_count items) ->
  exists w', fetch_pages max_age busy_after library_timeout call_fuel fuel m ps key (Z.of_nat (500 * k))
               (firstn (500 * k) items) (Nat.eqb k 20) w
             = (inr (firstn (Z.to_nat kMaxLibraryItems) items, kMaxLibraryItems <? item_count items), w') /\
             fresh w' /\ published w' = published w.
Proof.
  intros Hf Ht Hserve Hkey Hsize. revert k ps w. induction fuel as [|fuel IH]; intros k ps w Hfresh Hps Hsum Hk20 Hk Hfull; [lia|].
  cbn [fetch_pages]. cbv zeta.
  assert (Hcount : item_count (firstn (500 * k) items) = 500 * Z.of_nat k)
    by (unfold item_count; rewrite length_firstn; lia).
  rewrite Hcount. destruct (Nat.eqb_spec k 20) as [->|Hk'].
  { exists w. replace (500 * Z.of_nat 20 <? kMaxLibraryItems) with false by done. cbn [negb]. split; [|done].
    replace (kMaxLibraryItems <? item_count items) with true; [done|]. symmetry. apply Z.ltb_lt.
    by apply Hfull. }
  replace (500 * Z.of_nat k <? kMaxLibraryItems) with true by (symmetry; apply Z.ltb_lt; unfold kMaxLibraryItems; lia).
  cbn [negb].
  assert (Hsend : exists w1, (if 0 <? Z.of_nat (500 * k) then SendPendingCommands max_age busy_after call_fuel else ret true) w
                             = (true, w1) /\ fresh w1 /\ published w1 = published w).
  { destruct (0 <? _); [by apply fresh_commands|]. by exists w. }
  destruct Hsend as (w1 & Hs & F1 & P1). rewrite run_bind, Hs. cbn [fst snd negb]. rewrite Hps, run_bind.
  destruct (prompt_exchange m (json_dump (page_params params (Z.of_nat (500 * k)))) w1 Hf Ht F1) as (w2 & -> & F2 & P2).
  { intros id Hid. rewrite Hserve by (done || unfold kMaxLibraryItems; lia). by eexists. }
  cbn [fst snd]. rewrite Hserve, page_reply_items, page_reply_total, page_count
    by (done || apply to_i32_range || unfold kMaxLibraryItems; lia).
  assert (Hn : 0 <= item_count items) by (unfold item_count; lia).
  rewrite push_page_firstn by lia. unfold kLibraryPageSize.
  assert (Hk2 : 500 * Z.of_nat k <= item_count items) by (unfold item_count; lia).
  destruct (Z.eqb_spec (Z.min 500 (item_count items - 500 * Z.of_nat k)) 500) as [He|He]; cbn [negb orb].
  - rewrite He. replace (0 <=? item_count items) with true by lia. cbn [andb].
    destruct (Z.leb_spec (item_count items) (Z.of_nat (500 * k) + 500)) as [Hle|Hgt].
    + exists w2. split; [|by split; [|congruence]]. do 3 f_equal.
      * unfold item_count in *. rewrite !firstn_all2 by (unfold kMaxLibraryItems; lia). done.
      * symmetry. apply Z.ltb_ge. unfold kMaxLibraryItems. lia.
    + replace (Z.of_nat (500 * k) + 500) with (Z.of_nat (500 * S k)) by lia.
      assert (Hc' : (kMaxLibraryItems <=? item_count (firstn (500 * S k) items)) = Nat.eqb (S k) 20).
      { unfold item_count in *. rewrite length_firstn, Nat.min_l by lia. unfold kMaxLibraryItems.
        destruct (Nat.eqb_spec (S k) 20); [apply Z.leb_le|apply Z.leb_gt]; lia. }
      rewrite Hc'. destruct (IH (S k) (page_params params (Z.of_nat (500 * k))) w2) as (w3 & -> & F3 & P3); try done; try lia.
      * intros b. apply page_params_twice.
      * unfold item_count in *. lia.
      * intros HS. unfold kMaxLibraryItems. lia.
      * exists w3. split; [done|]. split; [done|congruence].
  - exists w2. split; [|by split; [|congruence]]. do 3 f_equal.
    + unfold item_count in *. rewrite !firstn_all2 by (unfold kMaxLibraryItems; lia). done.
    + symmetry. apply Z.ltb_ge. unfold kMaxLibraryItems. lia.
Qed.

(** The text published for the items kept. *)
Definition listing (key : string) (items : list json) : json := JObject [("result", JObject [(key, JArray items)])].

Lemma CallLibrary_complete m p key items w :
  (1 <= call_fuel)%nat -> 0 < library_timeout -> is_object (ParseBoundedJson p) = true ->
  serves reply m (ParseBoundedJson p) key items -> key <> "limits" -> item_count items < 2 ^ 63 -> fresh w ->
  exists w', CallLibrary max_age busy_after library_timeout call_fuel m p (Some key) w =
               ((Some (json_dump (listing key (firstn (Z.to_nat kMaxLibraryItems) items))), kMaxLibraryItems <? item_count items), w') /\
             fresh w' /\ published w' = published w.
Proof.
  intros Hf Ht Hp Hserve Hkey Hsize Hfresh. unfold CallLibrary. rewrite run_bind.
  destruct (fresh_commands w Hfresh) as (w1 & -> & F1 & P1). cbn [fst snd negb]. cbv zeta. rewrite Hp. cbn [negb].
  rewrite run_bind.
  destruct (fetch_pages_complete m (ParseBoundedJson p) key items 21 0 (ParseBoundedJson p) w1) as (w2 & Hw2 & F2 & P2); try done; try lia.
  change (Z.of_nat (500 * 0)) with 0 in Hw2. change (firstn (500 * 0) items) with (@nil json) in Hw2. cbn [Nat.eqb] in Hw2.
  unfold page_fuel. rewrite Hw2. exists w2. split; [done|]. split; [done|congruence].
Qed.

(** One queued request: its listing is fetched and published. *)
Lemma serve_one r key items w :
  (1 <= call_fuel)%nat -> 0 < library_timeout ->
  let q := BuildLibraryQuery r in
  result_key q = Some key -> is_object (ParseBoundedJson (q_params q)) = true ->
  serves reply (q_method q) (ParseBoundedJson (q_params q)) key items -> item_count items < 2 ^ 63 ->
  fresh w -> pending_library_requests w = [r] ->
  exists w', SendPendingLibraryRequests max_age busy_after library_timeout call_fuel w = (true, w') /\
    published w' = published w ++
      [publish q (json_dump (listing key (firstn (Z.to_nat kMaxLibraryItems) items))) (kMaxLibraryItems <? item_count items)].
Proof.
  intros Hf Ht q Hkey Hp Hserve Hsize Hfresh Hq. unfold SendPendingLibraryRequests. rewrite run_bind.
  unfold take_library_requests. cbn [fst snd]. rewrite Hq. cbn [bool_decide decide_rel]. rewrite bool_decide_false by done.
  rewrite run_bind. cbn [gets fst snd]. assert (Hws : ws (own w) = true) by apply Hfresh.
  cbn [own with_queues]. rewrite Hws. cbn [negb serve_requests]. cbv zeta. set (w0 := with_queues _ [] _ w).
  rewrite run_bind. destruct (prompt_call stop_requested w0) as (e1 & -> & I1 & _).
  destruct (prompt_stop _ _ _ L (env w0)) as (-> & S1 & _). cbn [fst snd]. rewrite run_bind. fold q. rewrite Hkey.
  assert (Hlim : key <> "limits").
  { intros ->. revert Hkey. unfold q, BuildLibraryQuery. by destruct (lr_kind r). }
  assert (F1 : fresh (with_env e1 w0)).
  { destruct Hfresh as (F1 & F2 & F3 & F4). split_and!; try done. cbn. by rewrite I1, S1. }
  destruct (CallLibrary_complete (q_method q) (q_params q) key items (with_env e1 w0) Hf Ht Hp Hserve Hlim Hsize F1)
    as (w2 & -> & F2 & P2).
  cbn [fst snd]. eexists. split; [reflexivity|]. cbn. by rewrite P2.
Qed.
End Listing.

(** ** Properties *)

Section Properties.
Context {E : Type} `{KodiEnv E} `{JsonCodec}
  (reconcile_interval pump_interval max_age busy_after library_timeout : Z) (call_fuel : nat).

(** C17: A call never takes another request's reply, a notification or garbage for its own: on a
    connection it writes exactly one request, under the next id (after the greatest int, where
    the increment is undefined, any int); a text it returns is a
    JSON object whose integer id is that id, and the request had been written; and the mark
    of a timeout, on which the link is kept, is left only by a request that was written and
    got no reply. *)
Theorem call_returns_own_reply (m p : string) (timeout_ms : Z) (report_busy : bool) (w : World (E := E)) :
  ws (own w) = true ->
  let r := eval (Call busy_after call_fuel m p timeout_ms report_busy) w in
  let w' := exec (Call busy_after call_fuel m p timeout_ms report_busy) w in
  let id := next_rpc_id (own w') in
  (INT_MIN <= next_rpc_id (own w) < INT_MAX -> id = next_rpc_id (own w) + 1) /\
  exists ok, sent w' = sent w ++ [(rpc_request id m p, ok)] /\
    (forall text, r = Some text -> ok = true /\ answers id text) /\
    (last_call_timed_out (own w') = true -> ok = true /\ r = None).
Proof.
  intros Hws. destruct (call_exchange busy_after call_fuel m p timeout_ms report_busy w Hws w eq_refl) as [Hid Hx].
  cbv zeta. unfold exec. rewrite Hid. split; [|exact Hx]. intros Hr. unfold increment.
  destruct (Z.eqb_spec (next_rpc_id (own w)) INT_MAX); [lia|]. apply to_i32_id. lia.
Qed.

(** C23: An idle client gives up a Kodi that has stopped answering on a link that stays open: with
    nothing queued and nobody to queue anything (a turn that is spent on a command goes
    on without a poll, so a stream of commands puts the end off), no stop, and every send
    accepted, [N] pump waits to a reconcile interval, the connected loop is left within [3 * N]
    turns, after exactly three polls in a row without an answer, and until then nothing shown
    changes. *)
Theorem silent_kodi_dropped (clock : E -> Z) (N fuel : nat) (last : Z) (w : World (E := E)) :
  SilentKodi clock pump_interval -> (1 <= N)%nat -> reconcile_interval <= Z.of_nat N * pump_interval ->
  (1 <= call_fuel)%nat -> idle w -> last <= clock (env w) -> consecutive_poll_timeouts (own w) = 0 ->
  (3 * N <= fuel)%nat ->
  let run := connected_loop reconcile_interval pump_interval max_age busy_after library_timeout call_fuel fuel last in
  eval run w = true /\
  consecutive_poll_timeouts (own (exec run w)) = kMaxToleratedPollTimeouts /\
  snapshot (exec run w) = snapshot w /\ published (exec run w) = published w.
Proof.
  intros L HN Hint Hcf Hi Hlast Hc Hfuel run.
  destruct (silent_loop reconcile_interval pump_interval max_age busy_after library_timeout call_fuel clock L
              N fuel N last w) as [R1 R2]; try done; rewrite ?Hc; try lia.
  unfold ms. lia.
Qed.

(** The queued commands reach Kodi as they were given: apart from the one question for the
    active player, asked only when some command needs it, one request is written per
    attempted command, in the order queued, none stale; unless a stop comes, every stop and
    mute that has a target is attempted, whatever its age and even after a failed send; and
    a good return means every current command with a target was written successfully. *)
Theorem commands_reach_kodi (w : World (E := E)) :
  ws (own w) = true -> pending_commands w <> [] ->
  let batch := pending_commands w in
  let w' := exec (SendPendingCommands max_age busy_after call_fuel) w in
  exists pid now probe attempted l,
    sent w' = sent w ++ probe ++ l /\ (List.length probe <= 1)%nat /\ (existsb needs_player batch = false -> probe = []) /\
    Forall2 (attempt_of pid) attempted l /\ sublist attempted batch /\
    Forall (fun c => is_stale max_age now c = false) attempted /\
    ((forall e : E, eval stop_requested e = false) ->
       sublist (List.filter (fun c => keep_when_stale c && has_target pid c) batch) attempted) /\
    (eval (SendPendingCommands max_age busy_after call_fuel) w = true ->
       Forall (fun t => t.2 = true) l /\
       attempted = List.filter (fun c => negb (is_stale max_age now c) && has_target pid c) batch).
Proof.
  intros Hws Hne. cbv zeta. unfold eval, exec, SendPendingCommands. rewrite !run_bind. unfold take_commands. cbn [fst snd].
  set (batch := pending_commands w) in *. rewrite bool_decide_false by done. rewrite run_bind. cbn [gets fst snd own with_queues].
  rewrite Hws. cbn [negb]. rewrite run_bind. set (w0 := with_queues _ _ _ w).
  assert (Hprobe : exists probe, sent ((if existsb needs_player batch then ResolveActivePlayerId busy_after call_fuel else ret (-1)) w0).2
                     = sent w ++ probe /\ (List.length probe <= 1)%nat /\ (existsb needs_player batch = false -> probe = [])).
  { destruct (existsb needs_player batch); [|exists []; split_and!; cbn; rewrite ?app_nil_r; done || lia].
    unfold ResolveActivePlayerId. rewrite run_bind. cbn [ret snd].
    destruct (call_exchange busy_after call_fuel "Player.GetActivePlayers" EmptyString kCallTimeoutMs false w0 Hws w0 eq_refl)
      as (_ & ok & Hs & _). eexists. split; [exact Hs|]. split; [cbn; lia|done]. }
  destruct Hprobe as (probe & Hp1 & Hp2 & Hp3). 
  destruct ((if existsb needs_player batch then ResolveActivePlayerId busy_after call_fuel else ret (-1)) w0) as [pid w1].
  cbn [fst snd] in *.
  rewrite run_bind. destruct (kodi_call_same steady_now w1) as (_ & _ & _ & Hs). destruct (call steady_now w1) as [now w2]. cbn [fst snd] in *.
  destruct (send_commands_post max_age pid now batch false w2) as (d & l & S1 & S2 & S3 & S4 & S5 & S6).
  exists pid, now, probe, d, l. split_and!; try done; [by rewrite S1, Hs, Hp1, app_assoc|].
  intros Hr. by destruct (S6 Hr) as (_ & ? & ?).
Qed.

(** C19: A library listing is complete: against a Kodi that answers and honours [limits], a queued
    request for a paged listing publishes one event, of that request, whose text lists
    exactly the server's items in order, fetched 500 at a time, up to the first 10,000; and
    the event is marked truncated precisely when there were more. *)
Theorem listing_is_complete (inbox : E -> list string) (clock : E -> Z) (reply : string -> string)
    (r : LibraryRequest) (key : string) (items : list json) (w : World (E := E)) :
  let q := BuildLibraryQuery r in
  let kept := firstn (Z.to_nat kMaxLibraryItems) items in
  PromptKodi inbox clock reply -> (1 <= call_fuel)%nat -> 0 < library_timeout ->
  result_key q = Some key -> is_object (ParseBoundedJson (q_params q)) = true ->
  serves reply (q_method q) (ParseBoundedJson (q_params q)) key items -> item_count items < 2 ^ 63 ->
  ParseBoundedJson (json_dump (listing key kept)) = listing key kept ->
  fresh inbox w -> pending_library_requests w = [r] ->
  eval (SendPendingLibraryRequests max_age busy_after library_timeout call_fuel) w = true /\
  exists text,
    published (exec (SendPendingLibraryRequests max_age busy_after library_timeout call_fuel) w) =
      published w ++ [publish q text (kMaxLibraryItems <? item_count items)] /\
    ResultArray (ParseBoundedJson text) key = Some kept.
Proof.
  intros q kept L Hf Ht Hkey Hp Hserve Hsize Hround Hfresh Hq.
  destruct (serve_one max_age busy_after library_timeout call_fuel inbox clock reply L r key items w Hf Ht Hkey Hp Hserve
              Hsize Hfresh Hq) as (w' & Hw' & Hpub).
  unfold eval, exec. rewrite Hw'. split; [done|]. eexists. split; [exact Hpub|]. fold kept. rewrite Hround.
  unfold ResultArray, listing, find_array. cbn. by rewrite String.eqb_refl.
Qed.
End Properties.

(** ** Witnesses *)

Module Sample.

(** A link that stays open while nothing arrives; the state is the clock. *)
#[export] Instance silent : KodiEnv Z := {|
  ws_connect := fun _ => ret true;
  ws_send := fun _ => ret true;
  ws_receive := fun timeout e => (None, e + ms (Z.max 0 timeout));
  ws_is_open := ret true;
  ws_close := ret tt;
  stop_requested := ret false;
  steady_now := fun e => (e, e);
  read_setting := fun _ => ret None;
  browse := fun _ _ => ret [];
  interfere := ret [];
  wait := fun delay e => ((false, []), e + ms delay);
  after_int_max := INT_MIN
|}.

Lemma silent_ok : SilentKodi (fun e => e) 250.
Proof. constructor; unfold eval, exec; intros; cbn; unfold ms; try (split; [reflexivity|]); lia. Qed.

(** A Kodi that answers at once; the state is the frames that have arrived. *)
#[export] Instance prompt : KodiEnv (list string) := {|
  ws_connect := fun _ => ret true;
  ws_send := fun text e => (true, e ++ [text]);
  ws_receive := fun _ e => (head e, tail e);
  ws_is_open := ret true;
  ws_close := ret tt;
  stop_requested := ret false;
  steady_now := ret 0;
  read_setting := fun _ => ret None;
  browse := fun _ _ => ret [];
  interfere := ret [];
  wait := fun _ => ret (false, []);
  after_int_max := INT_MIN
|}.

Lemma prompt_ok : PromptKodi (E := list string) (fun e => e) (fun _ => 0) (fun text => text).
Proof. constructor; intros; by repeat split. Qed.

(** Three movies. *)
Definition movies : list json := [JObject [("movieid", JInt 1)]; JObject [("movieid", JInt 2)]; JObject [("movieid", JInt 3)]].

(** A toy codec: a request for a page is its id and its first item's number, and parses as
    the reply to it; the listing of the three movies has a text of its own. *)
Definition int_of (key : string) (j : json) : Z := GetInt j key (-1).

#[export] Instance codec : JsonCodec := {|
  json_dump := fun j =>
    match find "method" j, find "limits" j, find "result" j with
    | Some _, _, _ => to_string (int_of "id" j) +:+ "," +:+
                      match find "params" j with Some p => to_string (int_of "start" p) | None => EmptyString end
    | _, Some l, _ => to_string (int_of "start" l)
    | _, _, Some _ => "listing"
    | _, _, _ => "query"
    end;
  json_parse := fun text =>
    if String.eqb text "query" then JObject []
    else if String.eqb text "listing" then listing "movies" movies
    else match from_chars INT_MIN INT_MAX text with
         | Some (id, String _ rest) =>
             match from_chars 0 kMaxLibraryItems rest with
             | Some (start, _) => page_reply id "movies" movies start
             | None => JDiscarded
             end
         | Some (n, EmptyString) => JObject [("start", JInt n)]
         | None => JDiscarded
         end |}.

Lemma plain_never_exceeds m d s : string_forallb is_plain s = true -> exceeds_from m d false s = false.
Proof.
  revert d. induction s as [|c s IH]; intros d; [done|]. cbn. unfold is_plain at 1. rewrite andb_true_iff, negb_true_iff.
  intros [[[H1 H2]%orb_false_iff H3]%orb_false_iff Hs]. rewrite H1, H2, H3. by apply IH.
Qed.

Lemma digits_plain fuel n acc : string_forallb is_plain acc = true -> string_forallb is_plain (dec_digits fuel n acc) = true.
Proof.
  revert n acc. induction fuel as [|fuel IH]; intros n acc Hacc; [done|]. cbn [dec_digits].
  assert (Hd : is_plain (digit_char (n mod 10)) = true).
  { pose proof (Z.mod_pos_bound n 10 ltac:(lia)) as Hn. pose proof (digit_char_digit _ Hn) as Hd.
    pose proof (by_chars (fun c => implb (isdigit c) (is_plain c)) ltac:(vm_compute; reflexivity) (digit_char (n mod 10))) as Hc.
    cbn in Hc. by rewrite Hd in Hc. }
  destruct (n <? 10); [|apply IH]; cbn; by rewrite Hd, Hacc.
Qed.

Lemma number_plain n : string_forallb is_plain (to_string n) = true.
Proof. unfold to_string. destruct (n <? 0); [change (is_plain "-" && string_forallb is_plain (dec_digits dec_fuel (- n) EmptyString) = true); cbn [andb]|]; by apply digits_plain. Qed.

Lemma number_not_word n w : starts_with_digit w = false -> Ascii.eqb "-" (match w with String c _ => c | EmptyString => nul end) = false ->
  w <> EmptyString -> forall rest, String.eqb (to_string n +:+ rest) w = false.
Proof.
  intros Hd Hm Hw rest. apply String.eqb_neq. intros Heq. unfold to_string in Heq. destruct w as [|c w]; [done|].
  destruct (n <? 0).
  - rewrite sapp_cons in Heq.
    revert Heq. generalize (dec_digits dec_fuel (- n) EmptyString +:+ rest). intros s Heq. injection Heq as E _. by rewrite <- E in Hm.
  - assert (Hs : starts_with_digit (dec_digits dec_fuel n EmptyString) = true) by (apply dec_digits_starts; unfold dec_fuel; lia).
    destruct (dec_digits dec_fuel n EmptyString) as [|c' s]; [done|]. rewrite sapp_cons in Heq. injection Heq as E _. cbn in Hs, Hd. congruence.
Qed.

Lemma served m : serves (fun text => text) m (JObject []) "movies" movies.
Proof.
  intros id start Hid Hstart. unfold rpc_request, kMaxLibraryItems, INT_MIN, INT_MAX in *.
  assert (Hp : json_dump (page_params (JObject []) start) = to_string start).
  { cbn. unfold int_of, GetInt. cbn. rewrite to_i64_id by lia. done. }
  rewrite Hp. assert (Hempty : is_empty (to_string start) = false).
  { unfold to_string. destruct (start <? 0); [done|].
    pose proof (dec_digits_starts dec_fuel start EmptyString ltac:(unfold dec_fuel; lia)). by destruct (dec_digits _ _ _). }
  rewrite Hempty.
  assert (Hparse : ParseBoundedJson (to_string start) = JObject [("start", JInt start)]).
  { unfold ParseBoundedJson, ExceedsJsonNestingDepth. rewrite plain_never_exceeds by apply number_plain. unfold json_parse, codec.
    rewrite <- (sapp_nil_r (to_string start)).
    rewrite !number_not_word by done. rewrite to_string_from_chars by (unfold INT_MIN, INT_MAX; lia || done). done. }
  rewrite Hparse. cbn [is_discarded].
  match goal with |- context [json_dump ?j] => assert (Hd : json_dump j = to_string id +:+ "," +:+ to_string start) end.
  { cbn. unfold int_of, GetInt. cbn. by rewrite !to_i64_id by lia. }
  rewrite Hd. unfold ParseBoundedJson, ExceedsJsonNestingDepth.
  rewrite plain_never_exceeds by (rewrite !string_forallb_app, !number_plain; done). unfold json_parse, codec.
  rewrite !number_not_word by done. rewrite to_string_from_chars by (unfold INT_MIN, INT_MAX; lia || done).
  rewrite <- (sapp_nil_r (to_string start)). rewrite sapp_cons, sapp_nil_l. cbv beta iota.
  rewrite to_string_from_chars by (unfold kMaxLibraryItems; lia || done). done.
Qed.

(** Connected to the silent Kodi, nothing queued. *)
Definition idle_world : World (E := Z) := let w := start 2000 60000 0 in with_own (set_ws true (own w)) w.

(** Connected to the prompt Kodi, the movies asked for. *)
Definition asking : World (E := list string) :=
  let w := start 2000 60000 [] in EnqueueLibraryRequest RequestMovies (with_own (set_ws true (own w)) w).

(** A stale stop and a stale pause, and a volume step. *)
Definition commanding : World (E := list string) :=
  let w := start 2000 60000 [] in
  EnqueueCommand (VolumeStep true 0) (EnqueueCommand (ToggleMute (- ms 90000))
    (EnqueueCommand (SendInput kUp (- ms 90000)) (with_own (set_ws true (own w)) w))).
End Sample.

Lemma call_returns_own_reply_witness :
  exists ok, sent (exec (Call (H := Sample.silent) (H0 := Sample.codec) 3000 9 "Player.GetActivePlayers" EmptyString 8000 false) Sample.idle_world) =
               [(rpc_request (H := Sample.codec) 1 "Player.GetActivePlayers" EmptyString, ok)].
Proof.
  destruct (call_returns_own_reply (H := Sample.silent) (H0 := Sample.codec) 3000 9 "Player.GetActivePlayers" EmptyString 8000 false
              Sample.idle_world eq_refl) as (_ & ok & Hs & _).
  exists ok. exact Hs.
Defined.

Lemma silent_kodi_dropped_witness :
  let run := connected_loop (H := Sample.silent) (H0 := Sample.codec) 10000 250 5000 3000 30000 3 120 0 in
  eval run Sample.idle_world = true /\
  consecutive_poll_timeouts (own (exec run Sample.idle_world)) = kMaxToleratedPollTimeouts /\
  snapshot (exec run Sample.idle_world) = snapshot Sample.idle_world /\
  published (exec run Sample.idle_world) = published Sample.idle_world.
Proof.
  apply (silent_kodi_dropped (H := Sample.silent) (H0 := Sample.codec) 10000 250 5000 3000 30000 3 (fun e => e) 40 120 0 Sample.idle_world).
  - exact Sample.silent_ok.
  - lia.
  - lia.
  - lia.
  - by split_and!.
  - cbn. lia.
  - reflexivity.
  - lia.
Defined.

Lemma commands_reach_kodi_witness :
  exists pid now probe attempted l,
    sent (exec (SendPendingCommands (H := Sample.prompt) (H0 := Sample.codec) 5000 3000 3) Sample.commanding) =
      sent Sample.commanding ++ probe ++ l /\
    Forall2 (attempt_of (H0 := Sample.codec) pid) attempted l /\
    sublist (List.filter (fun c => keep_when_stale c && has_target (H0 := Sample.codec) pid c) (pending_commands Sample.commanding)) attempted /\
    Forall (fun c => is_stale 5000 now c = false) attempted.
Proof.
  destruct (commands_reach_kodi (H := Sample.prompt) (H0 := Sample.codec) 5000 3000 3 Sample.commanding eq_refl
              ltac:(by vm_compute)) as (pid & now & probe & d & l & H1 & _ & _ & H4 & _ & H6 & H7 & _).
  exists pid, now, probe, d, l. split_and!; [exact H1|exact H4|apply H7; intros e; reflexivity|exact H6].
Defined.

Lemma listing_is_complete_witness :
  exists text,
    published (exec (SendPendingLibraryRequests (H := Sample.prompt) (H0 := Sample.codec) 5000 3000 30000 3) Sample.asking) =
      [KodiMoviesFetchedEvent (ParseMovies (H := Sample.codec) text) false] /\
    ResultArray (ParseBoundedJson (H := Sample.codec) text) "movies" = Some Sample.movies.
Proof.
  destruct (listing_is_complete (H := Sample.prompt) (H0 := Sample.codec) 5000 3000 30000 3 (fun e => e) (fun _ => 0)
    (fun text => text) RequestMovies "movies" Sample.movies Sample.asking) as (_ & text & H1 & H2).
  - exact Sample.prompt_ok.
  - lia.
  - lia.
  - reflexivity.
  - vm_compute. reflexivity.
  - apply Sample.served.
  - vm_compute. reflexivity.
  - vm_compute. reflexivity.
  - by split_and!.
  - vm_compute. reflexivity.
  - exists text. split; [exact H1|]. exact H2.
Defined.
