(* ===== verification/KodiTyped.v ===== *)
(** KodiTyped: what the Kodi client publishes has the types it is declared with.

    The listing types of [src/src/core/kodi_client.h] hold [int]s and [long long]s, filled
    by narrowing conversions and casts from whatever numbers a Kodi sends. Here: every
    listing event of every run is within those types, and no cast of a double is out of
    its range ([published_events_typed]). *)
From Stdlib Require Import SpecFloat.
From S2P Require Import Prelude Json Double Storage Connectivity KodiJson KodiTypes Kodi KodiInvariant.

(** ** The types *)

Definition int32 (z : Z) : Prop := INT_MIN <= z <= INT_MAX.
Definition int64 (z : Z) : Prop := INT64_MIN <= z <= INT64_MAX.
Definition resume_ms (z : Z) : Prop := 0 <= z <= kMaxResumeMs.

Definition movie_typed (m : KodiMovie) : Prop := int64 (movieid m) /\ int32 (movie_year m) /\ resume_ms (movie_resume_ms m).
Definition show_typed (s : KodiTvShow) : Prop :=
  int64 (tvshowid s) /\ int32 (show_year s) /\ int32 (show_episodes s) /\ int32 (show_watched s).
Definition season_typed (s : KodiSeason) : Prop :=
  int32 (season_number s) /\ int32 (season_episodes s) /\ int32 (season_watched s).
Definition episode_typed (e : KodiEpisode) : Prop :=
  int64 (episodeid e) /\ int32 (episode_number e) /\ resume_ms (episode_resume_ms e).
Definition artist_typed (a : KodiArtist) : Prop := int64 (artistid a).
Definition album_typed (a : KodiAlbum) : Prop := int64 (albumid a) /\ int32 (album_year a).
Definition song_typed (s : KodiSong) : Prop := int64 (songid s) /\ int32 (song_track s) /\ int32 (song_seconds s).
Definition group_typed (g : KodiChannelGroup) : Prop := int64 (channelgroupid g).
Definition channel_typed (c : KodiChannel) : Prop := int64 (channelid c).

Definition event_typed (ev : KodiEvent) : Prop :=
  match ev with
  | KodiMoviesFetchedEvent l _ => Forall movie_typed l
  | KodiTvShowsFetchedEvent l _ => Forall show_typed l
  | KodiSeasonsFetchedEvent _ l _ => Forall season_typed l
  | KodiEpisodesFetchedEvent _ _ l _ => Forall episode_typed l
  | KodiArtistsFetchedEvent l _ => Forall artist_typed l
  | KodiAlbumsFetchedEvent _ l _ => Forall album_typed l
  | KodiSongsFetchedEvent _ l _ => Forall song_typed l
  | KodiChannelGroupsFetchedEvent l _ => Forall group_typed l
  | KodiChannelsFetchedEvent _ l _ => Forall channel_typed l
  | _ => True
  end.

(** ** The parsers *)

Lemma GetInt_typed j key fallback : int64 fallback -> int64 (GetInt j key fallback).
Proof.
  intros Hf. unfold GetInt. destruct (negb (is_object j)); [done|].
  destruct (find key j) as [[]|]; try done. unfold int64, INT64_MIN, INT64_MAX, to_i64.
  pose proof (wrap_s_range 64 z ltac:(lia)). change (64 - 1) with 63 in *. lia.
Qed.

Lemma GetInt32_typed j key fallback : int32 (GetInt32 j key fallback).
Proof.
  unfold GetInt32, int32, INT_MIN, INT_MAX, to_i32. pose proof (wrap_s_range 32 (GetInt j key fallback) ltac:(lia)).
  change (32 - 1) with 31 in *. lia.
Qed.

Lemma ResumePositionMs_typed item : json_numbers_ok item -> resume_ms (ResumePositionMs item).
Proof.
  intros Hi. unfold ResumePositionMs. destruct (negb (is_object item)); [done|].
  destruct (find "resume" item) as [resume|] eqn:E; [|done]. cbv zeta.
  pose proof (resume_cast_range (GetDouble resume "position" (double_of_Z 0))
    (GetDouble_fits _ _ _ (json_numbers_find _ _ _ Hi E) (double_of_Z_fits 0))) as Hr.
  rewrite to_i64_id; [exact Hr|]. split; [lia|]. eapply Z.le_lt_trans; [apply Hr|by vm_compute].
Qed.

Lemma minus_one_typed : int64 (-1).
Proof. done. Qed.

Create HintDb kodi_typed.
#[export] Hint Resolve GetInt_typed GetInt32_typed ResumePositionMs_typed minus_one_typed : kodi_typed.

Section Parsers.
Context `{JsonCodec} (Hparse : forall text, json_numbers_ok (json_parse text)).

Lemma ResultArray_ok text key l :
  ResultArray (ParseBoundedJson text) key = Some l -> Forall json_numbers_ok l.
Proof.
  assert (Hp : json_numbers_ok (ParseBoundedJson text)).
  { unfold ParseBoundedJson. by destruct (ExceedsJsonNestingDepth _ _). }
  unfold ResultArray. destruct (is_object _); [|done]. destruct (find "result" _) as [r|] eqn:Er; [|done].
  apply (json_numbers_find _ _ _ Hp) in Er. destruct r as [| | | | | | |m]; try done.
  unfold find_array. destruct (find key (JObject m)) as [v|] eqn:Ev; [|done].
  apply (json_numbers_find _ _ _ Er) in Ev. destruct v; try done. intros [= <-].
  apply Forall_forall. intros j. by apply json_numbers_array.
Qed.

Lemma ParseList_typed {T} (P : T -> Prop) text key fill :
  (forall j, json_numbers_ok j -> P (fill j)) -> Forall P (ParseList text key fill).
Proof.
  intros HP. unfold ParseList. destruct (ResultArray _ key) as [l|] eqn:E; [|done].
  apply Forall_map. eapply Forall_impl; [by eapply ResultArray_ok|]. intros j. apply HP.
Qed.

Lemma listing_typed r text truncated : event_typed (publish (BuildLibraryQuery r) text truncated).
Proof.
  unfold BuildLibraryQuery. cbv zeta.
  destruct (lr_kind r); try exact I; cbn [publish query event_typed]; apply ParseList_typed; intros j Hj;
    repeat split; cbn; eauto with kodi_typed; try apply GetInt32_typed; by apply GetInt_typed || by apply ResumePositionMs_typed.
Qed.
End Parsers.

(** ** The loop *)

Section Loop.
Context {E : Type} `{KodiEnv E} `{JsonCodec} (Hparse : forall text, json_numbers_ok (json_parse text)).
Context (initial_backoff max_backoff reconcile_interval pump_interval browse_timeout max_age busy_after library_timeout : Z)
  (call_fuel : nat).

Definition typed (w : World (E := E)) : Prop := Forall event_typed (published w).

Lemma call_typed {A} (op : M E A) : related (keeps typed) (call op).
Proof. intros w Hw. unfold typed, exec. by destruct (kodi_call_same op w) as (_ & _ & -> & _). Qed.

Lemma Publish_typed ev : event_typed ev -> related (keeps typed) (Publish ev).
Proof. intros He w Hw. unfold typed, exec. cbn. apply Forall_app. split; [exact Hw|by constructor]. Qed.

Lemma Sleep_typed delay watch : related (keeps typed) (Sleep delay watch).
Proof.
  intros w Hw. unfold typed, exec, Sleep. destruct (wait delay (env w)) as [[stopped ops] e].
  destruct (Wait _ _ _ _ _) as [[r q] rest]. cbn. by destruct (externals_same ops (with_env e w)) as (_ & _ & -> & _).
Qed.

(** The steps that publish nothing, or an event without numbers. *)
Ltac typed_leaf := idtac;
  lazymatch goal with
  | |- related _ (call _) => apply call_typed
  | |- related _ (Publish _) => apply Publish_typed; first [exact I | by apply listing_typed]
  | |- related _ (Sleep _ _) => apply Sleep_typed
  | |- related _ (update_own _) => intros ? Hw; exact Hw
  | |- related _ (update_snapshot _) => intros ? Hw; exact Hw
  | |- related _ (update_now_playing _) => intros ? Hw; exact Hw
  | |- related _ (modify _) => intros ? Hw; exact Hw
  | |- related _ take_commands => intros ? Hw; exact Hw
  | |- related _ take_library_requests => intros ? Hw; exact Hw
  | |- related _ (next_backoff _ _) => intros ? Hw; unfold exec, next_backoff; destruct (NextDelay _); exact Hw
  | |- related _ (SetState _) => unfold SetState
  | |- related _ (SetLibraryBusy _) => unfold SetLibraryBusy
  | |- related _ (SendText _) => unfold SendText
  | |- related _ (publish_if _) => unfold publish_if
  | |- related _ (starve _) => unfold starve
  | |- related _ next_id => unfold next_id
  end.

Lemma HandleNotification_typed text : related (keeps typed) (HandleNotification text).
Proof.
  unfold HandleNotification, on_volume_changed, on_stop, on_player, reset_if_showing. cbv zeta. related_steps typed_leaf.
Qed.

Lemma await_reply_typed fuel id deadline busy_at rb : related (keeps typed) (await_reply fuel id deadline busy_at rb).
Proof.
  induction fuel as [|fuel IH]; cbn [await_reply]; unfold abandon, slice_elapsed; cbv zeta;
  related_steps (apply IH || apply HandleNotification_typed || typed_leaf).
Qed.

Lemma Call_typed m p t rb : related (keeps typed) (Call busy_after call_fuel m p t rb).
Proof. unfold Call. related_steps (apply await_reply_typed || typed_leaf). Qed.

Lemma send_commands_typed pid now batch failed : related (keeps typed) (send_commands max_age pid now batch failed).
Proof.
  revert failed. induction batch as [|c batch IH]; intros failed; cbn [send_commands];
  related_steps (apply IH || typed_leaf).
Qed.

Lemma SendPendingCommands_typed : related (keeps typed) (SendPendingCommands max_age busy_after call_fuel).
Proof.
  unfold SendPendingCommands, ResolveActivePlayerId.
  related_steps (apply send_commands_typed || apply Call_typed || typed_leaf).
Qed.

Lemma fetch_pages_typed fuel m params key start merged truncated :
  related (keeps typed) (fetch_pages max_age busy_after library_timeout call_fuel fuel m params key start merged truncated).
Proof.
  revert params start merged truncated.
  induction fuel as [|fuel IH]; intros; cbn [fetch_pages]; unfold library_call, survive_timeout; cbv zeta;
  related_steps (apply IH || apply SendPendingCommands_typed || apply Call_typed || typed_leaf).
Qed.

Lemma SendPendingLibraryRequests_typed :
  related (keeps typed) (SendPendingLibraryRequests max_age busy_after library_timeout call_fuel).
Proof.
  assert (Hs : forall batch, related (keeps typed) (serve_requests max_age busy_after library_timeout call_fuel batch)).
  { induction batch as [|r batch IH]; cbn [serve_requests]; unfold CallLibrary, library_call, survive_timeout; cbv zeta;
    related_steps (first [apply IH | apply fetch_pages_typed | apply SendPendingCommands_typed | apply Call_typed | typed_leaf]). }
  unfold SendPendingLibraryRequests. related_steps (apply Hs || typed_leaf).
Qed.

Lemma ReconcilePoll_typed tolerate : related (keeps typed) (ReconcilePoll busy_after call_fuel tolerate).
Proof.
  unfold ReconcilePoll, poll_call, poll_player, poll_idle, finish_poll, call_failed, apply_application, apply_player,
    reset_if_showing; cbv zeta. unfold poll_call.
  related_steps (apply Call_typed || typed_leaf).
Qed.

Lemma PumpNotifications_typed : related (keeps typed) PumpNotifications.
Proof.
  assert (Hp : forall n, related (keeps typed) (pump n)).
  { induction n as [|n IH]; cbn [pump]; related_steps (apply IH || apply HandleNotification_typed || typed_leaf). }
  unfold PumpNotifications. related_steps (apply Hp || typed_leaf).
Qed.

Lemma connected_loop_typed fuel last :
  related (keeps typed) (connected_loop reconcile_interval pump_interval max_age busy_after library_timeout call_fuel fuel last).
Proof.
  revert last. induction fuel as [|fuel IH]; intros last; cbn [connected_loop];
  related_steps (first [apply IH | apply PumpNotifications_typed | apply SendPendingCommands_typed
                       | apply SendPendingLibraryRequests_typed | apply ReconcilePoll_typed | typed_leaf]).
Qed.

Lemma loop_iteration_typed fuel :
  related (keeps typed)
    (loop_iteration reconcile_interval pump_interval browse_timeout max_age busy_after library_timeout call_fuel fuel).
Proof.
  unfold loop_iteration, serve_connection, ResolveTarget, ConnectAndPrime, drop_link; cbv zeta.
  related_steps (first [apply connected_loop_typed | apply ReconcilePoll_typed | typed_leaf]).
Qed.

(** ** Property *)

(** C24: Whatever numbers a Kodi puts in its listings, every listing the client publishes in any
    run has the types its fields are declared with: ids within 64 bits, years, episode
    numbers, tracks and durations within an [int], and resume positions between zero and a
    million hours in milliseconds, so that the cast from a double they come from is never
    out of range. *)
Theorem published_events_typed (fuel : nat) (e : E) :
  Forall event_typed
    (published (exec (ConnectionLoop reconcile_interval pump_interval browse_timeout max_age busy_after library_timeout
                        call_fuel fuel) (start initial_backoff max_backoff e))).
Proof.
  assert (Hl : related (keeps typed)
    (ConnectionLoop reconcile_interval pump_interval browse_timeout max_age busy_after library_timeout call_fuel fuel)).
  { induction fuel as [|fuel' IH]; cbn [ConnectionLoop]; related_steps (apply IH || apply loop_iteration_typed || typed_leaf). }
  apply (Hl (start initial_backoff max_backoff e)). constructor.
Qed.
End Loop.

(** ** Witness *)

Module Sample.

(** A Kodi that answers every request with one movie, oversized in every field; the state
    is the frames that have arrived and the waits left before the stop. *)
#[export] Instance env : KodiEnv (list string * nat) := {|
  ws_connect := fun _ => ret true;
  ws_send := fun text e => (true, (e.1 ++ [text], e.2));
  ws_receive := fun _ e => (head e.1, (tail e.1, e.2));
  ws_is_open := ret true;
  ws_close := ret tt;
  stop_requested := fun e => ((e.2 =? 0)%nat, e);
  steady_now := ret 0;
  read_setting := fun key => ret (if String.eqb key "host" then Some {| vv_value := "192.168.1.30"; schema_version := 1 |} else None);
  browse := fun _ _ => ret [];
  interfere := ret [];
  wait := fun _ e => ((false, [ExtLibrary RequestMovies]), (e.1, Nat.pred e.2));
  after_int_max := INT_MIN
|}.

Definition movie : json :=
  JObject [("movieid", JInt (2 ^ 63 + 5)); ("year", JInt (2 ^ 40));
           ("resume", JObject [("position", JFloat (S754_finite false 4503599627370496 200))])].

Definition reply (members : list (string * json)) : json := JObject (members ++ [("result", JObject [("movies", JArray [movie])])]).

#[export] Instance codec : JsonCodec := {|
  json_dump := fun j => match find "id" j with Some (JInt id) => to_string id | _ => "listing" end;
  json_parse := fun text =>
    match from_chars INT_MIN INT_MAX text with
    | Some (id, _) => reply [("id", JInt id)]
    | None => if String.eqb text "listing" then reply [] else JObject []
    end |}.

Lemma codec_ok text : json_numbers_ok (json_parse text).
Proof.
  cbn. destruct (from_chars _ _ _) as [[id rest]|]; [by vm_compute|]. destruct (String.eqb _ _); by vm_compute.
Qed.
End Sample.

Lemma published_events_typed_witness :
  let run := ConnectionLoop (H := Sample.env) (H0 := Sample.codec) 10000 250 2000 5000 3000 30000 3 4 in
  let w := exec run (start 2000 60000 ([], 2%nat)) in
  Forall event_typed (published w) /\
  existsb (fun ev => match ev with
                     | KodiMoviesFetchedEvent [m] _ => (movie_resume_ms m =? kMaxResumeMs) && (movieid m =? - 2 ^ 63 + 5)
                     | _ => false
                     end) (published w) = true.
Proof.
  split.
  - exact (published_events_typed (H := Sample.env) (H0 := Sample.codec) Sample.codec_ok 2000 60000 10000 250 2000 5000 3000
             30000 3 4 ([], 2%nat)).
  - vm_compute. reflexivity.
Defined.
