(* ===== verification/Api.v ===== *)
(** Api: the remaining handlers of the Web API, and the API as the program registers it.

    Models [src/src/core/kodi_routes.cpp], [harmony_routes.cpp], [wifi_routes.cpp],
    [diagnostics_routes.cpp], the reboot and upload handlers of [ota_routes.cpp], the route
    registration of every routes file as [src/src/ui/app_core.cpp] composes them, and the
    table of setting validators there. Theorems about the whole API are here: no route
    outside [/api/auth] runs without a session ([api_requires_session]). *)
From Stdlib Require Import SpecFloat.
From S2P Require Import Prelude Text Json Double Storage Power Connectivity Http HttpServer Auth Weather WebSocket Harmony Routes KodiJson KodiTypes Kodi.

(** ** [kodi_routes.cpp] *)

Module KodiRoutes.

Definition StateToString (s : KodiConnectionState) : string :=
  match s with
  | KodiTypes.kDisconnected => "disconnected" | KodiTypes.kConnecting => "connecting"
  | KodiTypes.kConnected => "connected" | KodiTypes.kError => "error"
  end.

Definition PlaybackToString (s : KodiPlaybackState) : string :=
  match s with kInactive => "inactive" | kPlaying => "playing" | kPaused => "paused" end.

Definition instance_json (i : KodiDiscoveredInstance) : json :=
  JObject [("name", JString (name i)); ("host", JString (disc_host i)); ("uuid", JString (uuid i))].

Definition now_playing_json (np : KodiNowPlaying) : json :=
  JObject [("playback", JString (PlaybackToString (playback np))); ("speed", JInt (speed np));
           ("title", JString (title (identity np))); ("showTitle", JString (show_title (identity np)));
           ("season", JInt (season (identity np))); ("episode", JInt (episode (identity np)));
           ("mediaType", JString (media_type (identity np))); ("positionMs", JInt (position_ms np));
           ("durationMs", JInt (duration_ms np)); ("percent", JFloat (percent np)); ("canSeek", JBool (can_seek np))].

Definition SnapshotToJson (s : KodiSnapshot) : json :=
  JObject [("state", JString (StateToString (KodiTypes.state s))); ("resolvedHost", JString (resolved_host s));
           ("targetConfigured", JBool (target_configured s)); ("selectedUuid", JString (selected_uuid s));
           ("discovered", JArray (map instance_json (discovered s))); ("appVersion", JString (app_version s));
           ("volume", JInt (volume s)); ("muted", JBool (muted s)); ("libraryBusy", JBool (library_busy s));
           ("nowPlaying", now_playing_json (now_playing s))].

Section Handlers.
Context {E W : Type} `{Part W (Kodi.World (E := E))}.
(** [dump] that replaces invalid UTF-8 instead of throwing. *)
Context (dump_replace : json -> string).

Definition get_status : Handler W := fun _ =>
  let* s := on (gets snapshot) in ret (json_response 200 (dump_replace (SnapshotToJson s))).

Definition post_reconnect : Handler W := fun _ => on (modify Kodi.TriggerReconnect) ;;* ret status_ok.
End Handlers.
End KodiRoutes.

(** ** [harmony_routes.cpp] *)

Module HarmonyRoutes.

Definition StateToString (s : HarmonyState) : string :=
  match s with
  | Power.kDisconnected => "disconnected" | Power.kConnecting => "connecting"
  | Power.kConnected => "connected" | Power.kConnError => "error"
  end.

Definition id_label (id label : string) : json := JObject [("id", JString id); ("label", JString label)].

Definition SnapshotToJson (s : HarmonySnapshot) : json :=
  JObject [("state", JString (StateToString (Harmony.state s))); ("hasConfig", JBool (has_config s));
           ("devices", JArray (map (fun d => id_label (device_id d) (device_label d)) (devices s)));
           ("activities", JArray (map (fun a => id_label (activity_id a) (activity_label a)) (activities s)));
           ("currentActivityId", JString (current_activity_id s))].

Section Handlers.
Context {E W : Type} `{JsonCodec} `{Part W (Harmony.World (E := E))}.

Definition get_status : Handler W := fun _ =>
  let* s := on (gets Harmony.snapshot) in ret (json_response 200 (json_dump (SnapshotToJson s))).

Definition post_reconnect : Handler W := fun _ => on (modify Harmony.TriggerReconnect) ;;* ret status_ok.
End Handlers.
End HarmonyRoutes.

(** ** [wifi_routes.cpp], [diagnostics_routes.cpp] and the rest of [ota_routes.cpp] *)

Module SystemRoutes.
Import OtaRoutes.

Record MemoryStats := {
  internal_free_bytes : Z; internal_largest_block_bytes : Z; internal_low_water_bytes : Z; psram_free_bytes : Z
}.

Section Handlers.
Context {S W : Type} `{KvStore S} `{JsonCodec} `{Part W S} `{Part W OtaState}.

(** [reset] schedules the reset; the name of the access point it will open. *)
Definition post_wifi_reset (reset : M W (option string)) : Handler W := fun _ =>
  let* ap_ssid := reset in
  match ap_ssid with
  | None => ret (error_response 500 "reset_failed")
  | Some ssid => ret (json_response 200 (json_dump (JObject [("status", JString "ok"); ("apSsid", JString ssid)])))
  end.

Definition memory_json (m : MemoryStats) : json :=
  JObject [("internalFreeBytes", JInt (internal_free_bytes m));
           ("internalLargestBlockBytes", JInt (internal_largest_block_bytes m));
           ("internalLowWaterBytes", JInt (internal_low_water_bytes m)); ("psramFreeBytes", JInt (psram_free_bytes m))].

Definition diagnostics_json (reset_reason has_core_dump : option VersionedValue) (b : BatteryReading) (m : MemoryStats) : json :=
  JObject [("resetReason", JString (match reset_reason with Some v => vv_value v | None => "unknown" end));
           ("hasCoreDump", JBool (match has_core_dump with Some v => String.eqb (vv_value v) "true" | None => false end));
           ("batteryPercent", JInt (ReadPercent b)); ("externalPowerConnected", JBool (IsExternalPowerConnected b));
           ("batteryPresent", JBool (IsBatteryPresent b)); ("memory", memory_json m)].

Definition get_diagnostics (read_battery : M W BatteryReading) (read_memory_stats : M W MemoryStats) : Handler W := fun _ =>
  let* reset_reason := on (gets (GetSetting kCoreModuleId "reset_reason")) in
  let* has_core_dump := on (gets (GetSetting kCoreModuleId "has_core_dump")) in
  let* memory := read_memory_stats in
  let* battery := read_battery in
  ret (json_response 200 (json_dump (diagnostics_json reset_reason has_core_dump battery memory))).

Definition get_coredump (read_core_dump : M W (option string)) : Handler W := fun _ =>
  let* core_dump := read_core_dump in
  match core_dump with
  | None => ret (error_response 404 "not_found")
  | Some dump =>
      ret (add_header "Content-Disposition" ("attachment; filename=" +:+ quoted "coredump.bin")
             {| status_code := 200; content_type := "application/octet-stream"; resp_body := dump; extra_headers := [] |})
  end.

Definition get_logs (read_all : M W string) : Handler W := fun _ =>
  let* text := read_all in ret (json_response 200 text).

Definition get_ota_status (read_battery : M W BatteryReading) (writer : OtaWriter) : Handler W := fun _ =>
  let* battery := read_battery in ret (ota_status battery writer).

(** The upload of one request from end to end; [OtaRoutes.ota_step] interleaves its parts. *)
Definition post_upload (read_battery : M W BatteryReading) (writer : OtaWriter) (write_image : string -> M W bool) : Handler W :=
  fun request =>
    let* battery := read_battery in
    let* early := on (upload_begin battery writer (req_body request)) in
    match early with
    | Some response => ret response
    | None => let* ok := write_image (req_body request) in on (upload_end (req_body request) ok)
    end.

Definition post_reboot (reboot : M W unit) : Handler W := fun _ => reboot ;;* ret status_ok.
End Handlers.
End SystemRoutes.

(** ** The setting validators of [app_core.cpp] *)

Section Validators.
Context (strtod : string -> spec_float * Z).

Definition kModuleSettingValidators : list (string * (string -> string -> bool)) :=
  [("harmony", IsValidHarmonySetting); ("kodi", IsValidKodiSetting);
   (kWeatherModuleId, IsValidWeatherCoordinate strtod)].

(** The loop of the callback: the first entry of that module decides. *)
Definition validate_setting (m k v : string) : bool :=
  match assoc m kModuleSettingValidators with Some is_valid => is_valid k v | None => true end.
End Validators.

(** [ReadIntSetting]: the stored text as an [int], all of it, or the fallback. *)
Definition ReadIntSetting {S} `{KvStore S} (m k : string) (fallback : Z) (s : S) : Z :=
  match GetSetting m k s with
  | None => fallback
  | Some setting => match from_chars INT_MIN INT_MAX (vv_value setting) with Some (value, EmptyString) => value | _ => fallback end
  end.

(** ** The API *)

Section WebApi.
Context {S R N EK EH W : Type} `{KvStore S} `{JsonCodec} `{!Part W S} `{!Part W (Svc (S := S) (R := R))}
  `{!Part W OtaRoutes.OtaState} `{!Part W N} `{!Part W (Kodi.World (E := EK))} `{!Part W (Harmony.World (E := EH))}.
Context (random : Z -> R -> option (list Z) * R) (kdf : string -> list Z -> Z -> option (list Z))
  (strtod : string -> spec_float * Z) (http_get : string -> M N HttpClientResponse) (dump_replace : json -> string).
(** What the platform hands to [AppCore]. *)
Context (read_battery : M W BatteryReading) (read_memory_stats : M W SystemRoutes.MemoryStats)
  (read_core_dump : M W (option string)) (read_all_logs : M W string) (writer : OtaRoutes.OtaWriter)
  (write_image : string -> M W bool) (reboot : M W unit) (wifi_reset : M W (option string)) (trigger_weather : M W unit)
  (on_device_name_validate : option (string -> bool)) (on_device_name_committed : option (string -> M W unit)).

Definition RegisterAdminAuthRoutes (t : nat -> Z) : Handlers (W := W) :=
  [(kGet, "/api/auth/status", GetStatus (t 0%nat)); (kPost, "/api/auth/setup", PostSetup random kdf t);
   (kPost, "/api/auth/login", PostLogin random kdf t); (kPost, "/api/auth/logout", PostLogout)].

Definition RegisterDiagnosticsRoutes (now : Z) : Handlers (W := W) :=
  [(kGet, "/api/diagnostics", RequireAuth now (SystemRoutes.get_diagnostics read_battery read_memory_stats));
   (kGet, "/api/diagnostics/coredump", RequireAuth now (SystemRoutes.get_coredump read_core_dump));
   (kGet, "/api/diagnostics/logs", RequireAuth now (SystemRoutes.get_logs read_all_logs))].

Definition RegisterOtaRoutes (now : Z) : Handlers (W := W) :=
  [(kGet, "/api/ota/status", RequireAuth now (SystemRoutes.get_ota_status read_battery writer));
   (kPost, "/api/ota/upload", RequireAuth now (SystemRoutes.post_upload read_battery writer write_image));
   (kPost, "/api/ota/reboot", RequireAuth now (SystemRoutes.post_reboot reboot))].

Definition RegisterHarmonyRoutes (now : Z) : Handlers (W := W) :=
  [(kGet, "/api/harmony/status", RequireAuth now HarmonyRoutes.get_status);
   (kPost, "/api/harmony/reconnect", RequireAuth now HarmonyRoutes.post_reconnect)].

Definition RegisterKodiRoutes (now : Z) : Handlers (W := W) :=
  [(kGet, "/api/kodi/status", RequireAuth now (KodiRoutes.get_status dump_replace));
   (kPost, "/api/kodi/reconnect", RequireAuth now KodiRoutes.post_reconnect)].

Definition RegisterWifiRoutes (now : Z) : Handlers (W := W) :=
  [(kPost, "/api/wifi/reset", RequireAuth now (SystemRoutes.post_wifi_reset wifi_reset))].

(** Every handler registered, in the order [AppCore] registers them; [t] is what the clock
    shows at each of a request's readings. *)
Definition api_routes (t : nat -> Z) : Handlers (W := W) :=
  let now := t 0%nat in
  RegisterAdminAuthRoutes t ++ RegisterDiagnosticsRoutes now ++ RegisterOtaRoutes now ++
  SettingsRoutes.RegisterSettingsRoutes on_device_name_validate on_device_name_committed (Some (validate_setting strtod)) now ++
  RegisterWeatherRoutes http_get trigger_weather now ++ RegisterHarmonyRoutes now ++ RegisterKodiRoutes now ++
  RegisterWifiRoutes now.

(** The table of a server once the program has registered its handlers: the files of the web
    pages, then the API. *)
Definition web_server (assets : list StaticAsset) (t : nat -> Z) : Handlers (W := W) :=
  register_all (api_routes t) (ServeStaticFiles assets []).
End WebApi.

(** ** Lemmas *)

Section GuardLemmas.
Context {S R W : Type} `{KvStore S} `{!Part W (Svc (S := S) (R := R))} `{!PartLaws W (Svc (S := S) (R := R))}.

(** No password yet, no session cookie, or one that is unknown or past its expiry. *)
Definition no_session (now : Z) (cookie : option string) (w : W) : Prop :=
  IsPasswordSet (view w : Svc) = false \/
  match cookie with
  | Some header =>
      match ExtractCookie header "session" with
      | Some token => match sessions_ (view w : Svc).1 !! token with Some e => e <= now | None => True end
      | None => True
      end
  | None => True
  end.

Definition refused (r : HttpResponse) : Prop :=
  r = error_response 403 "setup_required" \/ r = error_response 401 "unauthenticated".

(** What a refused request can change: an expired session is forgotten. *)
Definition only_sessions (w w' : W) : Prop :=
  exists m, m ⊆ sessions_ (view w : Svc).1 /\ w' = update (with_sessions m (view w : Svc).1, (view w : Svc).2) w.

Lemma guard_refuses now inner request (w : W) :
  no_session now (cookie_header request) w ->
  let r := RequireAuth now inner request w in refused r.1 /\ only_sessions w r.2.
Proof.
  intros Hn. cbv zeta. unfold RequireAuth, bind. rewrite on_gets. unfold refused, only_sessions.
  assert (Hid : w = update (with_sessions (sessions_ (view w : Svc).1) (view w : Svc).1, (view w : Svc).2) w).
  { rewrite with_sessions_id, <- surjective_pairing. by rewrite update_view. }
  destruct (IsPasswordSet (view w)) eqn:Ep; cbn [negb]; [|by split; [left|eexists]].
  destruct Hn as [Hn|Hn]; [congruence|]. unfold has_session, session_cookie.
  destruct (cookie_header request) as [header|]; [|by split; [right|eexists]].
  destruct (ExtractCookie header _) as [token|]; [|by split; [right|eexists]].
  unfold on. destruct (view w) as [a s] eqn:Ev. rewrite ValidateSession_spec. cbn [fst snd] in *.
  destruct (sessions_ a !! token) as [e|]; cbn.
  - replace (e <=? now) with true by lia. cbn. split; [by right|]. eexists. split; [|reflexivity]. apply delete_subseteq.
  - cbn. split; [by right|]. by eexists.
Qed.
End GuardLemmas.

(** ** Properties *)

Section Properties.
Context {S R N EK EH W : Type} `{KvStore S} `{JsonCodec} `{!Part W S} `{!Part W (Svc (S := S) (R := R))}
  `{!PartLaws W (Svc (S := S) (R := R))} `{!Part W OtaRoutes.OtaState} `{!Part W N}
  `{!Part W (Kodi.World (E := EK))} `{!Part W (Harmony.World (E := EH))}.
Context (random : Z -> R -> option (list Z) * R) (kdf : string -> list Z -> Z -> option (list Z))
  (strtod : string -> spec_float * Z) (http_get : string -> M N HttpClientResponse) (dump_replace : json -> string)
  (read_battery : M W BatteryReading) (read_memory_stats : M W SystemRoutes.MemoryStats)
  (read_core_dump : M W (option string)) (read_all_logs : M W string) (writer : OtaRoutes.OtaWriter)
  (write_image : string -> M W bool) (reboot : M W unit) (wifi_reset : M W (option string)) (trigger_weather : M W unit)
  (on_device_name_validate : option (string -> bool)) (on_device_name_committed : option (string -> M W unit)).

Abbreviation routes := (api_routes random kdf strtod http_get dump_replace read_battery read_memory_stats read_core_dump
  read_all_logs writer write_image reboot wifi_reset trigger_weather on_device_name_validate on_device_name_committed).
Abbreviation server := (web_server random kdf strtod http_get dump_replace read_battery read_memory_stats read_core_dump
  read_all_logs writer write_image reboot wifi_reset trigger_weather on_device_name_validate on_device_name_committed).

Definition public_paths : list string := ["/api/auth/status"; "/api/auth/setup"; "/api/auth/login"; "/api/auth/logout"].

(** What a request that is not let in is answered: by the server itself, by one of the
    files of its path, or by the guard; and nothing changes but that an expired session is
    forgotten. *)
Definition kept_out (assets : list StaticAsset) (of_path : string -> Prop) (w : W) (r : Reply * W) : Prop :=
  (exists status, r = (ReplyError status, w)) \/
  (exists asset resp, asset ∈ assets /\ of_path (path asset) /\ r = (ReplyWith resp, w)) \/
  (exists resp, r.1 = ReplyWith resp /\ refused resp /\ only_sessions w r.2).

Lemma server_entries assets t m p h :
  (m, p, h) ∈ server assets t ->
  p ∈ public_paths \/ (exists asset resp, asset ∈ assets /\ path asset = p /\ h = fun _ => ret resp) \/
  exists inner, h = RequireAuth (t 0%nat) inner.
Proof.
  intros Hf. unfold web_server in Hf. apply register_all_in in Hf as [Hin|Hin].
  - assert (Hall : Forall (fun r : HttpMethod * string * Handler W =>
        r.1.2 ∈ public_paths \/ exists inner, r.2 = RequireAuth (t 0%nat) inner) (routes t)).
    { unfold api_routes. repeat apply Forall_app_2; repeat apply Forall_cons_2; try apply Forall_nil_2; cbn [fst snd];
        first [right; by eexists | left; unfold public_paths; set_solver]. }
    rewrite Forall_forall in Hall. destruct (Hall _ Hin) as [Hp|Hi]; [by left|by right; right].
  - unfold ServeStaticFiles in Hin. apply register_all_in in Hin as [Hin|Hin]; [|by apply not_elem_of_nil in Hin].
    apply list_elem_of_In, in_map_iff in Hin as (asset & Ha & Hin). unfold serve_asset in Ha. injection Ha as <- <- <-.
    right. left. eexists asset, _. split_and!; [by apply list_elem_of_In|done|reflexivity].
Qed.

(** C3: The whole Web API is behind the login, on the host's server and on the firmware's: no
    method and path is registered twice, and a request of any kind to a path other than
    the four of [/api/auth] is kept out if no password is set or its cookie names no live
    session. It is answered by the server's own error, by one of the files, or with 403 or
    401, and nothing changes except that an expired session is forgotten: no setting is
    read out or written, no image, reboot, reset or reconnect happens. *)
Theorem api_requires_session {C} (recv : Z -> M C Recv) (register : HttpMethod -> string -> bool)
    (httpd_route : Handlers (W := W) -> HttpdRequest -> Handler W + Z) (assets : list StaticAsset) (t : nat -> Z) :
  (forall handlers req h, httpd_route handlers req = inl h ->
     exists m, find_handler m (break_at "?" (uri req)).1 handlers = Some h) ->
  NoDup (map fst (routes t)) /\
  (forall info conn w, request_uri info ∉ public_paths -> no_session (t 0%nat) (cookie info) w ->
     kept_out assets (fun p => p = request_uri info) w (Dispatch recv (server assets t) info conn w)) /\
  (forall req conn w (target := (break_at "?" (uri req)).1), target ∉ public_paths -> no_session (t 0%nat) (cookie_value req) w ->
     kept_out assets (fun p => c_str p = target) w (firmware_serve recv register httpd_route (server assets t) req conn w)).
Proof.
  intros Hroute. split; [apply (bool_decide_unpack _); vm_compute; exact I|].
  assert (Hh : forall m p h request cookie (of_path : string -> Prop) w, (m, p, h) ∈ server assets t ->
            p ∉ public_paths -> of_path p -> no_session (t 0%nat) cookie w ->
            (cookie_header request = cookie \/ cookie_header request = None) ->
            kept_out assets of_path w ((let* response := h request in ret (ReplyWith response)) w)).
  { intros m p h request cookie of_path w Hf Hp Hof Hn Hc.
    apply server_entries in Hf as [Hpub|[(asset & resp & Ha & <- & ->)|[inner ->]]]; [done| |].
    - right. left. by exists asset, resp.
    - right. right. rewrite run_bind.
      assert (Hn' : no_session (t 0%nat) (cookie_header request) w).
      { destruct Hc as [->| ->]; [done|]. by right. }
      destruct (guard_refuses _ inner request w Hn') as [H1 H2]. by eexists. }
  split.
  - intros info conn w Hp Hn. unfold Dispatch. destruct (method_of _) as [m|]; [|by left; eexists].
    destruct (find_handler _ _ _) as [h|] eqn:Ef; [|by left; eexists]. apply find_handler_in in Ef.
    destruct (eval _ conn); [|by left; eexists..]. apply (Hh m (request_uri info) _ _ (cookie info)); [done..|]. by left.
  - intros req conn w target Hp Hn. unfold firmware_serve.
    destruct (httpd_route _ req) as [h|status] eqn:Er; [|by left; eexists].
    apply Hroute in Er as [m Ef]. apply start_find in Ef as (p & Hc & Hin).
    unfold DispatchTrampoline. destruct (break_at _ _) as [path query]. cbn [fst] in *.
    destruct (eval _ conn); [|by left; eexists..]. apply (Hh m p _ _ (cookie_value req)); [done| |done|done|].
    + intros Hpub. apply Hp. subst target. rewrite <- Hc.
      assert (Hall : Forall (fun p => c_str p = p) public_paths) by by repeat constructor.
      rewrite Forall_forall in Hall. by rewrite (Hall p Hpub).
    + cbn [cookie_header]. case_match; auto.
Qed.
End Properties.

Section Settings.
Context {S W : Type} `{KvLaws S} `{PartLaws W S} `{JsonCodec} (strtod : string -> spec_float * Z).

(** C28: A host saved over the API is the host that is driven: when [POST /api/settings] answers
    200, the setting reads back as sent; if it is the Harmony hub's host, the URL the
    connection builds from it is parsed back to exactly that host and the hub's port, and
    likewise for the Kodi host; and a latitude or longitude is empty or a number in range. *)
Theorem saved_hosts_are_reached (validate_name : option (string -> bool)) (committed : option (string -> M W unit))
    (request : HttpRequest) (w : W) :
  (forall f name w0, committed = Some f -> view (exec (f name) w0) = view w0) ->
  let post := SettingsRoutes.post_settings validate_name committed (Some (validate_setting strtod)) request in
  status_code (eval post w) = 200 ->
  exists parsed m k v ver, TryParseJsonObject (req_body request) = Some parsed /\
    find_string "module" parsed = Some m /\ find_string "key" parsed = Some k /\ find_string "value" parsed = Some v /\
    GetSetting m k (view (exec post w)) = Some {| schema_version := ver; vv_value := v |} /\
    (m = "harmony" -> k = kHubHostKey -> forall id,
       ParseWsUrl (Harmony.WebSocketUrl v id) =
       {| host_header := v +:+ ":8088"; request_target := "/?domain=svcs.myharmony.com&hubId=" +:+ id |}) /\
    (m = "kodi" -> k = kHostKey ->
       ParseWsUrl (KodiTypes.WebSocketUrl v kDefaultPort) =
       {| host_header := HostPortAuthority v kDefaultPort; request_target := "/jsonrpc" |}) /\
    (m = kWeatherModuleId -> k = kLatitudeKey \/ k = kLongitudeKey ->
       v = EmptyString \/ exists d, ParseNumber strtod v = Some d /\ within (if String.eqb k kLatitudeKey then 90 else 180) d = true).
Proof.
  intros Hc. cbv zeta. intros Hok.
  destruct (SettingsRoutes.post_settings_spec (Some (validate_setting strtod)) validate_name committed request w Hc) as [Hs _].
  destruct (Hs Hok) as (parsed & m & k & v & ver & Hp & Hm & Hk & Hv & _ & _ & _ & _ & Ha & Hget). clear Hs.
  exists parsed, m, k, v, ver. split_and!; try done.
  - intros -> -> id. apply hub_url_reaches_host. exact Ha.
  - intros -> ->. apply kodi_url_parses. apply screened_lacks_slash with false. by apply negb_true_iff.
  - intros -> Hkey. cbn in Ha. unfold IsValidWeatherCoordinate in Ha.
    assert (Hchk : forall bound, (if is_empty v then true else match ParseNumber strtod v with Some d => within bound d | None => false end) = true ->
              v = EmptyString \/ exists d, ParseNumber strtod v = Some d /\ within bound d = true).
    { intros bound Hb. destruct v; [by left|]. cbn [is_empty] in Hb. destruct (ParseNumber strtod _) as [d|]; [|done].
      right. by exists d. }
    destruct Hkey as [-> | ->]; [exact (Hchk 90 Ha)|exact (Hchk 180 Ha)].
Qed.
End Settings.

(** ** Witnesses *)

Module Sample.

(** A device whose parts are the fields of one record. *)
Record Device := {
  auth : Svc (S := FileTree) (R := Z); ota : OtaRoutes.OtaState; net : bool;
  kodi : Kodi.World (E := nat); harmony : Harmony.World (E := nat)
}.

#[export] Instance auth_part : Part Device (Svc (S := FileTree) (R := Z)) := {|
  view := auth; update := fun a d => {| auth := a; ota := ota d; net := net d; kodi := kodi d; harmony := harmony d |} |}.
#[export] Instance store_part : Part Device FileTree := {|
  view := fun d => (auth d).2;
  update := fun s d => {| auth := ((auth d).1, s); ota := ota d; net := net d; kodi := kodi d; harmony := harmony d |} |}.
#[export] Instance ota_part : Part Device OtaRoutes.OtaState := {|
  view := ota; update := fun o d => {| auth := auth d; ota := o; net := net d; kodi := kodi d; harmony := harmony d |} |}.
#[export] Instance net_part : Part Device bool := {|
  view := net; update := fun n d => {| auth := auth d; ota := ota d; net := n; kodi := kodi d; harmony := harmony d |} |}.
#[export] Instance kodi_part : Part Device (Kodi.World (E := nat)) := {|
  view := kodi; update := fun k d => {| auth := auth d; ota := ota d; net := net d; kodi := k; harmony := harmony d |} |}.
#[export] Instance harmony_part : Part Device (Harmony.World (E := nat)) := {|
  view := harmony; update := fun h d => {| auth := auth d; ota := ota d; net := net d; kodi := kodi d; harmony := h |} |}.

#[export] Instance auth_laws : PartLaws Device (Svc (S := FileTree) (R := Z)).
Proof. split; [done|]. by intros [? ? ? ? ?]. Qed.

(** Two minutes after the login whose session outlives it by a minute. *)
Definition device : Device := {|
  auth := exec (fun p => (tt, (with_sessions {[ "old" := 60 ]} p.1, p.2))) Concrete.configured;
  ota := {| OtaRoutes.upload_locked := false; OtaRoutes.ota_events := []; OtaRoutes.written := [] |};
  net := true; kodi := Kodi.start 2000 60000 0%nat; harmony := Harmony.start 0%nat (Connectivity.NewRetryBackoff 1000 60000)
|}.

Definition reading : BatteryReading := {| IsBatteryPresent := true; ReadPercent := 50; IsExternalPowerConnected := true |}.
Definition memory : SystemRoutes.MemoryStats := {|
  SystemRoutes.internal_free_bytes := 1; SystemRoutes.internal_largest_block_bytes := 1;
  SystemRoutes.internal_low_water_bytes := 1; SystemRoutes.psram_free_bytes := 1 |}.
Definition writer : OtaRoutes.OtaWriter := {| OtaRoutes.max_image_size := 4000000; OtaRoutes.running_version := "1.0" |}.

(** A reboot asked for with the cookie of the session that has expired. *)
Definition reboot_request : RequestInfo :=
  {| request_method := "POST"; request_uri := "/api/ota/reboot"; query_string := None; content_length := 0;
     cookie := Some "session=old" |}.

Definition page : StaticAsset := {| path := "/"; asset_type := "text/html"; asset_body := "<html>" |}.

Definition settings_request : HttpRequest :=
  {| req_path := "/api/settings"; req_query := EmptyString; req_body := EmptyString; cookie_header := None |}.

(** A body that saves the Harmony hub's host. *)
Definition host_codec : JsonCodec := {|
  json_parse := fun _ => JObject [("module", JString "harmony"); ("key", JString kHubHostKey);
                                  ("value", JString "10.0.0.9"); ("schemaVersion", JInt 1)];
  json_dump := fun _ => EmptyString |}.
End Sample.
Import Sample.

Lemma api_requires_session_witness :
  kept_out [Sample.page] (fun p => p = "/api/ota/reboot") Sample.device
    (Dispatch (fun _ => ret RecvFailed)
       (web_server (H := Concrete.store) (H0 := Sample.host_codec) Concrete.random Concrete.kdf Weather.Sample.strtod
          Weather.Sample.http_get (fun _ => EmptyString) (ret Sample.reading) (ret Sample.memory) (ret None) (ret EmptyString)
          Sample.writer (fun _ => ret true) (ret tt) (ret None) (ret tt) None None [Sample.page] (fun _ => 120))
       Sample.reboot_request tt Sample.device).
Proof.
  refine (proj1 (proj2 (api_requires_session (H := Concrete.store) (H0 := Sample.host_codec) Concrete.random Concrete.kdf
    Weather.Sample.strtod Weather.Sample.http_get (fun _ => EmptyString) (ret Sample.reading) (ret Sample.memory) (ret None)
    (ret EmptyString) Sample.writer (fun _ => ret true) (ret tt) (ret None) (ret tt) None None
    (fun _ => ret RecvFailed) (fun _ _ => true) (fun _ _ => inr 404) [Sample.page] (fun _ => 120) _))
    Sample.reboot_request tt Sample.device _ _).
  - intros handlers req h [=].
  - apply (bool_decide_unpack _). vm_compute. exact I.
  - right. vm_compute. discriminate.
Defined.

Lemma saved_hosts_are_reached_witness :
  ParseWsUrl (Harmony.WebSocketUrl "10.0.0.9" "7") =
  {| host_header := "10.0.0.9:8088"; request_target := "/?domain=svcs.myharmony.com&hubId=7" |}.
Proof.
  destruct (saved_hosts_are_reached (H := Concrete.store) (H0 := Concrete.store_laws) (H3 := Sample.host_codec) Weather.Sample.strtod
              None None Sample.settings_request {| files := ∅; outcomes := [] |}) as (parsed & m & k & v & ver & Hp & Hm & Hk & Hv & _ & Hh & _).
  - done.
  - vm_compute. reflexivity.
  - vm_compute in Hp. injection Hp as <-. vm_compute in Hm, Hk, Hv. injection Hm as <-. injection Hk as <-. injection Hv as <-.
    exact (Hh eq_refl eq_refl "7").
Defined.
