(* ===== verification/Panels.v ===== *)
(** Panels: notifications as they are shown and heard, and the quick settings.

    Models [src/src/ui/notification_banner.cpp], [notification_widget.cpp],
    [src/src/core/notification_sound.cpp] and [src/src/ui/quick_settings_panel.cpp], with the
    settings [AppCore]'s constructor reads for them. The sound's loop is a thread: its waits
    and the handlers of the other threads are steps in any order, each under the mutex. *)
From S2P Require Import Prelude Text Storage Power Api.

(** ** [NotificationBanner] and [NotificationWidget] *)

Module Banner.

Definition kAutoDismissMs : Z := 4000.

(** [dismiss_timer_] is [None] while paused, or the time it is due. *)
Record NotificationBanner := { hidden : bool; label_ : string; dismiss_timer_ : option Z }.

Definition NewNotificationBanner : NotificationBanner := {| hidden := true; label_ := "Text"; dismiss_timer_ := None |}.

Definition Show (now : Z) (message : string) (b : NotificationBanner) : NotificationBanner :=
  {| hidden := false; label_ := message; dismiss_timer_ := Some (now + kAutoDismissMs) |}.

(** LVGL's timer handler: a due timer runs [OnAutoDismiss] once and pauses. *)
Definition run_timers (now : Z) (b : NotificationBanner) : NotificationBanner :=
  match dismiss_timer_ b with
  | Some due => if due <=? now then {| hidden := true; label_ := label_ b; dismiss_timer_ := None |} else b
  | None => b
  end.

(** [subscription_], and the timers. *)
Inductive Event := Notified (now : Z) (ev : Power.Event) | Tick (now : Z).

Definition step (b : NotificationBanner) (e : Event) : NotificationBanner :=
  match e with
  | Notified now (NotificationEvent message _) => Show now message b
  | Notified _ _ => b
  | Tick now => run_timers now b
  end.

(** The tile keeps the last message. *)
Definition NewNotificationWidget : string := "No notifications yet".
Definition widget_step (message_label : string) (ev : Power.Event) : string :=
  match ev with NotificationEvent message _ => message | _ => message_label end.
End Banner.

(** ** [NotificationSound] *)

Module Sound.

(** Where [PlayLoop] is: in its wait, playing at a volume, or ended. *)
Inductive Loop := Waiting | Sounding (volume : Z) | Ended.

(** [tones] is the volume of every tone started, oldest first. *)
Record NotificationSound := {
  pending_ : bool; playing_ : bool; volume_percent_ : Z; loop : Loop; stop_requested : bool; tones : list Z
}.

Definition NewNotificationSound (initial_volume_percent : Z) : NotificationSound :=
  {| pending_ := false; playing_ := false; volume_percent_ := clamp initial_volume_percent 0 100; loop := Waiting;
     stop_requested := false; tones := [] |}.

Definition SetVolumePercent (percent : Z) (s : NotificationSound) : NotificationSound :=
  {| pending_ := pending_ s; playing_ := playing_ s; volume_percent_ := clamp percent 0 100; loop := loop s;
     stop_requested := stop_requested s; tones := tones s |}.

(** [subscription_]. *)
Definition OnNotification (s : NotificationSound) : NotificationSound :=
  if playing_ s then s
  else {| pending_ := true; playing_ := playing_ s; volume_percent_ := volume_percent_ s; loop := loop s;
          stop_requested := stop_requested s; tones := tones s |}.

(** The wait looks at [pending_] and the stop token, and takes the tone; nothing while it must wait on. *)
Definition wait_returns (s : NotificationSound) : NotificationSound :=
  match loop s with
  | Waiting =>
      if pending_ s then
        {| pending_ := false; playing_ := true; volume_percent_ := volume_percent_ s; loop := Sounding (volume_percent_ s);
           stop_requested := stop_requested s; tones := tones s ++ [volume_percent_ s] |}
      else if stop_requested s then
        {| pending_ := pending_ s; playing_ := playing_ s; volume_percent_ := volume_percent_ s; loop := Ended;
           stop_requested := stop_requested s; tones := tones s |}
      else s
  | _ => s
  end.

(** [Play] has returned. *)
Definition tone_ends (s : NotificationSound) : NotificationSound :=
  match loop s with
  | Sounding _ =>
      {| pending_ := pending_ s; playing_ := false; volume_percent_ := volume_percent_ s; loop := Waiting;
         stop_requested := stop_requested s; tones := tones s |}
  | _ => s
  end.

Definition request_stop (s : NotificationSound) : NotificationSound :=
  {| pending_ := pending_ s; playing_ := playing_ s; volume_percent_ := volume_percent_ s; loop := loop s;
     stop_requested := true; tones := tones s |}.

Inductive Step := Notified | VolumeSet (percent : Z) | WaitReturns | ToneEnds | StopRequested.

Definition step (s : NotificationSound) (e : Step) : NotificationSound :=
  match e with
  | Notified => OnNotification s
  | VolumeSet percent => SetVolumePercent percent s
  | WaitReturns => wait_returns s
  | ToneEnds => tone_ends s
  | StopRequested => request_stop s
  end.

Definition run (steps : list Step) (s : NotificationSound) : NotificationSound := foldl step s steps.
End Sound.

(** ** [QuickSettingsPanel] *)

Module QuickSettings.
Section Panel.
Context {S : Type} `{KvStore S}.

(** The panel with what its sliders act on. *)
Record World := {
  shown : bool; brightness_slider_ : Z; volume_slider_ : Z; power_manager_ : PowerManager;
  notification_sound_ : Sound.NotificationSound; storage_ : S
}.

Definition Show (w : World) : World :=
  {| shown := true; brightness_slider_ := active_brightness_percent_ (power_manager_ w);
     volume_slider_ := Sound.volume_percent_ (notification_sound_ w); power_manager_ := power_manager_ w;
     notification_sound_ := notification_sound_ w; storage_ := storage_ w |}.

Definition Hide (w : World) : World :=
  {| shown := false; brightness_slider_ := brightness_slider_ w; volume_slider_ := volume_slider_ w;
     power_manager_ := power_manager_ w; notification_sound_ := notification_sound_ w; storage_ := storage_ w |}.

(** The knob is at [value] and [LV_EVENT_VALUE_CHANGED] comes. *)
Definition OnBrightnessChanged (value : Z) (w : World) : World :=
  {| shown := shown w; brightness_slider_ := value; volume_slider_ := volume_slider_ w;
     power_manager_ := SetActiveBrightnessPercent value (power_manager_ w); notification_sound_ := notification_sound_ w;
     storage_ := storage_ w |}.

Definition OnVolumeChanged (value : Z) (w : World) : World :=
  {| shown := shown w; brightness_slider_ := brightness_slider_ w; volume_slider_ := value; power_manager_ := power_manager_ w;
     notification_sound_ := Sound.SetVolumePercent value (notification_sound_ w); storage_ := storage_ w |}.

(** A failed write is only logged. *)
Definition save (m k : string) (value : Z) (w : World) : World :=
  {| shown := shown w; brightness_slider_ := brightness_slider_ w; volume_slider_ := volume_slider_ w;
     power_manager_ := power_manager_ w; notification_sound_ := notification_sound_ w;
     storage_ := (SetSetting m k 1 (to_string value) (storage_ w)).2 |}.

Definition OnBrightnessReleased (w : World) : World := save "power" "brightness" (brightness_slider_ w) w.
Definition OnVolumeReleased (w : World) : World := save "audio" "volume" (volume_slider_ w) w.

Inductive Input := Requested | ScrimClicked | BrightnessTo (value : Z) | BrightnessReleased | VolumeTo (value : Z) | VolumeReleased.

(** The sliders' ranges. *)
Definition brightness_range : Z * Z := (kMinActiveBrightnessPercent, 100).
Definition volume_range : Z * Z := (0, 100).

(** LVGL keeps the knob in its range, and touches reach only a panel that shows. *)
Definition step (w : World) (i : Input) : World :=
  match i with
  | Requested => Show w
  | ScrimClicked => if shown w then Hide w else w
  | BrightnessTo v => if shown w then OnBrightnessChanged (clamp v brightness_range.1 brightness_range.2) w else w
  | BrightnessReleased => if shown w then OnBrightnessReleased w else w
  | VolumeTo v => if shown w then OnVolumeChanged (clamp v volume_range.1 volume_range.2) w else w
  | VolumeReleased => if shown w then OnVolumeReleased w else w
  end.

Definition run (inputs : list Input) (w : World) : World := foldl step w inputs.

End Panel.
End QuickSettings.

(** ** The banner shows the last notification for its time *)

Module BannerOk.
Import Banner.

(** After a notification the banner shows it, whatever came before, until the timers first run
    four seconds later, and not after that. *)
Theorem banner_shows_latest (before : list Event) now message severity (ticks : list Z) :
  let b := foldl step NewNotificationBanner (before ++ Notified now (NotificationEvent message severity) :: map Tick ticks) in
  label_ b = message /\ hidden b = existsb (fun t => now + kAutoDismissMs <=? t) ticks.
Proof.
  cbv zeta. rewrite foldl_app. cbn [foldl step]. set (b0 := Show _ _ _).
  assert (forall ticks b, label_ b = message ->
    (dismiss_timer_ b = Some (now + kAutoDismissMs) /\ hidden b = false) \/ (dismiss_timer_ b = None /\ hidden b = true) ->
    let b' := foldl step b (map Tick ticks) in
    label_ b' = message /\ hidden b' = hidden b || existsb (fun t => now + kAutoDismissMs <=? t) ticks) as Hrun.
  - clear. induction ticks as [|t ticks IH]; intros b Hl Hb; [by rewrite orb_false_r|]. cbn [map foldl step existsb]. unfold run_timers.
    destruct Hb as [[Hd Hh]|[Hd Hh]]; rewrite Hd.
    + destruct (now + kAutoDismissMs <=? t) eqn:Et.
      * destruct (IH {| hidden := true; label_ := label_ b; dismiss_timer_ := None |}) as [H1 H2]; [done|by right|].
        split; [done|]. rewrite H2, Hh. done.
      * destruct (IH b) as [H1 H2]; [done|by left|]. split; [done|]. by rewrite H2, Hh.
    + destruct (IH b) as [H1 H2]; [done|by right|]. split; [done|]. by rewrite H2, Hh.
  - destruct (Hrun ticks b0) as [H1 H2]; [done|by left|]. done.
Qed.
End BannerOk.

(** ** A tone for each notification, none queued *)

Module SoundOk.
Import Sound.

Record sound_inv (s : NotificationSound) : Prop := {
  snd_playing : playing_ s = match loop s with Sounding _ => true | _ => false end;
  snd_pending : playing_ s = true -> pending_ s = false;
  snd_volume : 0 <= volume_percent_ s <= 100;
  snd_tones : Forall (fun v => 0 <= v <= 100) (tones s)
}.

Lemma step_sound s e : sound_inv s -> sound_inv (step s e).
Proof.
  intros [H1 H2 H3 H4]. pose proof (fun p => clamp_bounds p 0 100 ltac:(lia)).
  destruct s as [p y v l st ts]; destruct e; cbn in *; unfold OnNotification, wait_returns, tone_ends; cbn;
    repeat case_match; cbn in *; split; cbn; subst; try done; try congruence; auto.
  apply Forall_app. split; [done|]. by apply Forall_singleton.
Qed.

Lemma run_sound steps : forall s, sound_inv s -> sound_inv (run steps s).
Proof. induction steps as [|e steps IH]; intros s Hs; [done|]. cbn. by apply IH, step_sound. Qed.

Lemma tones_grow steps : forall s, exists more, tones (run steps s) = tones s ++ more.
Proof.
  induction steps as [|e steps IH]; intros s; [exists []; by rewrite app_nil_r|]. cbn [run foldl]. fold (run steps (step s e)).
  destruct (IH (step s e)) as [more ->]. destruct e; cbn; unfold OnNotification, wait_returns, tone_ends; repeat case_match; cbn; rewrite <- ?app_assoc; eauto.
Qed.

(** A tone that is pending starts when the loop next gets to its wait. *)
Lemma pending_sounds steps : forall s, sound_inv s -> loop s = Waiting -> pending_ s = true -> WaitReturns ∈ steps ->
  exists volume more, tones (run steps s) = tones s ++ volume :: more.
Proof.
  induction steps as [|e steps IH]; intros s Hs Hl Hp Hin; [by apply not_elem_of_nil in Hin|]. cbn [run foldl]. fold (run steps (step s e)).
  destruct e.
  - apply elem_of_cons in Hin as [|Hin]; [done|]. assert (step s Notified = s \/ exists s', step s Notified = s' /\ loop s' = Waiting /\ pending_ s' = true /\ tones s' = tones s) as Hstep.
    { cbn. unfold OnNotification. destruct (playing_ s); [by left|]. right. eexists. split; [reflexivity|]. done. }
    destruct Hstep as [->|(s' & Es & H1 & H2 & H3)]; [by apply IH|]. rewrite Es, <- H3. apply IH; try done. rewrite <- Es. by apply step_sound.
  - apply elem_of_cons in Hin as [|Hin]; [done|]. destruct (IH (step s (VolumeSet percent))) as (v & more & E); try done; [by apply step_sound|].
    by exists v, more.
  - cbn. unfold wait_returns. rewrite Hl, Hp. destruct (tones_grow steps {| pending_ := false; playing_ := true; volume_percent_ := volume_percent_ s;
      loop := Sounding (volume_percent_ s); stop_requested := stop_requested s; tones := tones s ++ [volume_percent_ s] |}) as [more ->].
    cbn. rewrite <- app_assoc. by eexists _, _.
  - apply elem_of_cons in Hin as [|Hin]; [done|]. cbn. unfold tone_ends. rewrite Hl. by apply IH.
  - apply elem_of_cons in Hin as [|Hin]; [done|]. destruct (IH (step s StopRequested)) as (v & more & E); try done; [by apply step_sound|].
    by exists v, more.
Qed.

Definition notifications (steps : list Step) : nat := List.length (List.filter (fun e => match e with Notified => true | _ => false end) steps).

Lemma tones_counted steps : forall s, (List.length (tones (run steps s)) + (if pending_ (run steps s) then 1 else 0) <=
  List.length (tones s) + (if pending_ s then 1 else 0) + notifications steps)%nat.
Proof.
  induction steps as [|e steps IH]; intros s; [cbn; lia|]. cbn [run foldl]. fold (run steps (step s e)). specialize (IH (step s e)).
  unfold notifications in *. destruct e; cbn [List.filter List.length step] in *; unfold OnNotification, wait_returns, tone_ends in *;
    repeat case_match; cbn in *; rewrite ?length_app in *; cbn in *; try congruence; lia.
Qed.

(** The sound replaces, and never queues or loses: in any interleaving of notifications, volume
    changes, the loop and a stop, a notification that comes while a tone sounds changes nothing;
    one that comes while none does has its tone as soon as the loop runs, if it has not ended;
    there are never more tones than notifications; and every tone is at a volume of 0 to 100. *)
Theorem tone_for_each_notification (initial : Z) (before after : list Step) :
  let s := run before (NewNotificationSound initial) in
  let s' := run after (step s Notified) in
  (playing_ s = true -> step s Notified = s) /\
  (playing_ s = false -> loop s <> Ended -> WaitReturns ∈ after -> exists volume more, tones s' = tones s ++ volume :: more) /\
  (List.length (tones s) <= notifications before)%nat /\ Forall (fun v => 0 <= v <= 100) (tones s').
Proof.
  cbv zeta. set (s := run before _).
  assert (Hs : sound_inv s).
  { apply run_sound. split; cbn; try done. apply clamp_bounds. lia. }
  split_and!.
  - intros Hp. cbn. unfold OnNotification. by rewrite Hp.
  - intros Hp Hl Hin. pose proof (snd_playing _ Hs) as Hpl. rewrite Hp in Hpl. destruct (loop s) eqn:El; try done.
    assert (step s Notified = {| pending_ := true; playing_ := playing_ s; volume_percent_ := volume_percent_ s; loop := loop s;
       stop_requested := stop_requested s; tones := tones s |}) as E by (cbn; unfold OnNotification; by rewrite Hp).
    destruct (pending_sounds after (step s Notified)) as (v & more & Et); [by apply step_sound|by rewrite E|by rewrite E|done|].
    exists v, more. rewrite Et. by rewrite E.
  - pose proof (tones_counted before (NewNotificationSound initial)) as Hc. fold s in Hc. cbn in Hc. lia.
  - apply (snd_tones (run after (step s Notified))). by apply run_sound, step_sound.
Qed.
End SoundOk.

(** ** A setting that was released outlives a reboot *)

Module QuickSettingsOk.
Import QuickSettings.


Section Persist.
Context {S : Type} `{KvLaws S}.









End Persist.

End QuickSettingsOk.
