(* ===== verification/Display.v ===== *)
(** Display: the texts the Touch UI shows.

    Models [src/src/ui/kodi_display.cpp], the status lines of [harmony_widget.cpp],
    [weather_widget.cpp] and [network_status_widget.cpp], and the battery label of
    [status_bar.cpp]. The glyphs of LVGL's symbol font are LVGL's ([LvSymbols]). *)
From Stdlib Require Import SpecFloat.
From S2P Require Import Prelude Power Harmony KodiJson KodiTypes Weather Wifi.

(** ** [kodi_display.cpp] *)

Definition PrimaryTitle (np : KodiNowPlaying) : string :=
  if is_empty (show_title (identity np)) then title (identity np) else show_title (identity np).

Definition TwoDigit (value : Z) : string :=
  let digits := to_string value in if size digits <? 2 then "0" +:+ digits else digits.

Definition KodiWidgetLine (s : KodiSnapshot) : string :=
  match KodiTypes.state s with
  | KodiTypes.kConnecting => "Connecting..."
  | KodiTypes.kError => "Not reachable"
  | KodiTypes.kDisconnected =>
      if target_configured s then "Not reachable"
      else if (1 <? List.length (discovered s))%nat then "Choose a Kodi in settings" else "Not configured"
  | KodiTypes.kConnected =>
      let t := PrimaryTitle (now_playing s) in
      match playback (now_playing s) with
      | kInactive => "Idle"
      | kPaused => if is_empty t then "Paused" else "Paused: " +:+ t
      | kPlaying => if is_empty t then "Playing" else "Playing: " +:+ t
      end
  end.

Definition KodiNowPlayingSubtitle (np : KodiNowPlaying) : string :=
  let i := identity np in
  match playback np with
  | kInactive => "Nothing playing"
  | _ =>
      if negb (is_empty (show_title i)) then
        let line := show_title i +:+
          (if (0 <=? season i) && (0 <=? episode i) then "   S" +:+ TwoDigit (season i) +:+ "E" +:+ TwoDigit (episode i)
           else EmptyString) in
        line +:+ (if negb (is_empty (title i)) && negb (String.eqb (title i) (show_title i)) then "  -  " +:+ title i
                  else EmptyString)
      else if is_empty (title i) then "Playing" else title i
  end.

Definition FormatKodiClock (milliseconds : Z) : string :=
  let milliseconds := if milliseconds <? 0 then 0 else milliseconds in
  let total_seconds := milliseconds ÷ 1000 in
  let hours := total_seconds ÷ 3600 in
  let minutes := Z.rem total_seconds 3600 ÷ 60 in
  let seconds := Z.rem total_seconds 60 in
  (if 0 <? hours then to_string hours +:+ ":" +:+ (if minutes <? 10 then "0" else EmptyString) else EmptyString) +:+
  to_string minutes +:+ ":" +:+ (if seconds <? 10 then "0" else EmptyString) +:+ to_string seconds.

(** ** The Harmony and the weather tiles *)

Definition StatusLine (s : HarmonySnapshot) : string :=
  match Harmony.state s with
  | Power.kDisconnected => "Not connected"
  | Power.kConnecting => "Connecting..."
  | Power.kConnError => "Connection error"
  | Power.kConnected =>
      if negb (has_config s) then "Connected"
      else match List.find (fun a => String.eqb (activity_id a) (current_activity_id s)) (activities s) with
           | Some a => activity_label a
           | None => "Connected"
           end
  end.

Definition WeatherCodeText (code : Z) : string :=
  match code with
  | 0 => "Clear sky"
  | 1 | 2 | 3 => "Partly cloudy"
  | 45 | 48 => "Fog"
  | 51 | 53 | 55 | 56 | 57 => "Drizzle"
  | 61 | 63 | 65 | 66 | 67 => "Rain"
  | 71 | 73 | 75 | 77 => "Snow"
  | 80 | 81 | 82 => "Rain showers"
  | 85 | 86 => "Snow showers"
  | 95 | 96 | 99 => "Thunderstorm"
  | _ => "Unknown"
  end.

(** [%.0f]: the nearest integer, a half to the even one. *)
Definition nearest_even (m d : Z) : Z :=
  let q := m / d in let r := 2 * (m mod d) in
  if r <? d then q else if d <? r then q + 1 else if Z.even q then q else q + 1.

(** Enough digits for any double. *)
Definition double_digits : nat := 310.

Definition format_0f (f : spec_float) : string :=
  let signed (s : bool) t := if s then String "-" t else t in
  match f with
  | S754_zero s => signed s "0"
  | S754_infinity s => signed s "inf"
  | S754_nan => "nan"
  | S754_finite s m e =>
      signed s (dec_digits double_digits (if 0 <=? e then Z.pos m * 2 ^ e else nearest_even (Z.pos m) (2 ^ (- e))) EmptyString)
  end.

(** The degree sign in UTF-8. *)
Definition kDegree : string := String (char_of 194) (String (char_of 176) EmptyString).

(** [snprintf] into a buffer of [n + 1]: the first [n] characters. *)
Definition fit (n : nat) (s : string) : string := String.substring 0 n s.

(** The two labels of the weather tile. *)
Definition RefreshWeatherLabels (s : WeatherState) : string * string :=
  if negb (configured s) then ("Weather", "Set a location in Settings")
  else if negb (has_reading s) then ("Fetching...", display_name s)
  else (fit 47 (format_0f (temperature_c s) +:+ kDegree +:+ "C  " +:+ WeatherCodeText (weather_code s) +:+
                (if live s then EmptyString else " (cached)")), display_name s).

(** ** The status bar and the network tile *)

(** The glyphs used, as LVGL defines them. *)
Class LvSymbols := {
  LV_SYMBOL_BATTERY_EMPTY : string; LV_SYMBOL_BATTERY_1 : string; LV_SYMBOL_BATTERY_2 : string;
  LV_SYMBOL_BATTERY_3 : string; LV_SYMBOL_BATTERY_FULL : string; LV_SYMBOL_WIFI : string; LV_SYMBOL_USB : string;
  LV_SYMBOL_CHARGE : string; LV_SYMBOL_DIRECTORY : string; LV_SYMBOL_FILE : string; LV_SYMBOL_PLUS : string;
  LV_SYMBOL_MINUS : string; LV_SYMBOL_LOOP : string; LV_SYMBOL_MUTE : string; LV_SYMBOL_PLAY : string;
  LV_SYMBOL_PAUSE : string; LV_SYMBOL_STOP : string; LV_SYMBOL_EJECT : string; LV_SYMBOL_PREV : string;
  LV_SYMBOL_NEXT : string; LV_SYMBOL_HOME : string; LV_SYMBOL_UP : string; LV_SYMBOL_DOWN : string;
  LV_SYMBOL_LEFT : string; LV_SYMBOL_RIGHT : string
}.

(** Plain characters in their place. *)
Definition plain_symbols : LvSymbols := {|
  LV_SYMBOL_BATTERY_EMPTY := "-"; LV_SYMBOL_BATTERY_1 := "-"; LV_SYMBOL_BATTERY_2 := "-"; LV_SYMBOL_BATTERY_3 := "-";
  LV_SYMBOL_BATTERY_FULL := "-"; LV_SYMBOL_WIFI := "-"; LV_SYMBOL_USB := "-"; LV_SYMBOL_CHARGE := "-";
  LV_SYMBOL_DIRECTORY := "/"; LV_SYMBOL_FILE := "-"; LV_SYMBOL_PLUS := "-"; LV_SYMBOL_MINUS := "-"; LV_SYMBOL_LOOP := "-";
  LV_SYMBOL_MUTE := "-"; LV_SYMBOL_PLAY := "-"; LV_SYMBOL_PAUSE := "-"; LV_SYMBOL_STOP := "-"; LV_SYMBOL_EJECT := "-";
  LV_SYMBOL_PREV := "-"; LV_SYMBOL_NEXT := "-"; LV_SYMBOL_HOME := "-"; LV_SYMBOL_UP := "-"; LV_SYMBOL_DOWN := "-";
  LV_SYMBOL_LEFT := "-"; LV_SYMBOL_RIGHT := "-" |}.

Section Symbols.
Context `{LvSymbols}.

Definition BatteryLevelIcon (percent : Z) : string :=
  if percent <? kLowThresholdPercent then LV_SYMBOL_BATTERY_EMPTY
  else if percent <? 40 then LV_SYMBOL_BATTERY_1
  else if percent <? 65 then LV_SYMBOL_BATTERY_2
  else if percent <? 90 then LV_SYMBOL_BATTERY_3
  else LV_SYMBOL_BATTERY_FULL.

Definition RefreshStatusLabel (r : BatteryReading) (wifi_connected : bool) : string :=
  let percent := ReadPercent r in
  let charging := IsBatteryPresent r && IsExternalPowerConnected r && (percent <? 100) in
  let wifi_prefix := if wifi_connected then LV_SYMBOL_WIFI +:+ "  " else EmptyString in
  fit 31
    (if negb (IsBatteryPresent r) then wifi_prefix +:+ LV_SYMBOL_USB
     else if charging then wifi_prefix +:+ LV_SYMBOL_CHARGE +:+ "  " +:+ to_string percent +:+ "%"
     else wifi_prefix +:+ BatteryLevelIcon percent +:+ "  " +:+ to_string percent +:+ "%").

(** The network tile: its three labels, the last two [None] while hidden. *)
Definition RefreshNetworkLabels (s : NetworkState) : string * option string * option string :=
  if connected s then (LV_SYMBOL_WIFI +:+ "  Connected", Some (net_ssid s), Some (ip_address s))
  else (LV_SYMBOL_WIFI +:+ "  Disconnected", None, None).
End Symbols.

(** ** Lemmas *)

(** What a clock shows of [n] seconds. *)
Definition hours_of (n : Z) : Z := n / 3600.
Definition minutes_of (n : Z) : Z := n mod 3600 / 60.
Definition seconds_of (n : Z) : Z := n mod 60.

Lemma clock_parts n : 0 <= n ->
  n = 3600 * hours_of n + 60 * minutes_of n + seconds_of n /\ 0 <= hours_of n /\ 0 <= minutes_of n < 60 /\ 0 <= seconds_of n < 60.
Proof.
  intros Hn. unfold hours_of, minutes_of, seconds_of.
  assert (E : n mod 60 = n mod 3600 mod 60).
  { pose proof (Z.div_mod n 3600 ltac:(lia)) as Hd. rewrite Hd at 1.
    replace (3600 * (n / 3600) + n mod 3600) with (n mod 3600 + 60 * (n / 3600) * 60) by lia. by rewrite Z.mod_add. }
  pose proof (Z.div_mod n 3600 ltac:(lia)). pose proof (Z.mod_pos_bound n 3600 ltac:(lia)).
  pose proof (Z.div_mod (n mod 3600) 60 ltac:(lia)). pose proof (Z.mod_pos_bound (n mod 3600) 60 ltac:(lia)).
  pose proof (Z.div_pos n 3600 ltac:(lia) ltac:(lia)). split_and!; try lia; apply Z.div_pos; lia.
Qed.

(** A field of a clock, read back. *)
Definition field (s : string) : option Z :=
  match from_chars 0 INT64_MAX s with Some (n, EmptyString) => Some n | _ => None end.

(** The seconds a clock text stands for: [m:ss] or [h:mm:ss]. *)
Definition read_clock (s : string) : option Z :=
  match break_at ":" s with
  | (a, Some rest) =>
      match break_at ":" rest with
      | (b, None) => m ← field a; t ← field b; Some (60 * m + t)
      | (b, Some c) => h ← field a; m ← field b; t ← field c; Some (3600 * h + 60 * m + t)
      end
  | _ => None
  end.

(** The padding of a field below sixty, checked one by one: two digits, which read back. *)
Definition padded (n : Z) : bool :=
  String.eqb ((if n <? 10 then "0" else EmptyString) +:+ to_string n) (TwoDigit n) && (size (TwoDigit n) =? 2) &&
  lacks ":" (TwoDigit n) && bool_decide (field (TwoDigit n) = Some n).

Lemma all_padded : forallb padded (map Z.of_nat (seq 0 60)) = true.
Proof. vm_compute. reflexivity. Qed.

Lemma sixty_field n : 0 <= n < 60 ->
  (if n <? 10 then "0" else EmptyString) +:+ to_string n = TwoDigit n /\ size (TwoDigit n) = 2 /\
  lacks ":" (TwoDigit n) = true /\ field (TwoDigit n) = Some n.
Proof.
  intros Hn. assert (Hp : padded n = true).
  { pose proof all_padded as Ha. rewrite forallb_forall in Ha. apply Ha, in_map_iff. exists (Z.to_nat n).
    split; [lia|]. apply in_seq. lia. }
  apply andb_true_iff in Hp as [Hp H4]. apply andb_true_iff in Hp as [Hp H3]. apply andb_true_iff in Hp as [H1 H2].
  split_and!; [by apply String.eqb_eq|by apply Z.eqb_eq|done|by apply bool_decide_eq_true in H4].
Qed.

Lemma colon_cons x : ":" +:+ x = String ":" x.
Proof. done. Qed.

Lemma to_string_field n : 0 <= n <= INT64_MAX -> field (to_string n) = Some n.
Proof.
  intros Hn. unfold field. pose proof (to_string_from_chars 0 INT64_MAX n EmptyString) as Hf. rewrite sapp_nil_r in Hf.
  by rewrite Hf by (unfold INT64_MAX in *; done || lia).
Qed.

Lemma to_string_no_colon n : lacks ":" (to_string n) = true.
Proof. by apply to_string_lacks. Qed.

(** The text by its fields. *)
Lemma FormatKodiClock_fields ms : 0 <= ms ->
  let n := ms / 1000 in
  FormatKodiClock ms =
  (if 0 <? hours_of n then to_string (hours_of n) +:+ ":" +:+ TwoDigit (minutes_of n) else to_string (minutes_of n)) +:+
  ":" +:+ TwoDigit (seconds_of n).
Proof.
  intros Hms n. assert (Hn : 0 <= n) by (apply Z.div_pos; lia). destruct (clock_parts n Hn) as (_ & Hh & Hm & Hs).
  unfold FormatKodiClock. rewrite (proj2 (Z.ltb_ge ms 0)) by lia. rewrite !Z.quot_div_nonneg, !Z.rem_mod_nonneg by (rewrite ?Z.rem_mod_nonneg, ?Z.quot_div_nonneg by lia; fold n; try apply Z.mod_pos_bound; lia).
  fold n. fold (hours_of n) (minutes_of n) (seconds_of n).
  destruct (sixty_field _ Hm) as (<- & _). destruct (sixty_field _ Hs) as (<- & _).
  destruct (0 <? hours_of n); by rewrite ?sapp_assoc.
Qed.

(** ** Properties *)

(** A clock tells its time: for any length of at least zero milliseconds, the text of the
    clock reads back, as [m:ss] or as [h:mm:ss], to exactly the whole seconds of the
    length, so two clocks with the same text differ by less than a second; negative lengths
    show as zero. *)
Theorem clock_reads_back (ms : Z) :
  0 <= ms <= INT64_MAX -> read_clock (FormatKodiClock ms) = Some (ms / 1000) /\ FormatKodiClock (- ms) = if ms =? 0 then FormatKodiClock ms else FormatKodiClock 0.
Proof.
  intros Hms. split.
  - rewrite FormatKodiClock_fields by lia. cbv zeta. set (n := ms / 1000).
    assert (Hn : 0 <= n <= INT64_MAX) by (unfold n; split; [apply Z.div_pos; lia|apply Z.div_le_upper_bound; lia]).
    destruct (clock_parts n ltac:(lia)) as (E & Hh & Hm & Hs).
    destruct (sixty_field _ Hm) as (_ & _ & Lm & Fm). destruct (sixty_field _ Hs) as (_ & _ & Ls & Fs).
    unfold read_clock. destruct (Z.ltb_spec 0 (hours_of n)).
    + rewrite !sapp_assoc. rewrite !colon_cons.
      rewrite (break_at_found ":" _ _ (to_string_no_colon _)), (break_at_found ":" _ _ Lm), to_string_field, Fm, Fs by lia.
      cbn. by f_equal.
    + rewrite colon_cons.
      rewrite (break_at_found ":" _ _ (to_string_no_colon _)), (break_at_missing ":" _ Ls), to_string_field, Fs by (unfold INT64_MAX; lia).
      cbn. f_equal. lia.
  - destruct (Z.eqb_spec ms 0) as [->|]; [done|]. unfold FormatKodiClock at 1. by rewrite (proj2 (Z.ltb_lt (- ms) 0)) by lia.
Qed.

Lemma clock_reads_back_witness : read_clock (FormatKodiClock 3905999) = Some 3905.
Proof. apply (clock_reads_back 3905999). unfold INT64_MAX. lia. Defined.
