(* ===== verification/Battery.v ===== *)
(** Battery: what the firmware reads of the battery.

    Models [src/src/platform/firmware/battery_reader.cpp] and how the clock tick's monitors and
    the status bar use it. The [float]s are IEEE binary32 values; the INA226 power monitor and
    the I/O expander are third-party drivers, and what a call reads of them is its [Sample]. *)
From Stdlib Require Import SpecFloat.
From S2P Require Import Prelude Double Power Display.

Module Ina226.

(** ** [float] *)

Definition flt_prec : Z := 24.
Definition flt_emax : Z := 128.
#[local] Abbreviation least := (-149).

Definition float_of_Z (z : Z) : spec_float := binary_normalize flt_prec flt_emax z 0 false.

(** A decimal literal: the nearest [float] to [n / d]. *)
Definition float_literal (n d : Z) : spec_float := SFdiv flt_prec flt_emax (float_of_Z n) (float_of_Z d).

Definition fadd : spec_float -> spec_float -> spec_float := SFadd flt_prec flt_emax.
Definition fsub : spec_float -> spec_float -> spec_float := SFsub flt_prec flt_emax.
Definition fmul : spec_float -> spec_float -> spec_float := SFmul flt_prec flt_emax.
Definition fdiv : spec_float -> spec_float -> spec_float := SFdiv flt_prec flt_emax.

(** ** The reader *)

Definition kMinVoltage : spec_float := float_literal 64 10.
Definition kMaxVoltage : spec_float := float_literal 84 10.
Definition kBatteryPresentCurrentThresholdAmps : spec_float := float_literal 5 1000.
Definition kVoltageStabilityThresholdVolts : spec_float := float_literal 5 10.
Definition kChargeStatusPin : Z := Z.shiftl 1 6.

(** What one call reads of the chips: [None] where the read fails ([level_mask] also where the
    expander does not come up). *)
Record Sample := {
  current_amps : option spec_float; bus_voltage_volts : option spec_float; level_mask : option Z
}.

(** [Ina226BatteryReader]'s own members. *)
Record BatteryReader := { last_voltage_volts_ : spec_float; has_last_voltage_ : bool }.

Definition NewBatteryReader : BatteryReader :=
  {| last_voltage_volts_ := S754_zero false; has_last_voltage_ := false |}.

(** [None] where the conversion to [int] is undefined. *)
Definition ReadPercent (s : Sample) : option Z :=
  match bus_voltage_volts s with
  | None => Some 0
  | Some voltage =>
      let fraction := fdiv (fsub voltage kMinVoltage) (fsub kMaxVoltage kMinVoltage) in
      let fraction := double_clamp fraction (float_of_Z 0) (float_of_Z 1) in
      int32_of_double (fadd (fmul fraction (float_of_Z 100)) (float_literal 5 10))
  end.

Definition IsBatteryPresent (s : Sample) : M BatteryReader bool := fun r =>
  match current_amps s with
  | None => (false, r)
  | Some current =>
      if SFleb kBatteryPresentCurrentThresholdAmps (SFabs current) then (true, r)
      else
        match bus_voltage_volts s with
        | None => (false, r)
        | Some voltage =>
            (has_last_voltage_ r && SFltb (SFabs (fsub voltage (last_voltage_volts_ r))) kVoltageStabilityThresholdVolts,
             {| last_voltage_volts_ := voltage; has_last_voltage_ := true |})
        end
  end.

(** The local [charging] of the next. *)
Definition charging (s : Sample) : bool :=
  match level_mask s with Some mask => negb (Z.land mask kChargeStatusPin =? 0) | None => false end.

Definition IsExternalPowerConnected (s : Sample) : M BatteryReader bool :=
  if charging s then ret true else let* present := IsBatteryPresent s in ret (negb present).

(** ** Its readers

    What [latched_threshold_monitor.cpp] reads on a tick before it decides, call by call: what
    it does not get to read is left at [false] or 0, and the monitors do not look at it. *)

Definition absent_reading : BatteryReading :=
  {| Power.IsBatteryPresent := false; Power.ReadPercent := 0; Power.IsExternalPowerConnected := false |}.

Definition low_read (s1 s2 : Sample) : M BatteryReader (option BatteryReading) :=
  let* present := IsBatteryPresent s1 in
  if negb present then ret (Some absent_reading)
  else ret (option_map (fun p => {| Power.IsBatteryPresent := true; Power.ReadPercent := p; Power.IsExternalPowerConnected := false |})
              (ReadPercent s2)).

Definition critical_read (s1 s2 s3 : Sample) : M BatteryReader (option BatteryReading) :=
  let* present := IsBatteryPresent s1 in
  if negb present then ret (Some absent_reading)
  else
    match ReadPercent s2 with
    | None => ret None
    | Some p =>
        if p <? kCriticalThresholdPercent then
          let* external := IsExternalPowerConnected s3 in
          ret (Some {| Power.IsBatteryPresent := true; Power.ReadPercent := p; Power.IsExternalPowerConnected := external |})
        else ret (Some {| Power.IsBatteryPresent := true; Power.ReadPercent := p; Power.IsExternalPowerConnected := false |})
    end.

(** The two monitors of [AppCore], with the reader they share. *)
Record Monitors := { reader : BatteryReader; low_latch : bool; critical_latch : bool }.

Definition NewMonitors : Monitors := {| reader := NewBatteryReader; low_latch := false; critical_latch := false |}.

(** One [ClockTickEvent]: the low-battery monitor subscribed first. [f] gives the sample of each
    of the tick's calls, in order; the result is what is published. *)
Definition monitors_tick (f : nat -> Sample) (m : Monitors) : option (list Event * Monitors) :=
  let '(low, r1) := low_read (f 0%nat) (f 1%nat) (reader m) in
  let '(critical, r2) := critical_read (f 2%nat) (f 3%nat) (f 4%nat) r1 in
  match low, critical with
  | Some low, Some critical =>
      let '(low_events, low_bad) := LowBatteryTick low (low_latch m) in
      let '(critical_events, critical_bad) := CriticalBatteryTick critical (critical_latch m) in
      Some (low_events ++ critical_events, {| reader := r2; low_latch := low_bad; critical_latch := critical_bad |})
  | _, _ => None
  end.

(** [status_bar.cpp]'s label. *)
Definition status_label `{LvSymbols} (s1 s2 s3 : Sample) (wifi_connected : bool) : M BatteryReader (option string) :=
  let* present := IsBatteryPresent s1 in
  match ReadPercent s2 with
  | None => ret None
  | Some percent =>
      let* external := (if present then IsExternalPowerConnected s3 else ret false) in
      ret (Some (RefreshStatusLabel
        {| Power.IsBatteryPresent := present; Power.ReadPercent := percent; Power.IsExternalPowerConnected := external |}
        wifi_connected))
  end.

(** ** Lemmas *)

Lemma shl_align_fst mx ex ex' : ex' <= ex -> Z.pos (fst (shl_align mx ex ex')) = Z.pos mx * 2 ^ (ex - ex') /\ snd (shl_align mx ex ex') = ex'.
Proof.
  intros H. unfold shl_align. destruct (ex' - ex) as [|d|d] eqn:E; [|lia|].
  - assert (ex = ex') as -> by lia. rewrite Z.sub_diag. cbn. lia.
  - replace (ex - ex') with (Z.pos d) by lia. cbn [fst snd]. split; [|done].
    change (2 ^ Z.pos d) with (Z.pow_pos 2 d).
    clear. revert mx. induction d as [|d IH] using Pos.peano_ind; intros mx; [cbn; lia|].
    rewrite Pos.iter_succ. specialize (IH mx). rewrite Pos2Z.inj_xO, IH.
    change (Z.pow_pos 2 (Pos.succ d)) with (2 ^ Z.pos (Pos.succ d)). rewrite Pos2Z.inj_succ, Z.pow_succ_r by lia.
    change (Z.pow_pos 2 d) with (2 ^ Z.pos d). lia.
Qed.

(** [f] is not negative, and at most [N] units of [2 ^ -200]. *)
Definition at_most (N : Z) (f : spec_float) : Prop :=
  match f with
  | S754_zero _ => 0 <= N
  | S754_finite false m e => -200 <= e /\ Z.pos m * 2 ^ (e + 200) <= N
  | _ => False
  end.

Lemma at_most_weaken N N' f : at_most N f -> N <= N' -> at_most N' f.
Proof. destruct f as [| | |[]]; cbn; try done; lia. Qed.

(** Rounding adds at most one unit of the last place, which is at most [2 ^ k]. *)
Lemma round_at_most m e l k :
  0 <= m -> -200 <= e <= k -> -149 <= k < 104 -> m * 2 ^ (e + 200) < 2 ^ (k + 224) ->
  at_most (m * 2 ^ (e + 200) + 2 ^ (k + 200)) (binary_round_aux flt_prec flt_emax false m e l).
Proof.
  intros Hm He Hk Hlt.
  assert (Hd : Zdigits2 m <= k + 24 - e).
  { destruct (Z.eq_dec m 0) as [->|]; [cbn; lia|]. apply Zdigits2_le. split; [lia|].
    apply (Z.mul_lt_mono_pos_r (2 ^ (e + 200))); [apply Z.pow_pos_nonneg; lia|].
    rewrite <- Z.pow_add_r by lia. by replace (k + 24 - e + (e + 200)) with (k + 224) by lia. }
  pose proof (Z.pow_pos_nonneg 2 (e + 200) ltac:(lia) ltac:(lia)) as Hp.
  pose proof (Z.pow_pos_nonneg 2 (k + 200) ltac:(lia) ltac:(lia)) as Hq.
  pose proof (round_aux_finite flt_prec flt_emax eq_refl false m e l Hm) as Hf.
  pose proof (round_aux_le flt_prec flt_emax false m e l Hm) as Hle.
  destruct (binary_round_aux _ _ _ _ _ _) as [s|s| |s m' e']; cbn; [nia| |done|].
  - apply Hf. unfold flt_prec, flt_emax. lia.
  - destruct Hle as (-> & Hee & Hle). split; [lia|].
    replace (e' + 200) with (e' - e + (e + 200)) by lia. rewrite Z.pow_add_r, Z.mul_assoc by lia.
    assert (Hu : 2 ^ places_in flt_prec flt_emax m e * 2 ^ (e + 200) <= 2 ^ (k + 200)).
    { rewrite <- Z.pow_add_r by (unfold places_in; lia). apply Z.pow_le_mono_r; [lia|].
      unfold places_in, flt_prec, flt_emax. lia. }
    nia.
Qed.

Lemma normalize_at_most m e k :
  0 <= m -> -200 <= e <= k -> -149 <= k < 104 -> m * 2 ^ (e + 200) < 2 ^ (k + 224) ->
  at_most (m * 2 ^ (e + 200) + 2 ^ (k + 200)) (binary_normalize flt_prec flt_emax m e false).
Proof.
  intros Hm He Hk Hlt. destruct m as [|p|]; [|clear Hm|done].
  - cbn. lia.
  - unfold binary_normalize, binary_round. set (x := fexp _ _ _).
    assert (Hx : least <= x) by (unfold x, fexp, SpecFloat.emin, flt_prec, flt_emax; lia).
    destruct (Z.le_gt_cases x e) as [Hxe|Hxe].
    + destruct (shl_align_fst p e x Hxe) as [H1 H2]. destruct (shl_align p e x) as [mz ez]. cbn [fst snd] in *. subst ez.
      assert (E : Z.pos mz * 2 ^ (x + 200) = Z.pos p * 2 ^ (e + 200)).
      { rewrite H1, <- Z.mul_assoc, <- Z.pow_add_r by lia. do 2 f_equal. lia. }
      rewrite <- E in *. apply round_at_most; [done|lia|done|done].
    + unfold shl_align. destruct (x - e) eqn:Ex; [lia| |lia]. by apply round_at_most.
Qed.

(** Between 0 and 1. *)
Definition in_unit (f : spec_float) : Prop :=
  match f with
  | S754_zero _ => True
  | S754_finite false m e => least <= e /\ Z.pos m * 2 ^ (e + 200) <= 2 ^ 200
  | _ => False
  end.

Lemma clamp_in_unit v : number flt_prec flt_emax v -> in_unit (double_clamp v (float_of_Z 0) (float_of_Z 1)).
Proof.
  intros [Hn Hv]. change (float_of_Z 0) with (S754_zero false). change (float_of_Z 1) with (S754_finite false 8388608 (-23)).
  unfold double_clamp, SFltb. destruct v as [s|s| |s m e]; try done.
  - by destruct s.
  - destruct Hv as [Hm Hmin]. change (3 - flt_emax - flt_prec) with (-149) in Hmin. change (2 ^ flt_prec) with 16777216 in Hm.
    destruct s; cbn [SFcompare]; [done|].
    pose proof (Z.pow_pos_nonneg 2 (e + 200) ltac:(lia) ltac:(lia)).
    assert (Heq : in_unit (S754_finite false 8388608 (-23))) by (split; [lia|by vm_compute]).
    destruct (Z.compare_spec (-23) e) as [<-|Hlt|Hgt]; cbn.
    + change (Pos.compare_cont Eq 8388608 m) with (8388608 ?= m)%positive.
      destruct (Pos.compare_spec 8388608 m) as [<-|Hc|Hc]; cbn; [done|by apply Heq|].
      split; [done|]. change (2 ^ 200) with (8388608 * 2 ^ 177). change (-23 + 200) with 177.
      apply Z.mul_le_mono_nonneg_r; [done|]. apply Z.lt_le_incl, Hc.
    + by apply Heq.
    + split; [lia|]. change (2 ^ 200) with (16777216 * 2 ^ 176).
      pose proof (Z.pow_le_mono_r 2 (e + 200) 176 ltac:(lia) ltac:(lia)). nia.
Qed.

Lemma scale_at_most f : in_unit f -> at_most (100 * 2 ^ 200 + 2 ^ 184) (fmul f (float_of_Z 100)).
Proof.
  change (float_of_Z 100) with (S754_finite false 13107200 (-17)).
  destruct f as [s|s| |[] m e]; try done. intros [He Hm].
  pose proof (Z.pow_pos_nonneg 2 (e + 200) ltac:(lia) ltac:(lia)).
  assert (e <= 0).
  { apply Z.le_ngt. intros Hp. pose proof (Z.pow_le_mono_r 2 201 (e + 200) ltac:(lia) ltac:(lia)).
    change (2 ^ 201) with (2 * 2 ^ 200) in *. pose proof (Z.pow_pos_nonneg 2 200 ltac:(lia) ltac:(lia)). nia. }
  assert (E : Z.pos (m * 13107200) * 2 ^ (e + -17 + 200) <= 100 * 2 ^ 200).
  { replace (100 * 2 ^ 200) with (13107200 * (2 ^ 200 / 2 ^ 17)) by by vm_compute.
    apply (Z.mul_le_mono_pos_r _ _ (2 ^ 17)); [done|]. rewrite <- !Z.mul_assoc, <- Z.pow_add_r by lia.
    replace (e + -17 + 200 + 17) with (e + 200) by lia. change (2 ^ 200 / 2 ^ 17 * 2 ^ 17) with (2 ^ 200). nia. }
  cbn [fmul SFmul xorb]. eapply at_most_weaken; [|apply Z.add_le_mono_r, E].
  apply (round_at_most _ _ _ (-16)); [lia|lia|lia|]. eapply Z.le_lt_trans; [exact E|by vm_compute].
Qed.

Lemma add_half_at_most f : at_most (100 * 2 ^ 200 + 2 ^ 184) f ->
  at_most (100 * 2 ^ 200 + 2 ^ 184 + 2 ^ 199 + 2 ^ 183) (fadd f (float_literal 5 10)).
Proof.
  change (float_literal 5 10) with (S754_finite false 8388608 (-24)).
  destruct f as [s|s| |[] m e]; try done.
  - intros [He Hm]. unfold fadd. cbn [SFadd]. set (ez := Z.min e (-24)).
    destruct (shl_align_fst m e ez ltac:(lia)) as [-> _].
    destruct (shl_align_fst 8388608 (-24) ez ltac:(lia)) as [-> _]. cbn [cond_Zopp].
    set (M := Z.pos m * _ + _).
    assert (E : M * 2 ^ (ez + 200) = Z.pos m * 2 ^ (e + 200) + 2 ^ 199).
    { unfold M. rewrite Z.mul_add_distr_r, <- !Z.mul_assoc, <- !Z.pow_add_r by lia.
      replace (e - ez + (ez + 200)) with (e + 200) by lia. by replace (-24 - ez + (ez + 200)) with 176 by lia. }
    assert (0 <= M) by (unfold M; pose proof (Z.pow_pos_nonneg 2 (e - ez) ltac:(lia) ltac:(lia)); pose proof (Z.pow_pos_nonneg 2 (-24 - ez) ltac:(lia) ltac:(lia)); nia).
    eapply at_most_weaken; [apply (normalize_at_most M ez (-17)); [done|lia|lia|]|]; rewrite E.
    + eapply Z.le_lt_trans; [apply Z.add_le_mono_r, Hm|by vm_compute].
    + change (-17 + 200) with 183. lia.
Qed.

Lemma at_most_int f : at_most (100 * 2 ^ 200 + 2 ^ 184 + 2 ^ 199 + 2 ^ 183) f ->
  exists p, int32_of_double f = Some p /\ 0 <= p <= 100.
Proof.
  destruct f as [s|s| |[] m e]; try done; [by exists 0|]. intros [He Hm].
  assert (H : 0 <= double_trunc (S754_finite false m e) <= 100).
  { apply (double_trunc_le m (-200) e (Z.pos m * 2 ^ (e - -200)) 100); [done|lia|done|].
    replace (e - -200) with (e + 200) by lia. eapply Z.le_lt_trans; [exact Hm|by vm_compute]. }
  cbn [int32_of_double]. set (v := double_trunc _) in *. exists v. split; [|done].
  unfold INT_MIN, INT_MAX in *. by replace ((_ <=? v) && (v <=? _)) with true by lia.
Qed.

(** What is reported is a number, or nothing. *)
Definition sane (s : Sample) : Prop := forall v, bus_voltage_volts s = Some v -> number flt_prec flt_emax v.

Lemma percent_bounded s : sane s -> exists p, ReadPercent s = Some p /\ 0 <= p <= 100.
Proof.
  unfold ReadPercent, sane. destruct (bus_voltage_volts s) as [v|]; [|by exists 0].
  intros Hv. apply at_most_int, add_half_at_most, scale_at_most, clamp_in_unit.
  set (range := fsub kMaxVoltage kMinVoltage). vm_compute in range. subst range.
  set (low := kMinVoltage). vm_compute in low. subst low.
  apply SFdiv_number; [done|]. by apply SFsub_number; [|apply Hv|].
Qed.

(** The difference of a finite number with itself is zero. *)
Lemma fsub_self s m e : fsub (S754_finite s m e) (S754_finite s m e) = S754_zero false.
Proof. unfold fsub. cbn [SFsub]. by rewrite Z.sub_diag. Qed.

(** A battery that is charging or drawing current, and the reading it should give. *)
Definition under_load (s : Sample) : Prop :=
  exists current, current_amps s = Some current /\ SFleb kBatteryPresentCurrentThresholdAmps (SFabs current) = true.

Definition reading_of (s : Sample) (percent : Z) : BatteryReading :=
  {| Power.IsBatteryPresent := true; Power.ReadPercent := percent; Power.IsExternalPowerConnected := charging s |}.

Lemma present_under_load s r : under_load s -> IsBatteryPresent s r = (true, r).
Proof. intros (c & E & Hc). unfold IsBatteryPresent. by rewrite E, Hc. Qed.

Lemma external_under_load s r : under_load s -> IsExternalPowerConnected s r = (charging s, r).
Proof.
  intros Hs. unfold IsExternalPowerConnected.
  destruct (charging s); [done|]. unfold bind. by rewrite (present_under_load s r Hs).
Qed.

Lemma low_read_under_load s p r : under_load s -> ReadPercent s = Some p ->
  low_read s s r = (Some {| Power.IsBatteryPresent := true; Power.ReadPercent := p; Power.IsExternalPowerConnected := false |}, r).
Proof. intros Hs Hp. unfold low_read, bind. by rewrite (present_under_load s r Hs), Hp. Qed.

Lemma critical_read_under_load s p r : under_load s -> ReadPercent s = Some p ->
  critical_read s s s r =
    (Some {| Power.IsBatteryPresent := true; Power.ReadPercent := p;
             Power.IsExternalPowerConnected := (p <? kCriticalThresholdPercent) && charging s |}, r).
Proof.
  intros Hs Hp. unfold critical_read, bind. rewrite (present_under_load s r Hs), Hp. cbn [negb].
  destruct (p <? kCriticalThresholdPercent); [|done]. by rewrite (external_under_load s r Hs).
Qed.

(** Nothing charging, no current, and a voltage: what is read with no battery, and with a full one. *)
Definition idle_at (s : Sample) (voltage : spec_float) : Prop :=
  (exists current, current_amps s = Some current /\ SFleb kBatteryPresentCurrentThresholdAmps (SFabs current) = false) /\
  bus_voltage_volts s = Some voltage /\ charging s = false.

Definition near (v1 v2 : spec_float) : bool := SFltb (SFabs (fsub v1 v2)) kVoltageStabilityThresholdVolts.

Lemma present_idle s v r : idle_at s v ->
  IsBatteryPresent s r =
    (has_last_voltage_ r && near v (last_voltage_volts_ r), {| last_voltage_volts_ := v; has_last_voltage_ := true |}).
Proof. intros ((c & E & Hc) & Ev & _). unfold IsBatteryPresent. by rewrite E, Hc, Ev. Qed.

Lemma near_self s m e : near (S754_finite s m e) (S754_finite s m e) = true.
Proof. unfold near. rewrite fsub_self. by vm_compute. Qed.

Lemma external_idle s v r : idle_at s v ->
  IsExternalPowerConnected s r =
    (negb (has_last_voltage_ r && near v (last_voltage_volts_ r)), {| last_voltage_volts_ := v; has_last_voltage_ := true |}).
Proof.
  intros Hs. unfold IsExternalPowerConnected.
  rewrite (proj2 (proj2 Hs)). unfold bind. by rewrite (present_idle s v r Hs).
Qed.

Lemma ReadPercent_idle s s' v : idle_at s v -> idle_at s' v -> ReadPercent s = ReadPercent s'.
Proof. intros (_ & E & _) (_ & E' & _). unfold ReadPercent. by rewrite E, E'. Qed.

(** A first call that finds the voltage elsewhere, and one that finds it where the last call did. *)
Lemma low_read_far s1 s2 v r : idle_at s1 v -> has_last_voltage_ r && near v (last_voltage_volts_ r) = false ->
  low_read s1 s2 r = (Some absent_reading, {| last_voltage_volts_ := v; has_last_voltage_ := true |}).
Proof. intros Hs Hfar. unfold low_read, bind. by rewrite (present_idle s1 v r Hs), Hfar. Qed.

Lemma critical_read_again s1 s2 s3 s mant exp p :
  let v := S754_finite s mant exp in
  let r := {| last_voltage_volts_ := v; has_last_voltage_ := true |} in
  idle_at s1 v -> idle_at s3 v -> ReadPercent s2 = Some p -> p < kCriticalThresholdPercent ->
  critical_read s1 s2 s3 r =
    (Some {| Power.IsBatteryPresent := true; Power.ReadPercent := p; Power.IsExternalPowerConnected := false |}, r).
Proof.
  intros v r H1 H3 Hp Hlow. assert (Hn : has_last_voltage_ r && near v (last_voltage_volts_ r) = true) by apply near_self.
  unfold critical_read, bind. rewrite (present_idle s1 v r H1), Hn. cbn [negb]. fold r.
  by rewrite Hp, (proj2 (Z.ltb_lt _ _) Hlow), (external_idle s3 v r H3), Hn.
Qed.

(** ** Properties *)

(** C31: Whatever voltage the power monitor reports, as long as it is a
    number, the conversion to a percentage is defined and lies between 0 and 100, after all the
    roundings of [float] arithmetic; a monitor that cannot be read counts as empty. *)
Theorem ReadPercent_in_range s :
  sane s ->
  (exists p, ReadPercent s = Some p /\ 0 <= p <= 100) /\ (bus_voltage_volts s = None -> ReadPercent s = Some 0).
Proof.
  intros Hv. destruct (percent_bounded s Hv) as (p & E & Hp). split; [by exists p|]. unfold ReadPercent. by intros ->.
Qed.

(** With a battery under load the monitors of a tick see the battery as
    it is: their events and latches are those of the abstract monitors on one reading, with the
    percentage of the voltage and the charge-status pin as external power, and the reader keeps
    its state, however many calls the tick makes. *)
Theorem monitors_tick_under_load f s p m :
  (forall n, f n = s) -> under_load s -> ReadPercent s = Some p ->
  monitors_tick f m =
    Some ((LowBatteryTick (reading_of s p) (low_latch m)).1 ++ (CriticalBatteryTick (reading_of s p) (critical_latch m)).1,
          {| reader := reader m; low_latch := (LowBatteryTick (reading_of s p) (low_latch m)).2;
             critical_latch := (CriticalBatteryTick (reading_of s p) (critical_latch m)).2 |}).
Proof.
  intros Hf Hs Hp. unfold monitors_tick. rewrite !Hf, (low_read_under_load s p _ Hs Hp), (critical_read_under_load s p _ Hs Hp).
  unfold LowBatteryTick, CriticalBatteryTick, LatchedTick. cbn.
  destruct (p <? kCriticalThresholdPercent), (p <? kLowThresholdPercent), (low_latch m), (charging s), (critical_latch m); done.
Qed.

(** C27: The voltages of the calls are compared with each other, and not with
    those of the tick before: on a unit with no battery, a tick whose calls all read one voltage
    below 5%, however far from the last tick's, has the low-battery monitor find no battery and
    the critical one, right after it, find a critically low battery and no external power. *)
Theorem one_tick_makes_a_battery f s mant exp p m :
  (forall n, idle_at (f n) (S754_finite s mant exp)) -> ReadPercent (f 0%nat) = Some p -> p < kCriticalThresholdPercent ->
  has_last_voltage_ (reader m) && near (S754_finite s mant exp) (last_voltage_volts_ (reader m)) = false ->
  low_latch m = false -> critical_latch m = false ->
  (low_read (f 0%nat) (f 1%nat) (reader m)).1 = Some absent_reading /\
  option_map fst (monitors_tick f m) =
    Some [CriticalBatteryStateChangedEvent true; NotificationEvent "Battery critically low" kAlertPriority].
Proof.
  intros Hf Hp Hlow Hfar Hl Hc. unfold monitors_tick. rewrite (low_read_far _ _ _ _ (Hf 0%nat) Hfar). split; [done|].
  rewrite (critical_read_again _ _ _ s mant exp p (Hf 2%nat) (Hf 4%nat)); [|by rewrite (ReadPercent_idle _ _ _ (Hf 3%nat) (Hf 0%nat))|done].
  unfold LowBatteryTick, CriticalBatteryTick, LatchedTick. cbn. rewrite Hl, Hc. by rewrite (proj2 (Z.ltb_lt _ _) Hlow).
Qed.

(** ** Sample runs *)

(** A voltage and a current in thousandths. *)
Definition sample (milliamps millivolts mask : Z) : Sample :=
  {| current_amps := Some (float_literal milliamps 1000); bus_voltage_volts := Some (float_literal millivolts 1000);
     level_mask := Some mask |}.

Example percents :
  map (fun mv => ReadPercent (sample 500 mv 0)) [0; 6400; 6509; 6510; 7400; 8389; 8390; 8400; 9000]
  = map Some [0; 0; 5; 6; 50; 99; 100; 100; 100].
Proof. by vm_compute. Qed.

Lemma ReadPercent_in_range_witness : exists p, ReadPercent (sample 500 7400 0) = Some p /\ 0 <= p <= 100.
Proof.
  apply (ReadPercent_in_range (sample 500 7400 0)). intros v E. injection E as <-.
  split; [discriminate|]. vm_compute. split; [reflexivity|discriminate].
Defined.

Lemma monitors_tick_under_load_witness :
  option_map fst (monitors_tick (fun _ => sample (-500) 6450 0) NewMonitors) =
    Some [NotificationEvent "Battery low" kDeferred; CriticalBatteryStateChangedEvent true;
          NotificationEvent "Battery critically low" kAlertPriority].
Proof.
  rewrite (monitors_tick_under_load (fun _ => sample (-500) 6450 0) (sample (-500) 6450 0) 2 NewMonitors (fun _ => eq_refl)).
  - reflexivity.
  - exists (float_literal (-500) 1000). split; [reflexivity|vm_compute; reflexivity].
  - vm_compute. reflexivity.
Defined.

(** The hunting output of the charger: 8 V on the last tick, 6.42 V on this one. *)
Definition hunting : Monitors :=
  {| reader := {| last_voltage_volts_ := float_literal 8000 1000; has_last_voltage_ := true |};
     low_latch := false; critical_latch := false |}.

Lemma one_tick_makes_a_battery_witness :
  option_map fst (monitors_tick (fun _ => sample 0 6420 0) hunting) =
    Some [CriticalBatteryStateChangedEvent true; NotificationEvent "Battery critically low" kAlertPriority].
Proof.
  refine (proj2 (one_tick_makes_a_battery (fun _ => sample 0 6420 0) false _ _ 1 hunting _ _ _ _ eq_refl eq_refl)).
  - intros _. split; [exists (float_literal 0 1000); split; [reflexivity|vm_compute; reflexivity]|]. split; vm_compute; reflexivity.
  - vm_compute. reflexivity.
  - reflexivity.
  - vm_compute. reflexivity.
Defined.
End Ina226.
