(* ===== verification/Clock.v ===== *)
(** Clock: the time of day.

    Models [src/src/platform/firmware/time_source.cpp] over its RTC library ([Rtc]),
    [core/clock.cpp], [ui/time_format.cpp] with what it uses of the C library's calendar
    ([Calendar]), [ui/clock_widget.cpp], the handlers of [ui/status_bar.cpp], and the SNTP
    callback of [firmware/main/homedeck.cpp]. *)
From S2P Require Import Prelude Display Battery.

(** ** The C library's calendar *)

Module Calendar.

(** The fields of [struct tm] the program uses. *)
Record tm := {
  tm_sec : Z; tm_min : Z; tm_hour : Z; tm_mday : Z; tm_mon : Z; tm_year : Z; tm_wday : Z
}.

(** The months of a year that starts in March, so that a leap day is its last: from the
    calendar's, and back. *)
Definition march_month (m : Z) : Z := if m <=? 2 then m + 9 else m - 3.
Definition civil_month (mp : Z) : Z := if mp <? 10 then mp + 3 else mp - 9.

(** Days from 1970-01-01 to a day of the proleptic Gregorian calendar, months from 1. *)
Definition days_from_civil (y m d : Z) : Z :=
  let y := if m <=? 2 then y - 1 else y in
  let yoe := y mod 400 in
  let doy := (153 * march_month m + 2) / 5 + d - 1 in
  y / 400 * 146097 + (yoe * 365 + yoe / 4 - yoe / 100 + doy) - 719468.

Definition civil_from_days (days : Z) : Z * Z * Z :=
  let z := days + 719468 in
  let doe := z mod 146097 in
  let century := Z.min 3 (doe / 36524) in
  let doc := doe - 36524 * century in
  let quad := doc / 1461 in
  let doq := doc - 1461 * quad in
  let year := Z.min 3 (doq / 365) in
  let doy := doq - 365 * year in
  let mp := (5 * doy + 2) / 153 in
  let d := doy - (153 * mp + 2) / 5 + 1 in
  let m := civil_month mp in
  let y := z / 146097 * 400 + 100 * century + 4 * quad + year in
  ((if m <=? 2 then y + 1 else y), m, d).

(** [gmtime_r]. *)
Definition gmtime (t : Z) : tm :=
  let '(y, m, d) := civil_from_days (t / 86400) in
  let s := t mod 86400 in
  {| tm_sec := s mod 60; tm_min := s / 60 mod 60; tm_hour := s / 3600; tm_mday := d; tm_mon := m - 1;
     tm_year := y - 1900; tm_wday := (t / 86400 + 4) mod 7 |}.

(** [std::mktime] with no time zone set; fields out of their range carry over. *)
Definition mktime (v : tm) : Z :=
  86400 * days_from_civil (tm_year v + 1900 + tm_mon v / 12) (tm_mon v mod 12 + 1) (tm_mday v)
    + 3600 * tm_hour v + 60 * tm_min v + tm_sec v.

(** [std::strftime] with the conversions the program uses, in the C locale. *)
Definition pad2 (n : Z) : string := String (digit_char (n / 10)) (String (digit_char (n mod 10)) EmptyString).

Definition weekdays : list string := ["Sun"; "Mon"; "Tue"; "Wed"; "Thu"; "Fri"; "Sat"].

Definition months : list string :=
  ["Jan"; "Feb"; "Mar"; "Apr"; "May"; "Jun"; "Jul"; "Aug"; "Sep"; "Oct"; "Nov"; "Dec"].

Definition name (l : list string) (n : Z) : string := nth (Z.to_nat n) l "?".

Definition conversion (c : ascii) (v : tm) : option string :=
  if Ascii.eqb c "H" then Some (pad2 (tm_hour v))
  else if Ascii.eqb c "M" then Some (pad2 (tm_min v))
  else if Ascii.eqb c "a" then Some (name weekdays (tm_wday v))
  else if Ascii.eqb c "d" then Some (pad2 (tm_mday v))
  else if Ascii.eqb c "b" then Some (name months (tm_mon v))
  else None.

Fixpoint expand (format : string) (v : tm) : option string :=
  match format with
  | String "%" (String c f) =>
      match conversion c v, expand f v with Some a, Some b => Some (a +:+ b) | _, _ => None end
  | String c f => option_map (String c) (expand f v)
  | EmptyString => Some EmptyString
  end.

(** [None]: the text and its terminator do not fit, and the buffer is unspecified. *)
Definition strftime (size_ : Z) (format : string) (v : tm) : option string :=
  match expand format v with
  | Some s => if size s <? size_ then Some s else None
  | None => None
  end.

(** ** Lemmas *)

#[local] Ltac Zify.zify_post_hook ::= Z.div_mod_to_equations.

(** A day of a year that starts in March, by its month [mp] and day. *)
Lemma month_of_day doy : 0 <= doy <= 365 ->
  let mp := (5 * doy + 2) / 153 in
  0 <= mp <= 11 /\ 1 <= doy - (153 * mp + 2) / 5 + 1 <= 31.
Proof. cbn. lia. Qed.

(** The year of an era of 400 by its century, its four years and its year in them. *)
Lemma year_of_era c q a : 0 <= c <= 3 -> 0 <= q <= 24 -> 0 <= a <= 3 ->
  let yoe := 100 * c + 4 * q + a in
  0 <= yoe < 400 /\ yoe / 4 = 25 * c + q /\ yoe / 100 = c.
Proof. cbn. lia. Qed.

Record civil_parts (doe : Z) (c q a doy : Z) : Prop := {
  parts_eq : doe = 36524 * c + 1461 * q + 365 * a + doy;
  parts_c : 0 <= c <= 3; parts_q : 0 <= q <= 24; parts_a : 0 <= a <= 3; parts_doy : 0 <= doy <= 365
}.

Lemma civil_parts_of doe : 0 <= doe < 146097 ->
  let c := Z.min 3 (doe / 36524) in
  let q := (doe - 36524 * c) / 1461 in
  let a := Z.min 3 ((doe - 36524 * c - 1461 * q) / 365) in
  civil_parts doe c q a (doe - 36524 * c - 1461 * q - 365 * a).
Proof. cbn. intros H. split; lia. Qed.

Lemma march_of_civil mp : 0 <= mp <= 11 -> march_month (civil_month mp) = mp /\ 1 <= civil_month mp <= 12.
Proof. unfold march_month, civil_month. intros H. destruct (Z.ltb_spec mp 10); case_match; lia. Qed.

Lemma days_of_civil days : let '(y, m, d) := civil_from_days days in
  days_from_civil y m d = days /\ 1 <= m <= 12 /\ 1 <= d <= 31.
Proof.
  unfold civil_from_days. set (z := days + 719468). set (doe := z mod 146097).
  pose proof (civil_parts_of doe ltac:(apply Z.mod_pos_bound; lia)) as H. cbn zeta in H. revert H.
  set (c := Z.min 3 _). set (q := _ / 1461). set (a := Z.min 3 _). set (doy := _ - 365 * a). intros [Heq Hc Hq Ha Hy].
  pose proof (month_of_day doy Hy) as Hm. cbn zeta in Hm. revert Hm. set (mp := (5 * doy + 2) / 153). intros [Hmp Hd].
  destruct (year_of_era c q a Hc Hq Ha) as (Hyoe & E4 & E100). destruct (march_of_civil mp Hmp) as [Em Hcm].
  set (m := civil_month mp) in *. set (era := z / 146097). split; [|lia].
  unfold days_from_civil. rewrite Em.
  replace (if m <=? 2 then _ - 1 else _) with (100 * c + 4 * q + a + era * 400) by (destruct (m <=? 2); lia).
  rewrite Z.mod_add, Z.div_add, Z.mod_small, Z.div_small, E4, E100 by lia.
  pose proof (Z_div_mod_eq_full z 146097). lia.
Qed.

(** The years of this century. *)
Lemma year_of_century days : 10957 <= days < 47482 -> let '(y, _, _) := civil_from_days days in 2000 <= y <= 2099.
Proof.
  intros Hd. unfold civil_from_days. set (z := days + 719468).
  assert (Hz : 730425 <= z < 766950) by (unfold z; lia). clearbody z. clear Hd.
  set (doe := z mod 146097). pose proof (civil_parts_of doe ltac:(apply Z.mod_pos_bound; lia)) as H. cbn zeta in H. revert H.
  set (c := Z.min 3 _). set (q := _ / 1461). set (a := Z.min 3 _). set (doy := _ - 365 * a). intros [Heq Hc Hq Ha Hy].
  assert (Em : (civil_month ((5 * doy + 2) / 153) <=? 2) = (306 <=? doy))
    by (unfold civil_month; destruct (Z.leb_spec 306 doy); case_match; lia).
  rewrite Em. clear Em. pose proof (Z_div_mod_eq_full z 146097) as Ez. change (z mod 146097) with doe in Ez.
  pose proof (Z.mod_pos_bound z 146097 ltac:(lia)) as Hb. change (z mod 146097) with doe in Hb.
  set (era := z / 146097) in *. assert (era = 4 \/ era = 5) as [-> | ->] by lia.
  - assert (c = 3 /\ q = 24 /\ a = 3) as (-> & -> & ->) by (clearbody doe; subst c q a; lia). destruct (Z.leb_spec 306 doy); lia.
  - assert (c = 0) as -> by (clearbody doe; subst c; lia). destruct (Z.leb_spec 306 doy); lia.
Qed.

(** ** The two directions agree *)
Lemma mktime_gmtime t : mktime (gmtime t) = t.
Proof.
  unfold mktime, gmtime. pose proof (days_of_civil (t / 86400)) as H. destruct (civil_from_days (t / 86400)) as [[y m] d].
  destruct H as (E & Hm & Hd). cbn.
  rewrite (Z.div_small (m - 1)), (Z.mod_small (m - 1)) by lia. replace (y - 1900 + 1900 + 0) with y by lia.
  replace (m - 1 + 1) with m by lia. rewrite E. lia.
Qed.
End Calendar.

(** ** The time source *)

Module TimeSource.
Import Calendar.

(** A [system_clock] time point is a number of nanoseconds. *)
Definition from_time_t (t : Z) : Z := t * 1000000000.
Definition to_time_t (time : Z) : Z := Z.quot time 1000000000.

(** The RTC library, and its bus. *)
Class Rtc (R : Type) := { get_time : M R (option tm); set_time : tm -> M R bool }.

(** What the chip can hold: two digits of the year, and every field in its range. *)
Definition rtc_holds (v : tm) : Prop :=
  0 <= tm_sec v < 60 /\ 0 <= tm_min v < 60 /\ 0 <= tm_hour v < 24 /\ 1 <= tm_mday v <= 31 /\
  0 <= tm_mon v <= 11 /\ 100 <= tm_year v <= 199.

Definition same_time (v v' : tm) : Prop :=
  tm_sec v = tm_sec v' /\ tm_min v = tm_min v' /\ tm_hour v = tm_hour v' /\
  tm_mday v = tm_mday v' /\ tm_mon v = tm_mon v' /\ tm_year v = tm_year v'.

(** What was written is read back until the chip counts on. *)
Class RtcLaws (R : Type) `{Rtc R} : Prop := {
  rtc_reads_back r v r' v' : rtc_holds v -> set_time v r = (true, r') -> (get_time r').1 = Some v' -> same_time v' v
}.

Section Source.
Context {R : Type} `{Rtc R}.

(** [system_now] is what [system_clock::now()] gives. *)
Definition Now (system_now : Z) : M R Z :=
  let* v := get_time in
  ret (match v with None => system_now | Some v => from_time_t (mktime v) end).

Definition SetTime (utc_time : Z) : M R bool := set_time (gmtime utc_time).

(** [core/clock.cpp]: the time of the [ClockTickEvent] that [Start] and each timer callback
    publish. *)
Definition clock_tick (system_now : Z) : M R Z := Now system_now.
End Source.

(** [firmware/main/homedeck.cpp]: the SNTP callback, with the two globals and the log. *)
Section Sntp.
Context {R : Type} `{Rtc R}.

Record Sntp := { g_time_source_for_sntp : bool; g_logger_for_sntp : bool; rtc : R; log : list (string * string) }.

Definition OnSntpTimeSync (tv_sec : Z) (s : Sntp) : Sntp :=
  {| g_time_source_for_sntp := g_time_source_for_sntp s; g_logger_for_sntp := g_logger_for_sntp s;
     rtc := if g_time_source_for_sntp s then exec (SetTime tv_sec) (rtc s) else rtc s;
     log := log s ++ if g_logger_for_sntp s then [("time_sync", "RTC corrected via SNTP")] else [] |}.
End Sntp.

#[local] Ltac Zify.zify_post_hook ::= Z.div_mod_to_equations.

(** A chip that keeps its fields as pairs of decimal digits. *)
Module Chip.
Record Chip := { failing : bool; registers : list Z }.

Definition bcd (n : Z) : Z := 16 * (n / 10) + n mod 10.
Definition unbcd (b : Z) : Z := 10 * (b / 16) + b mod 16.

Definition read (c : Chip) : option tm :=
  match failing c, registers c with
  | false, [s; mi; h; d; mo; y; w] =>
      Some {| tm_sec := unbcd s; tm_min := unbcd mi; tm_hour := unbcd h; tm_mday := unbcd d;
              tm_mon := unbcd mo - 1; tm_year := unbcd y + 100; tm_wday := w |}
  | _, _ => None
  end.

Definition write (v : tm) (c : Chip) : bool * Chip :=
  if failing c then (false, c)
  else (true, {| failing := false;
                 registers := map bcd [tm_sec v; tm_min v; tm_hour v; tm_mday v; tm_mon v + 1; tm_year v mod 100] ++ [tm_wday v] |}).

#[global] Instance chip_rtc : Rtc Chip := { get_time := gets read; set_time := write }.

Lemma unbcd_bcd n : 0 <= n < 100 -> unbcd (bcd n) = n.
Proof. unfold bcd, unbcd. lia. Qed.

#[global] Instance chip_laws : RtcLaws Chip.
Proof.
  split. intros r v r' v' (H1 & H2 & H3 & H4 & H5 & H6) Hw Hr. cbn in Hw, Hr. unfold write in Hw.
  destruct (failing r); [done|]. injection Hw as <-. cbn in Hr. injection Hr as <-. unfold same_time. cbn.
  assert (Hy : tm_year v mod 100 = tm_year v - 100) by lia.
  rewrite Hy, !unbcd_bcd by lia. split_and!; lia.
Qed.
End Chip.

(** ** Lemmas *)

Lemma gmtime_fields t :
  let v := gmtime t in
  0 <= tm_sec v < 60 /\ 0 <= tm_min v < 60 /\ 0 <= tm_hour v < 24 /\ 1 <= tm_mday v <= 31 /\ 0 <= tm_mon v <= 11 /\
  0 <= tm_wday v < 7 /\ 3600 * tm_hour v + 60 * tm_min v + tm_sec v = t mod 86400 /\
  days_from_civil (tm_year v + 1900) (tm_mon v + 1) (tm_mday v) = t / 86400.
Proof.
  unfold gmtime. pose proof (days_of_civil (t / 86400)) as H. destruct (civil_from_days (t / 86400)) as [[y m] d].
  destruct H as (E & Hm & Hd). cbn. replace (y - 1900 + 1900) with y by lia. replace (m - 1 + 1) with m by lia.
  split_and!; try exact E; lia.
Qed.

Lemma gmtime_held t : 946684800 <= t < 4102444800 -> rtc_holds (gmtime t).
Proof.
  intros Ht. pose proof (gmtime_fields t) as H. cbn zeta in H. unfold rtc_holds. destruct H as (? & ? & ? & ? & ? & _).
  split_and!; try lia; unfold gmtime; pose proof (year_of_century (t / 86400) ltac:(lia)) as Hy;
    destruct (civil_from_days (t / 86400)) as [[y m] d]; cbn; lia.
Qed.

Lemma mktime_same v v' : same_time v v' -> mktime v = mktime v'.
Proof. intros (E1 & E2 & E3 & E4 & E5 & E6). unfold mktime. congruence. Qed.

(** ** Properties *)

(** C33: From 2000 to 2099, a time that SNTP has written to the clock chip is
    the time that is read back, to the second, while the chip holds it: breaking it down into
    year, month, day and time of day and putting these together again loses nothing. *)
Theorem time_survives_rtc `{RtcLaws R} t r r' system_now :
  946684800 <= t < 4102444800 -> SetTime t r = (true, r') -> (get_time r').1 <> None ->
  (Now system_now r').1 = from_time_t t.
Proof.
  intros Ht Hw Hr. unfold Now. rewrite run_bind. cbn. destruct (get_time r').1 as [v|] eqn:E; [|done].
  f_equal. rewrite (mktime_same v (gmtime t)); [apply mktime_gmtime|].
  by apply (rtc_reads_back r (gmtime t) r'); [apply gmtime_held| |].
Qed.

Definition stopped : Chip.Chip := {| Chip.failing := false; Chip.registers := [] |}.

(** A leap day. *)
Lemma time_survives_rtc_witness : (Now 0 (exec (SetTime 1709209845) stopped)).1 = from_time_t 1709209845.
Proof.
  apply (time_survives_rtc 1709209845 stopped (exec (SetTime 1709209845) stopped) 0).
  - lia.
  - reflexivity.
  - vm_compute. discriminate.
Defined.
End TimeSource.

(** ** What shows it *)

Module ClockUi.
Import Calendar TimeSource.

Section Ui.
(** The offset of local time at a moment: the C library's time zone, none on the device. *)
Context (utc_offset : Z -> Z) `{LvSymbols}.

(** [ui/time_format.cpp]. *)
Definition FormatLocalTime (time : Z) (format : string) (size_ : Z) : option string :=
  let t := to_time_t time in
  strftime size_ format (gmtime (t + utc_offset t)).

(** [ui/clock_widget.cpp]. *)
Record ClockWidget := { time_label_ : string; date_label_ : string }.

Definition NewClockWidget : ClockWidget := {| time_label_ := EmptyString; date_label_ := EmptyString |}.

(** Its [ClockTickEvent] handler: [None] where a text is unspecified. *)
Definition ClockWidget_OnTick (time : Z) (_ : ClockWidget) : option ClockWidget :=
  match FormatLocalTime time "%H:%M" 16, FormatLocalTime time "%a %d %b" 32 with
  | Some time_text, Some date_text => Some {| time_label_ := time_text; date_label_ := date_text |}
  | _, _ => None
  end.

(** [ui/status_bar.cpp]: its members, its two labels. *)
Record StatusBar := { clock_label_ : string; battery_label_ : string; wifi_connected_ : bool }.

(** The samples are what the battery reader's calls find. *)
Definition refresh (s1 s2 s3 : Ina226.Sample) (clock : string) (wifi : bool) : M Ina226.BatteryReader (option StatusBar) :=
  let* label := Ina226.status_label s1 s2 s3 wifi in
  ret (option_map (fun l => {| clock_label_ := clock; battery_label_ := l; wifi_connected_ := wifi |}) label).

Definition NewStatusBar (connected : bool) (s1 s2 s3 : Ina226.Sample) : M Ina226.BatteryReader (option StatusBar) :=
  refresh s1 s2 s3 EmptyString connected.

Inductive BarEvent := ClockTick (time : Z) | WifiConnectivityChanged (connected : bool).

Definition StatusBar_OnEvent (e : BarEvent) (s1 s2 s3 : Ina226.Sample) (b : StatusBar) : M Ina226.BatteryReader (option StatusBar) :=
  match e with
  | ClockTick time =>
      match FormatLocalTime time "%H:%M  %a %d %b" 32 with
      | Some text => refresh s1 s2 s3 text (wifi_connected_ b)
      | None => ret None
      end
  | WifiConnectivityChanged connected => refresh s1 s2 s3 (clock_label_ b) connected
  end.

(** What a bar has heard: the last tick and the last change of the network. *)
Fixpoint bar_run (es : list (BarEvent * (Ina226.Sample * Ina226.Sample * Ina226.Sample))) (b : StatusBar) : M Ina226.BatteryReader (option StatusBar) :=
  match es with
  | [] => ret (Some b)
  | (e, (s1, s2, s3)) :: es =>
      let* next := StatusBar_OnEvent e s1 s2 s3 b in
      match next with Some b => bar_run es b | None => ret None end
  end.

Definition last_time (t : option Z) (es : list BarEvent) : option Z :=
  foldl (fun t e => match e with ClockTick time => Some time | _ => t end) t es.

Definition last_wifi (w : bool) (es : list BarEvent) : bool :=
  foldl (fun w e => match e with WifiConnectivityChanged c => c | _ => w end) w es.

(** ** Lemmas *)

Lemma pad2_size n : size (pad2 n) = 2.
Proof. done. Qed.

Lemma name_size l n : Forall (fun s => size s = 3) l -> 0 <= n < Z.of_nat (List.length l) -> size (name l n) = 3.
Proof.
  intros Hl Hn. unfold name. rewrite List.Forall_forall in Hl. apply Hl, nth_In. lia.
Qed.

Lemma weekday_size n : 0 <= n < 7 -> size (name weekdays n) = 3.
Proof. intros Hn. apply name_size; [repeat constructor|done]. Qed.

Lemma month_size n : 0 <= n <= 11 -> size (name months n) = 3.
Proof. intros Hn. apply name_size; [repeat constructor|]. cbn. lia. Qed.

(** The texts of the two formats. *)
Definition time_text (v : tm) : string := pad2 (tm_hour v) +:+ ":" +:+ pad2 (tm_min v).
Definition date_text (v : tm) : string := name weekdays (tm_wday v) +:+ " " +:+ pad2 (tm_mday v) +:+ " " +:+ name months (tm_mon v).

Lemma expand_time v : expand "%H:%M" v = Some (time_text v).
Proof. cbn. by rewrite ?sapp_nil_r. Qed.

Lemma expand_date v : expand "%a %d %b" v = Some (date_text v).
Proof. cbn. unfold date_text. by rewrite sapp_nil_r. Qed.

Lemma expand_bar v : expand "%H:%M  %a %d %b" v = Some (time_text v +:+ "  " +:+ date_text v).
Proof. cbn. unfold date_text, time_text. by rewrite sapp_nil_r. Qed.

Definition local_tm (time : Z) : tm := gmtime (to_time_t time + utc_offset (to_time_t time)).

Lemma time_text_size time : size (time_text (local_tm time)) = 5.
Proof. unfold time_text. by rewrite !size_app, !pad2_size. Qed.

Lemma date_text_size time : size (date_text (local_tm time)) = 10.
Proof.
  destruct (gmtime_fields (to_time_t time + utc_offset (to_time_t time))) as (_ & _ & _ & _ & Hm & Hw & _).
  unfold date_text. by rewrite !size_app, weekday_size, month_size, pad2_size.
Qed.

Lemma format_bar time :
  FormatLocalTime time "%H:%M  %a %d %b" 32 = Some (time_text (local_tm time) +:+ "  " +:+ date_text (local_tm time)).
Proof.
  unfold FormatLocalTime, strftime. fold (local_tm time). rewrite expand_bar, !size_app, time_text_size, date_text_size. done.
Qed.

Lemma widget_ticks time w :
  ClockWidget_OnTick time w = Some {| time_label_ := time_text (local_tm time); date_label_ := date_text (local_tm time) |}.
Proof.
  unfold ClockWidget_OnTick, FormatLocalTime, strftime. fold (local_tm time).
  by rewrite expand_time, expand_date, time_text_size, date_text_size.
Qed.

Lemma refresh_defined s1 s2 s3 clock wifi r : Ina226.sane s2 ->
  exists l, (refresh s1 s2 s3 clock wifi r).1 = Some {| clock_label_ := clock; battery_label_ := l; wifi_connected_ := wifi |}.
Proof.
  intros Hs. destruct (Ina226.percent_bounded s2 Hs) as (p & E & _). unfold refresh, Ina226.status_label.
  rewrite !run_bind, E, run_bind. by eexists.
Qed.

(** One event: the label and the icon it leaves. *)
Lemma bar_event e s1 s2 s3 b r : Ina226.sane s2 ->
  exists l, (StatusBar_OnEvent e s1 s2 s3 b r).1 =
    Some {| clock_label_ := match e with
                            | ClockTick time => time_text (local_tm time) +:+ "  " +:+ date_text (local_tm time)
                            | WifiConnectivityChanged _ => clock_label_ b
                            end;
            battery_label_ := l;
            wifi_connected_ := last_wifi (wifi_connected_ b) [e] |}.
Proof.
  intros Hs. destruct e as [time|c]; cbn [StatusBar_OnEvent]; [rewrite format_bar|]; by apply refresh_defined.
Qed.

Lemma bar_run_shows es b r : Forall (fun x => Ina226.sane x.2.1.2) es ->
  exists b', (bar_run es b r).1 = Some b' /\ wifi_connected_ b' = last_wifi (wifi_connected_ b) (map fst es) /\
    clock_label_ b' = match last_time None (map fst es) with
                      | Some time => time_text (local_tm time) +:+ "  " +:+ date_text (local_tm time)
                      | None => clock_label_ b
                      end.
Proof.
  revert b r. induction es as [|[e [[s1 s2] s3]] es IH]; intros b r Hs; [by exists b|].
  apply Forall_cons in Hs as [Hs Hes]. cbn in Hs. destruct (bar_event e s1 s2 s3 b r Hs) as [l El].
  cbn [bar_run]. rewrite run_bind, El. edestruct IH as (b' & -> & Hw & Hc); [exact Hes|].
  exists b'. split; [done|]. split; [by rewrite Hw|]. rewrite Hc. cbn [map fst last_time foldl clock_label_].
  assert (Hlast : forall t, last_time (Some t) (map fst es) = Some (default t (last_time None (map fst es)))).
  { clear. generalize (map fst es). intros l. induction l as [|[t'|c] l IH] using rev_ind; intros t; [done| |];
      unfold last_time in *; rewrite !foldl_app; cbn; [done|apply IH]. }
  destruct e as [time|c]; [|done]. fold (last_time (Some time) (map fst es)). rewrite Hlast.
  fold (last_time None (map fst es)) in *. by destruct (last_time None (map fst es)).
Qed.

(** ** Properties *)

(** Whatever ticks and changes of the network a status bar has heard, and
    whatever its battery readings were, it shows the time of the last tick, local hours and
    minutes of the day and the day of the week and of the year that calendar day has, with the
    last state of the network; and the clock widget shows the same time and date, nothing cut
    off. *)
Theorem bars_show_last_tick es b r time w :
  Forall (fun x => Ina226.sane x.2.1.2) es -> last_time None (map fst es) = Some time ->
  let t := to_time_t time + utc_offset (to_time_t time) in
  exists b' h m y mo d, (bar_run es b r).1 = Some b' /\ wifi_connected_ b' = last_wifi (wifi_connected_ b) (map fst es) /\
    let hm := pad2 h +:+ ":" +:+ pad2 m in
    let date := name weekdays ((t / 86400 + 4) mod 7) +:+ " " +:+ pad2 d +:+ " " +:+ name months (mo - 1) in
    clock_label_ b' = hm +:+ "  " +:+ date /\
    ClockWidget_OnTick time w = Some {| time_label_ := hm; date_label_ := date |} /\
    0 <= h < 24 /\ 0 <= m < 60 /\ 3600 * h + 60 * m <= t mod 86400 < 3600 * h + 60 * m + 60 /\
    1 <= mo <= 12 /\ 1 <= d <= 31 /\ days_from_civil y mo d = t / 86400.
Proof.
  intros Hes Hlast t. destruct (bar_run_shows es b r Hes) as (b' & E & Hw & Hc). rewrite Hlast in Hc.
  destruct (gmtime_fields t) as (Hs & Hmi & Hh & Hd & Hmo & _ & Hday & Hdate).
  exists b', (tm_hour (gmtime t)), (tm_min (gmtime t)), (tm_year (gmtime t) + 1900), (tm_mon (gmtime t) + 1), (tm_mday (gmtime t)).
  replace (tm_mon (gmtime t) + 1 - 1) with (tm_mon (gmtime t)) by lia.
  assert (Hwd : (t / 86400 + 4) mod 7 = tm_wday (gmtime t)) by (unfold gmtime; by destruct (civil_from_days (t / 86400)) as [[? ?] ?]).
  cbn zeta. rewrite Hwd, widget_ticks, Hc. split_and!; try done; lia.
Qed.
End Ui.

(** A summer evening in Berlin, and a dropped connection. *)
Lemma bars_show_last_tick_witness :
  let now := from_time_t 1721155445 in
  let s := Ina226.sample 500 7400 0 in
  let es := [(ClockTick now, (s, s, s)); (WifiConnectivityChanged false, (s, s, s))] in
  let b := {| clock_label_ := EmptyString; battery_label_ := EmptyString; wifi_connected_ := true |} in
  exists b', (bar_run (fun _ => 7200) (H := plain_symbols) es b Ina226.NewBatteryReader).1 = Some b' /\
    wifi_connected_ b' = false.
Proof.
  cbn zeta. edestruct (bars_show_last_tick (fun _ => 7200) (H := plain_symbols)) as (b' & h & m & y & mo & d & E & Hw & _);
    [| |exists b'; split; [exact E|exact Hw]].
  - assert (Hs : Ina226.sane (Ina226.sample 500 7400 0)).
    { intros v E. injection E as <-. split; [discriminate|]. vm_compute. split; [reflexivity|discriminate]. }
    apply Forall_cons; split; [exact Hs|]. apply Forall_cons; split; [exact Hs|]. by apply Forall_nil.
  - reflexivity.
  Unshelve. exact NewClockWidget.
Defined.

Example summer_evening :
  let t := from_time_t 1721155445 in
  option_map (fun w => (time_label_ w, date_label_ w)) (ClockWidget_OnTick (fun _ => 7200) t NewClockWidget)
  = Some ("20:44", "Tue 16 Jul").
Proof. by vm_compute. Qed.
End ClockUi.
