(* ===== verification/HarmonyScreens.v ===== *)
(** HarmonyScreens: the devices and the activities of the Harmony Hub.

    Models [src/src/ui/screens/devices_screen.cpp] and [activities_screen.cpp] over the
    press and the start trackers of [Dashboard] and the snapshot of [Harmony]. A screen is
    its visible widgets and the maps its callbacks read; a button is its position among the
    buttons of its container, so a button created after a rebuild may get the identity of
    one that is gone. LVGL's timer is its documented behaviour: paused, or due once at a
    time. A handler returns the screen with the calls it made on the connection. *)
From S2P Require Import Prelude Text Power Ui Harmony Dashboard Display.

(** A call on the connection or on the navigation. *)
Inductive HarmonyCall :=
  | CallPress (action : string) | CallHold (action : string) | CallRelease (action : string)
  | CallStartActivity (id : string) | CallRoute (route : string).

(** What a call does to the connection's queue. *)
Definition perform_call {E} (now : Z) (c : HarmonyCall) (w : World (E := E)) : World (E := E) :=
  match c with
  | CallPress a => PressDeviceCommand a now w
  | CallHold a => HoldDeviceCommand a now w
  | CallRelease a => ReleaseDeviceCommand a now w
  | CallStartActivity id => StartActivity id now w
  | CallRoute _ => w
  end.

(** ** [DevicesScreen] *)

Module Devices.

(** A command button: its label, the rotation of its glyph if that is drawn instead, and
    its entry in [command_button_actions_]. *)
Record Button := { b_label : string; b_glyph : option bool; b_action : string }.

Inductive Cell := Key (b : Button) | Spacer.

(** What [commands_container_] holds. *)
Inductive Widget := Heading (text : string) | Grid (cells : list Cell) | Cross (rows : list (list Cell)) | Note (text : string).

Definition cells_of (w : Widget) : list Cell :=
  match w with Grid cells => cells | Cross rows => concat rows | _ => [] end.
Definition buttons_of (cells : list Cell) : list Button :=
  concat (map (fun c => match c with Key b => [b] | Spacer => [] end) cells).
Definition buttons (ws : list Widget) : list Button := buttons_of (concat (map cells_of ws)).

Section Devices.
Context `{LvSymbols}.

Definition IconForCommandName (name : string) : option string :=
  if String.eqb name "VolumeUp" || String.eqb name "ChannelUp" then Some LV_SYMBOL_PLUS
  else if String.eqb name "VolumeDown" || String.eqb name "ChannelDown" then Some LV_SYMBOL_MINUS
  else if String.eqb name "PrevChannel" then Some LV_SYMBOL_LOOP
  else if String.eqb name "Mute" then Some LV_SYMBOL_MUTE
  else if String.eqb name "Play" then Some LV_SYMBOL_PLAY
  else if String.eqb name "Pause" then Some LV_SYMBOL_PAUSE
  else if String.eqb name "Stop" then Some LV_SYMBOL_STOP
  else if String.eqb name "Eject" then Some LV_SYMBOL_EJECT
  else if String.eqb name "SkipBackward" then Some LV_SYMBOL_PREV
  else if String.eqb name "SkipForward" then Some LV_SYMBOL_NEXT
  else if String.eqb name "Home" then Some LV_SYMBOL_HOME
  else None.

Definition FindCommand (commands : list HarmonyCommand) (name : string) : option HarmonyCommand :=
  List.find (fun c => String.eqb (cmd_name c) name) commands.

Definition generic_key (c : HarmonyCommand) : Cell :=
  let label := match IconForCommandName (cmd_name c) with Some icon => icon | None => SplitCamelCase (cmd_label c) end in
  Key (if String.eqb (cmd_name c) "Rewind" || String.eqb (cmd_name c) "FastForward"
       then {| b_label := LV_SYMBOL_PLAY +:+ LV_SYMBOL_PLAY; b_glyph := Some (String.eqb (cmd_name c) "Rewind");
               b_action := cmd_action c |}
       else {| b_label := label; b_glyph := None; b_action := cmd_action c |}).

Definition RenderGenericGrid (commands : list HarmonyCommand) : list Widget := [Grid (map generic_key commands)].

Definition RenderUnmatchedCommands (commands : list HarmonyCommand) (matched_names : list string) : list Widget :=
  let unmatched := List.filter (fun c => negb (bool_decide (cmd_name c ∈ matched_names))) commands in
  match unmatched with [] => [] | _ => RenderGenericGrid unmatched end.

Definition kKeypadOrder : list string :=
  ["Number1"; "Number2"; "Number3"; "Number4"; "Number5"; "Number6"; "Number7"; "Number8"; "Number9"; "Clear"; "Number0"; "Dot"]%string.

(** The keys of the keypad that the device has, and the names placed. *)
Fixpoint keypad (commands : list HarmonyCommand) (order : list string) : list Cell * list string :=
  match order with
  | [] => ([], [])
  | wanted_name :: rest =>
      let '(cells, placed) := keypad commands rest in
      match FindCommand commands wanted_name with
      | None => (cells, placed)
      | Some c => (Key {| b_label := cmd_label c; b_glyph := None; b_action := cmd_action c |} :: cells, wanted_name :: placed)
      end
  end.

Definition RenderNumericKeypad (commands : list HarmonyCommand) : list Widget :=
  let '(cells, placed) := keypad commands kKeypadOrder in Grid cells :: RenderUnmatchedCommands commands placed.

Definition AddDPadCell (command : option HarmonyCommand) (label : string) : Cell :=
  match command with
  | None => Spacer
  | Some c => Key {| b_label := label; b_glyph := None; b_action := cmd_action c |}
  end.

Definition kDPadNames : list string := ["DirectionUp"; "DirectionDown"; "DirectionLeft"; "DirectionRight"; "Select"]%string.

Definition RenderDPad (commands : list HarmonyCommand) : list Widget :=
  let cell name label := AddDPadCell (FindCommand commands name) label in
  Cross [[Spacer; cell "DirectionUp" LV_SYMBOL_UP; Spacer];
         [cell "DirectionLeft" LV_SYMBOL_LEFT; cell "Select" "OK"; cell "DirectionRight" LV_SYMBOL_RIGHT];
         [Spacer; cell "DirectionDown" LV_SYMBOL_DOWN; Spacer]] :: RenderUnmatchedCommands commands kDPadNames.

Definition RenderControlGroup (g : HarmonyControlGroup) : list Widget :=
  Heading (SplitCamelCase (group_name g)) ::
  (if String.eqb (group_name g) "NumericBasic" then RenderNumericKeypad (commands g)
   else if String.eqb (group_name g) "NavigationBasic" then RenderDPad (commands g)
   else RenderGenericGrid (commands g)).

(** A device's command view. *)
Definition render_device (d : HarmonyDevice) : list Widget :=
  let groups := List.filter (fun g => match commands g with [] => false | _ => true end) (control_groups d) in
  match groups with
  | [] => [Note "No commands available for this device."]
  | _ => concat (map RenderControlGroup groups)
  end.

(** The devices of the list are label and id, in order. *)
Record Screen := {
  hint_hidden : bool; list_hidden : bool; detail_hidden : bool; status_label_ : string;
  device_buttons : list (string * string); device_title_label_ : string; commands_container_ : list Widget;
  press_tracker_ : Trackers.Presses
}.

Definition with_views (hint list detail : bool) (s : Screen) : Screen :=
  {| hint_hidden := hint; list_hidden := list; detail_hidden := detail; status_label_ := status_label_ s;
     device_buttons := device_buttons s; device_title_label_ := device_title_label_ s;
     commands_container_ := commands_container_ s; press_tracker_ := press_tracker_ s |}.

Definition with_devices (l : list (string * string)) (s : Screen) : Screen :=
  {| hint_hidden := hint_hidden s; list_hidden := list_hidden s; detail_hidden := detail_hidden s;
     status_label_ := status_label_ s; device_buttons := l; device_title_label_ := device_title_label_ s;
     commands_container_ := commands_container_ s; press_tracker_ := press_tracker_ s |}.

Definition with_status (text : string) (s : Screen) : Screen :=
  {| hint_hidden := hint_hidden s; list_hidden := list_hidden s; detail_hidden := detail_hidden s; status_label_ := text;
     device_buttons := device_buttons s; device_title_label_ := device_title_label_ s;
     commands_container_ := commands_container_ s; press_tracker_ := press_tracker_ s |}.

Definition with_tracker (t : Trackers.Presses) (s : Screen) : Screen :=
  {| hint_hidden := hint_hidden s; list_hidden := list_hidden s; detail_hidden := detail_hidden s;
     status_label_ := status_label_ s; device_buttons := device_buttons s; device_title_label_ := device_title_label_ s;
     commands_container_ := commands_container_ s; press_tracker_ := t |}.

Definition RebuildDeviceList (snap : HarmonySnapshot) (s : Screen) : Screen :=
  let s := with_devices [] s in
  if negb (has_config snap) then with_views false true true s
  else
    let s := with_views true (list_hidden s) (detail_hidden s) s in
    let s := if detail_hidden s then with_views (hint_hidden s) false (detail_hidden s) s else s in
    with_devices (map (fun d => (device_label d, device_id d)) (devices snap)) s.

Definition DevicesScreen (snap : HarmonySnapshot) : Screen :=
  RebuildDeviceList snap
    {| hint_hidden := false; list_hidden := false; detail_hidden := true; status_label_ := EmptyString; device_buttons := [];
       device_title_label_ := EmptyString; commands_container_ := []; press_tracker_ := ∅ |}.

Definition ShowDeviceDetail (snap : HarmonySnapshot) (id : string) (s : Screen) : Screen :=
  match List.find (fun d => String.eqb (device_id d) id) (devices snap) with
  | None => s
  | Some d =>
      {| hint_hidden := hint_hidden s; list_hidden := true; detail_hidden := false; status_label_ := status_label_ s;
         device_buttons := device_buttons s; device_title_label_ := device_label d; commands_container_ := render_device d;
         press_tracker_ := Trackers.Reset (press_tracker_ s) |}
  end.

Definition ShowDeviceList (snap : HarmonySnapshot) (s : Screen) : Screen :=
  let s := with_views (hint_hidden s) (list_hidden s) true s in
  if has_config snap then with_views (hint_hidden s) false (detail_hidden s) s else s.

(** [command_button_actions_] of the button at a position. *)
Definition action_at (i : nat) (s : Screen) : option string := option_map b_action (buttons (commands_container_ s) !! i).

Definition OnCommandButtonLongPressed (i : nat) (s : Screen) : Screen * list HarmonyCall :=
  match action_at i s with
  | None => (s, [])
  | Some a => (with_tracker (Trackers.OnLongPressed (Z.of_nat i) (press_tracker_ s)).2 s, [CallPress a])
  end.

Definition OnCommandButtonLongPressRepeat (i : nat) (s : Screen) : Screen * list HarmonyCall :=
  match action_at i s with None => (s, []) | Some a => (s, [CallHold a]) end.

Definition OnCommandButtonReleased (i : nat) (is_scrolling : bool) (s : Screen) : Screen * list HarmonyCall :=
  match action_at i s with
  | None => (s, [])
  | Some a =>
      let '(act, t) := Trackers.OnReleased (Z.of_nat i) is_scrolling (press_tracker_ s) in
      (with_tracker t s,
       match act with
       | Trackers.kRelease => [CallRelease a]
       | Trackers.kPressAndRelease => [CallPress a; CallRelease a]
       | Trackers.kNone | Trackers.kPress | Trackers.kHold => []
       end)
  end.

(** The two subscriptions, the taps on a device and on Back, and the touches of a command button. *)
Inductive Input :=
  | ConfigUpdated | HubState (st : HarmonyState) | TapDevice (slot : nat) | TapBack
  | LongPressed (i : nat) | LongPressedRepeat (i : nat) | Released (i : nat) (is_scrolling : bool).

Definition step (snap : HarmonySnapshot) (i : Input) (s : Screen) : Screen * list HarmonyCall :=
  match i with
  | ConfigUpdated => (RebuildDeviceList snap s, [])
  | HubState st => (with_status (if bool_decide (st = Power.kConnected) then EmptyString else "Offline - reconnecting...") s, [])
  | TapDevice slot =>
      if list_hidden s then (s, [])
      else match device_buttons s !! slot with Some (_, id) => (ShowDeviceDetail snap id s, []) | None => (s, []) end
  | TapBack => if detail_hidden s then (s, []) else (ShowDeviceList snap s, [])
  | LongPressed b => OnCommandButtonLongPressed b s
  | LongPressedRepeat b => OnCommandButtonLongPressRepeat b s
  | Released b scrolling => OnCommandButtonReleased b scrolling s
  end.

(** The inputs with the snapshot each read, and the calls in order. *)
Fixpoint run (inputs : list (HarmonySnapshot * Input)) (s : Screen) : Screen * list HarmonyCall :=
  match inputs with
  | [] => (s, [])
  | (snap, i) :: rest =>
      let '(s1, calls) := step snap i s in
      let '(s2, more) := run rest s1 in (s2, calls ++ more)
  end.
End Devices.
End Devices.

(** ** [ActivitiesScreen] *)

Module Activities.
Import Trackers.

Definition kStartingTimeoutMs : Z := 45000.

(** A button of the list: its label, its activity, and whether it is highlighted. *)
Record Button := { a_label : string; a_id : string; a_current : bool }.

(** [starting_timeout_timer_] is [None] while paused, or the time it is due. *)
Record Screen := {
  hint_hidden : bool; list_hidden : bool; status_label_ : string; activity_buttons : list Button;
  tracker_ : ActivityStart; starting_timeout_timer_ : option Z
}.

Definition with_status (text : string) (s : Screen) : Screen :=
  {| hint_hidden := hint_hidden s; list_hidden := list_hidden s; status_label_ := text; activity_buttons := activity_buttons s;
     tracker_ := tracker_ s; starting_timeout_timer_ := starting_timeout_timer_ s |}.

Definition with_tracker (t : ActivityStart) (s : Screen) : Screen :=
  {| hint_hidden := hint_hidden s; list_hidden := list_hidden s; status_label_ := status_label_ s;
     activity_buttons := activity_buttons s; tracker_ := t; starting_timeout_timer_ := starting_timeout_timer_ s |}.

Definition with_timer (t : option Z) (s : Screen) : Screen :=
  {| hint_hidden := hint_hidden s; list_hidden := list_hidden s; status_label_ := status_label_ s;
     activity_buttons := activity_buttons s; tracker_ := tracker_ s; starting_timeout_timer_ := t |}.

Definition with_list (hint hidden : bool) (l : list Button) (s : Screen) : Screen :=
  {| hint_hidden := hint; list_hidden := hidden; status_label_ := status_label_ s; activity_buttons := l;
     tracker_ := tracker_ s; starting_timeout_timer_ := starting_timeout_timer_ s |}.

(** [activity_buttons_]: the last button created for an id. *)
Fixpoint button_for (id : string) (l : list Button) : option Button :=
  match l with
  | [] => None
  | b :: rest => match button_for id rest with Some x => Some x | None => if String.eqb (a_id b) id then Some b else None end
  end.

Fixpoint restyle (current_id : string) (l : list Button) : list Button :=
  match l with
  | [] => []
  | b :: rest =>
      let mapped := match button_for (a_id b) rest with Some _ => false | None => true end in
      (if mapped then {| a_label := a_label b; a_id := a_id b; a_current := String.eqb (a_id b) current_id |} else b)
      :: restyle current_id rest
  end.

Definition kOffline : string := "Offline - showing last known activities".

Definition RestyleButtons (snap : HarmonySnapshot) (s : Screen) : Screen :=
  let s := if negb (has_pending (tracker_ s)) && negb (command_failed_ (tracker_ s))
           then with_status (if bool_decide (Harmony.state snap = Power.kConnected) then EmptyString else kOffline) s else s in
  with_list (hint_hidden s) (list_hidden s) (restyle (current_activity_id snap) (activity_buttons s)) s.

Definition Rebuild (snap : HarmonySnapshot) (s : Screen) : Screen :=
  let s := with_list (hint_hidden s) (list_hidden s) [] s in
  if negb (has_config snap) then with_list false true [] s
  else
    let s := with_list true false
      (map (fun a => {| a_label := activity_label a; a_id := activity_id a; a_current := false |}) (activities snap)) s in
    let s :=
      if has_pending (tracker_ s) &&
         match button_for (starting_activity_id_ (tracker_ s)) (activity_buttons s) with Some _ => false | None => true end
      then with_timer None (with_tracker (ClearPending (tracker_ s)) s) else s in
    RestyleButtons snap s.

Definition ActivitiesScreen (snap : HarmonySnapshot) : Screen :=
  Rebuild snap {| hint_hidden := false; list_hidden := false; status_label_ := EmptyString; activity_buttons := [];
                  tracker_ := NewActivityStart; starting_timeout_timer_ := None |}.

(** The label a message names the pending activity with. *)
Definition pending_label (s : Screen) : string :=
  match button_for (starting_activity_id_ (tracker_ s)) (activity_buttons s) with Some b => a_label b | None => "activity" end.

Definition OnActivityButtonClicked (snap : HarmonySnapshot) (now : Z) (slot : nat) (s : Screen) : Screen * list HarmonyCall :=
  match activity_buttons s !! slot with
  | None => (s, [])
  | Some b =>
      let is_current := String.eqb (a_id b) (current_activity_id snap) in
      let '(outcome, t) := OnActivityTapped (a_id b) (a_label b) is_current (tracker_ s) in
      let s := with_status (status_text outcome) (with_tracker t s) in
      let s := with_timer (if is_fresh_start outcome then Some (now + kStartingTimeoutMs) else None) s in
      (RestyleButtons snap s, [CallStartActivity (a_id b)])
  end.

Definition OnStartingTimeout (s : Screen) : Screen :=
  let '(text, t) := OnStartingTimedOut (pending_label s) (tracker_ s) in
  let s := with_tracker t s in
  match text with None => s | Some x => with_status x s end.

(** The four subscriptions. *)
Definition handle_bus (snap : HarmonySnapshot) (ev : HarmonyEvent) (s : Screen) : Screen :=
  match ev with
  | HarmonyConfigUpdatedEvent => Rebuild snap s
  | HarmonyCurrentActivityChangedEvent _ => RestyleButtons snap (with_tracker (ClearPending (tracker_ s)) s)
  | HarmonyConnectionStateChangedEvent st =>
      let '(cleared, t) := OnConnectionStateChanged (bool_decide (st = Power.kConnected)) (tracker_ s) in
      let s := with_tracker t s in
      RestyleButtons snap (if cleared : bool then with_timer None s else s)
  | HarmonyCommandDroppedEvent =>
      let '(text, t) := OnCommandDropped (pending_label s) (tracker_ s) in
      let s := with_tracker t s in
      match text with None => s | Some x => with_status x s end
  end.

(** LVGL's timer handler: a due timer runs its callback once and pauses. *)
Definition run_timers (now : Z) (s : Screen) : Screen :=
  match starting_timeout_timer_ s with
  | Some due => if due <=? now then OnStartingTimeout (with_timer None s) else s
  | None => s
  end.

Inductive Input := Bus (ev : HarmonyEvent) | TapActivity (slot : nat) | TapDevices.

Definition step (snap : HarmonySnapshot) (now : Z) (i : Input) (s : Screen) : Screen * list HarmonyCall :=
  match i with
  | Bus ev => (handle_bus snap ev s, [])
  | TapActivity slot => if list_hidden s then (s, []) else OnActivityButtonClicked snap now slot s
  | TapDevices => (s, [CallRoute kHarmonyDevices])
  end.

(** Events of the UI thread: the timers run, or an input comes, at a time. *)
Inductive Event := Tick (now : Z) | Takes (now : Z) (snap : HarmonySnapshot) (i : Input).

Definition time_of (e : Event) : Z := match e with Tick now | Takes now _ _ => now end.

Definition event_step (e : Event) (s : Screen) : Screen * list HarmonyCall :=
  match e with Tick now => (run_timers now s, []) | Takes now snap i => step snap now i s end.

Fixpoint run (evs : list Event) (s : Screen) : Screen * list HarmonyCall :=
  match evs with
  | [] => (s, [])
  | e :: rest => let '(s1, calls) := event_step e s in let '(s2, more) := run rest s1 in (s2, calls ++ more)
  end.
End Activities.

(** ** The commands a device's view offers *)

Module DevicesOk.
Import Devices.
Section Offered.
Context `{LvSymbols}.

(** The names of a laid out group are each used once; Harmony gives no such promise. *)
Definition distinct_names (g : HarmonyControlGroup) : Prop := NoDup (map cmd_name (commands g)).

Definition actions (ws : list Widget) : list string := map b_action (buttons ws).

Lemma buttons_of_app l1 l2 : buttons_of (l1 ++ l2) = buttons_of l1 ++ buttons_of l2.
Proof. unfold buttons_of. by rewrite map_app, concat_app. Qed.

Lemma actions_cons w ws : actions (w :: ws) = map b_action (buttons_of (cells_of w)) ++ actions ws.
Proof. unfold actions, buttons. cbn [map concat]. by rewrite buttons_of_app, map_app. Qed.

Lemma actions_app ws1 ws2 : actions (ws1 ++ ws2) = actions ws1 ++ actions ws2.
Proof. induction ws1 as [|w ws1 IH]; [done|]. cbn [app]. by rewrite !actions_cons, IH, app_assoc. Qed.

Lemma generic_keys l : map b_action (buttons_of (map generic_key l)) = map cmd_action l.
Proof. induction l as [|c l IH]; [done|]. cbn. unfold buttons_of in IH. rewrite IH. by destruct (_ || _). Qed.

Lemma generic_actions l : actions (RenderGenericGrid l) = map cmd_action l.
Proof. unfold RenderGenericGrid. rewrite actions_cons. cbn [cells_of]. rewrite generic_keys. apply app_nil_r. Qed.

Definition unmatched (names : list string) (l : list HarmonyCommand) : list HarmonyCommand :=
  List.filter (fun c => negb (bool_decide (cmd_name c ∈ names))) l.

Lemma unmatched_actions l names : actions (RenderUnmatchedCommands l names) = map cmd_action (unmatched names l).
Proof.
  unfold RenderUnmatchedCommands. fold (unmatched names l). destruct (unmatched names l) as [|c rest] eqn:E; [done|].
  rewrite <- E. apply generic_actions.
Qed.

(** The commands found under the names, in the order of the names. *)
Definition found (l : list HarmonyCommand) (names : list string) : list HarmonyCommand := omap (FindCommand l) names.

Lemma find_command_spec l n c : NoDup (map cmd_name l) -> FindCommand l n = Some c <-> c ∈ l /\ cmd_name c = n.
Proof.
  unfold FindCommand. induction l as [|d l IH]; cbn [map List.find]; intros Hl.
  { split; [done|]. intros [Hin _]. by apply not_elem_of_nil in Hin. }
  apply NoDup_cons in Hl as [Hd Hl]. destruct (String.eqb_spec (cmd_name d) n) as [E|E].
  - split; [intros [= ->]; by repeat constructor|]. intros [[->|Hin]%elem_of_cons En]; [done|]. destruct Hd.
    rewrite E, <- En. by apply list_elem_of_fmap_2.
  - rewrite (IH Hl), elem_of_cons. split; [tauto|]. intros [[->|Hin] En]; [done|auto].
Qed.

Lemma elem_of_found l names c : NoDup (map cmd_name l) -> c ∈ found l names <-> c ∈ l /\ cmd_name c ∈ names.
Proof.
  intros Hl. unfold found. rewrite list_elem_of_omap. split.
  - intros (n & Hn & E%find_command_spec); [|done]. by destruct E as [? ->].
  - intros [Hin Hn]. exists (cmd_name c). split; [done|]. by apply find_command_spec.
Qed.

Lemma elem_of_unmatched l names c : c ∈ unmatched names l <-> c ∈ l /\ cmd_name c ∉ names.
Proof. unfold unmatched. rewrite list_elem_of_In, filter_In, negb_true_iff, bool_decide_eq_false, <- list_elem_of_In. done. Qed.

Lemma found_nodup l names : NoDup (map cmd_name l) -> NoDup names -> NoDup (found l names).
Proof.
  intros Hl. induction names as [|n names IH]; intros Hn; [constructor|]. apply NoDup_cons in Hn as [Hni Hn].
  unfold found. cbn [omap list_omap]. fold (found l names). destruct (FindCommand l n) as [c|] eqn:E; [|auto].
  apply NoDup_cons. split; [|auto]. rewrite elem_of_found by done. apply find_command_spec in E as [_ ->]; [|done]. tauto.
Qed.

(** With each name used once, the commands found and the unmatched ones are all. *)
Lemma found_unmatched l names : NoDup (map cmd_name l) -> NoDup names ->
  Permutation (found l names ++ unmatched names l) l.
Proof.
  intros Hl Hn. pose proof (NoDup_fmap_1 _ _ Hl) as Hl'. apply NoDup_Permutation; [|done|].
  - apply NoDup_app. split_and!; [by apply found_nodup| |].
    + intros c Hc Hu. apply elem_of_unmatched in Hu as [_ Hu]. apply elem_of_found in Hc as [_ Hc]; done.
    + unfold unmatched. by apply NoDup_ListNoDup, List.NoDup_filter, NoDup_ListNoDup.
  - intros c. rewrite elem_of_app, elem_of_found, elem_of_unmatched by done. destruct (decide (cmd_name c ∈ names)); tauto.
Qed.

Lemma keypad_found l order : map b_action (buttons_of (keypad l order).1) = map cmd_action (found l order) /\
  (keypad l order).2 = map cmd_name (found l order).
Proof.
  induction order as [|n order [IH1 IH2]]; [done|]. cbn [keypad]. unfold found. cbn [omap list_omap]. fold (found l order).
  destruct (keypad l order) as [cells placed]. cbn [fst snd] in *. destruct (FindCommand l n) as [c|] eqn:E; [|done].
  apply find_some in E as [_ <-%String.eqb_eq]. cbn. unfold buttons_of in IH1. by rewrite IH1, IH2.
Qed.

Lemma unmatched_found l names : NoDup (map cmd_name l) -> unmatched (map cmd_name (found l names)) l = unmatched names l.
Proof.
  intros Hl. unfold unmatched. apply filter_ext_in. intros c Hc%list_elem_of_In. f_equal. apply bool_decide_ext.
  rewrite list_elem_of_fmap. split.
  - intros (d & -> & Hd%elem_of_found); [tauto|done].
  - intros Hn. exists c. split; [done|]. by apply elem_of_found.
Qed.

Lemma numeric_actions l : NoDup (map cmd_name l) -> Permutation (actions (RenderNumericKeypad l)) (map cmd_action l).
Proof.
  intros Hl. unfold RenderNumericKeypad. pose proof (keypad_found l kKeypadOrder) as [H1 H2].
  destruct (keypad l kKeypadOrder) as [cells placed]. cbn [fst snd] in *. rewrite actions_cons, unmatched_actions, H2, unmatched_found by done.
  cbn [cells_of]. rewrite H1, <- map_app. apply Permutation_map, found_unmatched; [done|]. vm_compute. apply NoDup_ListNoDup. repeat constructor; cbn; intuition discriminate.
Qed.

Lemma dpad_actions l : NoDup (map cmd_name l) -> Permutation (actions (RenderDPad l)) (map cmd_action l).
Proof.
  intros Hl. unfold RenderDPad. rewrite actions_cons, unmatched_actions.
  set (order := ["DirectionUp"; "DirectionLeft"; "Select"; "DirectionRight"; "DirectionDown"]%string).
  assert (map b_action (buttons_of (cells_of (Cross
    [[Spacer; AddDPadCell (FindCommand l "DirectionUp") LV_SYMBOL_UP; Spacer];
     [AddDPadCell (FindCommand l "DirectionLeft") LV_SYMBOL_LEFT; AddDPadCell (FindCommand l "Select") "OK";
      AddDPadCell (FindCommand l "DirectionRight") LV_SYMBOL_RIGHT];
     [Spacer; AddDPadCell (FindCommand l "DirectionDown") LV_SYMBOL_DOWN; Spacer]]))) = map cmd_action (found l order)) as ->.
  { unfold found, order. cbn. repeat (destruct (FindCommand l _); cbn); done. }
  assert (unmatched kDPadNames l = unmatched order l) as ->.
  { unfold unmatched. apply filter_ext. intros c. f_equal. apply bool_decide_ext. unfold kDPadNames, order. set_solver. }
  rewrite <- map_app. apply Permutation_map, found_unmatched; [done|]. apply NoDup_ListNoDup. repeat constructor; cbn; intuition discriminate.
Qed.

Lemma group_actions g : distinct_names g -> Permutation (actions (RenderControlGroup g)) (map cmd_action (commands g)).
Proof.
  intros Hg. unfold RenderControlGroup. rewrite actions_cons. cbn [cells_of].
  destruct (String.eqb _ "NumericBasic"); [by apply numeric_actions|]. destruct (String.eqb _ "NavigationBasic"); [by apply dpad_actions|].
  by rewrite generic_actions.
Qed.

(** Every command of a device has its button, once: the buttons of its view send, taken
    together, exactly the actions of the commands of its groups, whatever the layout. *)
Theorem device_offers_every_command (d : HarmonyDevice) (Hd : Forall distinct_names (control_groups d)) :
  Permutation (actions (render_device d)) (map cmd_action (concat (map commands (control_groups d)))).
Proof.
  unfold render_device. set (groups := List.filter _ _).
  assert (Permutation (actions (concat (map RenderControlGroup groups))) (map cmd_action (concat (map commands (control_groups d))))) as Hp.
  { unfold groups. induction Hd as [|g l Hg _ IH]; [done|]. cbn [List.filter map concat]. rewrite map_app.
    destruct (commands g) eqn:E; cbn [map concat app]; [done|]. rewrite actions_app, IH, group_actions by done. by rewrite E. }
  destruct groups; [|done]. exact Hp.
Qed.
End Offered.

(** A receiver with a keypad, a cross and a group without a layout. *)
Definition receiver : HarmonyDevice :=
  let command n := {| cmd_name := n; cmd_label := n; cmd_action := "{" +:+ n +:+ "}" |} in
  {| device_id := "1"; device_label := "Receiver"; control_groups := [
       {| group_name := "NumericBasic"; commands := map command ["Number0"; "Number1"; "Hundred"]%string |};
       {| group_name := "NavigationBasic"; commands := map command ["DirectionUp"; "Select"; "Back"]%string |};
       {| group_name := "Volume"; commands := map command ["VolumeUp"; "Mute"]%string |}; {| group_name := "Empty"; commands := [] |}] |}.

Lemma device_offers_every_command_witness :
  Permutation (actions (render_device (H := plain_symbols) receiver)) ["{Number1}"; "{Number0}"; "{Hundred}"; "{DirectionUp}"; "{Select}"; "{Back}"; "{VolumeUp}"; "{Mute}"]%string /\
  Permutation (actions (render_device (H := plain_symbols) receiver)) (map cmd_action (concat (map commands (control_groups receiver)))).
Proof.
  split; [vm_compute; reflexivity|]. apply (device_offers_every_command (H := plain_symbols) receiver).
  repeat (apply Forall_cons; split); try apply Forall_nil_2; unfold distinct_names; apply NoDup_ListNoDup; cbn;
    repeat constructor; cbn; intuition discriminate.
Defined.
End DevicesOk.

(** ** What the hub sees of the touches *)

Module Touches.
Import Devices.

(** One finger: [Some i] during a long press of button [i]; no list or Back tap, and no other
    button's event, comes before it is lifted. *)
Definition finger_step (finger : option nat) (i : Input) : option (option nat) :=
  match i, finger with
  | ConfigUpdated, _ | HubState _, _ => Some finger
  | TapDevice _, None | TapBack, None => Some None
  | LongPressed b, None => Some (Some b)
  | LongPressedRepeat b, Some b' => if Nat.eqb b b' then Some finger else None
  | Released b _, Some b' => if Nat.eqb b b' then Some None else None
  | Released b _, None => Some None
  | _, _ => None
  end.

Fixpoint finger_run (finger : option nat) (inputs : list (HarmonySnapshot * Input)) : option (option nat) :=
  match inputs with
  | [] => Some finger
  | (_, i) :: rest => f ← finger_step finger i; finger_run f rest
  end.

(** The hub's key: [Some a] while [a] is pressed. A press needs no key down, a hold and a
    release the same key; anything else is out of order. *)
Definition key_step (key : option string) (c : HarmonyCall) : option (option string) :=
  match c, key with
  | CallPress a, None => Some (Some a)
  | CallHold a, Some a' => if String.eqb a a' then Some key else None
  | CallRelease a, Some a' => if String.eqb a a' then Some None else None
  | _, _ => None
  end.

Fixpoint key_run (key : option string) (calls : list HarmonyCall) : option (option string) :=
  match calls with [] => Some key | c :: rest => k ← key_step key c; key_run k rest end.

Lemma key_run_app calls more : forall key, key_run key (calls ++ more) = (k ← key_run key calls; key_run k more).
Proof. induction calls as [|c calls IH]; intros key; [done|]. cbn. destruct (key_step key c); [apply IH|done]. Qed.

Section Touches.
Context `{LvSymbols}.

Definition key_of (finger : option nat) (s : Screen) : option string := i ← finger; action_at i s.

(** The tracker holds the button under the finger, if it has a command. *)
Definition tracked (finger : option nat) (s : Screen) : Prop :=
  press_tracker_ s = match finger with
                     | Some i => match action_at i s with Some _ => {[Z.of_nat i]} | None => ∅ end
                     | None => ∅
                     end.

Lemma tracked_same finger s s' : commands_container_ s' = commands_container_ s -> press_tracker_ s' = press_tracker_ s ->
  tracked finger s -> tracked finger s' /\ key_run (key_of finger s) [] = Some (key_of finger s').
Proof. intros Hc Hp Ht. unfold tracked, key_of, action_at in *. rewrite Hc, Hp. done. Qed.

Lemma step_touch snap i finger finger' s s' calls : tracked finger s -> finger_step finger i = Some finger' ->
  step snap i s = (s', calls) -> tracked finger' s' /\ key_run (key_of finger s) calls = Some (key_of finger' s').
Proof.
  intros Ht Hf Hs. destruct i as [|st|slot| |b|b|b sc]; cbn [finger_step step] in *.
  - simplify_eq. apply tracked_same; [| |done]; unfold RebuildDeviceList; by destruct (negb (has_config snap)); cbn; destruct (detail_hidden s).
  - simplify_eq. by apply tracked_same.
  - destruct finger as [|]; [done|]. simplify_eq. destruct (list_hidden s); [by simplify_eq|].
    destruct (device_buttons s !! slot) as [[label id]|]; simplify_eq; [|done]. unfold ShowDeviceDetail. by destruct (List.find _ _).
  - destruct finger as [|]; [done|]. simplify_eq. destruct (detail_hidden s); simplify_eq; [done|].
    apply tracked_same; [| |done]; unfold ShowDeviceList; by destruct (has_config snap).
  - unfold tracked, key_of in *. destruct finger as [|]; [done|]. simplify_eq. unfold OnCommandButtonLongPressed in Hs. destruct (action_at b s) as [a|] eqn:E; simplify_eq.
    + cbn. unfold action_at in *. cbn [commands_container_ with_tracker]. rewrite E, Ht. by rewrite union_empty_r_L.
    + cbn. by rewrite E.
  - unfold tracked, key_of in *. destruct finger as [i|]; [|done]. destruct (Nat.eqb_spec b i) as [->|]; [|done]. simplify_eq.
    unfold OnCommandButtonLongPressRepeat in Hs. destruct (action_at i s) as [a|] eqn:E; simplify_eq; cbn; rewrite E; [|done].
    by rewrite String.eqb_refl.
  - unfold tracked, key_of in *. assert (finger' = None) as ->. { destruct finger as [i|]; [|by simplify_eq]. destruct (Nat.eqb b i); by simplify_eq. }
    unfold OnCommandButtonReleased in Hs. unfold Trackers.OnReleased in Hs. destruct finger as [i|].
    + destruct (Nat.eqb_spec b i) as [->|]; [|done]. cbn [mbind option_bind]. destruct (action_at i s) as [a|] eqn:E; simplify_eq; [|done].
      rewrite Ht in Hs. destruct (decide (Z.of_nat i ∈ {[Z.of_nat i]})); [|set_solver]. simplify_eq. cbn. rewrite String.eqb_refl.
      split; [set_solver|done].
    + rewrite Ht in Hs. destruct (action_at b s) as [a|]; [|by simplify_eq]. destruct (decide (Z.of_nat b ∈ ∅)); [set_solver|].
      destruct sc; simplify_eq; cbn; [done|]. by rewrite String.eqb_refl.
Qed.

Lemma touches_ok inputs : forall finger finger' s, tracked finger s -> finger_run finger inputs = Some finger' ->
  let '(s', calls) := run inputs s in key_run (key_of finger s) calls = Some (key_of finger' s').
Proof.
  induction inputs as [|[snap i] inputs IH]; intros finger finger' s Ht Hf; [cbn in *; by simplify_eq|].
  cbn [finger_run run] in *. destruct (finger_step finger i) as [f|] eqn:Ef; [|done]. cbn in Hf.
  destruct (step snap i s) as [s1 calls] eqn:Es. destruct (step_touch _ _ _ _ _ _ _ Ht Ef Es) as [H1 H2].
  specialize (IH _ _ _ H1 Hf). destruct (run inputs s1) as [s2 more]. by rewrite key_run_app, H2.
Qed.

(** C25: The hub sees every key pressed, held and released in order: for any touches of one finger,
    taps and drags among them, with the hub's events between them, the calls never press a key
    while another is down, never hold or release one that is not down, and leave a key down only
    during a long press, and then it is the pressed button's command. *)
Theorem touches_reach_hub_in_order (inputs : list (HarmonySnapshot * Input)) snap finger
    (Hf : finger_run None inputs = Some finger) :
  let '(s, calls) := run inputs (DevicesScreen snap) in key_run None calls = Some (key_of finger s).
Proof.
  apply (touches_ok inputs None finger (DevicesScreen snap)); [|done]. unfold tracked, DevicesScreen, RebuildDeviceList.
  by destruct (negb (has_config snap)).
Qed.
End Touches.

(** A tap, a long press with a hold, and a drag on the keys of the receiver's view. *)
Definition hub_with_receiver : HarmonySnapshot :=
  {| Harmony.state := Power.kConnected; has_config := true; devices := [DevicesOk.receiver]; activities := [];
     current_activity_id := "-1" |}.

Definition touches : list (HarmonySnapshot * Input) := map (pair hub_with_receiver)
  [TapDevice 0; Released 0 false; LongPressed 1; LongPressedRepeat 1; HubState Power.kConnecting; Released 1 true; Released 2 true].

Lemma touches_reach_hub_in_order_witness :
  let '(s, calls) := run (H := plain_symbols) touches (DevicesScreen hub_with_receiver) in
  calls = [CallPress "{Number1}"; CallRelease "{Number1}"; CallPress "{Number0}"; CallHold "{Number0}"; CallRelease "{Number0}"] /\
  key_run None calls = Some None.
Proof.
  pose proof (touches_reach_hub_in_order (H := plain_symbols) touches hub_with_receiver None eq_refl) as Hk.
  vm_compute in Hk |- *. split; [reflexivity|exact Hk].
Defined.
End Touches.

(** ** The status line of the activities *)

Module ActivitiesOk.
Import Trackers Activities.

Definition starting (label : string) : string := "Starting " +:+ label +:+ "...".
Definition resent (label : string) : string := "Resent to " +:+ label +:+ ".".
Definition unreachable (label : string) : string := "Couldn't start " +:+ label +:+ " - hub unreachable".
Definition no_response (label : string) : string := "No response starting " +:+ label +:+ " - try again".

(** What the line says, by the tracker and the timer. *)
Definition line_ok (s : Screen) : Prop :=
  if has_pending (tracker_ s) then
    command_failed_ (tracker_ s) = false /\
    exists label, match starting_timeout_timer_ s with Some _ => status_label_ s = starting label | None => status_label_ s = resent label end
  else if command_failed_ (tracker_ s) then exists label, status_label_ s = unreachable label \/ status_label_ s = no_response label
  else status_label_ s = EmptyString \/ status_label_ s = kOffline.

(** The timer is due by [t] at the latest. *)
Definition due_by (t : Z) (s : Screen) : Prop := forall due, starting_timeout_timer_ s = Some due -> due <= t.

Lemma restyle_line snap s :
  tracker_ (RestyleButtons snap s) = tracker_ s /\ starting_timeout_timer_ (RestyleButtons snap s) = starting_timeout_timer_ s /\
  (has_pending (tracker_ s) || command_failed_ (tracker_ s) = true -> line_ok s -> line_ok (RestyleButtons snap s)) /\
  (has_pending (tracker_ s) || command_failed_ (tracker_ s) = false -> line_ok (RestyleButtons snap s)).
Proof.
  unfold RestyleButtons, line_ok. destruct (has_pending (tracker_ s)) eqn:Ep, (command_failed_ (tracker_ s)) eqn:Ef; cbn;
    rewrite ?Ep, ?Ef; split_and!; try done. intros _. case_bool_decide; auto.
Qed.

(** A restyle keeps a line that is right, and makes right one that has nothing to say. *)
Lemma restyle_ok snap s : (has_pending (tracker_ s) || command_failed_ (tracker_ s) = true -> line_ok s) -> line_ok (RestyleButtons snap s).
Proof.
  intros H. destruct (restyle_line snap s) as (_ & _ & H1 & H2). destruct (has_pending (tracker_ s) || command_failed_ (tracker_ s)); auto.
Qed.

Lemma restyle_due snap t s : due_by t s -> due_by t (RestyleButtons snap s).
Proof. intros H. destruct (restyle_line snap s) as (_ & E & _). unfold due_by. by rewrite E. Qed.

Lemma rebuild_ok snap t s : line_ok s -> due_by t s -> line_ok (Rebuild snap s) /\ due_by t (Rebuild snap s).
Proof.
  intros Hl Hd. unfold Rebuild. destruct (negb (has_config snap)); [done|]. cbv zeta.
  match goal with |- context [if ?b then _ else _] => destruct b eqn:Eb end.
  - split; [apply restyle_ok; cbn; discriminate|]. apply restyle_due. by intros due [=].
  - split; [apply restyle_ok; intros _; exact Hl|]. apply restyle_due. exact Hd.
Qed.

Lemma bus_ok snap ev t s : line_ok s -> due_by t s -> line_ok (handle_bus snap ev s) /\ due_by t (handle_bus snap ev s).
Proof.
  intros Hl Hd. destruct ev as [st| |id|]; cbn [handle_bus].
  - unfold OnConnectionStateChanged. destruct (negb _ && has_pending (tracker_ s)) eqn:E1.
    + apply andb_true_iff in E1 as [_ Ep]. unfold line_ok in Hl. rewrite Ep in Hl. destruct Hl as [Ef _].
      split; [apply restyle_ok; cbn; by rewrite Ef|]. apply restyle_due. by intros due [=].
    + destruct (bool_decide _ && command_failed_ (tracker_ s)) eqn:E2; (split; [apply restyle_ok; cbn|by apply restyle_due]); [|done].
      apply andb_true_iff in E2 as [_ Ef]. rewrite orb_false_r. intros Ep. unfold line_ok in Hl. unfold has_pending in *. cbn in Ep.
      rewrite Ep in Hl. destruct Hl. congruence.
  - by apply rebuild_ok.
  - split; [apply restyle_ok; cbn; discriminate|by apply restyle_due].
  - unfold OnCommandDropped. destruct (has_pending (tracker_ s)) eqn:Ep; cbn; [|done]. split; [|done]. cbn. eexists. by left.
Qed.

Lemma tap_ok snap now t slot s : line_ok s -> now + kStartingTimeoutMs <= t -> due_by t s ->
  let s' := (OnActivityButtonClicked snap now slot s).1 in line_ok s' /\ due_by t s'.
Proof.
  intros Hl Ht Hd. unfold OnActivityButtonClicked. destruct (activity_buttons s !! slot) as [b|]; [|done].
  unfold OnActivityTapped. destruct (String.eqb (a_id b) (current_activity_id snap)); cbn -[RestyleButtons kStartingTimeoutMs];
    (split; [apply restyle_ok; cbn -[kStartingTimeoutMs]; rewrite orb_false_r; intros Ep; unfold line_ok; cbn -[kStartingTimeoutMs]; rewrite Ep; eauto|apply restyle_due]).
  - by intros due [=].
  - cbn -[kStartingTimeoutMs]. intros due [= <-]. done.
Qed.

(** The due timer has its say; afterwards no start is pending on it. *)
Lemma timers_ok now t s : line_ok s -> due_by t s -> line_ok (run_timers now s) /\ due_by t (run_timers now s) /\
  (t <= now -> starting_timeout_timer_ (run_timers now s) = None).
Proof.
  intros Hl Hd. unfold run_timers. destruct (starting_timeout_timer_ s) as [due|] eqn:Et; [|done].
  specialize (Hd due Et). destruct (Z.leb_spec due now).
  - unfold OnStartingTimeout, OnStartingTimedOut. cbn [tracker_ with_timer]. unfold line_ok in *. destruct (has_pending (tracker_ s)) eqn:Ep; cbn.
    + split_and!; [|by intros ? [=]|done]. eexists. by right.
    + rewrite Ep. split_and!; [done|by intros ? [=]|done].
  - split_and!; [done|intros due' E; congruence|lia].
Qed.

Definition is_tap (e : Event) : bool := match e with Takes _ _ (TapActivity _) => true | _ => false end.

Lemma event_ok e t s : line_ok s -> due_by t s -> (is_tap e = true -> time_of e + kStartingTimeoutMs <= t) ->
  line_ok (event_step e s).1 /\ due_by t (event_step e s).1.
Proof.
  intros Hl Hd Ht. destruct e as [now|now snap i]; cbn [event_step fst time_of] in *.
  - destruct (timers_ok now t s Hl Hd) as (H1 & H2 & _). done.
  - destruct i as [ev|slot|]; cbn [step]; [by apply bus_ok| |done]. destruct (list_hidden s); [done|]. apply tap_ok; auto.
Qed.

Lemma run_ok evs t : forall s, line_ok s -> due_by t s -> Forall (fun e => is_tap e = true -> time_of e + kStartingTimeoutMs <= t) evs ->
  line_ok (run evs s).1 /\ due_by t (run evs s).1.
Proof.
  induction evs as [|e evs IH]; intros s Hl Hd Hf; [done|]. inversion Hf as [|? ? H1 H2]; subst. cbn [run].
  destruct (event_ok e t s Hl Hd H1) as [Hl1 Hd1]. destruct (event_step e s) as [s1 calls]. cbn [fst] in *.
  specialize (IH s1 Hl1 Hd1 H2). by destruct (run evs s1).
Qed.

Lemma run_app evs1 evs2 : forall s, (run (evs1 ++ evs2) s).1 = (run evs2 (run evs1 s).1).1.
Proof.
  induction evs1 as [|e evs1 IH]; intros s; [done|]. cbn [run app]. destruct (event_step e s) as [s1 calls]. specialize (IH s1).
  destruct (run (evs1 ++ evs2) s1), (run evs1 s1). done.
Qed.

Lemma created_ok snap t : line_ok (ActivitiesScreen snap) /\ due_by t (ActivitiesScreen snap).
Proof. apply rebuild_ok; [by left|by intros ? [=]]. Qed.

(** The status line is never left saying that an activity starts: whatever came before a time
    [t], whatever but another tap comes after it, and whatever the hub does, once the timers have
    run 45 seconds later the line is empty, says that the hub is offline, that the start failed,
    or that the running activity was started again. *)
Theorem starting_message_expires snap before after t now
    (Hbefore : Forall (fun e => time_of e <= t) before) (Hafter : Forall (fun e => is_tap e = false) after)
    (Hnow : t + kStartingTimeoutMs <= now) :
  let s := (run (before ++ after ++ [Tick now]) (ActivitiesScreen snap)).1 in
  exists label,
    if has_pending (tracker_ s) then status_label_ s = resent label
    else if command_failed_ (tracker_ s) then status_label_ s = unreachable label \/ status_label_ s = no_response label
    else status_label_ s = EmptyString \/ status_label_ s = kOffline.
Proof.
  cbv zeta. rewrite !run_app. destruct (created_ok snap (t + kStartingTimeoutMs)) as [Hl0 Hd0].
  destruct (run_ok before (t + kStartingTimeoutMs) _ Hl0 Hd0) as [Hl1 Hd1].
  { apply (Forall_impl _ _ _ Hbefore). lia. }
  destruct (run_ok after (t + kStartingTimeoutMs) _ Hl1 Hd1) as [Hl2 Hd2].
  { apply (Forall_impl _ _ _ Hafter). congruence. }
  set (s := (run after _).1) in *. destruct (timers_ok now _ s Hl2 Hd2) as (Hl & _ & Ht). cbn [run event_step fst].
  specialize (Ht Hnow). unfold line_ok in Hl. rewrite Ht in Hl. destruct (has_pending _); [by destruct Hl|].
  destruct (command_failed_ _); [done|]. by exists EmptyString.
Qed.

(** A hub with two activities, and a tap on the second one that it ignores. *)
Definition two_activities : HarmonySnapshot :=
  {| Harmony.state := Power.kConnected; has_config := true; devices := [];
     activities := [{| activity_id := "-1"; activity_label := "PowerOff" |}; {| activity_id := "7"; activity_label := "Watch TV" |}];
     current_activity_id := "-1" |}.

Lemma starting_message_expires_witness :
  status_label_ (run [Takes 1000 two_activities (TapActivity 1)] (ActivitiesScreen two_activities)).1 = starting "Watch TV" /\
  exists label, status_label_ (run ([Takes 1000 two_activities (TapActivity 1)] ++ [Tick 30000] ++ [Tick 46000])
                                   (ActivitiesScreen two_activities)).1 = no_response label.
Proof.
  split; [reflexivity|].
  destruct (starting_message_expires two_activities [Takes 1000 two_activities (TapActivity 1)] [Tick 30000] 1000 46000) as [label Hs].
  - repeat constructor. cbn. lia.
  - repeat constructor.
  - unfold kStartingTimeoutMs. lia.
  - exists "Watch TV". reflexivity.
Defined.

(** Which buttons are highlighted, and what a tap on one does. *)
Lemma button_for_elem id l b : button_for id l = Some b -> b ∈ l /\ a_id b = id.
Proof.
  induction l as [|x l IH]; [done|]. cbn. destruct (button_for id l) as [y|].
  - intros [= ->]. destruct (IH eq_refl). split; [by right|done].
  - destruct (String.eqb_spec (a_id x) id) as [E|]; [|done]. intros [= ->]. by split; [left|].
Qed.

Lemma restyle_unique current l : NoDup (map a_id l) -> restyle current l =
  map (fun b => {| a_label := a_label b; a_id := a_id b; a_current := String.eqb (a_id b) current |}) l.
Proof.
  induction l as [|b l IH]; [done|]. cbn. intros [Hb Hl]%NoDup_cons. rewrite IH by done.
  destruct (button_for (a_id b) l) as [x|] eqn:E; [|done]. apply button_for_elem in E as [Hx Ex]. destruct Hb. rewrite <- Ex.
  by apply list_elem_of_fmap_2.
Qed.

(** A tap on a visible activity starts that activity, says which, and leaves exactly the
    running activity highlighted. *)
Theorem tapped_activity_starts snap now slot s b (Hids : NoDup (map a_id (activity_buttons s))) (Hopen : list_hidden s = false)
    (Hb : activity_buttons s !! slot = Some b) (Hid : a_id b <> EmptyString) :
  exists s', step snap now (TapActivity slot) s = (s', [CallStartActivity (a_id b)]) /\
    status_label_ s' = (if String.eqb (a_id b) (current_activity_id snap) then resent (a_label b) else starting (a_label b)) /\
    map a_id (activity_buttons s') = map a_id (activity_buttons s) /\
    Forall (fun x => a_current x = String.eqb (a_id x) (current_activity_id snap)) (activity_buttons s').
Proof.
  cbn [step]. rewrite Hopen. unfold OnActivityButtonClicked. rewrite Hb. unfold OnActivityTapped.
  assert (Hp : has_pending {| starting_activity_id_ := a_id b; command_failed_ := false |} = true) by (cbn; by destruct (a_id b)).
  destruct (String.eqb (a_id b) (current_activity_id snap)); cbv zeta; eexists; (split; [reflexivity|]); unfold RestyleButtons;
    cbn [tracker_ with_tracker with_status with_timer with_list]; rewrite Hp; cbn; rewrite restyle_unique by done;
    (split_and!; [done|rewrite map_map; by apply map_ext|apply Forall_forall; intros x (y & -> & _)%list_elem_of_fmap; done]).
Qed.

Lemma tapped_activity_starts_witness :
  exists s', step two_activities 1000 (TapActivity 1) (ActivitiesScreen two_activities) = (s', [CallStartActivity "7"]) /\
    status_label_ s' = starting "Watch TV".
Proof.
  destruct (tapped_activity_starts two_activities 1000 1 (ActivitiesScreen two_activities)
              {| a_label := "Watch TV"; a_id := "7"; a_current := false |}) as (s' & Hs & Ht & _).
  - cbn. apply NoDup_ListNoDup. repeat constructor; cbn; intuition discriminate.
  - reflexivity.
  - reflexivity.
  - discriminate.
  - by exists s'.
Defined.
End ActivitiesOk.
