(* ===== verification/KodiScreens.v ===== *)
(** KodiScreens: the screens that browse the Kodi library.

    Models [src/src/ui/screens/kodi_movies_screen.cpp], [kodi_tv_shows_screen.cpp],
    [kodi_music_screen.cpp], [kodi_files_screen.cpp] and [kodi_live_tv_screen.cpp] with
    [screen_loader.cpp], over the lists and the load decision of [Dashboard]. A screen is
    its widgets' visibility, labels and lists; a handler takes what it reads from outside
    ([Ctx]: the client's snapshot, the active screen, the layout) and returns the screen
    with the calls it made, or [None] if it called a null callback. LVGL delivers a tap
    only to a widget of the active screen that is visible, which the handlers of taps
    check first. The five screens are instances of one interface ([BrowseScreen]). *)
From S2P Require Import Prelude Text Ui Dashboard KodiJson KodiTypes Kodi Display.

(** ** What the screens share *)

(** A call on the client or on the navigation. *)
Inductive KodiCall :=
  | CallLibrary (r : LibraryRequest) | CallOpenLibraryItem (id_field : string) (id : Z) (resume : bool)
  | CallPlayFile (path : string) | CallPlayPause | CallStopPlayback | CallSeekStep (forward : bool)
  | CallVolumeStep (up : bool) | CallToggleMute | CallSendInput (input : KodiInput) | CallGoTo (route : string).

(** What a handler reads: [kodi_client_.Snapshot()], whether this screen is the active
    one, and where the layout puts the list it works on. *)
Record Ctx := { snapshot : KodiSnapshot; shown : bool; list_top : Z }.

Definition IsConnected (c : Ctx) : bool := bool_decide (state (snapshot c) = kConnected).

(** [lv_display_get_vertical_resolution]. *)
Class LvDisplay := { lv_vertical_resolution : Z; lv_resolution_positive : 0 < lv_vertical_resolution }.

(** *** [ScreenLoader], whose state is [LazyLoad]'s *)

Definition OnLoaded {T} (items : list T) (truncated stale : bool) : bool :=
  if truncated && (List.length items =? 0)%nat then Trackers.MarkStale stale else stale.

(** What [load_] calls, when it is called. *)
Definition loads (load : bool) (request : LibraryRequest) : list KodiCall := if load then [CallLibrary request] else [].

(** *** A list and the vector its callbacks read *)

Section Rows.
Context `{LvDisplay} {T : Type} (label : T -> string).

Record RowList := { vec : list T; rows : VirtualList.VirtualList }.

Definition NewRows : RowList := {| vec := []; rows := VirtualList.NewVirtualList |}.

(** The label callback; a row past the end is not asked for ([rows_in_range]). *)
Definition label_at (l : list T) (row : Z) : string :=
  match l !! Z.to_nat row with Some x => label x | None => EmptyString end.

(** The list's place, unknown while its container is hidden. *)
Definition layout (c : Ctx) (container_hidden : bool) : option Z := if container_hidden then None else Some (list_top c).

Definition set_rows (c : Ctx) (container_hidden : bool) (items : list T) (truncated : bool) (b : RowList) : option RowList :=
  v ← VirtualList.SetItems (Z.of_nat (List.length items)) (label_at items) true lv_vertical_resolution
        (layout c container_hidden) (rows b);
  Some {| vec := items; rows := VirtualList.SetTruncated truncated v |}.

Definition clear_rows (c : Ctx) (container_hidden : bool) (b : RowList) : option RowList :=
  v ← VirtualList.Clear lv_vertical_resolution (layout c container_hidden) (rows b);
  Some {| vec := []; rows := v |}.

Definition refresh_rows (c : Ctx) (container_hidden : bool) (b : RowList) : option RowList :=
  v ← VirtualList.Refresh lv_vertical_resolution (layout c container_hidden) (rows b);
  Some {| vec := vec b; rows := v |}.

(** The item a tap on a button of the list selects. *)
Definition tapped (slot : nat) (b : RowList) : option T :=
  s ← VirtualList.pool_ (rows b) !! slot;
  if VirtualList.hidden s then None else r ← VirtualList.OnRowClicked s (rows b); vec b !! Z.to_nat r.
End Rows.

Arguments RowList T : clear implicits.

(** *** The interface of a browse screen *)

Class BrowseScreen (Sc T : Type) := {
  create : Ctx -> option Sc;
  on_bus : Ctx -> KodiEvent -> Sc -> option (Sc * list KodiCall);
  on_shown : Ctx -> Sc -> option (Sc * list KodiCall);
  on_scroll : Ctx -> Sc -> option Sc;
  on_tap : Ctx -> T -> Sc -> option (Sc * list KodiCall);
  (** The hint's visibility, and that of each level. *)
  hint_visible : Sc -> bool;
  levels_visible : Sc -> list bool;
  loader : Sc -> bool;
  is_load : KodiCall -> bool
}.

Inductive Input (T : Type) := Bus (ev : KodiEvent) | Shown | Scroll | Tap (t : T).
Arguments Bus {T}. Arguments Shown {T}. Arguments Scroll {T}. Arguments Tap {T}.

Definition step {Sc T} `{!BrowseScreen Sc T} (c : Ctx) (i : Input T) (s : Sc) : option (Sc * list KodiCall) :=
  match i with
  | Bus ev => on_bus c ev s
  | Shown => on_shown c s
  | Scroll => s' ← on_scroll c s; Some (s', [])
  | Tap t => if shown c then on_tap c t s else Some (s, [])
  end.

(** A screen from its creation on: each input with what it read; the calls, in order. *)
Fixpoint run {Sc T} `{!BrowseScreen Sc T} (inputs : list (Ctx * Input T)) (s : Sc) : option (Sc * list KodiCall) :=
  match inputs with
  | [] => Some (s, [])
  | (c, i) :: rest =>
      '(s1, calls) ← step c i s;
      '(s2, more) ← run rest s1;
      Some (s2, calls ++ more)
  end.

(** ** [KodiMoviesScreen] *)

Module Movies.
Section Screen.
Context `{LvDisplay}.

Record Screen := {
  loader_ : bool; hint_hidden : bool; list_hidden : bool; detail_hidden : bool; movie_title_label_ : string;
  resume_hidden : bool; movie_list_ : RowList KodiMovie; selected_movie_id_ : Z
}.

Inductive Taps := TapMovie (slot : nat) | TapPlay | TapResume | TapBack.

Definition movie_label (m : KodiMovie) : string :=
  if 0 <? movie_year m then movie_title m +:+ " (" +:+ to_string (movie_year m) +:+ ")" else movie_title m.

Definition with_loader (stale : bool) (s : Screen) : Screen :=
  {| loader_ := stale; hint_hidden := hint_hidden s; list_hidden := list_hidden s; detail_hidden := detail_hidden s;
     movie_title_label_ := movie_title_label_ s; resume_hidden := resume_hidden s; movie_list_ := movie_list_ s;
     selected_movie_id_ := selected_movie_id_ s |}.

Definition with_views (hint list detail : bool) (s : Screen) : Screen :=
  {| loader_ := loader_ s; hint_hidden := hint; list_hidden := list; detail_hidden := detail;
     movie_title_label_ := movie_title_label_ s; resume_hidden := resume_hidden s; movie_list_ := movie_list_ s;
     selected_movie_id_ := selected_movie_id_ s |}.

Definition with_list (l : RowList KodiMovie) (s : Screen) : Screen :=
  {| loader_ := loader_ s; hint_hidden := hint_hidden s; list_hidden := list_hidden s; detail_hidden := detail_hidden s;
     movie_title_label_ := movie_title_label_ s; resume_hidden := resume_hidden s; movie_list_ := l;
     selected_movie_id_ := selected_movie_id_ s |}.

Definition Refresh (c : Ctx) (s : Screen) : option Screen :=
  if IsConnected c then
    let s := with_views true false true s in
    l ← refresh_rows c (list_hidden s) (movie_list_ s); Some (with_list l s)
  else Some (with_views false true true s).

Definition KodiMoviesScreen (c : Ctx) : option Screen :=
  Refresh c {| loader_ := true; hint_hidden := false; list_hidden := false; detail_hidden := true;
               movie_title_label_ := EmptyString; resume_hidden := true; movie_list_ := NewRows; selected_movie_id_ := -1 |}.

Definition RebuildMovieList (c : Ctx) (movies : list KodiMovie) (truncated : bool) (s : Screen) : option Screen :=
  let s := with_loader (OnLoaded movies truncated (loader_ s)) s in
  l ← set_rows movie_label c (list_hidden s) movies truncated (movie_list_ s); Some (with_list l s).

Definition ShowMovieDetail (id : Z) (s : Screen) : Screen :=
  match List.find (fun m => movieid m =? id) (vec (movie_list_ s)) with
  | None => s
  | Some m =>
      {| loader_ := loader_ s; hint_hidden := hint_hidden s; list_hidden := true; detail_hidden := false;
         movie_title_label_ := movie_title m; resume_hidden := negb (0 <? movie_resume_ms m); movie_list_ := movie_list_ s;
         selected_movie_id_ := id |}
  end.

Definition ShowMovieList (c : Ctx) (s : Screen) : option Screen :=
  let s := with_views (hint_hidden s) (list_hidden s) true s in
  if IsConnected c then
    let s := with_views (hint_hidden s) false (detail_hidden s) s in
    l ← refresh_rows c (list_hidden s) (movie_list_ s); Some (with_list l s)
  else Some s.

Definition OnPlayClicked (resume : bool) (s : Screen) : list KodiCall :=
  [CallOpenLibraryItem "movieid" (selected_movie_id_ s) resume; CallGoTo kKodiNowPlaying].

(** [state_sub_] and [movies_sub_]. *)
Definition handle_bus (c : Ctx) (ev : KodiEvent) (s : Screen) : option (Screen * list KodiCall) :=
  match ev with
  | KodiConnectionStateChangedEvent st =>
      s ← Refresh c s;
      if bool_decide (st = kConnected) then
        let '(load, stale) := Trackers.OnConnected (shown c) (loader_ s) in
        Some (with_loader stale s, loads load RequestMovies)
      else Some (s, [])
  | KodiMoviesFetchedEvent movies truncated => s ← RebuildMovieList c movies truncated s; Some (s, [])
  | _ => Some (s, [])
  end.

Definition OnScreenLoadStart (c : Ctx) (s : Screen) : option (Screen * list KodiCall) :=
  let '(load, stale) := Trackers.OnShown (IsConnected c) (loader_ s) in
  Some (with_loader stale s, loads load RequestMovies).

Definition OnScreenScrolled (c : Ctx) (s : Screen) : option Screen :=
  l ← refresh_rows c (list_hidden s) (movie_list_ s); Some (with_list l s).

Definition handle_tap (c : Ctx) (t : Taps) (s : Screen) : option (Screen * list KodiCall) :=
  match t with
  | TapMovie slot =>
      if list_hidden s then Some (s, [])
      else match tapped slot (movie_list_ s) with
           | Some m => Some (ShowMovieDetail (movieid m) s, [])
           | None => Some (s, [])
           end
  | TapPlay => Some (s, if detail_hidden s then [] else OnPlayClicked false s)
  | TapResume => Some (s, if detail_hidden s || resume_hidden s then [] else OnPlayClicked true s)
  | TapBack => if detail_hidden s then Some (s, []) else s ← ShowMovieList c s; Some (s, [])
  end.

#[export] Instance movies_screen : BrowseScreen Screen Taps := {|
  create := KodiMoviesScreen; on_bus := handle_bus; on_shown := OnScreenLoadStart; on_scroll := OnScreenScrolled;
  on_tap := handle_tap; hint_visible := fun s => negb (hint_hidden s);
  levels_visible := fun s => [negb (list_hidden s); negb (detail_hidden s)]; loader := loader_;
  is_load := fun call => match call with CallLibrary r => bool_decide (r = RequestMovies) | _ => false end |}.
End Screen.
End Movies.

(** ** [KodiTvShowsScreen] *)

Module TvShows.

Definition SeasonHeading (show_title : string) (season : Z) : string :=
  show_title +:+ (if season =? 0 then " - Specials" else " - Season " +:+ to_string season).

Section Screen.
Context `{LvDisplay}.

Record Screen := {
  loader_ : bool; hint_hidden : bool; shows_hidden : bool; seasons_hidden : bool; episodes_hidden : bool;
  detail_hidden : bool; seasons_title_label_ : string; episodes_title_label_ : string; episode_title_label_ : string;
  resume_hidden : bool; shows_list_ : RowList KodiTvShow; seasons_list_ : RowList KodiSeason;
  episodes_list_ : RowList KodiEpisode; selected_tvshowid_ : Z; selected_show_title_ : string; selected_season_ : Z;
  selected_episode_id_ : Z
}.

Inductive Taps :=
  | TapShow (slot : nat) | TapSeason (slot : nat) | TapEpisode (slot : nat) | TapPlay | TapResume
  | TapSeasonsBack | TapEpisodesBack | TapDetailBack.

Definition show_label (t : KodiTvShow) : string :=
  if 0 <? show_year t then show_title_ t +:+ " (" +:+ to_string (show_year t) +:+ ")" else show_title_ t.
Definition episode_label (e : KodiEpisode) : string := to_string (episode_number e) +:+ ". " +:+ episode_title e.

Definition with_loader (stale : bool) (s : Screen) : Screen :=
  {| loader_ := stale; hint_hidden := hint_hidden s; shows_hidden := shows_hidden s;
     seasons_hidden := seasons_hidden s; episodes_hidden := episodes_hidden s; detail_hidden := detail_hidden s;
     seasons_title_label_ := seasons_title_label_ s; episodes_title_label_ := episodes_title_label_ s;
     episode_title_label_ := episode_title_label_ s; resume_hidden := resume_hidden s; shows_list_ := shows_list_ s;
     seasons_list_ := seasons_list_ s; episodes_list_ := episodes_list_ s;
     selected_tvshowid_ := selected_tvshowid_ s; selected_show_title_ := selected_show_title_ s;
     selected_season_ := selected_season_ s; selected_episode_id_ := selected_episode_id_ s |}.

Definition with_views (hint shows seasons episodes detail : bool) (s : Screen) : Screen :=
  {| loader_ := loader_ s; hint_hidden := hint; shows_hidden := shows;
     seasons_hidden := seasons; episodes_hidden := episodes; detail_hidden := detail;
     seasons_title_label_ := seasons_title_label_ s; episodes_title_label_ := episodes_title_label_ s;
     episode_title_label_ := episode_title_label_ s; resume_hidden := resume_hidden s; shows_list_ := shows_list_ s;
     seasons_list_ := seasons_list_ s; episodes_list_ := episodes_list_ s;
     selected_tvshowid_ := selected_tvshowid_ s; selected_show_title_ := selected_show_title_ s;
     selected_season_ := selected_season_ s; selected_episode_id_ := selected_episode_id_ s |}.

Definition with_lists (shows : RowList KodiTvShow) (seasons : RowList KodiSeason) (episodes : RowList KodiEpisode) (s : Screen) : Screen :=
  {| loader_ := loader_ s; hint_hidden := hint_hidden s; shows_hidden := shows_hidden s;
     seasons_hidden := seasons_hidden s; episodes_hidden := episodes_hidden s; detail_hidden := detail_hidden s;
     seasons_title_label_ := seasons_title_label_ s; episodes_title_label_ := episodes_title_label_ s;
     episode_title_label_ := episode_title_label_ s; resume_hidden := resume_hidden s; shows_list_ := shows;
     seasons_list_ := seasons; episodes_list_ := episodes; selected_tvshowid_ := selected_tvshowid_ s;
     selected_show_title_ := selected_show_title_ s; selected_season_ := selected_season_ s;
     selected_episode_id_ := selected_episode_id_ s |}.

Definition with_shows (l : RowList KodiTvShow) (s : Screen) : Screen := with_lists l (seasons_list_ s) (episodes_list_ s) s.
Definition with_seasons (l : RowList KodiSeason) (s : Screen) : Screen := with_lists (shows_list_ s) l (episodes_list_ s) s.
Definition with_episodes (l : RowList KodiEpisode) (s : Screen) : Screen := with_lists (shows_list_ s) (seasons_list_ s) l s.

(** One container shown or hidden, the rest as they are. *)
Definition set_shows_hidden (b : bool) (s : Screen) : Screen :=
  with_views (hint_hidden s) b (seasons_hidden s) (episodes_hidden s) (detail_hidden s) s.
Definition set_seasons_hidden (b : bool) (s : Screen) : Screen :=
  with_views (hint_hidden s) (shows_hidden s) b (episodes_hidden s) (detail_hidden s) s.
Definition set_episodes_hidden (b : bool) (s : Screen) : Screen :=
  with_views (hint_hidden s) (shows_hidden s) (seasons_hidden s) b (detail_hidden s) s.
Definition set_detail_hidden (b : bool) (s : Screen) : Screen :=
  with_views (hint_hidden s) (shows_hidden s) (seasons_hidden s) (episodes_hidden s) b s.

Definition refresh_shows (c : Ctx) (s : Screen) : option Screen :=
  l ← refresh_rows c (shows_hidden s) (shows_list_ s); Some (with_shows l s).
Definition refresh_seasons (c : Ctx) (s : Screen) : option Screen :=
  l ← refresh_rows c (seasons_hidden s) (seasons_list_ s); Some (with_seasons l s).
Definition refresh_episodes (c : Ctx) (s : Screen) : option Screen :=
  l ← refresh_rows c (episodes_hidden s) (episodes_list_ s); Some (with_episodes l s).

Definition Refresh (c : Ctx) (s : Screen) : option Screen :=
  if IsConnected c then refresh_shows c (with_views true false true true true s)
  else Some (with_views false true true true true s).

Definition KodiTvShowsScreen (c : Ctx) : option Screen :=
  Refresh c {| loader_ := true; hint_hidden := false; shows_hidden := false; seasons_hidden := true; episodes_hidden := true;
               detail_hidden := true; seasons_title_label_ := EmptyString; episodes_title_label_ := EmptyString;
               episode_title_label_ := EmptyString; resume_hidden := true; shows_list_ := NewRows; seasons_list_ := NewRows;
               episodes_list_ := NewRows; selected_tvshowid_ := -1; selected_show_title_ := EmptyString;
               selected_season_ := 0; selected_episode_id_ := -1 |}.

Definition RebuildShowList (c : Ctx) (shows : list KodiTvShow) (truncated : bool) (s : Screen) : option Screen :=
  let s := with_loader (OnLoaded shows truncated (loader_ s)) s in
  l ← set_rows show_label c (shows_hidden s) shows truncated (shows_list_ s); Some (with_shows l s).

Definition RebuildSeasonList (c : Ctx) (seasons : list KodiSeason) (truncated : bool) (s : Screen) : option Screen :=
  l ← set_rows season_label c (seasons_hidden s) seasons truncated (seasons_list_ s); Some (with_seasons l s).

Definition RebuildEpisodeList (c : Ctx) (episodes : list KodiEpisode) (truncated : bool) (s : Screen) : option Screen :=
  l ← set_rows episode_label c (episodes_hidden s) episodes truncated (episodes_list_ s); Some (with_episodes l s).

Definition ShowShowList (c : Ctx) (s : Screen) : option Screen :=
  let s := set_seasons_hidden true s in
  if IsConnected c then refresh_shows c (set_shows_hidden false s) else Some s.

Definition select_show (id : Z) (title : string) (label : string) (s : Screen) : Screen :=
  {| loader_ := loader_ s; hint_hidden := hint_hidden s; shows_hidden := shows_hidden s;
     seasons_hidden := seasons_hidden s; episodes_hidden := episodes_hidden s; detail_hidden := detail_hidden s;
     seasons_title_label_ := label; episodes_title_label_ := episodes_title_label_ s;
     episode_title_label_ := episode_title_label_ s; resume_hidden := resume_hidden s; shows_list_ := shows_list_ s;
     seasons_list_ := seasons_list_ s; episodes_list_ := episodes_list_ s; selected_tvshowid_ := id;
     selected_show_title_ := title; selected_season_ := selected_season_ s;
     selected_episode_id_ := selected_episode_id_ s |}.

Definition ShowSeasonList (c : Ctx) (id : Z) (s : Screen) : option (Screen * list KodiCall) :=
  match List.find (fun t => tvshowid t =? id) (vec (shows_list_ s)) with
  | None => Some (s, [])
  | Some t =>
      let s := select_show id (show_title_ t) (show_title_ t) s in
      l ← clear_rows c (seasons_hidden s) (seasons_list_ s);
      Some (set_seasons_hidden false (set_shows_hidden true (with_seasons l s)), [CallLibrary (RequestSeasons id)])
  end.

Definition select_season (n : Z) (label : string) (s : Screen) : Screen :=
  {| loader_ := loader_ s; hint_hidden := hint_hidden s; shows_hidden := shows_hidden s;
     seasons_hidden := seasons_hidden s; episodes_hidden := episodes_hidden s; detail_hidden := detail_hidden s;
     seasons_title_label_ := seasons_title_label_ s; episodes_title_label_ := label;
     episode_title_label_ := episode_title_label_ s; resume_hidden := resume_hidden s; shows_list_ := shows_list_ s;
     seasons_list_ := seasons_list_ s; episodes_list_ := episodes_list_ s;
     selected_tvshowid_ := selected_tvshowid_ s; selected_show_title_ := selected_show_title_ s;
     selected_season_ := n; selected_episode_id_ := selected_episode_id_ s |}.

Definition ShowEpisodeList (c : Ctx) (season : Z) (s : Screen) : option (Screen * list KodiCall) :=
  let s := select_season season (SeasonHeading (selected_show_title_ s) season) s in
  l ← clear_rows c (episodes_hidden s) (episodes_list_ s);
  Some (set_episodes_hidden false (set_seasons_hidden true (with_episodes l s)),
        [CallLibrary (RequestEpisodes (selected_tvshowid_ s) season)]).

Definition select_episode (id : Z) (label : string) (no_resume : bool) (s : Screen) : Screen :=
  {| loader_ := loader_ s; hint_hidden := hint_hidden s; shows_hidden := shows_hidden s;
     seasons_hidden := seasons_hidden s; episodes_hidden := episodes_hidden s; detail_hidden := detail_hidden s;
     seasons_title_label_ := seasons_title_label_ s; episodes_title_label_ := episodes_title_label_ s;
     episode_title_label_ := label; resume_hidden := no_resume; shows_list_ := shows_list_ s;
     seasons_list_ := seasons_list_ s; episodes_list_ := episodes_list_ s;
     selected_tvshowid_ := selected_tvshowid_ s; selected_show_title_ := selected_show_title_ s;
     selected_season_ := selected_season_ s; selected_episode_id_ := id |}.

Definition ShowEpisodeDetail (id : Z) (s : Screen) : Screen :=
  match List.find (fun e => episodeid e =? id) (vec (episodes_list_ s)) with
  | None => s
  | Some e =>
      set_detail_hidden false (set_episodes_hidden true
        (select_episode id (episode_title e) (negb (0 <? episode_resume_ms e)) s))
  end.

Definition OnPlayClicked (resume : bool) (s : Screen) : list KodiCall :=
  [CallOpenLibraryItem "episodeid" (selected_episode_id_ s) resume; CallGoTo kKodiNowPlaying].

Definition OnEpisodesBackClicked (c : Ctx) (s : Screen) : option Screen :=
  let s := set_episodes_hidden true s in
  if IsConnected c then refresh_seasons c (set_seasons_hidden false s) else Some s.

Definition OnEpisodeDetailBackClicked (c : Ctx) (s : Screen) : option Screen :=
  let s := set_detail_hidden true s in
  if IsConnected c then refresh_episodes c (set_episodes_hidden false s) else Some s.

(** The four subscriptions: replies for a show or season that is not open are ignored. *)
Definition handle_bus (c : Ctx) (ev : KodiEvent) (s : Screen) : option (Screen * list KodiCall) :=
  match ev with
  | KodiConnectionStateChangedEvent st =>
      s ← Refresh c s;
      if bool_decide (st = kConnected) then
        let '(load, stale) := Trackers.OnConnected (shown c) (loader_ s) in
        Some (with_loader stale s, loads load RequestTvShows)
      else Some (s, [])
  | KodiTvShowsFetchedEvent shows truncated => s ← RebuildShowList c shows truncated s; Some (s, [])
  | KodiSeasonsFetchedEvent id seasons truncated =>
      if id =? selected_tvshowid_ s then s ← RebuildSeasonList c seasons truncated s; Some (s, []) else Some (s, [])
  | KodiEpisodesFetchedEvent id season episodes truncated =>
      if (id =? selected_tvshowid_ s) && (season =? selected_season_ s)
      then s ← RebuildEpisodeList c episodes truncated s; Some (s, []) else Some (s, [])
  | _ => Some (s, [])
  end.

Definition OnScreenLoadStart (c : Ctx) (s : Screen) : option (Screen * list KodiCall) :=
  let '(load, stale) := Trackers.OnShown (IsConnected c) (loader_ s) in
  Some (with_loader stale s, loads load RequestTvShows).

Definition OnScreenScrolled (c : Ctx) (s : Screen) : option Screen :=
  s ← refresh_seasons c s; s ← refresh_episodes c s; refresh_shows c s.

Definition handle_tap (c : Ctx) (t : Taps) (s : Screen) : option (Screen * list KodiCall) :=
  match t with
  | TapShow slot =>
      if shows_hidden s then Some (s, [])
      else match tapped slot (shows_list_ s) with Some x => ShowSeasonList c (tvshowid x) s | None => Some (s, []) end
  | TapSeason slot =>
      if seasons_hidden s then Some (s, [])
      else match tapped slot (seasons_list_ s) with Some x => ShowEpisodeList c (season_number x) s | None => Some (s, []) end
  | TapEpisode slot =>
      if episodes_hidden s then Some (s, [])
      else match tapped slot (episodes_list_ s) with
           | Some x => Some (ShowEpisodeDetail (episodeid x) s, [])
           | None => Some (s, [])
           end
  | TapPlay => Some (s, if detail_hidden s then [] else OnPlayClicked false s)
  | TapResume => Some (s, if detail_hidden s || resume_hidden s then [] else OnPlayClicked true s)
  | TapSeasonsBack => if seasons_hidden s then Some (s, []) else s ← ShowShowList c s; Some (s, [])
  | TapEpisodesBack => if episodes_hidden s then Some (s, []) else s ← OnEpisodesBackClicked c s; Some (s, [])
  | TapDetailBack => if detail_hidden s then Some (s, []) else s ← OnEpisodeDetailBackClicked c s; Some (s, [])
  end.

#[export] Instance tv_shows_screen : BrowseScreen Screen Taps := {|
  create := KodiTvShowsScreen; on_bus := handle_bus; on_shown := OnScreenLoadStart; on_scroll := OnScreenScrolled;
  on_tap := handle_tap; hint_visible := fun s => negb (hint_hidden s);
  levels_visible := fun s => [negb (shows_hidden s); negb (seasons_hidden s); negb (episodes_hidden s); negb (detail_hidden s)];
  loader := loader_;
  is_load := fun call => match call with CallLibrary r => bool_decide (r = RequestTvShows) | _ => false end |}.
End Screen.
End TvShows.

(** ** [KodiMusicScreen] *)

Module Music.
Section Screen.
Context `{LvDisplay}.

Record Screen := {
  loader_ : bool; hint_hidden : bool; artists_hidden : bool; albums_hidden : bool; songs_hidden : bool;
  albums_title_label_ : string; songs_title_label_ : string; artists_list_ : RowList KodiArtist;
  albums_list_ : RowList KodiAlbum; songs_list_ : RowList KodiSong; selected_artistid_ : Z; selected_artist_name_ : string
}.

Inductive Taps := TapArtist (slot : nat) | TapAlbum (slot : nat) | TapSong (slot : nat) | TapAlbumsBack | TapSongsBack.

Definition album_label (a : KodiAlbum) : string :=
  if 0 <? album_year a then album_title a +:+ " (" +:+ to_string (album_year a) +:+ ")" else album_title a.
Definition song_label (x : KodiSong) : string :=
  to_string (song_track x) +:+ ". " +:+ song_title x +:+ " (" +:+ FormatKodiClock (song_seconds x * 1000) +:+ ")".

Definition with_loader (stale : bool) (s : Screen) : Screen :=
  {| loader_ := stale; hint_hidden := hint_hidden s; artists_hidden := artists_hidden s;
     albums_hidden := albums_hidden s; songs_hidden := songs_hidden s; albums_title_label_ := albums_title_label_ s;
     songs_title_label_ := songs_title_label_ s; artists_list_ := artists_list_ s; albums_list_ := albums_list_ s;
     songs_list_ := songs_list_ s; selected_artistid_ := selected_artistid_ s;
     selected_artist_name_ := selected_artist_name_ s |}.

Definition with_views (hint artists albums songs : bool) (s : Screen) : Screen :=
  {| loader_ := loader_ s; hint_hidden := hint; artists_hidden := artists; albums_hidden := albums;
     songs_hidden := songs; albums_title_label_ := albums_title_label_ s;
     songs_title_label_ := songs_title_label_ s; artists_list_ := artists_list_ s; albums_list_ := albums_list_ s;
     songs_list_ := songs_list_ s; selected_artistid_ := selected_artistid_ s;
     selected_artist_name_ := selected_artist_name_ s |}.

Definition with_lists (artists : RowList KodiArtist) (albums : RowList KodiAlbum) (songs : RowList KodiSong) (s : Screen) : Screen :=
  {| loader_ := loader_ s; hint_hidden := hint_hidden s; artists_hidden := artists_hidden s;
     albums_hidden := albums_hidden s; songs_hidden := songs_hidden s; albums_title_label_ := albums_title_label_ s;
     songs_title_label_ := songs_title_label_ s; artists_list_ := artists; albums_list_ := albums;
     songs_list_ := songs; selected_artistid_ := selected_artistid_ s;
     selected_artist_name_ := selected_artist_name_ s |}.

Definition set_artists_hidden (b : bool) (s : Screen) : Screen := with_views (hint_hidden s) b (albums_hidden s) (songs_hidden s) s.
Definition set_albums_hidden (b : bool) (s : Screen) : Screen := with_views (hint_hidden s) (artists_hidden s) b (songs_hidden s) s.
Definition set_songs_hidden (b : bool) (s : Screen) : Screen := with_views (hint_hidden s) (artists_hidden s) (albums_hidden s) b s.

Definition with_artists (l : RowList KodiArtist) (s : Screen) : Screen := with_lists l (albums_list_ s) (songs_list_ s) s.
Definition with_albums (l : RowList KodiAlbum) (s : Screen) : Screen := with_lists (artists_list_ s) l (songs_list_ s) s.
Definition with_songs (l : RowList KodiSong) (s : Screen) : Screen := with_lists (artists_list_ s) (albums_list_ s) l s.

Definition refresh_artists (c : Ctx) (s : Screen) : option Screen :=
  l ← refresh_rows c (artists_hidden s) (artists_list_ s); Some (with_artists l s).
Definition refresh_albums (c : Ctx) (s : Screen) : option Screen :=
  l ← refresh_rows c (albums_hidden s) (albums_list_ s); Some (with_albums l s).
Definition refresh_songs (c : Ctx) (s : Screen) : option Screen :=
  l ← refresh_rows c (songs_hidden s) (songs_list_ s); Some (with_songs l s).

Definition Refresh (c : Ctx) (s : Screen) : option Screen :=
  if IsConnected c then refresh_artists c (with_views true false true true s)
  else Some (with_views false true true true s).

Definition KodiMusicScreen (c : Ctx) : option Screen :=
  Refresh c {| loader_ := true; hint_hidden := false; artists_hidden := false; albums_hidden := true; songs_hidden := true;
               albums_title_label_ := EmptyString; songs_title_label_ := EmptyString; artists_list_ := NewRows;
               albums_list_ := NewRows; songs_list_ := NewRows; selected_artistid_ := -1;
               selected_artist_name_ := EmptyString |}.

Definition RebuildArtistList (c : Ctx) (artists : list KodiArtist) (truncated : bool) (s : Screen) : option Screen :=
  let s := with_loader (OnLoaded artists truncated (loader_ s)) s in
  l ← set_rows artist_name c (artists_hidden s) artists truncated (artists_list_ s); Some (with_artists l s).

Definition RebuildAlbumList (c : Ctx) (albums : list KodiAlbum) (truncated : bool) (s : Screen) : option Screen :=
  l ← set_rows album_label c (albums_hidden s) albums truncated (albums_list_ s); Some (with_albums l s).

Definition RebuildSongList (c : Ctx) (songs : list KodiSong) (truncated : bool) (s : Screen) : option Screen :=
  l ← set_rows song_label c (songs_hidden s) songs truncated (songs_list_ s); Some (with_songs l s).

Definition ShowArtistList (c : Ctx) (s : Screen) : option Screen :=
  let s := set_albums_hidden true s in
  if IsConnected c then refresh_artists c (set_artists_hidden false s) else Some s.

Definition select_artist (id : Z) (name : string) (label : string) (s : Screen) : Screen :=
  {| loader_ := loader_ s; hint_hidden := hint_hidden s; artists_hidden := artists_hidden s;
     albums_hidden := albums_hidden s; songs_hidden := songs_hidden s; albums_title_label_ := label;
     songs_title_label_ := songs_title_label_ s; artists_list_ := artists_list_ s; albums_list_ := albums_list_ s;
     songs_list_ := songs_list_ s; selected_artistid_ := id; selected_artist_name_ := name |}.

Definition set_songs_title (label : string) (s : Screen) : Screen :=
  {| loader_ := loader_ s; hint_hidden := hint_hidden s; artists_hidden := artists_hidden s;
     albums_hidden := albums_hidden s; songs_hidden := songs_hidden s; albums_title_label_ := albums_title_label_ s;
     songs_title_label_ := label; artists_list_ := artists_list_ s; albums_list_ := albums_list_ s;
     songs_list_ := songs_list_ s; selected_artistid_ := selected_artistid_ s;
     selected_artist_name_ := selected_artist_name_ s |}.

Definition ShowAlbumList (c : Ctx) (id : Z) (s : Screen) : option (Screen * list KodiCall) :=
  match List.find (fun a => artistid a =? id) (vec (artists_list_ s)) with
  | None => Some (s, [])
  | Some a =>
      let s := select_artist id (artist_name a) (artist_name a) s in
      l ← clear_rows c (albums_hidden s) (albums_list_ s);
      Some (set_albums_hidden false (set_artists_hidden true (with_albums l s)), [CallLibrary (RequestAlbums id)])
  end.

Definition ShowSongList (c : Ctx) (id : Z) (s : Screen) : option (Screen * list KodiCall) :=
  l ← clear_rows c (songs_hidden s) (songs_list_ s);
  let s := set_songs_title (selected_artist_name_ s) (with_songs l s) in
  Some (set_songs_hidden false (set_albums_hidden true s), [CallLibrary (RequestSongs id)]).

Definition OnSongsBackClicked (c : Ctx) (s : Screen) : option Screen :=
  let s := set_songs_hidden true s in
  if IsConnected c then refresh_albums c (set_albums_hidden false s) else Some s.

(** The four subscriptions. Albums for an artist that is not open are ignored; a list of
    songs is taken whatever album it is for. *)
Definition handle_bus (c : Ctx) (ev : KodiEvent) (s : Screen) : option (Screen * list KodiCall) :=
  match ev with
  | KodiConnectionStateChangedEvent st =>
      s ← Refresh c s;
      if bool_decide (st = kConnected) then
        let '(load, stale) := Trackers.OnConnected (shown c) (loader_ s) in
        Some (with_loader stale s, loads load RequestArtists)
      else Some (s, [])
  | KodiArtistsFetchedEvent artists truncated => s ← RebuildArtistList c artists truncated s; Some (s, [])
  | KodiAlbumsFetchedEvent id albums truncated =>
      if id =? selected_artistid_ s then s ← RebuildAlbumList c albums truncated s; Some (s, []) else Some (s, [])
  | KodiSongsFetchedEvent _ songs truncated => s ← RebuildSongList c songs truncated s; Some (s, [])
  | _ => Some (s, [])
  end.

Definition OnScreenLoadStart (c : Ctx) (s : Screen) : option (Screen * list KodiCall) :=
  let '(load, stale) := Trackers.OnShown (IsConnected c) (loader_ s) in
  Some (with_loader stale s, loads load RequestArtists).

Definition OnScreenScrolled (c : Ctx) (s : Screen) : option Screen :=
  s ← refresh_albums c s; s ← refresh_songs c s; refresh_artists c s.

Definition handle_tap (c : Ctx) (t : Taps) (s : Screen) : option (Screen * list KodiCall) :=
  match t with
  | TapArtist slot =>
      if artists_hidden s then Some (s, [])
      else match tapped slot (artists_list_ s) with Some x => ShowAlbumList c (artistid x) s | None => Some (s, []) end
  | TapAlbum slot =>
      if albums_hidden s then Some (s, [])
      else match tapped slot (albums_list_ s) with Some x => ShowSongList c (albumid x) s | None => Some (s, []) end
  | TapSong slot =>
      if songs_hidden s then Some (s, [])
      else match tapped slot (songs_list_ s) with
           | Some x => Some (s, [CallOpenLibraryItem "songid" (songid x) false; CallGoTo kKodiNowPlaying])
           | None => Some (s, [])
           end
  | TapAlbumsBack => if albums_hidden s then Some (s, []) else s ← ShowArtistList c s; Some (s, [])
  | TapSongsBack => if songs_hidden s then Some (s, []) else s ← OnSongsBackClicked c s; Some (s, [])
  end.

#[export] Instance music_screen : BrowseScreen Screen Taps := {|
  create := KodiMusicScreen; on_bus := handle_bus; on_shown := OnScreenLoadStart; on_scroll := OnScreenScrolled;
  on_tap := handle_tap; hint_visible := fun s => negb (hint_hidden s);
  levels_visible := fun s => [negb (artists_hidden s); negb (albums_hidden s); negb (songs_hidden s)];
  loader := loader_;
  is_load := fun call => match call with CallLibrary r => bool_decide (r = RequestArtists) | _ => false end |}.
End Screen.
End Music.

(** ** [KodiFilesScreen] *)

Module Files.
Section Screen.
Context `{LvDisplay} `{LvSymbols}.

(** [path_stack_] is outermost first. *)
Record Screen := {
  loader_ : bool; hint_hidden : bool; content_hidden : bool; back_hidden : bool; heading_label_ : string;
  list_ : RowList KodiFileItem; path_stack_ : list (string * string); requested_path_ : string
}.

Inductive Taps := TapItem (slot : nat) | TapBack.

Definition file_label (i : KodiFileItem) : string :=
  (if is_folder i then LV_SYMBOL_DIRECTORY else LV_SYMBOL_FILE) +:+ " " +:+ KodiJson.file_label i.

Definition with_loader (stale : bool) (s : Screen) : Screen :=
  {| loader_ := stale; hint_hidden := hint_hidden s; content_hidden := content_hidden s;
     back_hidden := back_hidden s; heading_label_ := heading_label_ s; list_ := list_ s;
     path_stack_ := path_stack_ s; requested_path_ := requested_path_ s |}.

Definition with_views (hint content : bool) (s : Screen) : Screen :=
  {| loader_ := loader_ s; hint_hidden := hint; content_hidden := content; back_hidden := back_hidden s;
     heading_label_ := heading_label_ s; list_ := list_ s; path_stack_ := path_stack_ s;
     requested_path_ := requested_path_ s |}.

Definition with_list (l : RowList KodiFileItem) (s : Screen) : Screen :=
  {| loader_ := loader_ s; hint_hidden := hint_hidden s; content_hidden := content_hidden s;
     back_hidden := back_hidden s; heading_label_ := heading_label_ s; list_ := l; path_stack_ := path_stack_ s;
     requested_path_ := requested_path_ s |}.

Definition with_stack (stack : list (string * string)) (s : Screen) : Screen :=
  {| loader_ := loader_ s; hint_hidden := hint_hidden s; content_hidden := content_hidden s;
     back_hidden := back_hidden s; heading_label_ := heading_label_ s; list_ := list_ s; path_stack_ := stack;
     requested_path_ := requested_path_ s |}.

Definition with_level (path : string) (heading : string) (no_back : bool) (s : Screen) : Screen :=
  {| loader_ := loader_ s; hint_hidden := hint_hidden s; content_hidden := content_hidden s; back_hidden := no_back;
     heading_label_ := heading; list_ := list_ s; path_stack_ := path_stack_ s; requested_path_ := path |}.

Definition Refresh (c : Ctx) (s : Screen) : option Screen :=
  if IsConnected c then
    let s := with_views true false s in
    l ← refresh_rows c (content_hidden s) (list_ s); Some (with_list l s)
  else Some (with_views false true s).

Definition KodiFilesScreen (c : Ctx) : option Screen :=
  Refresh c {| loader_ := true; hint_hidden := false; content_hidden := false; back_hidden := true;
               heading_label_ := EmptyString; list_ := NewRows; path_stack_ := []; requested_path_ := EmptyString |}.

(** What the current level asks for. *)
Definition level_request (stack : list (string * string)) : LibraryRequest :=
  match last stack with None => RequestFileSources | Some (path, _) => RequestDirectory path end.

Definition RequestCurrentLevel (c : Ctx) (s : Screen) : option (Screen * list KodiCall) :=
  let top := last (path_stack_ s) in
  let path := match top with Some (p, _) => p | None => EmptyString end in
  let heading := match top with Some (_, l) => l | None => EmptyString end in
  l ← clear_rows c (content_hidden s) (list_ s);
  Some (with_level path heading (match top with None => true | Some _ => false end) (with_list l s),
        [CallLibrary (level_request (path_stack_ s))]).

Definition RebuildList (c : Ctx) (items : list KodiFileItem) (truncated : bool) (s : Screen) : option Screen :=
  l ← set_rows file_label c (content_hidden s) items truncated (list_ s); Some (with_list l s).

Definition Enter (c : Ctx) (item : KodiFileItem) (s : Screen) : option (Screen * list KodiCall) :=
  if is_folder item then RequestCurrentLevel c (with_stack (path_stack_ s ++ [(file_path item, KodiJson.file_label item)]) s)
  else Some (s, [CallPlayFile (file_path item); CallGoTo kKodiNowPlaying]).

Definition GoBack (c : Ctx) (s : Screen) : option (Screen * list KodiCall) :=
  match path_stack_ s with
  | [] => Some (s, [])
  | _ => RequestCurrentLevel c (with_stack (removelast (path_stack_ s)) s)
  end.

(** [loader_]'s callbacks request the current level. *)
Definition load_level (load : bool) (c : Ctx) (s : Screen) : option (Screen * list KodiCall) :=
  if load then RequestCurrentLevel c s else Some (s, []).

(** [state_sub_] and [files_sub_]: a reply for another level is ignored. *)
Definition handle_bus (c : Ctx) (ev : KodiEvent) (s : Screen) : option (Screen * list KodiCall) :=
  match ev with
  | KodiConnectionStateChangedEvent st =>
      s ← Refresh c s;
      if bool_decide (st = kConnected) then
        let '(load, stale) := Trackers.OnConnected (shown c) (loader_ s) in
        load_level load c (with_loader stale s)
      else Some (s, [])
  | KodiFilesFetchedEvent path items truncated =>
      if String.eqb path (requested_path_ s)
      then s ← RebuildList c items truncated s; Some (with_loader (OnLoaded items truncated (loader_ s)) s, [])
      else Some (s, [])
  | _ => Some (s, [])
  end.

Definition OnScreenLoadStart (c : Ctx) (s : Screen) : option (Screen * list KodiCall) :=
  let '(load, stale) := Trackers.OnShown (IsConnected c) (loader_ s) in
  load_level load c (with_loader stale s).

Definition OnScreenScrolled (c : Ctx) (s : Screen) : option Screen :=
  l ← refresh_rows c (content_hidden s) (list_ s); Some (with_list l s).

Definition handle_tap (c : Ctx) (t : Taps) (s : Screen) : option (Screen * list KodiCall) :=
  match t with
  | TapItem slot =>
      if content_hidden s then Some (s, [])
      else match tapped slot (list_ s) with Some x => Enter c x s | None => Some (s, []) end
  | TapBack => if content_hidden s || back_hidden s then Some (s, []) else GoBack c s
  end.

#[export] Instance files_screen : BrowseScreen Screen Taps := {|
  create := KodiFilesScreen; on_bus := handle_bus; on_shown := OnScreenLoadStart; on_scroll := OnScreenScrolled;
  on_tap := handle_tap; hint_visible := fun s => negb (hint_hidden s);
  levels_visible := fun s => [negb (content_hidden s)]; loader := loader_;
  is_load := fun call => match call with
    | CallLibrary r => bool_decide (lr_kind r = kFileSources \/ lr_kind r = kDirectory)
    | _ => false
    end |}.
End Screen.
End Files.

(** ** [KodiLiveTvScreen] *)

Module LiveTv.
Section Screen.
Context `{LvDisplay}.

Record Screen := {
  loader_ : bool; hint_hidden : bool; groups_hidden : bool; channels_hidden : bool; channels_title_label_ : string;
  groups_list_ : RowList KodiChannelGroup; channels_list_ : RowList KodiChannel; selected_channelgroupid_ : Z
}.

Inductive Taps := TapGroup (slot : nat) | TapChannel (slot : nat) | TapBack.

Definition with_loader (stale : bool) (s : Screen) : Screen :=
  {| loader_ := stale; hint_hidden := hint_hidden s; groups_hidden := groups_hidden s;
     channels_hidden := channels_hidden s; channels_title_label_ := channels_title_label_ s;
     groups_list_ := groups_list_ s; channels_list_ := channels_list_ s;
     selected_channelgroupid_ := selected_channelgroupid_ s |}.

Definition with_views (hint groups channels : bool) (s : Screen) : Screen :=
  {| loader_ := loader_ s; hint_hidden := hint; groups_hidden := groups; channels_hidden := channels;
     channels_title_label_ := channels_title_label_ s; groups_list_ := groups_list_ s;
     channels_list_ := channels_list_ s; selected_channelgroupid_ := selected_channelgroupid_ s |}.

Definition with_lists (groups : RowList KodiChannelGroup) (channels : RowList KodiChannel) (s : Screen) : Screen :=
  {| loader_ := loader_ s; hint_hidden := hint_hidden s; groups_hidden := groups_hidden s;
     channels_hidden := channels_hidden s; channels_title_label_ := channels_title_label_ s; groups_list_ := groups;
     channels_list_ := channels; selected_channelgroupid_ := selected_channelgroupid_ s |}.

Definition refresh_groups (c : Ctx) (s : Screen) : option Screen :=
  l ← refresh_rows c (groups_hidden s) (groups_list_ s); Some (with_lists l (channels_list_ s) s).
Definition refresh_channels (c : Ctx) (s : Screen) : option Screen :=
  l ← refresh_rows c (channels_hidden s) (channels_list_ s); Some (with_lists (groups_list_ s) l s).

Definition Refresh (c : Ctx) (s : Screen) : option Screen :=
  if IsConnected c then refresh_groups c (with_views true false true s) else Some (with_views false true true s).

Definition KodiLiveTvScreen (c : Ctx) : option Screen :=
  Refresh c {| loader_ := true; hint_hidden := false; groups_hidden := false; channels_hidden := true;
               channels_title_label_ := EmptyString; groups_list_ := NewRows; channels_list_ := NewRows;
               selected_channelgroupid_ := -1 |}.

Definition RebuildGroupList (c : Ctx) (groups : list KodiChannelGroup) (truncated : bool) (s : Screen) : option Screen :=
  let s := with_loader (OnLoaded groups truncated (loader_ s)) s in
  l ← set_rows group_label c (groups_hidden s) groups truncated (groups_list_ s); Some (with_lists l (channels_list_ s) s).

Definition RebuildChannelList (c : Ctx) (channels : list KodiChannel) (truncated : bool) (s : Screen) : option Screen :=
  l ← set_rows channel_label c (channels_hidden s) channels truncated (channels_list_ s);
  Some (with_lists (groups_list_ s) l s).

Definition ShowGroupList (c : Ctx) (s : Screen) : option Screen :=
  let s := with_views (hint_hidden s) (groups_hidden s) true s in
  if IsConnected c then refresh_groups c (with_views (hint_hidden s) false (channels_hidden s) s) else Some s.

Definition select_group (id : Z) (label : string) (s : Screen) : Screen :=
  {| loader_ := loader_ s; hint_hidden := hint_hidden s; groups_hidden := groups_hidden s;
     channels_hidden := channels_hidden s; channels_title_label_ := label; groups_list_ := groups_list_ s;
     channels_list_ := channels_list_ s; selected_channelgroupid_ := id |}.

Definition ShowChannelList (c : Ctx) (id : Z) (s : Screen) : option (Screen * list KodiCall) :=
  match List.find (fun g => channelgroupid g =? id) (vec (groups_list_ s)) with
  | None => Some (s, [])
  | Some g =>
      let s := select_group id (group_label g) s in
      l ← clear_rows c (channels_hidden s) (channels_list_ s);
      Some (with_views (hint_hidden s) true false (with_lists (groups_list_ s) l s), [CallLibrary (RequestChannels id)])
  end.

(** The three subscriptions: channels of a group that is not open are ignored. *)
Definition handle_bus (c : Ctx) (ev : KodiEvent) (s : Screen) : option (Screen * list KodiCall) :=
  match ev with
  | KodiConnectionStateChangedEvent st =>
      s ← Refresh c s;
      if bool_decide (st = kConnected) then
        let '(load, stale) := Trackers.OnConnected (shown c) (loader_ s) in
        Some (with_loader stale s, loads load RequestChannelGroups)
      else Some (s, [])
  | KodiChannelGroupsFetchedEvent groups truncated => s ← RebuildGroupList c groups truncated s; Some (s, [])
  | KodiChannelsFetchedEvent id channels truncated =>
      if id =? selected_channelgroupid_ s
      then s ← RebuildChannelList c channels truncated s; Some (s, []) else Some (s, [])
  | _ => Some (s, [])
  end.

Definition OnScreenLoadStart (c : Ctx) (s : Screen) : option (Screen * list KodiCall) :=
  let '(load, stale) := Trackers.OnShown (IsConnected c) (loader_ s) in
  Some (with_loader stale s, loads load RequestChannelGroups).

Definition OnScreenScrolled (c : Ctx) (s : Screen) : option Screen :=
  s ← refresh_groups c s; refresh_channels c s.

Definition handle_tap (c : Ctx) (t : Taps) (s : Screen) : option (Screen * list KodiCall) :=
  match t with
  | TapGroup slot =>
      if groups_hidden s then Some (s, [])
      else match tapped slot (groups_list_ s) with Some x => ShowChannelList c (channelgroupid x) s | None => Some (s, []) end
  | TapChannel slot =>
      if channels_hidden s then Some (s, [])
      else match tapped slot (channels_list_ s) with
           | Some x => Some (s, [CallOpenLibraryItem "channelid" (channelid x) false; CallGoTo kKodiNowPlaying])
           | None => Some (s, [])
           end
  | TapBack => if channels_hidden s then Some (s, []) else s ← ShowGroupList c s; Some (s, [])
  end.

#[export] Instance live_tv_screen : BrowseScreen Screen Taps := {|
  create := KodiLiveTvScreen; on_bus := handle_bus; on_shown := OnScreenLoadStart; on_scroll := OnScreenScrolled;
  on_tap := handle_tap; hint_visible := fun s => negb (hint_hidden s);
  levels_visible := fun s => [negb (groups_hidden s); negb (channels_hidden s)]; loader := loader_;
  is_load := fun call => match call with CallLibrary r => bool_decide (r = RequestChannelGroups) | _ => false end |}.
End Screen.
End LiveTv.

(** ** A browse screen beside the client

    The client's thread updates its snapshot and posts an event when the connection state
    changes ([Kodi.SetState]); the UI thread runs the posted events in order, some time
    later, between the user's actions. [loaded] records whether the screen's list was
    asked for since the client last became connected. *)

Record Link (Sc : Type) := {
  client : KodiSnapshot; posted : list KodiConnectionState; active : bool; browser : Sc; loaded : bool
}.
Arguments client {Sc}. Arguments posted {Sc}. Arguments active {Sc}. Arguments browser {Sc}. Arguments loaded {Sc}.

Inductive LinkEvent (T : Type) := ClientSets (s : KodiSnapshot) | Delivers | Opens | Leaves | Other (i : Input T).
Arguments ClientSets {T}. Arguments Delivers {T}. Arguments Opens {T}. Arguments Leaves {T}. Arguments Other {T}.

Section Link.
Context `{BrowseScreen Sc T}.
Variable top : Z.

Definition ctx_of (l : Link Sc) : Ctx := {| snapshot := client l; shown := active l; list_top := top |}.

Definition to_browser (i : Input T) (l : Link Sc) : option (Link Sc) :=
  '(s, calls) ← step (ctx_of l) i (browser l);
  Some {| client := client l; posted := posted l; active := active l; browser := s;
          loaded := loaded l || existsb is_load calls |}.

Definition client_sets (snap : KodiSnapshot) (l : Link Sc) : Link Sc :=
  let changed := negb (bool_decide (state snap = state (client l))) in
  {| client := snap; posted := if changed then posted l ++ [state snap] else posted l; active := active l;
     browser := browser l;
     loaded := if changed && bool_decide (state snap = kConnected) then false else loaded l |}.

Definition with_active (b : bool) (l : Link Sc) : Link Sc :=
  {| client := client l; posted := posted l; active := b; browser := browser l; loaded := loaded l |}.

Definition with_posted (p : list KodiConnectionState) (l : Link Sc) : Link Sc :=
  {| client := client l; posted := p; active := active l; browser := browser l; loaded := loaded l |}.

(** State events come from the queue and [Shown] from [Opens]; as [Other] inputs they do nothing. *)
Definition link_step (ev : LinkEvent T) (l : Link Sc) : option (Link Sc) :=
  match ev with
  | ClientSets snap => Some (client_sets snap l)
  | Delivers =>
      match posted l with
      | [] => Some l
      | st :: rest => to_browser (Bus (KodiConnectionStateChangedEvent st)) (with_posted rest l)
      end
  | Opens => if active l then Some l else to_browser Shown (with_active true l)
  | Leaves => Some (with_active false l)
  | Other (Bus (KodiConnectionStateChangedEvent _)) | Other Shown => Some l
  | Other i => to_browser i l
  end.

Fixpoint link_run (evs : list (LinkEvent T)) (l : Link Sc) : option (Link Sc) :=
  match evs with [] => Some l | ev :: rest => l' ← link_step ev l; link_run rest l' end.

(** The screen is created while another one is active. *)
Definition link_start (snap : KodiSnapshot) : option (Link Sc) :=
  s ← create {| snapshot := snap; shown := false; list_top := top |};
  Some {| client := snap; posted := []; active := false; browser := s; loaded := false |}.
End Link.
