(* ===== verification/KodiPlayback.v ===== *)
(** KodiPlayback: the playback and the remote screen of Kodi.

    Models [src/src/ui/screens/now_playing_screen.cpp], [kodi_remote_screen.cpp] and
    [kodi_busy_hint.cpp], and what the calls of all the Kodi screens put on the client's
    queues ([perform]). The progress bar casts a [double] that came from Kodi to an integer:
    where that cast is undefined the model has no result ([None]). *)
From Stdlib Require Import SpecFloat.
From S2P Require Import Prelude Json Double Text Ui KodiJson KodiTypes Kodi Display KodiScreens.

(** What a call does to the client. *)
Section Perform.
Context {E : Type} `{JsonCodec}.

Definition perform (now : Z) (c : KodiCall) : World (E := E) -> World (E := E) :=
  match c with
  | CallLibrary r => EnqueueLibraryRequest r
  | CallOpenLibraryItem field id resume => EnqueueCommand (OpenLibraryItem field id resume now)
  | CallPlayFile path => EnqueueCommand (PlayFile path now)
  | CallPlayPause => EnqueueCommand (PlayPause now)
  | CallStopPlayback => EnqueueCommand (StopPlayback now)
  | CallSeekStep forward => EnqueueCommand (SeekStep forward now)
  | CallVolumeStep up => EnqueueCommand (VolumeStep up now)
  | CallToggleMute => EnqueueCommand (ToggleMute now)
  | CallSendInput input => EnqueueCommand (SendInput input now)
  | CallGoTo _ => fun w => w
  end.
End Perform.

(** ** [NowPlayingScreen] *)

Module NowPlaying.

Definition kBarRange : Z := 1000.

Inductive Action :=
  | kPlayPause | kStop | kSeekBack | kSeekForward | kVolumeDown | kVolumeUp | kMute | kOpenRemote | kOpenMovies
  | kOpenTvShows | kOpenMusic | kOpenFiles | kOpenLiveTv.

Record Screen := {
  hint_hidden : bool; content_hidden : bool; busy_hint_hidden : bool; subtitle_label_ : string; progress_bar_ : Z;
  time_label_ : string; play_pause_label_ : string; seek_disabled : bool
}.

(** [kBarRange / 100.0], a constant. *)
Definition kBarScale : spec_float := SFdiv prec emax (double_of_Z kBarRange) (double_of_Z 100).

Definition bar_value (np : KodiNowPlaying) : option Z :=
  if 0 <? duration_ms np then v ← int32_of_double (SFmul prec emax (percent np) kBarScale); Some (clamp v 0 kBarRange)
  else Some 0.

Section Screen.
Context `{LvSymbols}.

Definition Refresh (snap : KodiSnapshot) (s : Screen) : option Screen :=
  if negb (bool_decide (state snap = kConnected)) then
    Some {| hint_hidden := false; content_hidden := true; busy_hint_hidden := busy_hint_hidden s;
            subtitle_label_ := subtitle_label_ s; progress_bar_ := progress_bar_ s; time_label_ := time_label_ s;
            play_pause_label_ := play_pause_label_ s; seek_disabled := seek_disabled s |}
  else
    let np := now_playing snap in
    bar ← bar_value np;
    Some {| hint_hidden := true; content_hidden := false; busy_hint_hidden := negb (library_busy snap);
            subtitle_label_ := KodiNowPlayingSubtitle np; progress_bar_ := bar;
            time_label_ := FormatKodiClock (position_ms np) +:+ " / " +:+ FormatKodiClock (duration_ms np);
            play_pause_label_ := if bool_decide (playback np = kPlaying) then LV_SYMBOL_PAUSE else LV_SYMBOL_PLAY;
            seek_disabled := negb (can_seek np) |}.

Definition NowPlayingScreen (snap : KodiSnapshot) : option Screen :=
  Refresh snap {| hint_hidden := false; content_hidden := false; busy_hint_hidden := true; subtitle_label_ := "Text";
                  progress_bar_ := 0; time_label_ := "0:00 / 0:00"; play_pause_label_ := LV_SYMBOL_PLAY; seek_disabled := false |}.

(** [state_sub_] and [now_playing_sub_]. *)
Definition handle_bus (snap : KodiSnapshot) (ev : KodiEvent) (s : Screen) : option Screen :=
  match ev with KodiConnectionStateChangedEvent _ | KodiNowPlayingChangedEvent => Refresh snap s | _ => Some s end.

Definition OnActionClicked (a : Action) : list KodiCall :=
  match a with
  | kPlayPause => [CallPlayPause]
  | kStop => [CallStopPlayback]
  | kSeekBack => [CallSeekStep false]
  | kSeekForward => [CallSeekStep true]
  | kVolumeDown => [CallVolumeStep false]
  | kVolumeUp => [CallVolumeStep true]
  | kMute => [CallToggleMute]
  | kOpenRemote => [CallGoTo kKodiRemote]
  | kOpenMovies => [CallGoTo kKodiMovies]
  | kOpenTvShows => [CallGoTo kKodiTvShows]
  | kOpenMusic => [CallGoTo kKodiMusic]
  | kOpenFiles => [CallGoTo kKodiFiles]
  | kOpenLiveTv => [CallGoTo kKodiLiveTv]
  end.

(** A click on a button: LVGL sends none to one that is hidden or disabled. *)
Definition click (a : Action) (s : Screen) : list KodiCall :=
  let disabled := match a with kSeekBack | kSeekForward => seek_disabled s | _ => false end in
  if content_hidden s || disabled then [] else OnActionClicked a.
End Screen.
End NowPlaying.

(** ** [KodiRemoteScreen] *)

Module Remote.
Record Screen := { hint_hidden : bool; content_hidden : bool; busy_hint_hidden : bool }.

Section Screen.
Context `{LvSymbols}.

(** The rows of buttons, [None] for a spacer. *)
Definition layout : list (list (option (string * KodiInput))) :=
  [[None; Some (LV_SYMBOL_UP, kUp); None];
   [Some (LV_SYMBOL_LEFT, kLeft); Some ("OK", kSelect); Some (LV_SYMBOL_RIGHT, kRight)];
   [None; Some (LV_SYMBOL_DOWN, kDown); None];
   [Some (LV_SYMBOL_LEFT +:+ " Back", kBack); Some (LV_SYMBOL_HOME, kHome); Some ("Info", kInfo); Some ("OSD", kShowOsd);
    Some ("Menu", kContextMenu)]].

Definition Refresh (snap : KodiSnapshot) (s : Screen) : Screen :=
  let connected := bool_decide (state snap = kConnected) in
  {| hint_hidden := connected; content_hidden := negb connected; busy_hint_hidden := negb (library_busy snap) |}.

Definition KodiRemoteScreen (snap : KodiSnapshot) : Screen :=
  Refresh snap {| hint_hidden := false; content_hidden := false; busy_hint_hidden := true |}.

Definition handle_bus (snap : KodiSnapshot) (ev : KodiEvent) (s : Screen) : Screen :=
  match ev with KodiConnectionStateChangedEvent _ | KodiNowPlayingChangedEvent => Refresh snap s | _ => s end.

Definition OnInputClicked (input : KodiInput) (s : Screen) : list KodiCall :=
  if content_hidden s then [] else [CallSendInput input].
End Screen.
End Remote.

(** ** Lemmas *)

Import NowPlaying.

Lemma bar_scale : kBarScale = S754_finite false 5629499534213120 (-49) /\ double_of_Z 100 = S754_finite false 7036874417766400 (-46).
Proof. by vm_compute. Qed.

(** Neither negative nor above 100. *)
Definition is_percentage (f : spec_float) : Prop :=
  fits f /\ SFleb (S754_zero false) f = true /\ SFleb f (double_of_Z 100) = true.

(** A percentage is zero, or a mantissa in units of at most that of 100. *)
Lemma percentage_finite f : is_percentage f ->
  (exists s, f = S754_zero s) \/ exists m e, f = S754_finite false m e /\ -1074 <= e <= -46 /\ Z.pos m < 2 ^ prec.
Proof.
  destruct bar_scale as [_ E100]. intros (Hf & H0 & H1). rewrite E100 in H1. destruct f as [s|s| |s m e]; [by left; exists s| | |].
  - destruct s; discriminate.
  - discriminate.
  - right. destruct s; [discriminate|]. destruct Hf as [Hm He]. exists m, e. split_and!; try done.
    unfold SFleb, SFcompare in H1. destruct (Z.compare_spec e (-46)); [lia|lia|discriminate].
Qed.

(** The scaled percentage is far inside an [int32_t]. *)
Lemma scaled_range f : is_percentage f ->
  exists v, int32_of_double (SFmul prec emax f kBarScale) = Some v /\ 0 <= v <= INT_MAX.
Proof.
  intros Hf. destruct bar_scale as [-> _]. assert (H0 : 0 <= 0 <= INT_MAX) by (unfold INT_MAX; lia).
  destruct (percentage_finite f Hf) as [[s ->]|(m & e & -> & He & Hm)]; [exists 0; by destruct s|].
  cbn [SFmul xorb]. set (p := (m * 5629499534213120)%positive). set (E := e + -49).
  assert (Hp : Z.pos p < 2 ^ 106).
  { unfold p. rewrite Pos2Z.inj_mul. unfold prec in Hm. change (2 ^ 53) with 9007199254740992 in Hm.
    change (2 ^ 106) with 81129638414606681695789005144064. lia. }
  pose proof (binary_round_aux_le p E) as Hr. pose proof (binary_round_aux_finite false p E Hp ltac:(lia)) as Hfin.
  destruct (binary_round_aux _ _ _ _ _ _) as [s|s| |s mr er]; [by exists 0|done|done|]. destruct Hr as (-> & HE & Hr).
  assert (Hn : places (Z.pos p) E <= Z.max 53 (-1074 - E)).
  { pose proof (Zdigits2_le (Z.pos p) 106 ltac:(lia)). unfold places, prec. lia. }
  assert (Hb : 0 <= double_trunc (S754_finite false mr er) <= INT_MAX).
  { apply (double_trunc_le mr E er (Z.pos p + 2 ^ places (Z.pos p) E)); [done|lia|done|].
    assert (H1 : 2 ^ 106 <= 2 ^ (- E + 11)) by (apply Z.pow_le_mono_r; lia).
    assert (H2 : 2 ^ places (Z.pos p) E <= 2 ^ (- E)) by (apply Z.pow_le_mono_r; lia).
    rewrite Z.pow_add_r in H1 by lia. unfold INT_MAX. change (2 ^ 11) with 2048 in H1. pose proof (Z.pow_nonneg 2 (- E)). lia. }
  exists (double_trunc (S754_finite false mr er)). split; [|done]. unfold int32_of_double. cbv zeta.
  assert ((INT_MIN <=? double_trunc (S754_finite false mr er)) && (double_trunc (S754_finite false mr er) <=? INT_MAX) = true) as ->; [|done].
  unfold INT_MIN. lia.
Qed.

(** ** Properties *)

(** C30: The progress bar needs a percentage: for any percentage Kodi reports between 0 and 100 the
    cast is defined and the bar is within its range; but what Kodi reports is not checked, and
    for ten thousand million percent, which is read from the reply as it is, the cast of a
    connected screen with something playing is undefined. *)
Theorem progress_bar_needs_percentage `{LvSymbols} (snap : KodiSnapshot) (s : Screen) :
  state snap = kConnected -> 0 < duration_ms (now_playing snap) ->
  (is_percentage (percent (now_playing snap)) ->
   exists s', Refresh snap s = Some s' /\ 0 <= progress_bar_ s' <= kBarRange) /\
  (percent (now_playing snap) = GetDouble (JObject [("percentage", JInt 10000000000)]) "percentage" (S754_zero false) ->
   Refresh snap s = None).
Proof.
  intros Hc Hd. unfold Refresh. rewrite (bool_decide_eq_true_2 _ Hc). cbn [negb]. unfold bar_value. rewrite (proj2 (Z.ltb_lt _ _) Hd). split.
  - intros Hp. destruct (scaled_range _ Hp) as (v & -> & _). cbn. eexists. split; [reflexivity|]. apply clamp_bounds. unfold kBarRange. lia.
  - intros ->. vm_compute. reflexivity.
Qed.

(** Ninety minutes, of which 45 have played. *)
Definition half_time (p : spec_float) : KodiSnapshot :=
  {| state := kConnected; resolved_host := EmptyString; target_configured := true; selected_uuid := EmptyString;
     discovered := []; app_version := EmptyString; volume := 50; muted := false;
     now_playing := {| playback := kPlaying; speed := 1; identity := identity nothing_playing; position_ms := 2700000;
                       duration_ms := 5400000; percent := p; can_seek := true |};
     library_busy := false |}.

Lemma progress_bar_needs_percentage_witness :
  exists s0 s, NowPlayingScreen (H := plain_symbols) (half_time (S754_zero false)) = Some s0 /\
    Refresh (H := plain_symbols) (half_time (double_of_Z 50)) s0 = Some s /\ progress_bar_ s = 500 /\ time_label_ s = "45:00 / 1:30:00" /\
    Refresh (H := plain_symbols) (half_time (double_of_Z 10000000000)) s0 = None.
Proof.
  eexists _. destruct (progress_bar_needs_percentage (H := plain_symbols) (half_time (double_of_Z 50))
    {| hint_hidden := true; content_hidden := false; busy_hint_hidden := true; subtitle_label_ := "Playing"; progress_bar_ := 0;
       time_label_ := "45:00 / 1:30:00"; play_pause_label_ := "-"; seek_disabled := false |} eq_refl eq_refl) as [H1 _].
  destruct H1 as (s & Hs & _).
  { split; [split; vm_compute; [reflexivity|discriminate]|]. split; vm_compute; reflexivity. }
  destruct (progress_bar_needs_percentage (H := plain_symbols) (half_time (double_of_Z 10000000000))
    {| hint_hidden := true; content_hidden := false; busy_hint_hidden := true; subtitle_label_ := "Playing"; progress_bar_ := 0;
       time_label_ := "45:00 / 1:30:00"; play_pause_label_ := "-"; seek_disabled := false |} eq_refl eq_refl) as [_ H2].
  exists s. split; [reflexivity|]. split; [exact Hs|]. vm_compute in Hs. injection Hs as <-.
  split; [reflexivity|]. split; [reflexivity|]. apply H2. vm_compute. reflexivity.
Defined.
