(* ===== verification/KodiBrowse.v ===== *)
(** KodiBrowse: what the browse screens of [KodiScreens] guarantee.

    The laws of a browse screen ([BrowseLaws]) are proved for each of the five screens by
    an invariant over the events it was sent, and the theorems about all of them are
    proved from the laws. *)
From S2P Require Import Prelude Text Ui Dashboard KodiJson KodiTypes Kodi Display KodiScreens.

(** ** Lists *)

Section Rows.
Context `{LvDisplay} {T : Type} (label : T -> string).

Record rows_ok (b : RowList T) : Prop := {
  rows_list : VirtualList.list_ok lv_vertical_resolution (rows b);
  rows_count : VirtualList.count_ (rows b) = Z.of_nat (List.length (vec b));
  rows_label : 0 < VirtualList.count_ (rows b) ->
    VirtualList.label_at_ (rows b) = Some (label_at label (vec b)) /\ VirtualList.on_select_ (rows b) = true;
  rows_shown : Forall (VirtualList.row_shown (rows b)) (VirtualList.pool_ (rows b))
}.

Lemma new_rows_ok : rows_ok NewRows.
Proof. split; [apply VirtualList.new_list_ok|done|done|constructor]. Qed.

Lemma set_rows_ok c h items truncated b : rows_ok b ->
  exists b', set_rows label c h items truncated b = Some b' /\ vec b' = items /\ rows_ok b'.
Proof.
  intros [[_ _ Hp Hs] _ _ _]. unfold set_rows, VirtualList.SetItems.
  edestruct (VirtualList.Rebind_rows_shown true lv_vertical_resolution (layout c h)) as (slots & -> & Hok & Hsh).
  6: { cbn. eexists. split_and!; [reflexivity|done|]. destruct Hok as [H1 H2 H3 H4]. by split. }
  - apply lv_resolution_positive.
  - cbn. lia.
  - intros _. cbn. eauto.
  - unfold VirtualList.EnsurePool. cbn. rewrite length_map, length_app, repeat_length. lia.
  - done.
Qed.

Lemma clear_rows_ok c h b : rows_ok b -> exists b', clear_rows c h b = Some b' /\ vec b' = [] /\ rows_ok b'.
Proof.
  intros [[_ _ Hp Hs] _ _ _]. unfold clear_rows, VirtualList.Clear.
  edestruct (VirtualList.Rebind_rows_shown true lv_vertical_resolution (layout c h)) as (slots & -> & Hok & Hsh).
  6: { cbn. eexists. split_and!; [reflexivity|done|]. by split. }
  - apply lv_resolution_positive.
  - done.
  - done.
  - cbn. unfold VirtualList.MaxVisibleRows. repeat case_match; lia.
  - done.
Qed.

Lemma refresh_rows_ok c h b : rows_ok b -> exists b', refresh_rows c h b = Some b' /\ vec b' = vec b /\ rows_ok b'.
Proof.
  intros [[H1 H2 H3 H4] Hc Hl _]. unfold refresh_rows, VirtualList.Refresh.
  edestruct (VirtualList.Rebind_rows_shown false lv_vertical_resolution (layout c h)) as (slots & -> & Hok & Hsh);
    [apply lv_resolution_positive|done..|].
  cbn. eexists. split_and!; [reflexivity|done|]. by split.
Qed.

(** A tap selects the item whose label the button shows, and every visible button selects one. *)
Lemma tapped_ok slot b x : rows_ok b -> tapped slot b = Some x ->
  x ∈ vec b /\ exists s, VirtualList.pool_ (rows b) !! slot = Some s /\ VirtualList.hidden s = false /\ VirtualList.text s = label x.
Proof.
  intros [_ Hc Hl Hs] Ht. unfold tapped in Ht. destruct (VirtualList.pool_ (rows b) !! slot) as [s|] eqn:Es; [|done].
  cbn in Ht. destruct (VirtualList.hidden s) eqn:Eh; [done|]. unfold VirtualList.OnRowClicked in Ht.
  destruct (Forall_lookup_1 _ _ _ _ Hs Es Eh) as (r & Hr & f & Hf & Htext & _ & Hu).
  destruct (Hl ltac:(lia)) as [Hlab _]. rewrite Hlab in Hf. injection Hf as <-. rewrite Hu in Ht.
  destruct (_ && _); [|done]. cbn in Ht. split; [by eapply list_elem_of_lookup_2|]. exists s. split_and!; [done|done|].
  rewrite Htext. unfold label_at. by rewrite Ht.
Qed.

Lemma tapped_total slot b s : rows_ok b ->
  VirtualList.pool_ (rows b) !! slot = Some s -> VirtualList.hidden s = false -> exists x, tapped slot b = Some x.
Proof.
  intros [_ Hc Hl Hs] Es Eh. unfold tapped. rewrite Es. cbn. rewrite Eh. unfold VirtualList.OnRowClicked.
  destruct (Forall_lookup_1 _ _ _ _ Hs Es Eh) as (r & Hr & f & _ & _ & _ & ->). destruct (Hl ltac:(lia)) as [_ ->].
  rewrite (proj2 (Z.ltb_lt _ _)) by lia. cbn. apply lookup_lt_is_Some_2. lia.
Qed.
End Rows.

(** ** The laws of a browse screen *)

(** The events an input delivers. *)
Definition heard_by {T} (i : Input T) : list KodiEvent := match i with Bus ev => [ev] | _ => [] end.
Definition heard {T} (inputs : list (Ctx * Input T)) : list KodiEvent := concat (map (fun ci => heard_by ci.2) inputs).

Definition views `{BrowseScreen Sc T} (s : Sc) : list bool := hint_visible s :: levels_visible s.

(** How many of the hint and the levels show. *)
Definition showing (l : list bool) : nat := List.length (List.filter id l).

(** What an input does to the loader, and which inputs load; a connection change leaves one
    view, the hint iff the client is not connected. *)
Definition obeys `{BrowseScreen Sc T} (c : Ctx) (i : Input T) (s s' : Sc) (calls : list KodiCall) : Prop :=
  match i with
  | Bus (KodiConnectionStateChangedEvent st) =>
      showing (views s') = 1%nat /\ hint_visible s' = negb (IsConnected c) /\
      (existsb is_load calls, loader s') =
      if bool_decide (st = kConnected) then Trackers.OnConnected (shown c) (loader s) else (false, loader s)
  | Shown => (existsb is_load calls, loader s') = Trackers.OnShown (IsConnected c) (loader s)
  | _ => loader s' = loader s \/ loader s' = true
  end.

Class BrowseLaws (Sc T : Type) `{!BrowseScreen Sc T} := {
  inv : list KodiEvent -> Sc -> Prop;
  create_ok : forall c, exists s, create c = Some s /\ inv [] s /\ loader s = true;
  step_ok : forall h c i s, inv h s ->
    exists s' calls, step c i s = Some (s', calls) /\ inv (h ++ heard_by i) s' /\ obeys c i s s' calls;
  inv_views : forall h s, inv h s -> (showing (views s) <= 1)%nat
}.

Section Laws.
Context `{BrowseLaws Sc T}.

Lemma browse_run_ok inputs : forall h s, inv h s ->
  exists s' calls, run inputs s = Some (s', calls) /\ inv (h ++ heard inputs) s'.
Proof.
  induction inputs as [|[c i] inputs IH]; intros h s Hs.
  { exists s, []. rewrite app_nil_r. done. }
  destruct (step_ok h c i s Hs) as (s1 & calls & E & H1 & _). destruct (IH _ _ H1) as (s2 & more & E2 & H2).
  exists s2, (calls ++ more). cbn [run]. rewrite E. cbn. rewrite E2. split; [done|]. unfold heard. cbn. by rewrite app_assoc.
Qed.

(** A screen from its creation. *)
Definition opened (c : Ctx) (inputs : list (Ctx * Input T)) : option (Sc * list KodiCall) :=
  s ← create c; run inputs s.

Lemma opened_ok c inputs : exists s calls, opened c inputs = Some (s, calls) /\ inv (heard inputs) s.
Proof.
  unfold opened. destruct (create_ok c) as (s & -> & Hs & _). cbn. destruct (browse_run_ok inputs [] s Hs) as (s' & calls & E & H').
  by exists s', calls.
Qed.
End Laws.

(** ** The five screens *)

(** Runs a handler whose list operations succeed. *)
Ltac rows_step := cbv zeta;
  match goal with
  | Hr : rows_ok ?label _ |- context [refresh_rows ?c ?h ?b] => destruct (refresh_rows_ok label c h b Hr) as (? & -> & ?Hvec & ?)
  | Hr : rows_ok ?label _ |- context [clear_rows ?c ?h ?b] => destruct (clear_rows_ok label c h b Hr) as (? & -> & ?Hvec & ?)
  | Hr : rows_ok ?label _ |- context [set_rows ?label ?c ?h ?l ?t ?b] =>
      destruct (set_rows_ok label c h l t b Hr) as (? & -> & ?Hvec & ?)
  end; cbn [mbind option_bind].

(** Takes a handler apart, up to the screen and the calls it returns. *)
Ltac handler_steps :=
  repeat (cbv zeta; cbn [mbind option_bind];
    first
      [ rows_step
      | match goal with
        | |- exists s' calls, ?X = Some (s', calls) /\ _ =>
            match X with
            | context [Trackers.OnConnected ?a ?b] => let E := fresh "Eload" in destruct (Trackers.OnConnected a b) as [? ?] eqn:E
            | context [Trackers.OnShown ?a ?b] => let E := fresh "Eload" in destruct (Trackers.OnShown a b) as [? ?] eqn:E
            | context [if ?b then _ else _] => let E := fresh "E" in destruct b eqn:E
            | context [match tapped ?n ?b with _ => _ end] => let E := fresh "Etap" in destruct (tapped n b) as [?|] eqn:E
            | context [match List.find ?f ?l with _ => _ end] => let E := fresh "Efind" in destruct (List.find f l) as [?|] eqn:E
            end
        end ]);
  eexists _, _; (split; [reflexivity|]).

Create HintDb browse discriminated.

(** A list is empty or that of a reply heard; an item is one of a reply heard. *)
Definition listed {T} (reply : list T -> bool -> KodiEvent) (h : list KodiEvent) (l : list T) : Prop :=
  l = [] \/ exists truncated, reply l truncated ∈ h.
Definition picked {T} (reply : list T -> bool -> KodiEvent) (h : list KodiEvent) (P : T -> Prop) : Prop :=
  exists l truncated x, reply l truncated ∈ h /\ x ∈ l /\ P x.

Section Heard.
Context {T : Type} (reply : list T -> bool -> KodiEvent) (h h' : list KodiEvent).

Lemma listed_nil : listed reply h [].
Proof. by left. Qed.

Lemma listed_grows l : listed reply h l -> listed reply (h ++ h') l.
Proof. intros [->|[t Ht]]; [by left|]. right. exists t. apply elem_of_app. by left. Qed.

Lemma listed_heard l t : listed reply (h ++ [reply l t]) l.
Proof. right. exists t. apply elem_of_app. right. by apply list_elem_of_singleton. Qed.

Lemma picked_grows P : picked reply h P -> picked reply (h ++ h') P.
Proof. intros (l & t & x & Ht & Hx). exists l, t, x. split; [|done]. apply elem_of_app. by left. Qed.

Lemma picked_listed l x (P : T -> Prop) : listed reply h l -> x ∈ l -> P x -> picked reply (h ++ h') P.
Proof.
  intros [->|[t Ht]] Hx HP; [by apply not_elem_of_nil in Hx|]. exists l, t, x. split; [|done]. apply elem_of_app. by left.
Qed.

(** What [find] by an id returns. *)
Lemma find_picked {A} (key : A -> Z) (l : list A) k x : List.find (fun y => key y =? k) l = Some x -> x ∈ l /\ key x = k.
Proof. intros Hf. apply find_some in Hf as [Hin Hk]. split; [by apply list_elem_of_In|]. by apply Z.eqb_eq. Qed.
End Heard.

#[export] Hint Resolve listed_nil listed_grows listed_heard picked_grows : browse.
#[export] Hint Extern 1 (_ = _) => symmetry; assumption : browse.

Lemma loads_exactly (p : KodiCall -> bool) load r : p (CallLibrary r) = true -> existsb p (loads load r) = load.
Proof. intros Hp. unfold loads. destruct load; cbn; [|done]. by rewrite Hp. Qed.

(** What an input does to the loader and the views. *)
Ltac obeyed :=
  cbn in *; rewrite ?loads_exactly by (by apply bool_decide_eq_true_2);
  repeat match goal with
  | E : bool_decide (_ = kConnected) = _ |- context [bool_decide (_ = kConnected)] => rewrite E
  | E : IsConnected _ = _ |- context [IsConnected _] => rewrite E
  | E : Trackers.OnConnected _ _ = _ |- context [Trackers.OnConnected _ _] => rewrite E
  | E : Trackers.OnShown _ _ = _ |- context [Trackers.OnShown _ _] => rewrite E
  end; unfold OnLoaded, Trackers.MarkStale; repeat case_match; auto.

(** What a screen shows after an input, from what it showed and the events heard. *)
Ltac opened_levels :=
  repeat match goal with
  | Hc : ?p = false -> _ |- _ =>
      let Hp := fresh in
      assert (p = false) as Hp
        by (repeat match goal with E : _ = false |- _ => rewrite E end; rewrite ?andb_false_r; reflexivity);
      specialize (Hc Hp); clear Hp
  | Hc : _ /\ _ |- _ => destruct Hc
  end.

Ltac shown_still :=
  cbn in *;
  repeat match goal with
  | E : vec _ = _ |- _ => rewrite E in *; clear E
  | E : (_ =? _) = true |- _ => apply Z.eqb_eq in E
  | E : (_ =? _)%string = true |- _ => apply String.eqb_eq in E
  | E : _ && _ = true |- _ => apply andb_true_iff in E as [? ?]
  | Hf : List.find _ _ = Some _ |- _ => apply find_picked in Hf as [? ?]
  | Hr : rows_ok _ ?b, Ht : tapped _ ?b = Some _ |- _ => apply (tapped_ok _ _ _ _ Hr) in Ht as [? _]
  end; subst; try done; intros; opened_levels; split_and?; eauto 6 using picked_listed with browse.

(** How many views show, by their cases. *)
Ltac count_views := repeat match goal with b : bool |- _ => destruct b end; cbn in *; first [done|lia].

Ltac tap_cases := first [by shown_still | cbn in *; count_views].

Module MoviesOk.
Section Laws.
Context `{LvDisplay}.
Import Movies.

(** The list is a reply; the open movie is one of a reply, with its title and its resume. *)
Record movies_inv (h : list KodiEvent) (s : Screen) : Prop := {
  mv_rows : rows_ok movie_label (movie_list_ s);
  mv_views : (showing (views s) <= 1)%nat;
  mv_list : listed KodiMoviesFetchedEvent h (vec (movie_list_ s));
  mv_detail : detail_hidden s = false -> picked KodiMoviesFetchedEvent h (fun m =>
    selected_movie_id_ s = movieid m /\ movie_title_label_ s = movie_title m /\
    resume_hidden s = negb (0 <? movie_resume_ms m))
}.

Lemma movies_step h c i s : movies_inv h s ->
  exists s' calls, step c i s = Some (s', calls) /\ movies_inv (h ++ heard_by i) s' /\ obeys c i s s' calls.
Proof.
  intros [Hr Hv Hl Hd]. destruct s as [ld hh lh dh tl rh ml sm]; cbn in Hr, Hv, Hl, Hd.
  destruct i as [ev| | |t].
  - destruct ev; cbn [step on_bus movies_screen handle_bus]; unfold Refresh, RebuildMovieList; handler_steps;
      (split; [split; shown_still|obeyed]).
  - cbn [step on_shown movies_screen]; unfold OnScreenLoadStart; handler_steps; (split; [split; shown_still|obeyed]).
  - cbn [step on_scroll movies_screen]; unfold OnScreenScrolled; handler_steps; (split; [split; shown_still|obeyed]).
  - cbn [step on_tap movies_screen]; destruct t; unfold handle_tap, ShowMovieDetail, ShowMovieList; handler_steps;
      (split; [split; cbn; tap_cases|try by obeyed]).
Qed.

Lemma movies_create c : exists s, create c = Some s /\ movies_inv [] s /\ loader s = true.
Proof.
  cbn [create movies_screen]. unfold KodiMoviesScreen, Refresh. pose proof (new_rows_ok movie_label).
  destruct (IsConnected c); cbn -[refresh_rows NewRows]; [rows_step|]; eexists; (split; [reflexivity|]); (split; [split|]); shown_still.
Qed.

#[export] Instance movies_laws : BrowseLaws Screen Taps :=
  {| inv := movies_inv; create_ok := movies_create; step_ok := movies_step; inv_views := mv_views |}.
End Laws.
End MoviesOk.

Module TvShowsOk.
Section Laws.
Context `{LvDisplay}.
Import TvShows.

(** What the open level shows is of the selected show, and season, and comes from replies. *)
Record shows_inv (h : list KodiEvent) (s : Screen) : Prop := {
  tv_shows_rows : rows_ok show_label (shows_list_ s);
  tv_seasons_rows : rows_ok season_label (seasons_list_ s);
  tv_episodes_rows : rows_ok episode_label (episodes_list_ s);
  tv_views : (showing (views s) <= 1)%nat;
  tv_shows : listed KodiTvShowsFetchedEvent h (vec (shows_list_ s));
  tv_seasons : listed (KodiSeasonsFetchedEvent (selected_tvshowid_ s)) h (vec (seasons_list_ s));
  tv_show : seasons_hidden s && episodes_hidden s && detail_hidden s = false ->
    seasons_title_label_ s = selected_show_title_ s /\
    picked KodiTvShowsFetchedEvent h (fun t => selected_tvshowid_ s = tvshowid t /\ selected_show_title_ s = show_title_ t);
  tv_episodes : episodes_hidden s && detail_hidden s = false ->
    episodes_title_label_ s = SeasonHeading (selected_show_title_ s) (selected_season_ s) /\
    picked (KodiSeasonsFetchedEvent (selected_tvshowid_ s)) h (fun x => selected_season_ s = season_number x) /\
    listed (KodiEpisodesFetchedEvent (selected_tvshowid_ s) (selected_season_ s)) h (vec (episodes_list_ s));
  tv_detail : detail_hidden s = false ->
    picked (KodiEpisodesFetchedEvent (selected_tvshowid_ s) (selected_season_ s)) h (fun e =>
      selected_episode_id_ s = episodeid e /\ episode_title_label_ s = episode_title e /\
      resume_hidden s = negb (0 <? episode_resume_ms e))
}.

Lemma shows_step h c i s : shows_inv h s ->
  exists s' calls, step c i s = Some (s', calls) /\ shows_inv (h ++ heard_by i) s' /\ obeys c i s s' calls.
Proof.
  intros [Hr1 Hr2 Hr3 Hv Hl1 Hl2 Hs He Hd]. destruct s as [ld hh h1 h2 h3 h4 t1 t2 t3 rh l1 l2 l3 i1 t4 n i2]; cbn in Hr1, Hr2, Hr3, Hv, Hl1, Hl2, Hs, He, Hd.
  destruct i as [ev| | |t].
  - destruct ev; cbn [step on_bus tv_shows_screen handle_bus]; unfold Refresh, RebuildShowList, RebuildSeasonList,
      RebuildEpisodeList, refresh_shows; handler_steps; (split; [split; shown_still|obeyed]).
  - cbn [step on_shown tv_shows_screen]; unfold OnScreenLoadStart; handler_steps; (split; [split; shown_still|obeyed]).
  - cbn [step on_scroll tv_shows_screen]; unfold OnScreenScrolled, refresh_seasons, refresh_episodes, refresh_shows; handler_steps;
      (split; [split; shown_still|obeyed]).
  - cbn [step on_tap tv_shows_screen]; destruct t; unfold handle_tap, ShowSeasonList, ShowEpisodeList, ShowEpisodeDetail,
      ShowShowList, OnEpisodesBackClicked, OnEpisodeDetailBackClicked, refresh_shows, refresh_seasons, refresh_episodes;
      handler_steps; (split; [split; tap_cases|by obeyed]).
Qed.

Lemma shows_create c : exists s, create c = Some s /\ shows_inv [] s /\ loader s = true.
Proof.
  cbn [create tv_shows_screen]. unfold KodiTvShowsScreen, Refresh, refresh_shows. pose proof (new_rows_ok show_label).
  pose proof (new_rows_ok season_label). pose proof (new_rows_ok episode_label).
  destruct (IsConnected c); cbn -[refresh_rows NewRows]; [rows_step|]; eexists; (split; [reflexivity|]); (split; [split|]);
    shown_still.
Qed.

#[export] Instance shows_laws : BrowseLaws Screen Taps :=
  {| inv := shows_inv; create_ok := shows_create; step_ok := shows_step; inv_views := tv_views |}.
End Laws.
End TvShowsOk.

Module MusicOk.

(** The songs of some album a reply gave. *)
Definition songs_listed (h : list KodiEvent) (l : list KodiSong) : Prop :=
  exists album, listed (KodiSongsFetchedEvent album) h l.

Lemma songs_nil h : songs_listed h [].
Proof. exists 0. apply listed_nil. Qed.

Lemma songs_grow h h' l : songs_listed h l -> songs_listed (h ++ h') l.
Proof. intros [album Hl]. exists album. by apply listed_grows. Qed.

Lemma songs_heard h album l t : songs_listed (h ++ [KodiSongsFetchedEvent album l t]) l.
Proof. exists album. apply listed_heard. Qed.

#[export] Hint Resolve songs_nil songs_grow songs_heard : browse.

Section Laws.
Context `{LvDisplay}.
Import Music.

(** The albums are the selected artist's; the songs are of some reply. *)
Record music_inv (h : list KodiEvent) (s : Screen) : Prop := {
  mu_artists_rows : rows_ok artist_name (artists_list_ s);
  mu_albums_rows : rows_ok album_label (albums_list_ s);
  mu_songs_rows : rows_ok song_label (songs_list_ s);
  mu_views : (showing (views s) <= 1)%nat;
  mu_artists : listed KodiArtistsFetchedEvent h (vec (artists_list_ s));
  mu_albums : listed (KodiAlbumsFetchedEvent (selected_artistid_ s)) h (vec (albums_list_ s));
  mu_artist : albums_hidden s && songs_hidden s = false ->
    albums_title_label_ s = selected_artist_name_ s /\
    picked KodiArtistsFetchedEvent h (fun a => selected_artistid_ s = artistid a /\ selected_artist_name_ s = artist_name a);
  mu_songs : songs_listed h (vec (songs_list_ s))
}.

Lemma music_step h c i s : music_inv h s ->
  exists s' calls, step c i s = Some (s', calls) /\ music_inv (h ++ heard_by i) s' /\ obeys c i s s' calls.
Proof.
  intros [Hr1 Hr2 Hr3 Hv Hl1 Hl2 Ha Hs]. destruct s as [ld hh h1 h2 h3 t1 t2 l1 l2 l3 i1 t3].
  cbn in Hr1, Hr2, Hr3, Hv, Hl1, Hl2, Ha, Hs. destruct i as [ev| | |t].
  - destruct ev; cbn [step on_bus music_screen handle_bus]; unfold Refresh, RebuildArtistList, RebuildAlbumList,
      RebuildSongList, refresh_artists; handler_steps; (split; [split; shown_still|obeyed]).
  - cbn [step on_shown music_screen]; unfold OnScreenLoadStart; handler_steps; (split; [split; shown_still|obeyed]).
  - cbn [step on_scroll music_screen]; unfold OnScreenScrolled, refresh_artists, refresh_albums, refresh_songs; handler_steps;
      (split; [split; shown_still|obeyed]).
  - cbn [step on_tap music_screen]; destruct t; unfold handle_tap, ShowAlbumList, ShowSongList, ShowArtistList,
      OnSongsBackClicked, refresh_artists, refresh_albums; handler_steps; (split; [split; tap_cases|by obeyed]).
Qed.

Lemma music_create c : exists s, create c = Some s /\ music_inv [] s /\ loader s = true.
Proof.
  cbn [create music_screen]. unfold KodiMusicScreen, Refresh, refresh_artists. pose proof (new_rows_ok artist_name).
  pose proof (new_rows_ok album_label). pose proof (new_rows_ok song_label).
  destruct (IsConnected c); cbn -[refresh_rows NewRows]; [rows_step|]; eexists; (split; [reflexivity|]); (split; [split|]);
    shown_still.
Qed.

#[export] Instance music_laws : BrowseLaws Screen Taps :=
  {| inv := music_inv; create_ok := music_create; step_ok := music_step; inv_views := mu_views |}.
End Laws.
End MusicOk.

Module LiveTvOk.
Section Laws.
Context `{LvDisplay}.
Import LiveTv.

(** The channels are the selected group's. *)
Record live_tv_inv (h : list KodiEvent) (s : Screen) : Prop := {
  lt_groups_rows : rows_ok group_label (groups_list_ s);
  lt_channels_rows : rows_ok channel_label (channels_list_ s);
  lt_views : (showing (views s) <= 1)%nat;
  lt_groups : listed KodiChannelGroupsFetchedEvent h (vec (groups_list_ s));
  lt_channels : listed (KodiChannelsFetchedEvent (selected_channelgroupid_ s)) h (vec (channels_list_ s));
  lt_group : channels_hidden s = false ->
    picked KodiChannelGroupsFetchedEvent h (fun g =>
      selected_channelgroupid_ s = channelgroupid g /\ channels_title_label_ s = group_label g)
}.

Lemma live_tv_step h c i s : live_tv_inv h s ->
  exists s' calls, step c i s = Some (s', calls) /\ live_tv_inv (h ++ heard_by i) s' /\ obeys c i s s' calls.
Proof.
  intros [Hr1 Hr2 Hv Hl1 Hl2 Hg]. destruct s as [ld hh h1 h2 t1 l1 l2 i1]. cbn in Hr1, Hr2, Hv, Hl1, Hl2, Hg.
  destruct i as [ev| | |t].
  - destruct ev; cbn [step on_bus live_tv_screen handle_bus]; unfold Refresh, RebuildGroupList, RebuildChannelList,
      refresh_groups; handler_steps; (split; [split; shown_still|obeyed]).
  - cbn [step on_shown live_tv_screen]; unfold OnScreenLoadStart; handler_steps; (split; [split; shown_still|obeyed]).
  - cbn [step on_scroll live_tv_screen]; unfold OnScreenScrolled, refresh_groups, refresh_channels; handler_steps;
      (split; [split; shown_still|obeyed]).
  - cbn [step on_tap live_tv_screen]; destruct t; unfold handle_tap, ShowChannelList, ShowGroupList, refresh_groups;
      handler_steps; (split; [split; tap_cases|by obeyed]).
Qed.

Lemma live_tv_create c : exists s, create c = Some s /\ live_tv_inv [] s /\ loader s = true.
Proof.
  cbn [create live_tv_screen]. unfold KodiLiveTvScreen, Refresh, refresh_groups. pose proof (new_rows_ok group_label).
  pose proof (new_rows_ok channel_label).
  destruct (IsConnected c); cbn -[refresh_rows NewRows]; [rows_step|]; eexists; (split; [reflexivity|]); (split; [split|]);
    shown_still.
Qed.

#[export] Instance live_tv_laws : BrowseLaws Screen Taps :=
  {| inv := live_tv_inv; create_ok := live_tv_create; step_ok := live_tv_step; inv_views := lt_views |}.
End Laws.
End LiveTvOk.

Module FilesOk.
Section Laws.
Context `{LvDisplay} `{LvSymbols}.
Import Files.

(** The list, the heading and the Back button are those of the level on top of the stack. *)
Record files_inv (h : list KodiEvent) (s : Screen) : Prop := {
  fi_rows : rows_ok file_label (list_ s);
  fi_views : (showing (views s) <= 1)%nat;
  fi_list : listed (KodiFilesFetchedEvent (requested_path_ s)) h (vec (list_ s));
  fi_level : match last (path_stack_ s) with
             | None => requested_path_ s = EmptyString /\ heading_label_ s = EmptyString /\ back_hidden s = true
             | Some (path, heading) => requested_path_ s = path /\ heading_label_ s = heading /\ back_hidden s = false
             end
}.

Lemma files_grow h h' s : files_inv h s -> files_inv (h ++ h') s.
Proof. intros [H1 H2 H3 H4]. split; auto using listed_grows. Qed.

Lemma level_is_load stack : is_load (BrowseScreen := files_screen) (CallLibrary (level_request stack)) = true.
Proof. apply bool_decide_eq_true_2. unfold level_request. destruct (last stack) as [[path heading]|]; cbn; auto. Qed.

(** A request empties the list and takes the level of the stack. *)
Lemma request_level h c s : rows_ok file_label (list_ s) -> (showing (views s) <= 1)%nat ->
  exists s', RequestCurrentLevel c s = Some (s', [CallLibrary (level_request (path_stack_ s))]) /\ files_inv h s' /\
    loader_ s' = loader_ s /\ views s' = views s.
Proof.
  intros Hr Hv. unfold RequestCurrentLevel. rows_step. eexists. split; [reflexivity|]. split; [|done].
  split; [done|done| |].
  - cbn. rewrite Hvec. apply listed_nil.
  - cbn. by destruct (last (path_stack_ s)) as [[path heading]|].
Qed.

Lemma load_level_ok h load c s : files_inv h s -> exists s' calls, load_level load c s = Some (s', calls) /\
  files_inv h s' /\ existsb is_load calls = load /\ loader_ s' = loader_ s /\ views s' = views s.
Proof.
  intros Hs. destruct load; cbn [load_level]; [|by exists s, []].
  destruct (request_level h c s) as (s' & -> & Hi & Hl & Hv); [apply Hs..|]. eexists _, _. split; [reflexivity|].
  split_and!; try done. cbn [existsb]. by rewrite level_is_load.
Qed.

Lemma files_refresh h c s : files_inv h s -> exists s', Refresh c s = Some s' /\ files_inv h s' /\ loader_ s' = loader_ s /\
  showing (views s') = 1%nat /\ hint_visible s' = negb (IsConnected c).
Proof.
  intros [Hr Hv Hl Hg]. unfold Refresh. destruct (IsConnected c); [cbv zeta; cbn [list_ with_views]; rows_step|];
    eexists; (split; [reflexivity|]); (split; [split; shown_still|done]).
Qed.

Lemma files_loader h b s : files_inv h s -> files_inv h (with_loader b s).
Proof. intros [H1 H2 H3 H4]. by split. Qed.

Lemma files_bus h c ev s : files_inv h s ->
  exists s' calls, handle_bus c ev s = Some (s', calls) /\ files_inv (h ++ [ev]) s' /\ obeys c (Bus ev) s s' calls.
Proof.
  intros Hs. assert (files_inv (h ++ [ev]) s) as Hs' by by apply files_grow.
  destruct ev; cbn [handle_bus]; try (exists s, []; split; [reflexivity|split; [done|by left]]).
  - destruct (files_refresh _ c _ Hs') as (s1 & -> & H1 & El & Hv & Hh). cbn [mbind option_bind]. unfold obeys.
    change (loader s) with (loader_ s). rewrite <- El. case_bool_decide; [|by exists s1, []].
    destruct (Trackers.OnConnected (shown c) (loader_ s1)) as [load stale] eqn:E.
    destruct (load_level_ok _ load c _ (files_loader _ stale _ H1)) as (s2 & calls & -> & Hi2 & Hc & Hl & Hv2).
    eexists _, _. split; [reflexivity|]. rewrite Hv2, Hc. change (loader s2) with (loader_ s2). rewrite Hl.
    split_and!; try done. rewrite <- Hh. injection Hv2 as Hh2 _. cbn. by rewrite Hh2.
  - destruct Hs as [Hr Hv Hl Hg]. unfold RebuildList. handler_steps; (split; [split; shown_still|obeyed]).
Qed.

Lemma enter_level h c t stack s : files_inv h s ->
  exists s' calls, RequestCurrentLevel c (with_stack stack s) = Some (s', calls) /\ files_inv h s' /\ obeys c (Tap t) s s' calls.
Proof.
  intros [Hr Hv _ _]. destruct (request_level h c (with_stack stack s) Hr Hv) as (s' & E & Hi & Hl & _).
  eexists _, _. split; [exact E|]. split; [done|by left].
Qed.

Lemma files_step h c i s : files_inv h s ->
  exists s' calls, step c i s = Some (s', calls) /\ files_inv (h ++ heard_by i) s' /\ obeys c i s s' calls.
Proof.
  intros Hs. destruct i as [ev| | |t].
  - by apply files_bus.
  - cbn [step on_shown files_screen heard_by]. rewrite app_nil_r. unfold OnScreenLoadStart, obeys.
    destruct (Trackers.OnShown (IsConnected c) (loader_ s)) as [load stale] eqn:E.
    destruct (load_level_ok _ load c _ (files_loader _ stale _ Hs)) as (s2 & calls & -> & Hi2 & Hc & Hl & Hv2).
    eexists _, _. split; [reflexivity|]. split; [done|]. rewrite Hc. cbn. by rewrite Hl, E.
  - destruct Hs as [Hr Hv Hl Hg]. cbn [step on_scroll files_screen]; unfold OnScreenScrolled; handler_steps;
      (split; [split; shown_still|obeyed]).
  - cbn [step on_tap files_screen heard_by]. rewrite app_nil_r.
    assert (forall calls, exists s' calls', Some (s, calls) = Some (s', calls') /\ files_inv h s' /\ obeys c (Tap t) s s' calls')
      as Hsame by (intros calls; exists s, calls; split_and!; [done|done|by left]).
    destruct (shown c); [|apply Hsame]. destruct t as [slot|]; cbn [handle_tap]; destruct (content_hidden s); try apply Hsame.
    + destruct (tapped slot (list_ s)) as [x|]; [|apply Hsame]. unfold Enter. destruct (is_folder x); [|apply Hsame].
      by apply enter_level.
    + destruct (back_hidden s); [apply Hsame|]. unfold GoBack. destruct (path_stack_ s); [apply Hsame|]. by apply enter_level.
Qed.

Lemma files_create c : exists s, create c = Some s /\ files_inv [] s /\ loader s = true.
Proof.
  cbn [create files_screen]. unfold KodiFilesScreen, Refresh. pose proof (new_rows_ok file_label).
  destruct (IsConnected c); cbn -[refresh_rows NewRows]; [rows_step|]; eexists; (split; [reflexivity|]); (split; [split|]);
    shown_still.
Qed.

#[export] Instance files_laws : BrowseLaws Screen Taps :=
  {| inv := files_inv; create_ok := files_create; step_ok := files_step; inv_views := fi_views |}.
End Laws.
End FilesOk.

(** ** The link to the client *)

Section LinkLaws.
Context `{BrowseLaws Sc T}.
Variable top : Z.

(** While the client is connected and no [kConnected] event waits, the list was asked for, or
    the loader is due and the screen is not shown. *)
Record link_ok (l : Link Sc) : Prop := {
  link_inv : exists h, inv h (browser l);
  link_due : state (client l) = kConnected -> kConnected ∉ posted l ->
    loaded l = true \/ (loader (browser l) = true /\ active l = false)
}.

Lemma to_browser_ok i l : (exists h, inv h (browser l)) -> exists s calls,
  to_browser top i l = Some {| client := client l; posted := posted l; active := active l; browser := s;
                               loaded := loaded l || existsb is_load calls |} /\
  (exists h, inv h s) /\ obeys (ctx_of top l) i (browser l) s calls.
Proof.
  intros [h Hh]. destruct (step_ok h (ctx_of top l) i _ Hh) as (s & calls & E & Hi & Ho). exists s, calls.
  unfold to_browser. rewrite E. split; [done|]. split; [by eexists|done].
Qed.

Lemma other_ok i l : match i with Bus (KodiConnectionStateChangedEvent _) | Shown => False | _ => True end ->
  link_ok l -> exists l', to_browser top i l = Some l' /\ link_ok l'.
Proof.
  intros Hi [Hinv Hdue]. destruct (to_browser_ok i l Hinv) as (s & calls & -> & Hs & Ho).
  eexists. split; [reflexivity|]. split; [done|]. cbn. intros Hc Hp. destruct (Hdue Hc Hp) as [->|[Hl Ha]]; [by left|right].
  split; [|done]. unfold obeys in Ho. destruct i as [[]| | |]; try done; destruct Ho; congruence.
Qed.

Lemma link_deliver_ok l : link_ok l -> exists l', link_step top Delivers l = Some l' /\ link_ok l'.
Proof.
  intros Hok. pose proof Hok as [Hinv Hdue]. cbn [link_step]. destruct (posted l) as [|st rest] eqn:Ep; [by exists l|].
  destruct (to_browser_ok (Bus (KodiConnectionStateChangedEvent st)) (with_posted rest l) Hinv) as (s & calls & -> & Hs & Ho).
  eexists. split; [reflexivity|]. split; [done|]. cbn in *. intros Hc Hp. destruct Ho as (_ & _ & Ho).
  case_bool_decide as Est.
  - unfold Trackers.OnConnected, Trackers.TakeIf in Ho. destruct (active l); cbn in Ho; injection Ho as E1 E2.
    + left. rewrite E1. apply orb_true_r.
    + by right.
  - injection Ho as -> ->. rewrite orb_false_r. apply Hdue; [done|]. apply not_elem_of_cons. done.
Qed.

Lemma opens_ok l : link_ok l -> exists l', link_step top Opens l = Some l' /\ link_ok l'.
Proof.
  intros Hok. pose proof Hok as [Hinv Hdue]. cbn [link_step]. destruct (active l) eqn:Ea; [by exists l|].
  destruct (to_browser_ok Shown (with_active true l) Hinv) as (s & calls & -> & Hs & Ho).
  eexists. split; [reflexivity|]. split; [done|]. cbn in *. intros Hc Hp. left.
  unfold Trackers.OnShown, Trackers.TakeIf, IsConnected in Ho. cbn in Ho. rewrite (bool_decide_eq_true_2 _ Hc) in Ho.
  destruct (Hdue Hc Hp) as [->|[Hl _]]; [done|]. rewrite Hl in Ho. injection Ho as E1 _. rewrite E1. apply orb_true_r.
Qed.

Lemma client_ok snap l : link_ok l -> link_ok (client_sets snap l).
Proof.
  intros [Hinv Hdue]. split; [done|]. unfold client_sets; cbn. intros Hc Hp. rewrite Hc in *.
  destruct (bool_decide (kConnected = state (client l))) eqn:E; cbn in *.
  - apply bool_decide_eq_true in E. by apply Hdue.
  - exfalso. apply Hp, elem_of_app. right. by apply list_elem_of_singleton.
Qed.

Lemma link_step_ok ev l : link_ok l -> exists l', link_step top ev l = Some l' /\ link_ok l'.
Proof.
  intros Hl. destruct ev as [snap| | | |i].
  - eexists. split; [reflexivity|]. by apply client_ok.
  - by apply link_deliver_ok.
  - by apply opens_ok.
  - eexists. split; [reflexivity|]. destruct Hl as [Hinv Hdue]. split; [done|]. cbn. intros Hc Hp.
    destruct (Hdue Hc Hp) as [->|[? _]]; auto.
  - destruct i as [[]| | |]; cbn [link_step]; try (by exists l); by apply other_ok.
Qed.

Lemma link_run_ok evs : forall l, link_ok l -> exists l', link_run top evs l = Some l' /\ link_ok l'.
Proof.
  induction evs as [|ev evs IH]; intros l Hl; [by exists l|]. cbn [link_run].
  destruct (link_step_ok ev l Hl) as (l1 & -> & H1). by apply IH.
Qed.

(** A screen that is shown beside a connected client has asked for its list on this connection. *)
Lemma shown_has_loaded snap evs : exists l, (l0 ← link_start top snap; link_run top evs l0) = Some l /\
  (active l = true -> state (client l) = kConnected -> posted l = [] -> loaded l = true).
Proof.
  unfold link_start. destruct (create_ok {| snapshot := snap; shown := false; list_top := top |}) as (s & -> & Hs & Hl).
  cbn. edestruct link_run_ok as (l & El & Hok); [|exists l; split; [exact El|]].
  - split; [by eexists|]. cbn. auto.
  - intros Ha Hc Hp. destruct Hok as [_ Hdue]. rewrite Hp in Hdue. destruct (Hdue Hc (not_elem_of_nil _)) as [|[_ ?]]; congruence.
Qed.

(** At most one of the hint and the levels shows; after a connection change exactly one, the
    hint when the client is not connected. *)
Lemma one_view_shown c inputs : exists s calls, opened c inputs = Some (s, calls) /\ (showing (views s) <= 1)%nat /\
  forall c' st, exists s' more, step c' (Bus (KodiConnectionStateChangedEvent st)) s = Some (s', more) /\
    showing (views s') = 1%nat /\ hint_visible s' = negb (IsConnected c').
Proof.
  destruct (opened_ok c inputs) as (s & calls & E & Hi). exists s, calls. split; [done|]. split; [by eapply inv_views|].
  intros c' st. destruct (step_ok _ c' (Bus (KodiConnectionStateChangedEvent st)) s Hi) as (s' & more & E' & _ & H1 & H2 & _).
  by exists s', more.
Qed.
End LinkLaws.

(** ** Theorems about the screens *)

(** From its creation on, whatever the screen is sent: no callback is missing, at most one of the
    hint and the levels shows, and a connection change leaves exactly one, the hint if the
    client is not connected. *)
Definition one_view (Sc T : Type) `{!BrowseScreen Sc T} : Prop :=
  forall c inputs, exists s calls, opened c inputs = Some (s, calls) /\ (showing (views s) <= 1)%nat /\
    forall c' st, exists s' more, step c' (Bus (KodiConnectionStateChangedEvent st)) s = Some (s', more) /\
      showing (views s') = 1%nat /\ hint_visible s' = negb (IsConnected c').

(** However the client's updates, the delivery of its events and the user's actions interleave:
    a screen that is shown beside a connected client, with every event delivered, has asked for
    its list since the client connected. *)
Definition loads_when_shown (Sc T : Type) `{!BrowseScreen Sc T} : Prop :=
  forall top snap evs, exists l, (l0 ← link_start top snap; link_run top evs l0) = Some l /\
    (active l = true -> state (client l) = kConnected -> posted l = [] -> loaded l = true).

Import (hints) Movies TvShows Music Files LiveTv MoviesOk TvShowsOk MusicOk FilesOk LiveTvOk.

Section Theorems.
Context `{LvDisplay} `{LvSymbols}.

(** The Kodi browse screens never miss a callback and show one view at a time: from its
    creation on, whatever events, scrolls and taps it is sent, each of the five screens runs
    every handler to its end and shows at most one of its hint and its levels; and after a
    connection change it shows exactly one, the hint if and only if the client is not connected. *)
Theorem browse_screens_show_one_view :
  one_view Movies.Screen Movies.Taps /\ one_view TvShows.Screen TvShows.Taps /\ one_view Music.Screen Music.Taps /\
  one_view Files.Screen Files.Taps /\ one_view LiveTv.Screen LiveTv.Taps.
Proof. split_and!; intros c inputs; apply one_view_shown. Qed.

(** C26: A browse screen never stays without its list: however the client's updates, the delivery
    of its events and the user's actions interleave, when one of the five screens is shown
    beside a connected client and every posted event was delivered, it has asked for its list
    since the client last became connected. *)
Theorem browse_screens_load_when_shown :
  loads_when_shown Movies.Screen Movies.Taps /\ loads_when_shown TvShows.Screen TvShows.Taps /\
  loads_when_shown Music.Screen Music.Taps /\ loads_when_shown Files.Screen Files.Taps /\
  loads_when_shown LiveTv.Screen LiveTv.Taps.
Proof. split_and!; intros top snap evs; apply shown_has_loaded. Qed.

Lemma opened_inv `{BrowseLaws Sc T} c inputs s calls : opened c inputs = Some (s, calls) -> inv (heard inputs) s.
Proof. intros E. destruct (opened_ok c inputs) as (s' & calls' & E' & Hi). rewrite E in E'. by simplify_eq. Qed.

Lemma listed_elem {T} (reply : list T -> bool -> KodiEvent) h l x : listed reply h l -> x ∈ l -> exists t, reply l t ∈ h.
Proof. intros [->|[t Ht]] Hx; [by apply not_elem_of_nil in Hx|by exists t]. Qed.

(** A visible row of a list that is a reply: its item, and what a tap on it selects. *)
Lemma visible_row {T} (label : T -> string) reply h (b : RowList T) slot row : rows_ok label b -> listed reply h (vec b) ->
  VirtualList.pool_ (rows b) !! slot = Some row -> VirtualList.hidden row = false ->
  exists x t, reply (vec b) t ∈ h /\ x ∈ vec b /\ VirtualList.text row = label x /\ tapped slot b = Some x.
Proof.
  intros Hr Hl Es Eh. destruct (tapped_total label _ _ _ Hr Es Eh) as [x Hx].
  destruct (tapped_ok label _ _ _ Hr Hx) as (Hin & row' & Es' & _ & Ht). destruct (listed_elem _ _ _ _ Hl Hin) as [t Hh].
  exists x, t. split_and!; congruence.
Qed.

(** The open episode is one Kodi listed for the selected season of the selected show, the
    headings name them, and Play and Resume open that episode. *)
Theorem open_episode_is_the_one_played c inputs (s : TvShows.Screen) calls
    (E : opened (T := TvShows.Taps) c inputs = Some (s, calls)) (Hopen : TvShows.detail_hidden s = false) :
  exists shows t1 show seasons t2 season episodes t3 e,
    KodiTvShowsFetchedEvent shows t1 ∈ heard inputs /\ show ∈ shows /\
    KodiSeasonsFetchedEvent (tvshowid show) seasons t2 ∈ heard inputs /\ season ∈ seasons /\
    KodiEpisodesFetchedEvent (tvshowid show) (season_number season) episodes t3 ∈ heard inputs /\ e ∈ episodes /\
    TvShows.seasons_title_label_ s = show_title_ show /\
    TvShows.episodes_title_label_ s = TvShows.SeasonHeading (show_title_ show) (season_number season) /\
    TvShows.episode_title_label_ s = episode_title e /\
    forall c', shown c' = true ->
      step c' (Tap TvShows.TapPlay) s =
        Some (s, [CallOpenLibraryItem "episodeid" (episodeid e) false; CallGoTo kKodiNowPlaying]) /\
      step c' (Tap TvShows.TapResume) s =
        Some (s, if 0 <? episode_resume_ms e
                 then [CallOpenLibraryItem "episodeid" (episodeid e) true; CallGoTo kKodiNowPlaying] else []).
Proof.
  destruct (opened_inv _ _ _ _ E) as [_ _ _ _ _ _ Hs He Hd]. rewrite Hopen, !andb_false_r in *.
  destruct (Hs eq_refl) as (Ht1 & shows & t1 & show & Hh1 & Hin1 & Eid & Etitle).
  destruct (He eq_refl) as (Ht2 & (seasons & t2 & season & Hh2 & Hin2 & Eseason) & _).
  destruct (Hd eq_refl) as (episodes & t3 & e & Hh3 & Hin3 & Eep & Ht3 & Eres).
  exists shows, t1, show, seasons, t2, season, episodes, t3, e. rewrite <- Eid, <- Eseason, <- Etitle, <- Eep.
  split_and!; try done. intros c' Hc. cbn [step on_tap TvShows.tv_shows_screen]. rewrite Hc.
  unfold TvShows.handle_tap, TvShows.OnPlayClicked. rewrite Hopen, Eres. cbn. by destruct (0 <? episode_resume_ms e).
Qed.

(** A visible row of the files screen is an item of the folder on top of the stack; a tap on a
    folder opens it, a tap on a file plays it. *)
Theorem tapped_file_is_the_one_shown c inputs (s : Files.Screen) calls c' slot row
    (E : opened (T := Files.Taps) c inputs = Some (s, calls)) (Hopen : Files.content_hidden s = false)
    (Hc : shown c' = true) (Hrow : VirtualList.pool_ (rows (Files.list_ s)) !! slot = Some row)
    (Hvis : VirtualList.hidden row = false) :
  exists x items t, KodiFilesFetchedEvent (match last (Files.path_stack_ s) with Some (path, _) => path | None => EmptyString end)
      items t ∈ heard inputs /\ x ∈ items /\ VirtualList.text row = Files.file_label x /\
    exists s' requests, step c' (Tap (Files.TapItem slot)) s = Some (s', requests) /\
    if is_folder x then
      requests = [CallLibrary (RequestDirectory (file_path x))] /\ vec (Files.list_ s') = [] /\
      Files.path_stack_ s' = Files.path_stack_ s ++ [(file_path x, KodiJson.file_label x)] /\
      Files.requested_path_ s' = file_path x /\ Files.heading_label_ s' = KodiJson.file_label x /\ Files.back_hidden s' = false
    else s' = s /\ requests = [CallPlayFile (file_path x); CallGoTo kKodiNowPlaying].
Proof.
  pose proof (opened_inv _ _ _ _ E) as [Hr _ Hl Hg].
  destruct (visible_row _ _ _ _ _ _ Hr Hl Hrow Hvis) as (x & t & Hh & Hin & Htext & Ht).
  exists x, (vec (Files.list_ s)), t. split_and!; [|done|done|].
  { destruct (last (Files.path_stack_ s)) as [[path heading]|]; destruct Hg as [<- _]; done. }
  cbn [step on_tap Files.files_screen Files.handle_tap]. rewrite Hc, Hopen, Ht. unfold Files.Enter.
  destruct (is_folder x); [|by eexists _, _].
  unfold Files.RequestCurrentLevel, Files.level_request. cbn [Files.path_stack_ Files.with_stack]. rewrite last_snoc.
  cbn [Files.list_ Files.content_hidden Files.with_stack]. destruct (clear_rows_ok Files.file_label c' (Files.content_hidden s) _ Hr)
    as (l & -> & Hv & _). by eexists _, _.
Qed.

(** A visible row of the channels is a channel Kodi listed for the group in the heading, and a
    tap on it opens that channel. *)
Theorem tapped_channel_is_the_one_played c inputs (s : LiveTv.Screen) calls c' slot row
    (E : opened (T := LiveTv.Taps) c inputs = Some (s, calls)) (Hopen : LiveTv.channels_hidden s = false)
    (Hc : shown c' = true) (Hrow : VirtualList.pool_ (rows (LiveTv.channels_list_ s)) !! slot = Some row)
    (Hvis : VirtualList.hidden row = false) :
  exists groups t1 g channels t2 x,
    KodiChannelGroupsFetchedEvent groups t1 ∈ heard inputs /\ g ∈ groups /\ LiveTv.channels_title_label_ s = group_label g /\
    KodiChannelsFetchedEvent (channelgroupid g) channels t2 ∈ heard inputs /\ x ∈ channels /\
    VirtualList.text row = channel_label x /\
    step c' (Tap (LiveTv.TapChannel slot)) s =
      Some (s, [CallOpenLibraryItem "channelid" (channelid x) false; CallGoTo kKodiNowPlaying]).
Proof.
  destruct (opened_inv _ _ _ _ E) as [_ Hr _ _ Hl Hg].
  destruct (visible_row _ _ _ _ _ _ Hr Hl Hrow Hvis) as (x & t2 & Hh & Hin & Htext & Ht).
  destruct (Hg Hopen) as (groups & t1 & g & Hh1 & Hin1 & Eid & Etitle). rewrite Eid in Hh.
  exists groups, t1, g, (vec (LiveTv.channels_list_ s)), t2, x. split_and!; try done.
  cbn [step on_tap LiveTv.live_tv_screen LiveTv.handle_tap]. by rewrite Hc, Hopen, Ht.
Qed.
(** C40: The music screen takes any reply's songs, whatever album they are of: however it has been
    used, whatever album was opened and asked for last, a reply replaces the songs of the list
    and nothing else, the same for every album it names; while the songs show, every visible
    row is then a song of that reply, and a tap on it plays that song. *)
Theorem songs_of_another_album_are_shown c inputs (s : Music.Screen) calls c' album songs truncated
    (E : opened (T := Music.Taps) c inputs = Some (s, calls)) :
  (forall album', step (T := Music.Taps) c' (Bus (KodiSongsFetchedEvent album songs truncated)) s =
                  step c' (Bus (KodiSongsFetchedEvent album' songs truncated)) s) /\
  exists list, step (T := Music.Taps) c' (Bus (KodiSongsFetchedEvent album songs truncated)) s = Some (Music.with_songs list s, []) /\
    vec list = songs /\
    forall c'' slot row, Music.songs_hidden s = false -> shown c'' = true ->
      VirtualList.pool_ (rows list) !! slot = Some row -> VirtualList.hidden row = false ->
      exists x, x ∈ songs /\ VirtualList.text row = Music.song_label x /\
        step c'' (Tap (Music.TapSong slot)) (Music.with_songs list s) =
          Some (Music.with_songs list s, [CallOpenLibraryItem "songid" (songid x) false; CallGoTo kKodiNowPlaying]).
Proof.
  split; [done|]. destruct (opened_inv _ _ _ _ E) as [_ _ Hr _ _ _ _ _].
  destruct (set_rows_ok Music.song_label c' (Music.songs_hidden s) songs truncated _ Hr) as (list & El & Hv & Hr').
  exists list. split_and!; [|done|].
  - cbn [step on_bus Music.music_screen Music.handle_bus]. unfold Music.RebuildSongList. by rewrite El.
  - intros c'' slot row Hopen Hc Hrow Hvis. destruct (tapped_total _ _ _ _ Hr' Hrow Hvis) as [x Hx].
    destruct (tapped_ok _ _ _ _ Hr' Hx) as (Hin & row' & Erow & _ & Ht). rewrite Hrow in Erow. injection Erow as <-.
    exists x. split_and!; [by rewrite <- Hv|done|]. cbn [step on_tap Music.music_screen Music.handle_tap].
    rewrite Hc. change (Music.songs_hidden (Music.with_songs list s)) with (Music.songs_hidden s).
    change (Music.songs_list_ (Music.with_songs list s)) with list. by rewrite Hopen, Hx.
Qed.
End Theorems.

(** ** Runs *)

(** A display 720 lines high, its symbols, and a context in which the client is connected. *)
Module Runs.
Definition display : LvDisplay := {| lv_vertical_resolution := 720; lv_resolution_positive := eq_refl |}.
#[local] Existing Instance display.

Definition connected : Ctx := {|
  snapshot := {| state := kConnected; resolved_host := EmptyString; target_configured := true; selected_uuid := EmptyString;
                 discovered := []; app_version := EmptyString; volume := 0; muted := false; now_playing := nothing_playing;
                 library_busy := false |};
  shown := true; list_top := 100 |}.

Definition to_one_episode : list (Ctx * Input TvShows.Taps) := map (pair connected)
  [Shown; Bus (KodiTvShowsFetchedEvent [{| tvshowid := 3; show_title_ := "Show"; show_year := 0; show_episodes := 1; show_watched := 0 |}] false);
   Tap (TvShows.TapShow 0);
   Bus (KodiSeasonsFetchedEvent 3 [{| season_number := 2; season_label := "Season 2"; season_episodes := 1; season_watched := 0 |}] false); Tap (TvShows.TapSeason 0);
   Bus (KodiEpisodesFetchedEvent 3 2
          [{| episodeid := 9; episode_number := 1; episode_title := "Pilot"; episode_resume_ms := 5000 |}] false);
   Tap (TvShows.TapEpisode 0)].

Lemma open_episode_is_the_one_played_witness : exists s calls e,
  opened connected to_one_episode = Some (s, calls) /\ TvShows.detail_hidden s = false /\
  TvShows.episode_title_label_ s = episode_title e /\
  step connected (Tap TvShows.TapPlay) s =
    Some (s, [CallOpenLibraryItem "episodeid" (episodeid e) false; CallGoTo kKodiNowPlaying]).
Proof.
  assert (option_map (fun r => TvShows.detail_hidden r.1) (opened connected to_one_episode) = Some false) as Hd
    by (vm_compute; reflexivity).
  destruct (opened connected to_one_episode) as [[s calls]|] eqn:E; [|discriminate]. injection Hd as Hd.
  destruct (open_episode_is_the_one_played connected to_one_episode s calls E Hd)
    as (? & ? & ? & ? & ? & ? & ? & ? & e & _ & _ & _ & _ & _ & _ & _ & _ & Ht & Hp).
  exists s, calls, e. split; [reflexivity|]. split; [exact Hd|]. split; [exact Ht|]. apply (Hp connected eq_refl).
Defined.

Definition to_one_folder : list (Ctx * Input Files.Taps) := map (pair connected)
  [Shown; Bus (KodiFilesFetchedEvent EmptyString
                 [{| file_path := "/media/"; KodiJson.file_label := "media"; is_folder := true |}] false)].

#[local] Existing Instance plain_symbols.

(** The first row of a list, when it shows. *)
Definition first_row {T} (hidden : bool) (b : RowList T) : option VirtualList.Slot :=
  row ← VirtualList.pool_ (rows b) !! 0%nat; if hidden || VirtualList.hidden row then None else Some row.

Lemma first_row_visible {T} hidden (b : RowList T) row : first_row hidden b = Some row ->
  hidden = false /\ VirtualList.pool_ (rows b) !! 0%nat = Some row /\ VirtualList.hidden row = false.
Proof. unfold first_row. destruct (_ !! _) as [r|]; [|done]. cbn. destruct hidden; [done|]. destruct (VirtualList.hidden r) eqn:E; [done|]. by intros [= <-]. Qed.

Lemma tapped_file_is_the_one_shown_witness : exists s calls row x,
  opened connected to_one_folder = Some (s, calls) /\ first_row (Files.content_hidden s) (Files.list_ s) = Some row /\
  VirtualList.text row = Files.file_label x /\
  exists s' requests, step connected (Tap (Files.TapItem 0)) s = Some (s', requests).
Proof.
  assert (match opened connected to_one_folder with
          | Some (s, _) => bool_decide (is_Some (first_row (Files.content_hidden s) (Files.list_ s)))
          | None => false end = true) as Hd by (vm_compute; reflexivity).
  destruct (opened connected to_one_folder) as [[s calls]|] eqn:E; [|discriminate].
  apply bool_decide_eq_true in Hd as [row Hrow]. pose proof (first_row_visible _ _ _ Hrow) as (Hopen & Hslot & Hvis).
  destruct (tapped_file_is_the_one_shown connected to_one_folder s calls connected 0%nat row E Hopen eq_refl Hslot Hvis)
    as (x & items & t & _ & _ & Ht & s' & requests & Hstep & _).
  exists s, calls, row, x. split; [reflexivity|]. split; [exact Hrow|]. split; [exact Ht|]. by exists s', requests.
Defined.

Definition to_one_group : list (Ctx * Input LiveTv.Taps) := map (pair connected)
  [Shown; Bus (KodiChannelGroupsFetchedEvent [{| channelgroupid := 4; group_label := "All channels" |}] false);
   Tap (LiveTv.TapGroup 0);
   Bus (KodiChannelsFetchedEvent 4 [{| channelid := 21; channel_label := "One" |}; {| channelid := 22; channel_label := "Two" |}] false)].

Lemma tapped_channel_is_the_one_played_witness : exists s calls row x,
  opened connected to_one_group = Some (s, calls) /\ first_row (LiveTv.channels_hidden s) (LiveTv.channels_list_ s) = Some row /\
  VirtualList.text row = channel_label x /\
  step connected (Tap (LiveTv.TapChannel 0)) s =
    Some (s, [CallOpenLibraryItem "channelid" (channelid x) false; CallGoTo kKodiNowPlaying]).
Proof.
  assert (match opened connected to_one_group with
          | Some (s, _) => bool_decide (is_Some (first_row (LiveTv.channels_hidden s) (LiveTv.channels_list_ s)))
          | None => false end = true) as Hd by (vm_compute; reflexivity).
  destruct (opened connected to_one_group) as [[s calls]|] eqn:E; [|discriminate].
  apply bool_decide_eq_true in Hd as [row Hrow]. pose proof (first_row_visible _ _ _ Hrow) as (Hopen & Hslot & Hvis).
  destruct (tapped_channel_is_the_one_played connected to_one_group s calls connected 0%nat row E Hopen eq_refl Hslot Hvis)
    as (? & ? & ? & ? & ? & x & _ & _ & _ & _ & _ & Ht & Hstep).
  exists s, calls, row, x. split; [reflexivity|]. split; [exact Hrow|]. split; [exact Ht|]. exact Hstep.
Defined.

(** An album is opened, left, and another one opened before the songs of the first arrive. *)
Definition to_another_album : list (Ctx * Input Music.Taps) := map (pair connected)
  [Shown; Bus (KodiArtistsFetchedEvent [{| artistid := 7; artist_name := "Artist" |}] false); Tap (Music.TapArtist 0);
   Bus (KodiAlbumsFetchedEvent 7 [{| albumid := 1; album_title := "One"; album_year := 0 |};
                                  {| albumid := 2; album_title := "Two"; album_year := 0 |}] false);
   Tap (Music.TapAlbum 0); Tap Music.TapSongsBack; Tap (Music.TapAlbum 1)].

Definition late_song : KodiSong := {| songid := 11; song_title := "Song"; song_track := 1; song_seconds := 60 |}.

(** The last request is for the songs of album 2, and those of album 1 are put in the list. *)
Lemma songs_of_another_album_are_shown_witness : exists s calls list,
  opened connected to_another_album = Some (s, calls) /\ last calls = Some (CallLibrary (RequestSongs 2)) /\
  step connected (Bus (KodiSongsFetchedEvent 1 [late_song] false)) s = Some (Music.with_songs list s, []) /\
  vec list = [late_song].
Proof.
  assert (option_map (fun r => last r.2) (opened connected to_another_album) = Some (Some (CallLibrary (RequestSongs 2)))) as Hr
    by (vm_compute; reflexivity).
  destruct (opened connected to_another_album) as [[s calls]|] eqn:E; [|discriminate]. injection Hr as Hl.
  destruct (songs_of_another_album_are_shown connected to_another_album s calls connected 1 [late_song] false E)
    as (_ & list & Hstep & Hv & _).
  exists s, calls, list. split_and!; [done|exact Hl|exact Hstep|exact Hv].
Defined.
End Runs.
